(* ===== verification/_CoqProject ===== *)
-Q . S2P
Prelude.v
Libc.v
Posix.v
RaftTypes.v
PacketFormat.v
Spinlock.v
TimedLock.v
RaftStorage.v
StorageSpec.v
RaftUtils.v
RaftFollower.v
RaftLeader.v
RaftCandidate.v
Raft.v
SnapshotInstall.v
SnapshotTransfer.v
Server.v
RaftView.v
RaftLog.v
StateMachine.v
ServerSpec.v
LockService.v
ServerRpc.v
ServerRpcSpec.v
Udp.v
ClientRpc.v
ClientRpcSpec.v
TestClients.v
TestClientsSpec.v
ClientSession.v
ElectionSpec.v
LogSpec.v
RaftRefine.v
LogRefine.v
Replication.v
Cluster.v
LogMatching.v
CommitSpec.v
CommitStep.v
CommitRefine.v
CommitSafety.v
FileFrames.v
FileSafety.v
Scenarios.v
LogInstances.v
CommitInstances.v
Instances.v
ServerInstances.v
SessionInstances.v
SnapshotInstances.v
ReplicationInstances.v
