(* ===== verification/Prelude.v ===== *)
(** A verification of the Raft lock manager: a replicated server that hands out
    one timed lock and appends to files on behalf of its holder, and the client
    library that talks to it.

    * The program and its model

    A server process ([server.c], [main]) runs a thread per client datagram
    ([server_rpc.c]), a thread that listens to the other servers ([raft.c]), an
    election thread ([raft_candidate.c]), a leader thread per follower
    ([raft_leader.c]) and the thread of the lock's timer ([timer.c]).  The
    threads share a [raft_state_t] guarded by one spin lock ([spinlock.c]), a
    table of clients and the timed lock ([tmdspinlock.c]).  A client calls
    [client_rpc.c], which repeats a datagram until an acceptable answer comes.

    - [Prelude]: faults, the state and fault monad [M], postconditions [post],
      record updates, machine integers, arrays, counting.  A C execution that
      leaves the defined behaviour (null dereference, array bound, overflow of
      an [int] or a character buffer), fails an [assert], exits, or waits for a
      lock that nobody will release, is a [Fault].
    - [Libc], [Posix]: C strings in [char] arrays, the bytes of an [int], and a
      file system of text files, dumped structs and directories.
    - [RaftTypes], [PacketFormat]: the structs and constants of [raft.h] and
      [packet_format.h]; [world] is one server: its [raft_state_t], its disk, the
      datagrams it sent and the threads it started.
    - [RaftStorage] ([raft_storage_manager.c]), [RaftUtils] ([raft_utils.c]),
      [RaftFollower], [RaftLeader], [RaftCandidate] (the files of these names),
      [Raft] ([raft.c]): a definition per function, with the name of the
      function.  A function that gives up the lock on the way is cut there: the
      leader and the election threads are state machines ([leader_pc],
      [election_pc]) whose steps are the stretches run under the lock.
    - [Spinlock], [TimedLock]: the locks, first as calls, then as threads that
      interleave between two accesses to the shared words.
    - [Server]: the handlers of [server.c], its commit handler and [main].
    - [ServerRpc]: the table of clients and the thread of a request, alone
      ([handle_packet]) and in steps that interleave ([req_step]).  The class
      [RpcHandlers] is what it asks of [server.c].
    - [ClientRpc]: [client_rpc.c], over the results of the reads to come.
    - [Udp]: [udp.c], over the answers of the socket calls.
    - [TestClients]: the programs of [test_clients/], as sequences of calls of
      [client_rpc.c].
    - [Cluster]: five servers and a network that delays, reorders, loses and
      duplicates datagrams, with crashes and restarts.

    The commit handler is an argument of the raft module (class [CommitHandler])
    that is told the directory of the server it runs on; [CommitHandlerOk] and
    [CommitHandlerAppends] are what the theorems ask of it, and [Server.v]
    proves them of [handle_raft_commit].

    * What is proved

    - [ElectionSpec]: an abstract election protocol and its invariant; one
      leader in a term.  [RaftView], [RaftRefine]: every handler and thread
      segment of the raft module is a step of it.  [Cluster]: so is every step of
      a cluster, hence [election_safety], [cluster_refines_election] and
      [vote_stable].
    - [LogSpec]: an abstract replication protocol on top of the election, whose
      invariant is a ghost map from each term to the log of its leader.
      [LogRefine]: every segment of the raft module that does not compact a log
      is a step of it, seen through entries without their count of replicas.
      [LogMatching]: hence the logs of a cluster match, the log of a leader only
      grows, and terms in a log never decrease, in runs in which no log is
      compacted and no snapshot installed ([uncompacted]).
    - [CommitSpec]: an abstract commit protocol on top of both - what each kind of
      step ([pstep]) may do to a commit index, the replica counts and the
      requests under way - with a ghost history of who accepted what in which
      term, and its invariant [cinv]; [safe] is what a majority has made
      permanent.  [CommitStep]: the protocol keeps the invariant.
      [CommitRefine]: every segment of the raft module is one of its steps.
      [CommitSafety]: hence servers never commit different entries
      ([committed_entries_agree]) and a leader has all that was committed before
      ([leader_completeness]), in the environment [timely]: no log is compacted,
      no append request of a past term is delivered, and a leader takes an entry
      when its heartbeats have been answered.  The last two keep out runs in
      which the program does otherwise ([stale_refusal_commits],
      [committed_entry_lost]).
    - [FileFrames]: a segment of the raft module changes the files a server shows
      by one call of [Raft_commit_update] at most.  [FileSafety]: with the commit
      protocol, hence, the files of a server are what its committed entries write,
      and those of two servers agree as far as both have committed
      ([replicated_files_agree]), in the environment [regular]: that of [timely],
      where also no snapshot is built and no late copy of an append request takes
      a commit index back - which the program would let happen
      ([append_repeated_applies_twice]).
    - [Replication]: replication goes forward.  A leader thread and a follower in
      turn ([exchange]) find the last entry their logs share and copy the rest,
      when the follower's committed entries are the leader's and no log is
      compacted.  The commit handler must return on the entries of both logs;
      [handle_raft_commit_total] says when that of [server.c] does.
    - [RaftLog]: the log under every operation: the shape invariant, what an
      append request stores, that it keeps committed entries and can be
      repeated, and what [Raft_is_entry_committed] answers.
    - [StateMachine]: the files of a server are its snapshot followed by its
      committed entries; commits, restarts and log compaction keep this.
    - [StorageSpec]: saving the state is atomic under crashes and can be read
      back; the snapshot iterator sends every byte of every file.
    - [SnapshotInstall]: a follower puts a snapshot together from any sequence of
      its packets ([receiving] is the invariant, [rebuilt] what the chunks make
      of a file).  [SnapshotTransfer]: leader thread and follower in turn
      ([transfer], a round per packet) bring the snapshot over, when each file
      fits a packet.
    - [TimedLock], [Spinlock]: mutual exclusion, no failed assertion, expiry of
      an idle holder, and that the interleaved threads run alone are the calls.
    - [ServerSpec]: what the answers of the three handlers mean ([verdict] is the
      answer of a release as a function of the committed entries), what a
      committed transaction writes, and when a write overruns its buffer.
    - [LockService]: the service a client sees, as an abstract machine (an owner
      and its pending writes), which the handlers, the timer and the raft threads
      refine, taken one call at a time; hence an entry of the log is one session
      of one client.  A write to the file with no name, which the handler accepts
      and loses, is a step of its own ([Nameless]).  That no other thread cuts
      into an append or a release is [tmdspinlock_pause_guarantee].
    - [ServerRpcSpec]: requests are handled at most once when they are checked in
      the order of their vtimes ([in_order]); with clients that wait for their
      answers ([client_reach], [waits]) one handler of a client runs at a time
      and duplicates are answered.  Without the order neither holds
      ([rpc_reordered_twice]).
    - [ClientRpcSpec]: requests return, with the first acceptable answer; servers
      are tried in turn; the token of the lock comes back in the release.
    - [TestClientsSpec]: each test client ends and sends the requests its text
      shows, [client_long_requests.c] those up to the first write that fails
      ([makes] composes programs, [answered] is what the network may do).
    - [ClientSession]: client, RPC layer and handlers together: the datagrams of
      a session, copies included, run the handlers once each and become one
      entry of the log ([client_session_logged]); with [client_normal.c] in front,
      from the program to the contents of the entry ([normal_client_logged]).
    - [Scenarios]: concrete runs, among them runs that reach states the program
      does not mean to reach.
    - [Instances], [LogInstances], [CommitInstances], [SnapshotInstances],
      [ReplicationInstances], [ServerInstances], [SessionInstances]: the theorems
      with hypotheses, applied to concrete states and runs.

    * Bounds and fuel

    Loops over an array or a range are recursions on the list of indices.  The
    loops that wait for other threads have no fuel: they are steps of a machine
    ([leader_pc], [election_pc], [req_pc], [tmd_pc]), or recursions on the list
    of what happens meanwhile ([send_loop] on the reads, [release_wait] on what
    the other threads do).  The fuel of [run_iterator] is proved to exist
    ([snapshot_iterator_complete]); that of [transfer] is 101, the number of
    files and the closing packet ([snapshot_transfer_complete]).  [exchanges]
    runs for any number of rounds; [next_index + count + 1] are enough
    ([replication_converges]).

    * Assumptions

    A [char] array is the list of its leading bytes, the rest being NUL.  A
    [fopen] for writing succeeds when the directory exists; [rename] is atomic;
    a [fread] of a file that was written in full reads it in full.  Memory is
    sequentially consistent between the accesses the models cut at.  A snapshot
    is built ([Raft_create_snapshot_build]) in one step, though the code builds
    it without the lock.  [transfer] runs the handlers of packets
    ([Raft_dispatch]) without the compaction test that follows them.  Log
    matching is stated for runs that compact no log: beyond them it does not
    hold, since committed entries can differ ([committed_entry_lost]).

    * Not modelled

    What the socket calls answer is an argument of the functions of [udp.c], and
    the models above use a socket as a number: the datagrams are those of
    [Cluster] and [read_result].  [print_transaction] and the other [printf]s are
    output only; the programs in [tests/] fork, signal, sleep and print. *)
From Stdlib Require Export ZArith Lia.
From stdpp Require Export base tactics gmap strings list pretty numbers.

#[global] Open Scope Z_scope.

(** * Faults *)

(** What a C execution does when it leaves the defined behaviour of the
    language, fails an [assert], calls [exit], or waits for a lock that nobody
    will release.  [Indeterminate] is a read of memory never written. *)
Inductive fault :=
  | NullDeref
  | OutOfBounds
  | IntOverflow
  | BufferOverflow
  | Unterminated
  | AssertFailed
  | ShortRead
  | Indeterminate
  | Exited
  | Killed
  | Blocked.

#[export] Instance fault_eq_dec : EqDecision fault.
Proof. solve_decision. Defined.

Inductive outcome (A : Type) :=
  | Ok (a : A)
  | Fault (f : fault).
Arguments Ok {A} a.
Arguments Fault {A} f.

#[export] Instance outcome_ret : MRet outcome := fun A a => Ok a.
#[export] Instance outcome_bind : MBind outcome :=
  fun A B k m => match m with Ok a => k a | Fault f => Fault f end.

Definition is_ok {A} (o : outcome A) : bool :=
  match o with Ok _ => true | Fault _ => false end.

(** * The state and fault monad *)

Definition M (S A : Type) : Type := S -> outcome (A * S).

#[export] Instance M_ret S : MRet (M S) := fun A a s => Ok (a, s).
#[export] Instance M_bind S : MBind (M S) :=
  fun A B k m s => match m s with Ok (a, s') => k a s' | Fault f => Fault f end.

Definition throw {S A} (f : fault) : M S A := fun _ => Fault f.
Definition gets {S A} (f : S -> A) : M S A := fun s => Ok (f s, s).
Definition modify {S} (f : S -> S) : M S unit := fun s => Ok (tt, f s).
Definition lift {S A} (o : outcome A) : M S A :=
  fun s => match o with Ok a => Ok (a, s) | Fault f => Fault f end.
Definition skip {S} : M S unit := fun s => Ok (tt, s).
Definition when {S} (b : bool) (m : M S unit) : M S unit := if b then m else skip.

(** [a || b] with C's short circuit: [b] runs only when [a] is false. *)
Definition orM {S} (a : bool) (b : M S bool) : M S bool :=
  if a then mret true else b.
Definition andM {S} (a : bool) (b : M S bool) : M S bool :=
  if a then b else mret false.

(** [for (i in l) body(i)]. *)
Fixpoint for_ {S A} (l : list A) (body : A -> M S unit) : M S unit :=
  match l with
  | [] => skip
  | x :: l' => body x;; for_ l' body
  end.

(** A loop whose body may [break]: it answers [true] to go on. *)
Fixpoint for_break {S A} (l : list A) (body : A -> M S bool) : M S unit :=
  match l with
  | [] => skip
  | x :: l' => b ← body x; if (b : bool) then for_break l' body else skip
  end.

(** Equations of the monad operations at a state. *)
Section run.
Context {S : Type}.
Implicit Types s : S.

Lemma run_bind {A B} (m : M S A) (k : A -> M S B) s :
  (m ≫= k) s = match m s with Ok (a, s') => k a s' | Fault f => Fault f end.
Proof. reflexivity. Qed.

Lemma run_ret {A} (a : A) s : (mret a : M S A) s = Ok (a, s).
Proof. reflexivity. Qed.

Lemma bind_ok {A B} (m : M S A) (k : A -> M S B) s r :
  (m ≫= k) s = Ok r <-> exists a s', m s = Ok (a, s') /\ k a s' = Ok r.
Proof.
  rewrite run_bind. destruct (m s) as [[a s']|f]; split.
  - intros H. by exists a, s'.
  - by intros (? & ? & [= -> ->] & ?).
  - done.
  - by intros (? & ? & ? & ?).
Qed.

Lemma for_app {A} (l1 l2 : list A) (body : A -> M S unit) s :
  for_ (l1 ++ l2) body s = (for_ l1 body;; for_ l2 body) s.
Proof.
  revert s; induction l1 as [|x l1 IH]; intros s; simpl; [reflexivity|].
  rewrite !run_bind. simpl. destruct (body x s) as [[[] s']|]; [|reflexivity].
  rewrite IH. reflexivity.
Qed.
End run.

(** * Postconditions *)

(** [post m Q E s]: run from [s], [m] returns a value and a state in [Q], or
    stops with a fault in [E].  With [E := fun _ => False] the triple is a
    total one ([m] returns); with [E := fun _ => True] it is partial. *)
Definition post {S A} (m : M S A) (Q : A -> S -> Prop) (E : fault -> Prop) (s : S) : Prop :=
  match m s with Ok (a, s') => Q a s' | Fault f => E f end.

Abbreviation total := (fun _ : fault => False).
Abbreviation partial := (fun _ : fault => True).

Section post_lemmas.
Context {S : Type}.
Implicit Types (s : S) (E : fault -> Prop).

Lemma post_ret {A} (a : A) Q E s : Q a s -> post (mret a : M S A) Q E s.
Proof. done. Qed.
Lemma post_skip Q E s : Q tt s -> post (skip (S:=S)) Q E s.
Proof. done. Qed.
Lemma post_throw {A} f (Q : A -> S -> Prop) E s : E f -> post (throw f) Q E s.
Proof. done. Qed.
Lemma post_gets {A} (f : S -> A) Q E s : Q (f s) s -> post (gets f) Q E s.
Proof. done. Qed.
Lemma post_modify f Q E s : Q tt (f s) -> post (modify (S:=S) f) Q E s.
Proof. done. Qed.
Lemma post_lift {A} (o : outcome A) Q E s :
  match o with Ok a => Q a s | Fault f => E f end -> post (lift o) Q E s.
Proof. unfold post, lift. by destruct o. Qed.

Lemma post_bind {A B} (m : M S A) (k : A -> M S B) Q E s :
  post m (fun a s' => post (k a) Q E s') E s -> post (m ≫= k) Q E s.
Proof. unfold post. rewrite run_bind. by destruct (m s) as [[]|]. Qed.

Lemma post_mono {A} (m : M S A) (Q Q' : A -> S -> Prop) E (E' : fault -> Prop) s :
  post m Q E s -> (forall a s', Q a s' -> Q' a s') -> (forall f, E f -> E' f) ->
  post m Q' E' s.
Proof. unfold post. destruct (m s) as [[]|]; auto. Qed.

Lemma post_when (b : bool) (m : M S unit) Q E s :
  (b = true -> post m Q E s) -> (b = false -> Q tt s) -> post (when b m) Q E s.
Proof. destruct b; cbn; auto. Qed.

Lemma post_if {A} (b : bool) (m1 m2 : M S A) Q E s :
  (b = true -> post m1 Q E s) -> (b = false -> post m2 Q E s) ->
  post (if b then m1 else m2) Q E s.
Proof. destruct b; auto. Qed.

Lemma post_orM a (b : M S bool) Q E s :
  (a = true -> Q true s) -> (a = false -> post b Q E s) -> post (orM a b) Q E s.
Proof. destruct a; cbn; auto. Qed.
Lemma post_andM a (b : M S bool) Q E s :
  (a = false -> Q false s) -> (a = true -> post b Q E s) -> post (andM a b) Q E s.
Proof. destruct a; cbn; auto. Qed.

(** The invariant rule of a loop over a list. *)
Lemma post_for {A} (l : list A) (body : A -> M S unit) (I : S -> Prop) E s :
  I s -> (forall x s', x ∈ l -> I s' -> post (body x) (fun _ => I) E s') ->
  post (for_ l body) (fun _ => I) E s.
Proof.
  revert s; induction l as [|x l IH]; intros s Hs Hb; simpl; [done|].
  apply post_bind. eapply post_mono; [apply Hb; [set_solver|done]| |done].
  intros [] s' Hs'. apply IH; [done|]. intros y s'' ??. apply Hb; [set_solver|done].
Qed.

(** A partial triple, read off a run that returned. *)
Lemma post_partial_ok {A} (m : M S A) (Q : A -> S -> Prop) s a s' :
  post m Q partial s -> m s = Ok (a, s') -> Q a s'.
Proof. unfold post. intros H E. by rewrite E in H. Qed.

(** A total triple says that the run returned. *)
Lemma post_total_ok {A} (m : M S A) (Q : A -> S -> Prop) s :
  post m Q total s -> exists a s', m s = Ok (a, s') /\ Q a s'.
Proof. unfold post. destruct (m s) as [[a s']|]; [|done]. eauto. Qed.

Lemma ok_post_partial {A} (m : M S A) (Q : A -> S -> Prop) s :
  (forall a s', m s = Ok (a, s') -> Q a s') -> post m Q partial s.
Proof. unfold post. destruct (m s) as [[a s']|]; auto. Qed.
End post_lemmas.

(** * Record update *)

(** [Eta R] gives the record [R] rebuilt from its fields; [Upd p] is the
    update of the field [p], derived from it. *)
Class Eta (R : Type) := eta : R -> R.
Class Upd {R A : Type} (p : R -> A) := upd : (A -> A) -> R -> R.
Arguments upd {R A} p {_} _ _.
#[global] Typeclasses Opaque Eta Upd.
#[global] Hint Mode Upd - - ! : typeclass_instances.

Ltac derive_upd p :=
  match type of p with
  | ?R -> ?A =>
      let inst := constr:(_ : Eta R) in
      let e := eval hnf in (@eta R inst) in
      match eval pattern p in e with
      | ?F p => let u := eval cbv beta in (fun f : A -> A => F (fun r : R => f (p r))) in
                exact u
      end
  end.
#[global] Hint Extern 0 (Upd ?p) => (derive_upd p) : typeclass_instances.

Declare Scope record_scope.
Delimit Scope record_scope with rec.
#[global] Open Scope record_scope.
Notation "r <| p := v |>" := (upd p (fun _ => v) r)
  (at level 1, left associativity, p at level 0) : record_scope.
Notation "r <| p ::= f |>" := (upd p f r)
  (at level 1, left associativity, p at level 0) : record_scope.

(** * Machine integers *)

(** C's [int] is a [Z] in the 32-bit range; an operation whose result leaves
    the range is undefined behaviour ([IntOverflow]). *)
Definition INT_MIN : Z := -2147483648.
Definition INT_MAX : Z := 2147483647.
Definition int_ok (z : Z) : bool := (INT_MIN <=? z) && (z <=? INT_MAX).

Definition int_of {S} (z : Z) : M S Z := if int_ok z then mret z else throw IntOverflow.

(** An [atomic_int] increment wraps around instead. *)
Definition int_wrap (z : Z) : Z := (z + 2147483648) mod 4294967296 - 2147483648.

Lemma int_ok_spec z : int_ok z = true <-> INT_MIN <= z <= INT_MAX.
Proof. unfold int_ok. lia. Qed.

Lemma int_wrap_id z : int_ok z = true -> int_wrap z = z.
Proof.
  rewrite int_ok_spec. unfold INT_MIN, INT_MAX, int_wrap. intros H.
  rewrite Z.mod_small; lia.
Qed.

Lemma int_wrap_range z : int_ok (int_wrap z) = true.
Proof.
  rewrite int_ok_spec. unfold INT_MIN, INT_MAX, int_wrap.
  pose proof (Z.mod_pos_bound (z + 2147483648) 4294967296 ltac:(lia)). lia.
Qed.

Lemma post_int_of {S} z (Q : Z -> S -> Prop) (E : fault -> Prop) s :
  (int_ok z = true -> Q z s) -> (int_ok z = false -> E IntOverflow) -> post (int_of z) Q E s.
Proof. unfold int_of. destruct (int_ok z); intros H1 H2; [by apply H1|by apply H2]. Qed.

Lemma run_int_of {S} z (s : S) : int_ok z = true -> int_of z s = Ok (z, s).
Proof. unfold int_of. by intros ->. Qed.

Lemma int_of_ok {S} z (s : S) z' s' : int_of z s = Ok (z', s') -> z' = z /\ s' = s /\ int_ok z = true.
Proof. unfold int_of. destruct (int_ok z); [|done]. by intros [= <- <-]. Qed.

(** * Arrays *)

(** [a[i]] and [a[i] = x] of a C array of [length a] cells. *)
Section arrays.
Context {A : Type}.
Implicit Types (a : list A) (i : Z) (x : A).

Definition in_bounds a i : bool := (0 <=? i) && (i <? Z.of_nat (length a)).
Definition arr_get a i : outcome A :=
  if 0 <=? i then match a !! Z.to_nat i with Some x => Ok x | None => Fault OutOfBounds end
  else Fault OutOfBounds.
Definition arr_set a i x : outcome (list A) :=
  if in_bounds a i then Ok (<[Z.to_nat i := x]> a) else Fault OutOfBounds.

Lemma in_bounds_spec a i : in_bounds a i = true <-> 0 <= i < Z.of_nat (length a).
Proof. unfold in_bounds. lia. Qed.

Lemma arr_get_ok a i x : arr_get a i = Ok x <-> 0 <= i /\ a !! Z.to_nat i = Some x.
Proof.
  unfold arr_get. destruct (0 <=? i) eqn:Hi.
  - destruct (a !! Z.to_nat i) eqn:E; split; intros H.
    + injection H as ->. split; [lia|done].
    + destruct H as [_ [= ->]]. done.
    + done.
    + by destruct H.
  - split; [done|]. intros [? _]. lia.
Qed.

Lemma arr_get_in_bounds a i : in_bounds a i = true -> exists x, arr_get a i = Ok x.
Proof.
  rewrite in_bounds_spec. intros Hi.
  destruct (lookup_lt_is_Some_2 a (Z.to_nat i)) as [x Hx]; [lia|].
  exists x. apply arr_get_ok. split; [lia|done].
Qed.

Lemma arr_get_bounds a i x : arr_get a i = Ok x -> 0 <= i < Z.of_nat (length a).
Proof. rewrite arr_get_ok. intros [? H%lookup_lt_Some]. lia. Qed.

Lemma arr_set_ok a i x b :
  arr_set a i x = Ok b <-> in_bounds a i = true /\ b = <[Z.to_nat i := x]> a.
Proof.
  unfold arr_set. destruct (in_bounds a i); split; intros H; try done.
  - by injection H as <-.
  - by destruct H as [_ ->].
  - by destruct H.
Qed.

Lemma arr_get_set_eq a i x b : arr_set a i x = Ok b -> arr_get b i = Ok x.
Proof.
  rewrite arr_set_ok, in_bounds_spec. intros [Hi ->]. apply arr_get_ok.
  split; [lia|]. apply list_lookup_insert_eq. lia.
Qed.

Lemma arr_get_set_ne a i j x b : arr_set a i x = Ok b -> i <> j -> arr_get b j = arr_get a j.
Proof.
  rewrite arr_set_ok, in_bounds_spec. intros [Hi ->] Hne. unfold arr_get.
  destruct (0 <=? j) eqn:Hj; [|done]. rewrite list_lookup_insert_ne by lia. done.
Qed.

Lemma arr_set_length a i x b : arr_set a i x = Ok b -> length b = length a.
Proof. rewrite arr_set_ok. intros [_ ->]. apply length_insert. Qed.
End arrays.

(** * Counting *)

(** How many elements of a list satisfy a test. *)
Definition count {A} (f : A -> bool) (l : list A) : Z := Z.of_nat (length (List.filter f l)).
#[global] Arguments count : simpl never.

Section count.
Context {A : Type}.
Implicit Types (f : A -> bool) (l : list A).

Lemma count_cons f x l : count f (x :: l) = Z.b2z (f x) + count f l.
Proof. unfold count. cbn. destruct (f x); cbn; lia. Qed.

Lemma count_app f l1 l2 : count f (l1 ++ l2) = count f l1 + count f l2.
Proof. unfold count. rewrite List.filter_app, length_app. lia. Qed.

Lemma count_nonneg f l : 0 <= count f l.
Proof. unfold count. lia. Qed.

Lemma count_le f l : count f l <= Z.of_nat (length l).
Proof. induction l as [|x l IH]; [done|]. rewrite count_cons. cbn [length]. destruct (f x); cbn; lia. Qed.

Lemma count_insert f l i x y :
  l !! i = Some x -> count f (<[i := y]> l) = count f l - Z.b2z (f x) + Z.b2z (f y).
Proof.
  revert i; induction l as [|z l IH]; intros [|i] H; [done..| |].
  - injection H as ->. change (<[0%nat := y]> (x :: l)) with (y :: l). rewrite !count_cons. lia.
  - change (<[S i := y]> (z :: l)) with (z :: <[i := y]> l).
    rewrite !count_cons, (IH i H). lia.
Qed.

Lemma count_replicate f n x : f x = false -> count f (replicate n x) = 0.
Proof. intros H. induction n as [|n IH]; [done|]. cbn. by rewrite count_cons, H, IH. Qed.

Lemma count_pos f l i x : l !! i = Some x -> f x = true -> 1 <= count f l.
Proof.
  intros H Hf. revert i H. induction l as [|z l IH]; intros [|i] H; [done..| |];
    rewrite count_cons; pose proof (count_nonneg f l).
  - injection H as ->. rewrite Hf. cbn. lia.
  - specialize (IH i H). destruct (f z); cbn; lia.
Qed.

Lemma count_two f l i j x y :
  l !! i = Some x -> l !! j = Some y -> i <> j -> f x = true -> f y = true -> 2 <= count f l.
Proof.
  revert i j; induction l as [|z l IH]; intros [|i] [|j] Hi Hj Hne Hx Hy; try done;
    rewrite count_cons.
  - injection Hi as ->. pose proof (count_pos f l j y Hj Hy). rewrite Hx. cbn. lia.
  - injection Hj as ->. pose proof (count_pos f l i x Hi Hx). rewrite Hy. cbn. lia.
  - specialize (IH i j Hi Hj ltac:(congruence) Hx Hy). destruct (f z); cbn; lia.
Qed.

Lemma count_zero f l : count f l = 0 <-> forall i x, l !! i = Some x -> f x = false.
Proof.
  split.
  - intros H i x Hi. destruct (f x) eqn:E; [|done]. pose proof (count_pos f l i x Hi E). lia.
  - induction l as [|z l IH]; intros H; [done|].
    rewrite count_cons, (H 0%nat z eq_refl), IH; [done|]. intros i x Hi. by apply (H (S i)).
Qed.
End count.
