(* ===== verification/Libc.v ===== *)
(** The part of the C library and of POSIX the program uses: character
    arrays with [strcpy], [strcat] and [sprintf], the memory image of an [int],
    and a file system of text files, directories and dumped structures.

    A [char a[n]] is the list of its leading bytes, the bytes after the list
    being NUL; a C string is the bytes before the first NUL. *)
From S2P Require Import Prelude.
From Stdlib Require Import Ascii.

(** * Character arrays *)

Abbreviation bytes := (list ascii).
Definition NUL : ascii := Ascii.zero.

(** The bytes before the first NUL. *)
Fixpoint until_nul (a : bytes) : bytes :=
  match a with
  | [] => []
  | c :: a' => if decide (c = NUL) then [] else c :: until_nul a'
  end.

(** A [char a[cap]] holds a C string when one of its [cap] bytes is NUL. *)
Definition terminated (cap : nat) (a : bytes) : bool :=
  (length (until_nul a) <? cap)%nat.

(** Reading a C string out of an array of [cap] bytes. *)
Definition c_str (cap : nat) (a : bytes) : outcome bytes :=
  if terminated cap a then Ok (until_nul a) else Fault Unterminated.

(** [strcpy(dst, s)] into a [char dst[cap]]: the bytes of [dst] after the copied
    NUL stay. *)
Definition strcpy (cap : nat) (dst s : bytes) : outcome bytes :=
  if (length s <? cap)%nat then Ok (s ++ NUL :: drop (S (length s)) dst)
  else Fault BufferOverflow.

Definition strcat (cap : nat) (dst s : bytes) : outcome bytes :=
  d ← c_str cap dst; strcpy cap dst (d ++ s).

(** [a[0] == 0]. *)
Definition first_is_nul (a : bytes) : bool :=
  match a with [] => true | c :: _ => bool_decide (c = NUL) end.

(** [sprintf(buf, ...)], [strcpy(buf, path)] of a formatted path in a
    [char buf[cap]]. *)
Definition sprintf (cap : nat) (s : string) : outcome string :=
  if (String.length s <? cap)%nat then Ok s else Fault BufferOverflow.

Definition no_nul (s : bytes) : Prop := NUL ∉ s.

Lemma until_nul_no_nul a : no_nul (until_nul a).
Proof.
  unfold no_nul. induction a as [|c a IH]; simpl; [set_solver|].
  case_decide; set_solver.
Qed.

Lemma until_nul_app_nul s a : no_nul s -> until_nul (s ++ NUL :: a) = s.
Proof.
  unfold no_nul. induction s as [|c s IH]; simpl; intros H.
  - done.
  - rewrite decide_False by set_solver. f_equal. apply IH. set_solver.
Qed.

Lemma until_nul_id s : no_nul s -> until_nul s = s.
Proof.
  unfold no_nul. induction s as [|c s IH]; simpl; intros H; [done|].
  rewrite decide_False by set_solver. f_equal. apply IH. set_solver.
Qed.

Lemma until_nul_le a : (length (until_nul a) <= length a)%nat.
Proof. induction a as [|c a IH]; simpl; [lia|]. case_decide; simpl; lia. Qed.

Lemma until_nul_take n a : (length (until_nul a) <= n)%nat -> until_nul (take n a) = until_nul a.
Proof.
  revert n. induction a as [|c a IH]; intros [|n]; simpl; try done; case_decide; simpl; [done|lia|done|].
  intros Hl. f_equal. apply IH. lia.
Qed.

Lemma c_str_ok cap a s :
  c_str cap a = Ok s <-> s = until_nul a /\ (length s < cap)%nat.
Proof.
  unfold c_str, terminated. destruct (Nat.ltb_spec (length (until_nul a)) cap).
  - split; [intros [= <-]; done|intros [-> _]; done].
  - split; [done|intros [-> ?]; lia].
Qed.

(** [strcpy] then reading the string back. *)
Lemma c_str_strcpy cap dst s d :
  no_nul s -> strcpy cap dst s = Ok d -> c_str cap d = Ok s.
Proof.
  unfold strcpy. destruct (Nat.ltb_spec (length s) cap); [|done].
  intros Hs [= <-]. apply c_str_ok. rewrite until_nul_app_nul by done. done.
Qed.

Lemma strcpy_fits cap dst s :
  (length s < cap)%nat -> exists d, strcpy cap dst s = Ok d.
Proof. intros H. unfold strcpy. destruct (Nat.ltb_spec (length s) cap); [eauto|lia]. Qed.

Lemma strcpy_overflow cap dst s :
  (cap <= length s)%nat -> strcpy cap dst s = Fault BufferOverflow.
Proof. intros H. unfold strcpy. destruct (Nat.ltb_spec (length s) cap); [lia|done]. Qed.

(** [strcat] appends and keeps the array a C string; it fits iff the joined
    string leaves room for the NUL. *)
Lemma c_str_strcat cap dst d s :
  no_nul s -> c_str cap dst = Ok d ->
  ((length d + length s < cap)%nat ->
     exists a, strcat cap dst s = Ok a /\ c_str cap a = Ok (d ++ s)) /\
  ((cap <= length d + length s)%nat -> strcat cap dst s = Fault BufferOverflow).
Proof.
  intros Hs Hd. unfold strcat. rewrite Hd. cbn. split; intros H.
  - destruct (strcpy_fits cap dst (d ++ s)) as [a Ha]; [rewrite length_app; lia|].
    exists a. split; [done|]. apply c_str_ok in Hd as [-> _].
    eapply c_str_strcpy; [|exact Ha]. unfold no_nul in *.
    pose proof (until_nul_no_nul dst). unfold no_nul in *. set_solver.
  - apply strcpy_overflow. rewrite length_app. lia.
Qed.

(** [strcmp(a, b) == 0] of two [char[cap]] arrays: it reads up to the first
    difference or the first NUL. *)
Fixpoint strcmp_eq (cap : nat) (a b : bytes) : outcome bool :=
  match cap with
  | O => Fault Unterminated
  | S n =>
      let x := default NUL (head a) in
      let y := default NUL (head b) in
      if decide (x <> y) then Ok false
      else if decide (x = NUL) then Ok true
      else strcmp_eq n (tail a) (tail b)
  end.

Lemma strcmp_eq_strings cap a b s t :
  c_str cap a = Ok s -> c_str cap b = Ok t -> strcmp_eq cap a b = Ok (bool_decide (s = t)).
Proof.
  rewrite !c_str_ok. intros [-> Ha] [-> Hb]. revert a b Ha Hb.
  induction cap as [|cap IH]; intros a b Ha Hb; [lia|]. cbn [strcmp_eq].
  destruct a as [|x a], b as [|y b]; cbn [head default tail until_nul from_option id] in *;
    repeat case_decide; simplify_eq; cbn [length] in *; try done;
    try (f_equal; symmetry; apply bool_decide_eq_false; congruence).
  all: rewrite IH by lia; f_equal; apply bool_decide_ext; split; [by intros ->|by intros [= ->]].
Qed.

Lemma strcmp_eq_ok cap a b r :
  strcmp_eq cap a b = Ok r -> r = bool_decide (until_nul a = until_nul b).
Proof.
  revert a b. induction cap as [|cap IH]; intros a b; [done|]. cbn [strcmp_eq].
  destruct a as [|x a], b as [|y b]; cbn [head default tail until_nul from_option id];
    repeat case_decide; simplify_eq; intros H'; simplify_eq; try done;
    try (symmetry; apply bool_decide_eq_false; congruence);
    try (symmetry; by apply bool_decide_eq_true).
  all: rewrite (IH _ _ H'); apply bool_decide_ext; split; [by intros ->|by intros [= ->]].
Qed.

(** * The memory image of an [int] *)

(** [memcpy] of an [int]: four bytes, least significant first. *)
Definition byte_of (z : Z) : ascii := ascii_of_N (Z.to_N (z mod 256)).
Definition byte_val (c : ascii) : Z := Z.of_N (N_of_ascii c).

Definition int_bytes (z : Z) : bytes :=
  [byte_of z; byte_of (Z.shiftr z 8); byte_of (Z.shiftr z 16); byte_of (Z.shiftr z 24)].

Definition nth_byte (a : bytes) (i : nat) : Z := byte_val (default NUL (a !! i)).

(** The [int] stored at byte offset [off] of an array. *)
Definition bytes_int (a : bytes) (off : nat) : Z :=
  int_wrap (nth_byte a off + 256 * nth_byte a (S off) +
            65536 * nth_byte a (S (S off)) + 16777216 * nth_byte a (S (S (S off)))).

(** [memcpy(dst, src, n)] of [n = length src] bytes to the start of [dst]. *)
Definition memcpy (dst src : bytes) : bytes := src ++ drop (length src) dst.

Lemma byte_val_of z : byte_val (byte_of z) = z mod 256.
Proof.
  unfold byte_val, byte_of. destruct (Z.mod_pos_bound z 256 ltac:(lia)) as [H0 H1].
  rewrite N_ascii_embedding; [by apply Z2N.id|].
  apply N2Z.inj_lt. by rewrite Z2N.id.
Qed.

(** The four bytes of [z] add up to [z] modulo [2 ^ 32]. *)
Lemma four_bytes z :
  z mod 256 + 256 * ((z / 256) mod 256) + 65536 * ((z / 65536) mod 256)
    + 16777216 * ((z / 16777216) mod 256) = z - 4294967296 * (z / 4294967296).
Proof.
  change 65536 with (256 * 256) at 2. change 16777216 with (256 * 256 * 256) at 2.
  change 4294967296 with (256 * 256 * 256 * 256) at 2.
  rewrite <- !Z.div_div by lia.
  pose proof (Z.div_mod z 256). pose proof (Z.div_mod (z / 256) 256).
  pose proof (Z.div_mod (z / 256 / 256) 256).
  pose proof (Z.div_mod (z / 256 / 256 / 256) 256). lia.
Qed.

Lemma bytes_int_int_bytes pre z post :
  int_ok z = true -> bytes_int (pre ++ int_bytes z ++ post) (length pre) = z.
Proof.
  intros Hz. unfold bytes_int, nth_byte.
  assert (forall k, (pre ++ int_bytes z ++ post) !! (k + length pre)%nat =
                    (int_bytes z ++ post) !! k) as Hk.
  { intros k. rewrite lookup_app_r by lia. f_equal. lia. }
  pose proof (Hk 0%nat) as H0. pose proof (Hk 1%nat) as H1.
  pose proof (Hk 2%nat) as H2. pose proof (Hk 3%nat) as H3.
  cbn [Nat.add] in H0, H1, H2, H3. rewrite H0, H1, H2, H3.
  cbn. rewrite !byte_val_of, !Z.shiftr_div_pow2 by lia.
  change (2 ^ 8) with 256. change (2 ^ 16) with 65536. change (2 ^ 24) with 16777216.
  rewrite four_bytes.
  transitivity (int_wrap z); [|by apply int_wrap_id]. unfold int_wrap.
  set (q := z / 4294967296).
  replace (z - 4294967296 * q + 2147483648) with (z + 2147483648 + (- q) * 4294967296) by lia.
  by rewrite Z.mod_add by lia.
Qed.

#[global] Arguments c_str : simpl never.
#[global] Arguments strcpy : simpl never.
#[global] Arguments strcat : simpl never.
#[global] Arguments sprintf : simpl never.
#[global] Arguments strcmp_eq : simpl never.
