(* ===== verification/Posix.v ===== *)
(** A file system: the files and directories of one server's machine, and the
    stdio and POSIX calls the program makes on them.

    A path is the string the program builds; two strings are two files.  A
    directory is named with its trailing slash, the way [sprintf] builds it.
    A file holds an optional dumped structure ([fwrite] of a struct at offset
    0) followed by text.  Files and directories are separate name spaces, and
    the calls fail only for a missing file or directory. *)
From S2P Require Import Prelude Libc.

#[local] Open Scope string_scope.
#[local] Open Scope list_scope.

(** * Paths *)

Definition slash : Ascii.ascii := Ascii.ascii_of_nat 47.

Fixpoint has_slash (p : string) : bool :=
  match p with
  | EmptyString => false
  | String c p' => bool_decide (c = slash) || has_slash p'
  end.

(** The directory part of a path, with its trailing slash. *)
Fixpoint dir_of (p : string) : string :=
  match p with
  | EmptyString => ""
  | String c p' => if has_slash p then String c (dir_of p') else ""
  end.

Fixpoint strip_last (p : string) : string :=
  match p with
  | EmptyString | String _ EmptyString => ""
  | String c p' => String c (strip_last p')
  end.

(** The directory that holds the directory [d] ("a/b/" is in "a/"). *)
Definition parent_of (d : string) : string := dir_of (strip_last d).

(** A directory path ends in a slash (or is empty: the current directory). *)
Definition is_dir_path (d : string) : Prop := dir_of d = d.

#[export] Instance is_dir_path_dec d : Decision (is_dir_path d).
Proof. unfold is_dir_path. apply _. Defined.

Lemma has_slash_app a b : has_slash (a +:+ b) = has_slash a || has_slash b.
Proof. induction a as [|c a IH]; simpl; [done|]. rewrite IH. by rewrite orb_assoc. Qed.

Lemma dir_of_no_slash f : has_slash f = false -> dir_of f = "".
Proof. destruct f as [|c f]; simpl; [done|]. by intros ->. Qed.

Lemma dir_of_app d f : is_dir_path d -> has_slash f = false -> dir_of (d +:+ f) = d.
Proof.
  unfold is_dir_path. induction d as [|c d IH]; intros Hd Hf; simpl.
  - by apply dir_of_no_slash.
  - simpl in Hd. destruct (bool_decide (c = slash) || has_slash d) eqn:E; [|done].
    injection Hd as Hd. rewrite has_slash_app, Hf, orb_false_r, E. f_equal. by apply IH.
Qed.

Lemma is_dir_path_app d e : is_dir_path d -> has_slash e = true -> is_dir_path e ->
  is_dir_path (d +:+ e).
Proof.
  unfold is_dir_path. intros Hd Hs He. induction d as [|c d IH]; [done|].
  change (String c d +:+ e) with (String c (d +:+ e)). cbn [dir_of has_slash].
  rewrite has_slash_app, Hs, !orb_true_r. f_equal. apply IH.
  simpl in Hd. destruct (_ || _); [|done]. by injection Hd.
Qed.

Lemma strip_last_app p c : strip_last (p +:+ String c "") = p.
Proof.
  induction p as [|d p IH]; [done|].
  change (String d p +:+ String c "") with (String d (p +:+ String c "")). cbn [strip_last].
  destruct (p +:+ String c "") as [|e q] eqn:E; [by destruct p|]. by rewrite IH.
Qed.

Lemma app_assoc_string (a b c : string) : (a +:+ b) +:+ c = a +:+ (b +:+ c).
Proof. induction a as [|x a IH]; [done|]. exact (f_equal (String x) IH). Qed.

Lemma parent_of_app d e :
  is_dir_path d -> has_slash e = false -> parent_of (d +:+ e +:+ "/") = d.
Proof.
  intros Hd He. unfold parent_of.
  rewrite <- app_assoc_string, strip_last_app. by apply dir_of_app.
Qed.

Lemma string_app_inj (a b c : string) : a +:+ b = a +:+ c -> b = c.
Proof. induction a as [|x a IH]; [done|]. intros [= H]. by apply IH. Qed.

(** * The file system *)

Record file (I : Type) := mkFile { f_image : option I; f_text : bytes }.
Arguments mkFile {I} _ _.
Arguments f_image {I} _.
Arguments f_text {I} _.

Record fs (I : Type) := mkFs { files : gmap string (file I); dirs : gset string }.
Arguments mkFs {I} _ _.
Arguments files {I} _.
Arguments dirs {I} _.

#[export] Instance fs_eta I : Eta (fs I) := fun f => mkFs (files f) (dirs f).

Section calls.
Context {I : Type}.
Implicit Types (f : fs I) (p d : string) (c : file I).

Definition empty_file : file I := mkFile None [].

(** [fopen(p, "r")]: the file, or [NULL]. *)
Definition fopen_r f p : option (file I) := files f !! p.

(** [fopen(p, "w")] needs the directory; it creates or truncates.  [c] is
    what is then written before [fclose]; [None] is a [NULL] stream. *)
Definition fopen_w f p c : option (fs I) :=
  if decide (dir_of p ∈ dirs f) then Some (f <| files ::= <[p := c]> |>) else None.

(** [fopen(p, "a")], [fprintf(f, "%s", s)], [fclose]. *)
Definition fopen_a f p (s : bytes) : option (fs I) :=
  let old := default empty_file (files f !! p) in
  fopen_w f p (mkFile (f_image old) (f_text old ++ s)).

(** [rename(p, q)]: one atomic step. *)
Definition rename f p q : fs I :=
  match files f !! p with
  | Some c => f <| files ::= fun m => <[q := c]> (delete p m) |>
  | None => f
  end.

Definition remove f p : fs I := f <| files ::= delete p |>.

(** [mkdir(d)], whose failure the program ignores. *)
Definition mkdir f d : fs I :=
  if decide (parent_of d ∈ dirs f) then f <| dirs ::= union {[d]} |> else f.

(** [rmdir(d)] removes an empty directory only. *)
Definition dir_empty f d : bool :=
  bool_decide (map_Forall (fun p _ => dir_of p <> d) (files f)) &&
  bool_decide (set_Forall (fun e => parent_of e <> d) (dirs f ∖ {[d]})).

Definition rmdir f d : fs I :=
  if dir_empty f d then f <| dirs ::= fun s => s ∖ {[d]} |> else f.

(** The text of a file; a missing file counts as empty. *)
Definition text_of f p : bytes := f_text (default empty_file (files f !! p)).

Lemma fopen_w_lookup f p c f' q :
  fopen_w f p c = Some f' -> files f' !! q = if decide (p = q) then Some c else files f !! q.
Proof.
  unfold fopen_w. case_decide; [|done]. intros [= <-]. cbn. by rewrite lookup_insert.
Qed.

Lemma fopen_w_dirs f p c f' : fopen_w f p c = Some f' -> dirs f' = dirs f.
Proof. unfold fopen_w. case_decide; [|done]. by intros [= <-]. Qed.

Lemma fopen_w_some f p c : dir_of p ∈ dirs f -> exists f', fopen_w f p c = Some f'.
Proof. intros H. unfold fopen_w. rewrite decide_True by done. eauto. Qed.

Lemma text_of_fopen_a f p s f' q :
  fopen_a f p s = Some f' ->
  text_of f' q = if decide (p = q) then text_of f p ++ s else text_of f q.
Proof.
  unfold fopen_a, text_of. intros H. rewrite (fopen_w_lookup _ _ _ _ _ H).
  by case_decide.
Qed.

Lemma image_fopen_a f p s f' q :
  fopen_a f p s = Some f' ->
  files f' !! q ≫= f_image = files f !! q ≫= f_image.
Proof.
  unfold fopen_a. intros H. rewrite (fopen_w_lookup _ _ _ _ _ H).
  case_decide as E; [subst|done]. by destruct (files f !! q).
Qed.

Lemma remove_lookup f p q :
  files (remove f p) !! q = if decide (p = q) then None else files f !! q.
Proof. cbn. by rewrite lookup_delete. Qed.
End calls.
