(* ===== verification/RaftTypes.v ===== *)
(** The data of [raft.h], [packet_format.h], [raft_leader.h] and
    [raft_storage_manager.h]: the structs as records with the source's fields
    (prefixed where two structs share a name), the tagged union of packets as
    an inductive type, and the state a raft thread runs on. *)
From S2P Require Import Prelude Libc Posix.

(** * Constants *)

Definition N_SERVERS : Z := 5.
Definition MAX_SERVER_ID : Z := 10.
Definition LOG_SIZE : Z := 100.
Definition MAX_TRANSACTION_ENTRIES : Z := 10.
Definition COMMITS_TO_SNAPSHOT : Z := 60.
Definition SNAPSHOT_SIZE : Z := 50.
Definition ELECTION_TIMEOUT : Z := 1000.
Definition HEARTBIT_TIME : Z := 100.
Definition BUFFER_SIZE : nat := 1024.
Definition FILENAME_SIZE : nat := 256.

(** * Configuration *)

Record sockaddr_in := { sin_port : Z; sin_addr : Z }.

#[export] Instance sockaddr_eq_dec : EqDecision sockaddr_in.
Proof. solve_decision. Defined.

Record raft_server_configuration := {
  client_socket : sockaddr_in;
  raft_socket : sockaddr_in;
  file_directory : string;
  server_id : Z
}.

#[export] Instance raft_server_configuration_eq_dec : EqDecision raft_server_configuration.
Proof. solve_decision. Defined.

(** [raft_configuration_t]: the array [servers[N_SERVERS]]. *)
Abbreviation raft_configuration := (list raft_server_configuration).

(** * The log *)

(** [char filename[256]; char buffer[1024]]. *)
Record raft_transaction_entry := { filename : bytes; buffer : bytes }.

Inductive log_entry_type := CLIENT_LOG | LEADER_LOG.

#[export] Instance log_entry_type_eq_dec : EqDecision log_entry_type.
Proof. solve_decision. Defined.

Record raft_log_entry := {
  le_term : Z;
  le_n_servers_replicated : Z;
  le_type : log_entry_type;
  le_id : Z;
  le_client : Z;
  le_data : list raft_transaction_entry
}.

#[export] Instance raft_transaction_entry_eq_dec : EqDecision raft_transaction_entry.
Proof. solve_decision. Defined.
#[export] Instance raft_log_entry_eq_dec : EqDecision raft_log_entry.
Proof. solve_decision. Defined.

#[export] Instance raft_transaction_entry_eta : Eta raft_transaction_entry :=
  fun e => {| filename := filename e; buffer := buffer e |}.
#[export] Instance raft_log_entry_eta : Eta raft_log_entry := fun e =>
  {| le_term := le_term e; le_n_servers_replicated := le_n_servers_replicated e;
     le_type := le_type e; le_id := le_id e; le_client := le_client e; le_data := le_data e |}.

(** Zeroed memory, as static storage starts. *)
Definition zero_transaction_entry : raft_transaction_entry := {| filename := []; buffer := [] |}.
Definition zero_log_entry : raft_log_entry :=
  {| le_term := 0; le_n_servers_replicated := 0; le_type := CLIENT_LOG; le_id := 0; le_client := 0;
     le_data := replicate (Z.to_nat MAX_TRANSACTION_ENTRIES) zero_transaction_entry |}.

(** * The raft state *)

Inductive node_state := LEADER | CANDIDATE | FOLLOWER.

#[export] Instance node_state_eq_dec : EqDecision node_state.
Proof. solve_decision. Defined.

(** [raft_state_t]. The handler pointer [commit_handler] is an argument of the
    definitions that call it. *)
Record raft_state := {
  config : raft_configuration;
  raft_id : Z;
  current_term : Z;
  voted_for : Z;
  raft_log : list raft_log_entry;
  start_log_index : Z;
  log_count : Z;
  files_dir : string;

  state : node_state;
  rpc_sd : Z;
  lock_flag : Z;
  commit_index : Z;
  last_applied_index : Z;
  snapshot_in_progress : Z;

  install_snapshot_index : Z;
  install_snapshot_id : Z;

  nvoted : Z;
  nblocked : Z;

  next_index : list Z;
  match_index : list Z;
  last_request_id : list Z;
  last_request_response : list Z;
  n_followers_receiving_snapshots : Z
}.

#[export] Instance raft_state_eta : Eta raft_state := fun r =>
  {| config := config r; raft_id := raft_id r; current_term := current_term r;
     voted_for := voted_for r; raft_log := raft_log r; start_log_index := start_log_index r;
     log_count := log_count r; files_dir := files_dir r; state := state r; rpc_sd := rpc_sd r;
     lock_flag := lock_flag r; commit_index := commit_index r;
     last_applied_index := last_applied_index r; snapshot_in_progress := snapshot_in_progress r;
     install_snapshot_index := install_snapshot_index r;
     install_snapshot_id := install_snapshot_id r; nvoted := nvoted r; nblocked := nblocked r;
     next_index := next_index r; match_index := match_index r;
     last_request_id := last_request_id r; last_request_response := last_request_response r;
     n_followers_receiving_snapshots := n_followers_receiving_snapshots r |}.

(** The static [raft_state_t raft] of [server.c] before it is initialised. *)
Definition zero_raft_state : raft_state := {|
  config := []; raft_id := 0; current_term := 0; voted_for := 0;
  raft_log := replicate (Z.to_nat LOG_SIZE) zero_log_entry;
  start_log_index := 0; log_count := 0; files_dir := "";
  state := LEADER; rpc_sd := 0; lock_flag := 0; commit_index := 0; last_applied_index := 0;
  snapshot_in_progress := 0; install_snapshot_index := 0; install_snapshot_id := 0;
  nvoted := 0; nblocked := 0;
  next_index := replicate (Z.to_nat (MAX_SERVER_ID + 1)) 0;
  match_index := replicate (Z.to_nat (MAX_SERVER_ID + 1)) 0;
  last_request_id := replicate (Z.to_nat (MAX_SERVER_ID + 1)) 0;
  last_request_response := replicate (Z.to_nat (MAX_SERVER_ID + 1)) 0;
  n_followers_receiving_snapshots := 0 |}.

(** * Packets *)

Record raft_append_request := {
  ar_term : Z; ar_leader_id : Z; ar_prev_log_index : Z; ar_prev_log_term : Z;
  ar_entry : raft_log_entry; ar_entries_n : Z; ar_leader_commit : Z; ar_request_id : Z
}.

Record raft_vote_request := {
  vr_term : Z; vr_candidate_id : Z; vr_last_log_index : Z; vr_last_log_term : Z
}.

Record raft_install_snapshot_request := {
  ir_term : Z; ir_leader_id : Z; ir_snapshot_id : Z; ir_index : Z; ir_done : Z;
  ir_request_id : Z; ir_filename : bytes; ir_buffer : bytes
}.

Record raft_response_packet := { rp_id : Z; rp_term : Z; rp_success : Z; rp_request_id : Z }.

(** [raft_packet_t]: the tag [request_type] and the union [data]. *)
Inductive raft_packet :=
  | APPEND (r : raft_append_request)
  | VOTE (r : raft_vote_request)
  | INSTALL_SNAPSHOT (r : raft_install_snapshot_request)
  | RESPONSE (r : raft_response_packet).

(** * The state a raft thread runs on *)

(** The threads the program starts with [pthread_create] from the raft module. *)
Inductive thread_start :=
  | Raft_election_thread_start
  | Raft_leader_thread_start (follower_id : Z) (addr : sockaddr_in).

(** One server: its [raft_state_t], its disk, the datagrams it has sent and the
    threads it has started, oldest first. *)
Record world := {
  raft : raft_state;
  disk : fs raft_state;
  out : list (sockaddr_in * raft_packet);
  spawned : list thread_start
}.

#[export] Instance world_eta : Eta world := fun w =>
  {| raft := raft w; disk := disk w; out := out w; spawned := spawned w |}.

(** [raft->f] and [raft->f = v]. *)
Definition rget {A} (f : raft_state -> A) : M world A := gets (fun w => f (raft w)).
Definition rself : M world raft_state := gets raft.
Definition rmod (f : raft_state -> raft_state) : M world unit :=
  modify (fun w => w <| raft ::= f |>).

Definition UDP_send (addr : sockaddr_in) (p : raft_packet) : M world unit :=
  modify (fun w => w <| out ::= fun l => l ++ [(addr, p)] |>).
Definition pthread_create (t : thread_start) : M world unit :=
  modify (fun w => w <| spawned ::= fun l => l ++ [t] |>).

(** A call that answers [NULL] and whose result is then used. *)
Definition fs_call (c : fs raft_state -> option (fs raft_state)) : M world unit := fun w =>
  match c (disk w) with
  | Some d => Ok (tt, w <| disk := d |>)
  | None => Fault NullDeref
  end.
Definition fs_do (c : fs raft_state -> fs raft_state) : M world unit :=
  modify (fun w => w <| disk ::= c |>).

(** [spinlock_acquire(&raft->lock)] and [spinlock_release(&raft->lock)], as one
    thread sees them: the compare-and-swap loop is passed when the flag is
    clear, and waits ([Blocked]) while it is set. *)
Definition raft_lock_acquire : M world unit :=
  f ← rget lock_flag;
  if decide (f = 0) then rmod (fun r => r <| lock_flag := 1 |>) else throw Blocked.
Definition raft_lock_release : M world unit :=
  f ← rget lock_flag;
  if decide (f = 1) then rmod (fun r => r <| lock_flag := 0 |>) else skip.

(** [raft->f[i]] and [raft->f[i] = v] of the per-server arrays. *)
Definition idx_get (f : raft_state -> list Z) (i : Z) : M world Z :=
  l ← rget f; lift (arr_get l i).
Definition idx_set (f : raft_state -> list Z) `{!Upd f} (i v : Z) : M world unit :=
  l ← rget f; l' ← lift (arr_set l i v); rmod (fun r => r <| f := l' |>).
(** [raft->f[i] ++] and [raft->f[i] --]. *)
Definition idx_add (f : raft_state -> list Z) `{!Upd f} (i d : Z) : M world unit :=
  x ← idx_get f i; y ← int_of (x + d); idx_set f i y.

(** * Runs of the lock and of the arrays *)

Lemma run_rget {A} (f : raft_state -> A) w : rget f w = Ok (f (raft w), w).
Proof. reflexivity. Qed.

Lemma run_rmod f w : rmod f w = Ok (tt, w <| raft ::= f |>).
Proof. reflexivity. Qed.

Lemma run_lock_acquire w :
  lock_flag (raft w) = 0 ->
  raft_lock_acquire w = Ok (tt, w <| raft ::= fun r => r <| lock_flag := 1 |> |>).
Proof. intros H. unfold raft_lock_acquire, rget, gets. rewrite run_bind. by rewrite decide_True. Qed.

Lemma run_lock_release w :
  lock_flag (raft w) = 1 ->
  raft_lock_release w = Ok (tt, w <| raft ::= fun r => r <| lock_flag := 0 |> |>).
Proof. intros H. unfold raft_lock_release, rget, gets. rewrite run_bind. by rewrite decide_True. Qed.

Lemma run_idx_get f i x w : arr_get (f (raft w)) i = Ok x -> idx_get f i w = Ok (x, w).
Proof. intros E. unfold idx_get, rget, gets, lift. rewrite run_bind. by rewrite E. Qed.

Lemma run_idx_set (f : raft_state -> list Z) `{!Upd f} i v x w :
  arr_get (f (raft w)) i = Ok x -> exists l, arr_set (f (raft w)) i v = Ok l /\
    idx_set f i v w = Ok (tt, w <| raft ::= fun r => r <| f := l |> |>).
Proof.
  intros E. assert (in_bounds (f (raft w)) i = true) as Hb.
  { apply in_bounds_spec. by eapply arr_get_bounds. }
  assert (arr_set (f (raft w)) i v = Ok (<[Z.to_nat i := v]> (f (raft w)))) as Es by by apply arr_set_ok.
  eexists. split; [exact Es|]. unfold idx_set, rget, gets, lift. rewrite run_bind, run_bind. by rewrite Es.
Qed.
