(* ===== verification/PacketFormat.v ===== *)
(** [packet_format.h]: the packets between clients and servers. *)
From S2P Require Import Prelude Libc RaftTypes.

Inductive operation_type := CLIENT_INIT | LOCK_ACQUIRE | LOCK_RELEASE | APPEND_FILE | CLIENT_CLOSE.

#[export] Instance operation_type_eq_dec : EqDecision operation_type.
Proof. solve_decision. Defined.

Definition E_FILE : Z := -1.
Definition E_IN_PROGRESS : Z := -2.
Definition E_NO_CLIENT : Z := -3.
Definition E_LOCK : Z := -4.
Definition E_LOCK_EXP : Z := -5.
Definition E_TRANSACTION_LIMIT : Z := -6.
Definition E_FOLLOWER : Z := -7.
Definition E_ELECTION : Z := -8.
Definition E_LOST : Z := -9.

(** [char file_name[256]; char buffer[1024]]. *)
Record packet_info := {
  pk_client_id : Z;
  pk_vtime : Z;
  pk_operation : operation_type;
  pk_file_name : bytes;
  pk_buffer : bytes
}.

#[export] Instance packet_info_eta : Eta packet_info := fun p =>
  {| pk_client_id := pk_client_id p; pk_vtime := pk_vtime p; pk_operation := pk_operation p;
     pk_file_name := pk_file_name p; pk_buffer := pk_buffer p |}.

(** [char message[256]]. *)
Record response_info := { rs_client_id : Z; rs_rc : Z; rs_vtime : Z; rs_message : bytes }.

#[export] Instance response_info_eta : Eta response_info := fun r =>
  {| rs_client_id := rs_client_id r; rs_rc := rs_rc r; rs_vtime := rs_vtime r;
     rs_message := rs_message r |}.

#[export] Instance packet_info_eq_dec : EqDecision packet_info.
Proof. solve_decision. Defined.
#[export] Instance response_info_eq_dec : EqDecision response_info.
Proof. solve_decision. Defined.

Definition MESSAGE_SIZE : nat := 256.

(** [bzero(&packet, PACKET_SIZE)] and [bzero(&response, RESPONSE_SIZE)]. *)
Definition zero_packet : packet_info :=
  {| pk_client_id := 0; pk_vtime := 0; pk_operation := CLIENT_INIT; pk_file_name := [];
     pk_buffer := [] |}.
Definition zero_response_info : response_info :=
  {| rs_client_id := 0; rs_rc := 0; rs_vtime := 0; rs_message := [] |}.

(** * The transaction token *)

(** [int log_data[2]] copied to the start of a [char] array, and back. *)
Definition put_token (term id : Z) (a : bytes) : bytes := memcpy a (int_bytes term ++ int_bytes id).
Definition get_token (a : bytes) : Z * Z := (bytes_int a 0, bytes_int a 4).

(** [memcpy(dst, src, 2*sizeof(int))] between two arrays. *)
Definition copy_token (dst src : bytes) : bytes :=
  memcpy dst (take 8 (src ++ replicate 8 NUL)).

Lemma get_put_token term id a :
  int_ok term = true -> int_ok id = true -> get_token (put_token term id a) = (term, id).
Proof.
  intros Ht Hi. unfold get_token, put_token, memcpy. f_equal.
  - rewrite <- app_assoc. by apply (bytes_int_int_bytes []).
  - rewrite <- app_assoc. by apply (bytes_int_int_bytes (int_bytes term)).
Qed.

(** A copied token reads the same. *)
Lemma get_copy_token a b : get_token (copy_token a b) = get_token b.
Proof.
  assert (forall i, (i < 8)%nat -> nth_byte (copy_token a b) i = nth_byte b i) as H.
  { intros i Hi. unfold nth_byte, copy_token, memcpy. f_equal.
    rewrite lookup_app_l by (rewrite length_take, length_app, length_replicate; lia).
    rewrite lookup_take_lt by done. destruct (decide (i < length b)%nat).
    - by rewrite lookup_app_l.
    - rewrite lookup_app_r by lia. rewrite lookup_replicate_2 by lia.
      by rewrite lookup_ge_None_2 by lia. }
  unfold get_token, bytes_int. by rewrite !H by lia.
Qed.

Lemma copy_put_token term id a b : copy_token b (put_token term id a) = put_token term id b.
Proof. reflexivity. Qed.
