(* ===== verification/Spinlock.v ===== *)
(** [spinlock.c]: the compare-and-swap lock, first as calls, then as threads
    that interleave between two compare-and-swaps. *)
From S2P Require Import Prelude RaftTypes.

(** [__sync_bool_compare_and_swap(&x, old, new)]: the answer and the new [x]. *)
Definition compare_and_swap (x old new : Z) : bool * Z :=
  if decide (x = old) then (true, new) else (false, x).

Definition spinlock_init : Z := 0.

(** One turn of [while(!CAS(&lock_flag, 0, 1))]: [true] leaves the loop. *)
Definition spinlock_acquire_try (lock_flag : Z) : bool * Z := compare_and_swap lock_flag 0 1.
Definition spinlock_release (lock_flag : Z) : Z := (compare_and_swap lock_flag 1 0).2.

(** * Threads that use the lock *)

(** A thread is outside, in the loop of [spinlock_acquire], or past it; a
    thread calls [spinlock_release] only when it has passed the loop. *)
Inductive spin_pc := Outside | Spinning | Inside.

#[export] Instance spin_pc_eq_dec : EqDecision spin_pc.
Proof. solve_decision. Defined.

Record spin_sys := { lock_word : Z; pcs : list spin_pc }.

(** The next step of thread [i]. *)
Definition spin_step (i : nat) (s : spin_sys) : option spin_sys :=
  pc ← pcs s !! i;
  Some (match pc with
        | Outside => {| lock_word := lock_word s; pcs := <[i := Spinning]> (pcs s) |}
        | Spinning =>
            let (ok, f) := spinlock_acquire_try (lock_word s) in
            {| lock_word := f; pcs := if ok then <[i := Inside]> (pcs s) else pcs s |}
        | Inside =>
            {| lock_word := spinlock_release (lock_word s); pcs := <[i := Outside]> (pcs s) |}
        end).

Definition spin_start (n : nat) : spin_sys :=
  {| lock_word := spinlock_init; pcs := replicate n Outside |}.

Inductive spin_reach (n : nat) : spin_sys -> Prop :=
  | spin_reach_start : spin_reach n (spin_start n)
  | spin_reach_step i s s' : spin_reach n s -> spin_step i s = Some s' -> spin_reach n s'.

(** * Mutual exclusion *)

Definition is_inside (pc : spin_pc) : bool :=
  match pc with Inside => true | _ => false end.

(** The flag is the number of threads past the loop. *)
Lemma spin_inv n s :
  spin_reach n s -> lock_word s = count is_inside (pcs s) /\ count is_inside (pcs s) <= 1.
Proof.
  induction 1 as [|i s s' _ [Hf Hi] Hs].
  - unfold spin_start; cbn [lock_word pcs]. rewrite count_replicate by done. done.
  - unfold spin_step in Hs. destruct (pcs s !! i) as [pc|] eqn:E; [|done]. injection Hs as <-.
    pose proof (fun pc' => count_insert is_inside _ _ _ pc' E) as Hc. destruct pc; cbn.
    + rewrite (Hc Spinning). cbn. lia.
    + unfold spinlock_acquire_try, compare_and_swap. case_decide as Hz; cbn; [|done].
      rewrite (Hc Inside). cbn. lia.
    + pose proof (count_pos is_inside _ _ _ E eq_refl).
      unfold spinlock_release, compare_and_swap. rewrite (Hc Outside). cbn.
      rewrite decide_True by lia. cbn. lia.
Qed.

(** Two threads are never both past spinlock_acquire, in any interleaving
    of their compare-and-swaps. *)
Theorem spinlock_mutual_exclusion n s i j :
  spin_reach n s -> pcs s !! i = Some Inside -> pcs s !! j = Some Inside -> i = j.
Proof.
  intros Hr Hi Hj. destruct (decide (i = j)) as [|Hne]; [done|].
  destruct (spin_inv n s Hr) as [_ Hle]. 
  pose proof (count_two is_inside _ _ _ _ _ Hi Hj Hne eq_refl eq_refl). lia.
Qed.

Theorem spinlock_no_deadlock n s i :
  spin_reach n s -> pcs s !! i = Some Spinning -> (forall j, pcs s !! j <> Some Inside) ->
  exists s', spin_step i s = Some s' /\ pcs s' !! i = Some Inside.
Proof.
  intros Hr Hi Hn. destruct (spin_inv n s Hr) as [Hf _].
  assert (count is_inside (pcs s) = 0) as Hz.
  { apply count_zero. intros j x Hj. destruct x; try done. by destruct (Hn j). }
  rewrite Hz in Hf.
  unfold spin_step, spinlock_acquire_try. rewrite Hi, Hf. cbn. eexists. split; [done|].
  cbn. apply list_lookup_insert_eq. by eapply lookup_lt_Some.
Qed.

(** * One thread's view *)

(** The calls of [RaftTypes.v] on [raft->lock] are these. *)
Lemma raft_lock_acquire_cas w :
  raft_lock_acquire w =
  match spinlock_acquire_try (lock_flag (raft w)) with
  | (true, f) => Ok (tt, w <| raft ::= fun r => r <| lock_flag := f |> |>)
  | (false, _) => Fault Blocked
  end.
Proof.
  unfold raft_lock_acquire, spinlock_acquire_try, compare_and_swap, rget, gets.
  rewrite run_bind. by case_decide.
Qed.

Lemma raft_lock_release_cas w :
  raft_lock_release w =
  Ok (tt, w <| raft ::= fun r => r <| lock_flag := spinlock_release (lock_flag r) |> |>).
Proof.
  unfold raft_lock_release, spinlock_release, compare_and_swap, rget, gets.
  rewrite run_bind. destruct (decide (lock_flag (raft w) = 1)) as [H|H].
  - unfold rmod, modify, upd. by rewrite decide_True.
  - unfold upd. rewrite decide_False by done. by destruct w as [[]].
Qed.
