(* ===== verification/TimedLock.v ===== *)
(** [timer.c] and [tmdspinlock.c]: the lock that a silent client loses.

    The calls come twice: as functions, for a caller that runs alone
    ([Server.v] uses them), and as threads that interleave at every access to
    the shared words, with the timer thread between them. *)
From S2P Require Import Prelude RaftTypes PacketFormat Spinlock.

(** * The timer *)

Definition CLOCKS_PER_SEC : Z := 1000000.
Definition CLIENT_TIMEOUT : Z := 1000.

(** [timer_t] without its lock; the clock is an argument of the operations. *)
Record timer := { start_time : Z; duration : Z; timer_state : Z }.

#[export] Instance timer_eta : Eta timer := fun t =>
  {| start_time := start_time t; duration := duration t; timer_state := timer_state t |}.

Definition timer_init (duration : Z) : timer :=
  {| start_time := 0; duration := duration; timer_state := 0 |}.
Definition timer_reset (clock : Z) (t : timer) : timer :=
  t <| start_time := clock |> <| timer_state ::= fun s => s + 1 |>.
Definition timer_disable (t : timer) : timer := t <| timer_state ::= fun s => s - 1 |>.
Definition timer_resume (t : timer) : timer := t <| timer_state ::= fun s => s + 1 |>.

(** The test of [timer_thread]. *)
Definition timer_expired (clock : Z) (t : timer) : bool :=
  if decide (timer_state t = 1) then
    let time_diff := clock - start_time t in
    let time_diff_msec := int_wrap (Z.quot (time_diff * 1000) CLOCKS_PER_SEC) in
    duration t <=? time_diff_msec
  else false.

(** * The lock, called by one thread *)

Record tmdspinlock := { tmd_flag : Z; holder_id : Z; tmd_timer : timer }.

#[export] Instance tmdspinlock_eta : Eta tmdspinlock := fun l =>
  {| tmd_flag := tmd_flag l; holder_id := holder_id l; tmd_timer := tmd_timer l |}.

Definition tmdspinlock_init : tmdspinlock :=
  {| tmd_flag := 0; holder_id := -1; tmd_timer := timer_init CLIENT_TIMEOUT |}.

Definition tmdspinlock_pause_if_owner (id : Z) : M tmdspinlock Z :=
  h ← gets holder_id;
  if decide (h <> id) then mret (-1)
  else
    modify (fun l => l <| tmd_timer ::= timer_disable |>);;
    h ← gets holder_id;
    if decide (h <> id) then modify (fun l => l <| tmd_timer ::= timer_resume |>);; mret (-1)
    else mret 0.

Definition tmdspinlock_reset_if_owner (clock id : Z) : M tmdspinlock Z :=
  h ← gets holder_id;
  if decide (h <> id) then mret (-1)
  else modify (fun l => l <| tmd_timer ::= timer_reset clock |>);; mret 0.

(** The compare-and-swap loop waits ([Blocked]) while the flag is set. *)
Definition tmdspinlock_acquire (clock id : Z) : M tmdspinlock Z :=
  h ← gets holder_id;
  if decide (h = id) then mret E_LOCK
  else
    f ← gets tmd_flag;
    let (ok, f') := compare_and_swap f 0 1 in
    if (ok : bool) then
      modify (fun l => l <| tmd_flag := f' |> <| holder_id := id |>
                         <| tmd_timer ::= timer_reset clock |>);;
      mret 0
    else throw Blocked.

Definition tmdspinlock_release (id : Z) : M tmdspinlock Z :=
  rc ← tmdspinlock_pause_if_owner id;
  if decide (rc <> 0) then mret E_LOCK_EXP
  else
    modify (fun l => l <| holder_id := -1 |>
                       <| tmd_flag ::= fun f => (compare_and_swap f 1 0).2 |>);;
    mret 0.

Definition tmdspinlock_handle_timer : M tmdspinlock unit :=
  h ← gets holder_id;
  if decide (h = -1) then throw AssertFailed
  else modify (fun l => l <| holder_id := -1 |>
                          <| tmd_flag ::= fun f => (compare_and_swap f 1 0).2 |>).

(** One turn of [timer_thread]. *)
Definition timer_thread (clock : Z) : M tmdspinlock unit :=
  t ← gets tmd_timer;
  if timer_expired clock t then
    modify (fun l => l <| tmd_timer ::= fun t => t <| timer_state := 0 |> |>);;
    tmdspinlock_handle_timer
  else skip.

(** [pthread_kill(SIGKILL)]: the signal ends the process, not the thread. *)
Definition timer_terminate : M tmdspinlock unit := throw Killed.

Definition tmdspinlock_terminate : M tmdspinlock unit :=
  modify (fun l => l <| tmd_timer ::= timer_disable |>);;
  timer_terminate.

Lemma tmdspinlock_terminate_kills l : tmdspinlock_terminate l = Fault Killed.
Proof. reflexivity. Qed.

(** * The lock, between threads *)

(** Why a client thread pauses the timer: [handle_append_file], the first
    half of [handle_lock_release], and [tmdspinlock_release]. *)
Inductive pause_kind := For_append | For_release | For_unlock.

(** The next access of a client thread of [server.c].  Threads do not call
    [tmdspinlock_reset_if_owner] but after a pause that answered 0. *)
Inductive tmd_pc :=
  | Idle
  | Acquire_check | Acquire_cas | Acquire_holder | Acquire_reset
  | Pause_check (k : pause_kind) | Pause_disable (k : pause_kind)
  | Pause_recheck (k : pause_kind) | Pause_resume (k : pause_kind)
  | Critical (k : pause_kind)
  | Reset_check (k : pause_kind) | Reset_timer (k : pause_kind)
  | Release_holder | Release_cas.

(** The timer thread holds the timer's spinlock but in [Tick_idle]. *)
Inductive tick_pc := Tick_idle | Tick_assert | Tick_holder | Tick_cas.

#[export] Instance pause_kind_eq_dec : EqDecision pause_kind.
Proof. solve_decision. Defined.
#[export] Instance tmd_pc_eq_dec : EqDecision tmd_pc.
Proof. solve_decision. Defined.
#[export] Instance tick_pc_eq_dec : EqDecision tick_pc.
Proof. solve_decision. Defined.

(** The client [i] is the [i]-th thread. *)
Record tmd_sys := {
  tmd : tmdspinlock;
  clock : Z;
  tick : tick_pc;
  clients : list tmd_pc;
  aborted : bool
}.

#[export] Instance tmd_sys_eta : Eta tmd_sys := fun s =>
  {| tmd := tmd s; clock := clock s; tick := tick s; clients := clients s; aborted := aborted s |}.

Inductive tmd_label :=
  | Call (i : nat) (pc : tmd_pc)
  | Step (i : nat)
  | Tick
  | Advance (dt : N).

(** What follows a pause that answered -1, a pause that answered 0, and a reset. *)
Definition pause_failed (k : pause_kind) : tmd_pc :=
  match k with For_append | For_unlock => Idle | For_release => Pause_check For_unlock end.
Definition pause_done (k : pause_kind) : tmd_pc :=
  match k with For_append | For_release => Critical k | For_unlock => Release_holder end.
Definition reset_done (k : pause_kind) : tmd_pc :=
  match k with For_release => Pause_check For_unlock | _ => Idle end.

(** The calls [server.c] makes. *)
Definition entry_point (pc : tmd_pc) : bool :=
  match pc with
  | Acquire_check | Pause_check For_append | Pause_check For_release => true
  | _ => false
  end.

(** An access to the timer waits for the timer's spinlock. *)
Definition timer_op (f : timer -> timer) (s : tmd_sys) : option tmdspinlock :=
  if decide (tick s = Tick_idle) then Some ((tmd s) <| tmd_timer ::= f |>) else None.

(** One access of the client [id]: the lock and the next point, or [None]
    while it waits. *)
Definition client_access (id : Z) (pc : tmd_pc) (s : tmd_sys) : option (tmdspinlock * tmd_pc) :=
  let l := tmd s in
  match pc with
  | Idle => None
  | Acquire_check => Some (l, if decide (holder_id l = id) then Idle else Acquire_cas)
  | Acquire_cas =>
      let (ok, f) := compare_and_swap (tmd_flag l) 0 1 in
      Some (l <| tmd_flag := f |>, if (ok : bool) then Acquire_holder else Acquire_cas)
  | Acquire_holder => Some (l <| holder_id := id |>, Acquire_reset)
  | Acquire_reset => l' ← timer_op (timer_reset (clock s)) s; Some (l', Idle)
  | Pause_check k =>
      Some (l, if decide (holder_id l <> id) then pause_failed k else Pause_disable k)
  | Pause_disable k => l' ← timer_op timer_disable s; Some (l', Pause_recheck k)
  | Pause_recheck k =>
      Some (l, if decide (holder_id l <> id) then Pause_resume k else pause_done k)
  | Pause_resume k => l' ← timer_op timer_resume s; Some (l', pause_failed k)
  | Critical k => Some (l, Reset_check k)
  | Reset_check k =>
      Some (l, if decide (holder_id l <> id) then reset_done k else Reset_timer k)
  | Reset_timer k => l' ← timer_op (timer_reset (clock s)) s; Some (l', reset_done k)
  | Release_holder => Some (l <| holder_id := -1 |>, Release_cas)
  | Release_cas => Some (l <| tmd_flag ::= fun f => (compare_and_swap f 1 0).2 |>, Idle)
  end.

(** One access of the timer thread. *)
Definition tick_access (s : tmd_sys) : tmd_sys :=
  let l := tmd s in
  match tick s with
  | Tick_idle =>
      if timer_expired (clock s) (tmd_timer l) then
        s <| tmd := l <| tmd_timer ::= fun t => t <| timer_state := 0 |> |> |>
          <| tick := Tick_assert |>
      else s
  | Tick_assert =>
      if decide (holder_id l = -1) then s <| aborted := true |> else s <| tick := Tick_holder |>
  | Tick_holder => s <| tmd := l <| holder_id := -1 |> |> <| tick := Tick_cas |>
  | Tick_cas =>
      s <| tmd := l <| tmd_flag ::= fun f => (compare_and_swap f 1 0).2 |> |>
        <| tick := Tick_idle |>
  end.

Definition tmd_step (s : tmd_sys) (a : tmd_label) : option tmd_sys :=
  match a with
  | Call i pc =>
      match clients s !! i with
      | Some Idle => if entry_point pc then Some (s <| clients ::= <[i := pc]> |>) else None
      | _ => None
      end
  | Step i =>
      pc ← clients s !! i;
      '(l, pc') ← client_access (Z.of_nat i) pc s;
      Some (s <| tmd := l |> <| clients ::= <[i := pc']> |>)
  | Tick => Some (tick_access s)
  | Advance dt => Some (s <| clock ::= Z.add (Z.of_N dt) |>)
  end.

Definition tmd_start (n : nat) : tmd_sys :=
  {| tmd := tmdspinlock_init; clock := 0; tick := Tick_idle; clients := replicate n Idle;
     aborted := false |}.

Inductive tmd_reach (n : nat) : tmd_sys -> Prop :=
  | tmd_reach_start : tmd_reach n (tmd_start n)
  | tmd_reach_step s a s' : tmd_reach n s -> tmd_step s a = Some s' -> tmd_reach n s'.

(** * The invariant *)

Definition owes (pc : tmd_pc) : bool :=
  match pc with
  | Acquire_reset | Pause_recheck _ | Pause_resume _ | Critical _ | Reset_check _ | Reset_timer _
  | Release_holder => true
  | _ => false
  end.
Definition handing (pc : tmd_pc) : bool :=
  match pc with Acquire_holder | Release_cas => true | _ => false end.
Definition owns (pc : tmd_pc) : bool :=
  match pc with
  | Acquire_reset | Critical _ | Reset_check _ | Reset_timer _ | Release_holder => true
  | _ => false
  end.
Definition foreign (pc : tmd_pc) : bool :=
  match pc with Acquire_cas | Acquire_holder | Pause_resume _ | Release_cas => true | _ => false end.

Definition firing (t : tick_pc) : bool :=
  match t with Tick_assert | Tick_holder => true | _ => false end.
Definition tick_handing (t : tick_pc) : bool := match t with Tick_cas => true | _ => false end.
Definition held (l : tmdspinlock) : bool := bool_decide (holder_id l <> -1).

(** The flag is the number of those who will clear it: the holder, a thread
    that is taking or giving the lock, the timer.  The timer's counter is 1
    for a held lock, less the threads that owe it an increment. *)
Record tmd_inv (s : tmd_sys) : Prop := {
  inv_flag : tmd_flag (tmd s) =
    Z.b2z (held (tmd s)) + count handing (clients s) + Z.b2z (tick_handing (tick s));
  inv_flag_le : tmd_flag (tmd s) <= 1;
  inv_timer : timer_state (tmd_timer (tmd s)) =
    Z.b2z (held (tmd s)) - count owes (clients s) - Z.b2z (firing (tick s));
  inv_owns : forall i pc, clients s !! i = Some pc -> owns pc = true -> holder_id (tmd s) = Z.of_nat i;
  inv_foreign : forall i pc, clients s !! i = Some pc -> foreign pc = true ->
    holder_id (tmd s) <> Z.of_nat i;
  inv_firing : firing (tick s) = true -> held (tmd s) = true /\ count owes (clients s) = 0;
  inv_aborted : aborted s = false
}.

Lemma owns_owes pc : owns pc = true -> owes pc = true.
Proof. by destruct pc. Qed.

(** A client access keeps the invariant when its own share is accounted for. *)
Lemma tmd_inv_client s i pc l' pc' :
  tmd_inv s -> clients s !! i = Some pc ->
  tmd_flag l' = tmd_flag (tmd s) + (Z.b2z (held l') - Z.b2z (held (tmd s)))
                + (Z.b2z (handing pc') - Z.b2z (handing pc)) ->
  tmd_flag l' <= 1 ->
  timer_state (tmd_timer l') = timer_state (tmd_timer (tmd s))
    + (Z.b2z (held l') - Z.b2z (held (tmd s))) - (Z.b2z (owes pc') - Z.b2z (owes pc)) ->
  (owns pc' = true -> holder_id l' = Z.of_nat i) ->
  (foreign pc' = true -> holder_id l' <> Z.of_nat i) ->
  (holder_id l' = holder_id (tmd s) \/
   (forall j, holder_id (tmd s) = Z.of_nat j -> j = i) /\
   (holder_id l' = Z.of_nat i \/ holder_id l' = -1)) ->
  (firing (tick s) = true -> held l' = held (tmd s) /\ owes pc' = owes pc) ->
  tmd_inv (s <| tmd := l' |> <| clients ::= <[i := pc']> |>).
Proof.
  intros [Hf Hle Ht Ho Hn Hfi Ha] Hi Hf' Hle' Ht' Ho' Hn' Hh Hfi'.
  constructor; cbn.
  - rewrite (count_insert _ _ _ _ _ Hi). lia.
  - done.
  - rewrite (count_insert _ _ _ _ _ Hi). lia.
  - intros j q. destruct (decide (j = i)) as [->|Hne].
    + rewrite list_lookup_insert_eq by (by eapply lookup_lt_Some). by intros [= <-].
    + rewrite list_lookup_insert_ne by done. intros Hq Hown. pose proof (Ho j q Hq Hown) as Hj.
      destruct Hh as [->|[Hh _]]; [done|]. by rewrite (Hh j Hj) in Hne.
  - intros j q. destruct (decide (j = i)) as [->|Hne].
    + rewrite list_lookup_insert_eq by (by eapply lookup_lt_Some). by intros [= <-].
    + rewrite list_lookup_insert_ne by done. intros Hq Hfor. pose proof (Hn j q Hq Hfor) as Hj.
      destruct Hh as [->|[_ [->| ->]]]; [done|lia|lia].
  - intros Hfire. destruct (Hfi Hfire) as [? Hz]. destruct (Hfi' Hfire) as [-> Heq].
    rewrite (count_insert _ _ _ _ _ Hi), Hz, Heq. split; [done|lia].
  - done.
Qed.

Lemma held_false l : held l = false <-> holder_id l = -1.
Proof. unfold held. rewrite bool_decide_eq_false. split; [intros H; by apply dec_stable|by intros H [] ]. Qed.
Lemma held_of_nat l i : holder_id l = Z.of_nat i -> held l = true.
Proof. intros H. apply bool_decide_eq_true. rewrite H. lia. Qed.

Lemma count_firing s : tmd_inv s -> firing (tick s) = true -> forall i pc,
  clients s !! i = Some pc -> owes pc = false.
Proof. intros [_ _ _ _ _ Hf _] H. destruct (Hf H) as [_ Hz]. by apply count_zero. Qed.

Lemma timer_op_some f s l' : timer_op f s = Some l' ->
  tick s = Tick_idle /\ l' = (tmd s) <| tmd_timer ::= f |>.
Proof. unfold timer_op. case_decide; [|done]. by intros [= <-]. Qed.

(** The flag is set and the lock not held by a client while a thread hands it over. *)
Lemma handing_state s i pc :
  tmd_inv s -> clients s !! i = Some pc -> handing pc = true ->
  tmd_flag (tmd s) = 1 /\ held (tmd s) = false /\ tick_handing (tick s) = false.
Proof.
  intros Hinv Hi Hh. pose proof (count_pos _ _ _ _ Hi Hh).
  pose proof (inv_flag _ Hinv). pose proof (inv_flag_le _ Hinv).
  destruct (held (tmd s)), (tick_handing (tick s)); cbn in *; lia.
Qed.

Lemma flag_zero s : tmd_inv s -> tmd_flag (tmd s) = 0 ->
  held (tmd s) = false /\ tick_handing (tick s) = false /\ count handing (clients s) = 0.
Proof.
  intros Hinv H0. pose proof (inv_flag _ Hinv). pose proof (count_nonneg handing (clients s)).
  destruct (held (tmd s)), (tick_handing (tick s)); cbn in *; lia.
Qed.

(** A client's share, when the holder stays. *)
Ltac own_share :=
  eapply tmd_inv_client; try done; cbn; auto; unfold held; cbn; try lia; try congruence.

Lemma client_access_inv s i pc l' pc' :
  tmd_inv s -> clients s !! i = Some pc -> client_access (Z.of_nat i) pc s = Some (l', pc') ->
  tmd_inv (s <| tmd := l' |> <| clients ::= <[i := pc']> |>).
Proof.
  intros Hinv Hi Hacc.
  pose proof (inv_flag_le _ Hinv) as Hle.
  pose proof (inv_owns _ Hinv i pc Hi) as Hown. pose proof (inv_foreign _ Hinv i pc Hi) as Hfor.
  pose proof (count_firing s Hinv) as Hfire.
  destruct pc; cbn in Hacc, Hown, Hfor; try done;
    try (apply bind_Some in Hacc as (l1 & (Ht & ->)%timer_op_some & Hacc));
    try (specialize (Hown eq_refl)); try (injection Hacc as <- <-).
  - (* Acquire_check *) case_decide; own_share.
  - (* Acquire_cas *) unfold compare_and_swap in Hacc. case_decide as H0; injection Hacc as <- <-.
    + destruct (flag_zero s Hinv H0) as (Hh & _ & _). own_share.
    + own_share.
  - (* Acquire_holder *)
    destruct (handing_state s i _ Hinv Hi eq_refl) as (Hf & Hh & _).
    assert (held ((tmd s) <| holder_id := Z.of_nat i |>) = true) as Hh' by by eapply held_of_nat.
    eapply tmd_inv_client; try done; rewrite ?Hh, ?Hh'; cbn; try lia.
    + right. split; [|by left]. intros j Hj%held_of_nat. congruence.
    + intros Hf'. destruct (inv_firing _ Hinv Hf') as [? _]. congruence.
  - (* Acquire_reset *) own_share. by rewrite Ht.
  - (* Pause_check *) case_decide; destruct k; own_share.
  - (* Pause_disable *) own_share. by rewrite Ht.
  - (* Pause_recheck *) case_decide; destruct k; own_share; intros _; lia.
  - (* Pause_resume *) destruct k; own_share; by rewrite Ht.
  - (* Critical *) own_share.
  - (* Reset_check *) rewrite decide_False by (by rewrite Hown; auto). own_share.
  - (* Reset_timer *) destruct k; own_share; by rewrite Ht.
  - (* Release_holder *)
    assert (held (tmd s) = true) as Hh by by eapply held_of_nat.
    assert (held ((tmd s) <| holder_id := -1 |>) = false) as Hh' by done.
    eapply tmd_inv_client; try done; rewrite ?Hh, ?Hh'; cbn; try lia.
    + right. split; [|by right]. intros j Hj. lia.
    + intros Hf. by specialize (Hfire Hf i _ Hi).
  - (* Release_cas *)
    destruct (handing_state s i _ Hinv Hi eq_refl) as (Hf & Hh & _).
    unfold held in Hh. own_share; rewrite ?Hf, ?Hh; vm_compute; done.
Qed.

Lemma tick_access_inv s : tmd_inv s -> tmd_inv (tick_access s).
Proof.
  intros Hinv. pose proof (count_firing s Hinv) as Hfire.
  pose proof (inv_firing _ Hinv) as Hf. pose proof (inv_flag _ Hinv) as Hflag.
  pose proof (inv_flag_le _ Hinv) as Hle. pose proof (inv_timer _ Hinv) as Ht.
  pose proof (count_nonneg owes (clients s)). pose proof (count_nonneg handing (clients s)).
  unfold tick_access. destruct (tick s) eqn:E; cbn in Hf, Hflag, Ht.
  - destruct (timer_expired _ _) eqn:Hx; [|done]. unfold timer_expired in Hx. case_decide; [|done].
    destruct (held (tmd s)) eqn:Hh; cbn in Ht; [|lia].
    destruct Hinv as [? ? ? Ho Hn ? ?]. constructor; cbn; auto; unfold held in *; cbn in *; rewrite ?Hh; cbn;
      lia.
  - destruct (Hf eq_refl) as [Hh Hz]. rewrite decide_False.
    + destruct Hinv as [? ? ? Ho Hn ? ?]. constructor; cbn; auto; rewrite ?E in *; done.
    + intros Hd%held_false. congruence.
  - destruct (Hf eq_refl) as [Hh Hz]. rewrite Hh in *.
    assert (held ((tmd s) <| holder_id := -1 |>) = false) as Hh' by done.
    destruct Hinv as [? ? ? Ho Hn ? ?]. constructor; cbn; auto; rewrite ?Hh'; cbn in *; try lia; try done.
    intros i pc Hi Hown%owns_owes. rewrite (Hfire eq_refl i pc Hi) in Hown. done.
  - destruct (held (tmd s)) eqn:Hh; cbn in Hflag; [lia|].
    destruct Hinv as [? ? ? Ho Hn ? ?].
    assert (tmd_flag (tmd s) = 1) as H1 by lia.
    assert (held ((tmd s) <| tmd_flag ::= fun f => (compare_and_swap f 1 0).2 |>) = false) as Hh' by done.
    constructor; cbn; auto; rewrite ?H1, ?Hh'; cbn in *; try lia; try done.
    change (0 = 0 + count handing (clients s) + 0). lia.
Qed.

Lemma tmd_step_inv s a s' : tmd_inv s -> tmd_step s a = Some s' -> tmd_inv s'.
Proof.
  intros Hinv H. destruct a as [i pc|i| |dt]; cbn in H.
  - destruct (clients s !! i) as [[]|] eqn:Hi; try done. destruct (entry_point pc) eqn:He; [|done].
    injection H as <-. change (tmd_inv (s <| tmd := tmd s |> <| clients ::= <[i := pc]> |>)).
    pose proof (inv_flag_le _ Hinv). destruct pc as [| | | | |[]| | | | | | | |]; try done; own_share.
  - apply bind_Some in H as (pc & Hi & H). apply bind_Some in H as ([l pc'] & Hacc & [= <-]).
    by eapply client_access_inv.
  - injection H as <-. by apply tick_access_inv.
  - injection H as <-. by destruct Hinv; constructor.
Qed.

Lemma tmd_reach_inv n s : tmd_reach n s -> tmd_inv s.
Proof.
  induction 1 as [|s a s' _ IH H]; [|by eapply tmd_step_inv].
  constructor; cbn; rewrite ?count_replicate by done; try done.
  all: intros i pc [-> _]%lookup_replicate; done.
Qed.

(** ** What does not change *)

Lemma tmd_clients_length n s : tmd_reach n s -> length (clients s) = n.
Proof.
  induction 1 as [|s a s' _ IH H]; [apply length_replicate|].
  destruct a as [i pc|i| |dt]; cbn in H.
  - repeat case_match; try done. injection H as <-. cbn. by rewrite length_insert.
  - apply bind_Some in H as (pc & Hi & H). apply bind_Some in H as ([l pc'] & Hacc & [= <-]).
    cbn. by rewrite length_insert.
  - injection H as <-. unfold tick_access. repeat case_match; done.
  - by injection H as <-.
Qed.

Lemma client_access_duration id pc s l pc' :
  client_access id pc s = Some (l, pc') -> duration (tmd_timer l) = duration (tmd_timer (tmd s)).
Proof.
  intros H. destruct pc; cbn in H; try done;
    try (apply bind_Some in H as (l1 & (Ht & ->)%timer_op_some & H)).
  2: { destruct (compare_and_swap _ _ _). by injection H as <-. }
  all: by injection H as <-.
Qed.

Lemma tmd_duration n s : tmd_reach n s -> duration (tmd_timer (tmd s)) = CLIENT_TIMEOUT.
Proof.
  induction 1 as [|s a s' _ IH H]; [done|].
  destruct a as [i pc|i| |dt]; cbn in H.
  - repeat case_match; try done. by injection H as <-.
  - apply bind_Some in H as (pc & Hi & H). apply bind_Some in H as ([l pc'] & Hacc & [= <-]).
    cbn. by rewrite (client_access_duration _ _ _ _ _ Hacc).
  - injection H as <-. unfold tick_access. repeat case_match; done.
  - by injection H as <-.
Qed.

Lemma step_other s a s' i pc :
  tmd_step s a = Some s' -> clients s !! i = Some pc -> pc <> Idle -> a <> Step i ->
  clients s' !! i = Some pc.
Proof.
  intros H Hi Hne Ha. destruct a as [j q|j| |dt]; cbn in H.
  - destruct (clients s !! j) as [[]|] eqn:Hj; try done. destruct (entry_point q); [|done].
    injection H as <-. cbn. rewrite list_lookup_insert_ne; [done|]. intros ->. congruence.
  - apply bind_Some in H as (pc' & Hj & H). apply bind_Some in H as ([l pc''] & Hacc & [= <-]).
    cbn. rewrite list_lookup_insert_ne; [done|]. congruence.
  - injection H as <-. unfold tick_access. repeat case_match; done.
  - by injection H as <-.
Qed.

(** * The promises of [tmdspinlock.h] *)

(** C25: The assertion of the timer handler that the lock is held when it
    fires never fails, in any interleaving. *)
Theorem tmdspinlock_assert_never_fails n s : tmd_reach n s -> aborted s = false.
Proof. intros H. by apply inv_aborted, (tmd_reach_inv n). Qed.

(** C24: Between a successful tmdspinlock_pause_if_owner and the reset, the
    client holds the lock, no other client does, and no step of another thread
    or of the timer changes this. *)
Theorem tmdspinlock_pause_guarantee n s i k :
  tmd_reach n s -> clients s !! i = Some (Critical k) ->
  holder_id (tmd s) = Z.of_nat i /\ tmd_flag (tmd s) = 1 /\
  (forall j k', clients s !! j = Some (Critical k') -> j = i) /\
  (forall a s', tmd_step s a = Some s' -> a <> Step i ->
     holder_id (tmd s') = Z.of_nat i /\ tmd_flag (tmd s') = 1).
Proof.
  assert (forall t, tmd_reach n t -> clients t !! i = Some (Critical k) ->
            holder_id (tmd t) = Z.of_nat i /\ tmd_flag (tmd t) = 1) as Hown.
  { intros t Hr%tmd_reach_inv Hi. pose proof (inv_owns _ Hr i _ Hi eq_refl) as Hh. split; [done|].
    apply held_of_nat in Hh. pose proof (inv_flag _ Hr) as Hf. pose proof (inv_flag_le _ Hr).
    rewrite Hh in Hf. pose proof (count_nonneg handing (clients t)).
    destruct (tick_handing (tick t)); cbn in Hf; lia. }
  intros Hr Hi. destruct (Hown s Hr Hi) as [Hh Hf]. split_and!; [done|done| |].
  - intros j k' Hj. pose proof (inv_owns _ (tmd_reach_inv n s Hr) j _ Hj eq_refl). lia.
  - intros a s' Hs Ha. apply Hown; [by eapply tmd_reach_step|]. by eapply step_other.
Qed.

(** When the lock word is free there is no holder and the timer is off:
    its thread does nothing. *)
Theorem tmdspinlock_free_timer_disabled n s :
  tmd_reach n s -> tmd_flag (tmd s) = 0 ->
  holder_id (tmd s) = -1 /\ timer_state (tmd_timer (tmd s)) <= 0 /\ tick_access s = s.
Proof.
  intros Hr H0. pose proof (tmd_reach_inv n s Hr) as Hinv.
  destruct (flag_zero s Hinv H0) as (Hh & Hc & _). pose proof (inv_timer _ Hinv) as Ht.
  pose proof (count_nonneg owes (clients s)). rewrite Hh in Ht. cbn in Ht.
  assert (timer_state (tmd_timer (tmd s)) <= 0) as Hle by (destruct (firing (tick s)); cbn in Ht; lia).
  split_and!; [by apply held_false|done|]. unfold tick_access. destruct (tick s) eqn:E; try done.
  - unfold timer_expired. rewrite decide_False by lia. done.
  - destruct (inv_firing _ Hinv) as [? _]; [by rewrite E|congruence].
  - destruct (inv_firing _ Hinv) as [? _]; [by rewrite E|congruence].
Qed.

Theorem tmdspinlock_counter_bounds n s :
  tmd_reach n s -> - Z.of_nat n - 1 <= timer_state (tmd_timer (tmd s)) <= 1.
Proof.
  intros Hr. pose proof (tmd_reach_inv n s Hr) as Hinv. rewrite (inv_timer _ Hinv).
  pose proof (count_nonneg owes (clients s)). pose proof (count_le owes (clients s)) as Hl.
  rewrite (tmd_clients_length n s Hr) in Hl.
  destruct (held (tmd s)), (firing (tick s)); cbn; lia.
Qed.

(** The milliseconds since the last reset, at the width of [int]. *)
Lemma expired_after t now :
  duration t = CLIENT_TIMEOUT -> timer_state t = 1 ->
  CLIENT_TIMEOUT * 1000 <= now - start_time t < 2147483648 * 1000 -> timer_expired now t = true.
Proof.
  intros Hd Hs Ht. unfold timer_expired. rewrite decide_True, Hd by done.
  unfold CLIENT_TIMEOUT, CLOCKS_PER_SEC in *. set (d := now - start_time t) in *.
  rewrite Z.quot_div_nonneg by lia.
  replace (d * 1000) with (1000 * d) by lia. change 1000000 with (1000 * 1000).
  rewrite Z.div_mul_cancel_l by lia.
  pose proof (Z.div_le_lower_bound d 1000 1000 ltac:(lia) ltac:(lia)).
  pose proof (Z.div_lt_upper_bound d 1000 2147483648 ltac:(lia) ltac:(lia)).
  rewrite int_wrap_id; [lia|]. apply int_ok_spec. unfold INT_MIN, INT_MAX. lia.
Qed.

(** C26: A lock held for CLIENT_TIMEOUT while no client is in the middle of a
    call and its holder makes none is freed by four accesses of the timer
    thread. *)
Theorem tmdspinlock_expires n s :
  tmd_reach n s -> tick s = Tick_idle -> held (tmd s) = true ->
  (forall i pc, clients s !! i = Some pc -> pc = Idle) ->
  CLIENT_TIMEOUT * 1000 <= clock s - start_time (tmd_timer (tmd s)) < 2147483648 * 1000 ->
  let s' := Nat.iter 4 tick_access s in
  holder_id (tmd s') = -1 /\ tmd_flag (tmd s') = 0 /\ tick s' = Tick_idle /\
  timer_state (tmd_timer (tmd s')) = 0 /\ aborted s' = false.
Proof.
  intros Hr Hi Hh Hc Ht. pose proof (tmd_reach_inv n s Hr) as Hinv.
  assert (forall f, f Idle = false -> count f (clients s) = 0) as Hz.
  { intros f Hf. apply count_zero. intros i pc Hp. by rewrite (Hc i pc Hp). }
  pose proof (inv_timer _ Hinv) as Hs. rewrite Hh, Hi, (Hz owes) in Hs by done. cbn in Hs.
  pose proof (inv_flag _ Hinv) as Hf. rewrite Hh, Hi, (Hz handing) in Hf by done. cbn in Hf.
  assert (timer_expired (clock s) (tmd_timer (tmd s)) = true) as Hx.
  { apply expired_after; [by apply (tmd_duration n)|lia|done]. }
  assert (holder_id (tmd s) <> -1) as Hd by (intros Hd%held_false; congruence).
  pose proof (inv_aborted _ Hinv) as Ha. destruct s as [[f h t] now tk cl ab]. cbn in *. subst.
  unfold tick_access at 4. cbn. rewrite Hx. unfold tick_access at 3. cbn.
  rewrite decide_False by done. split_and!; done.
Qed.

(** * A thread that runs alone computes the functions *)

(** The steps of one thread, up to its return. *)
Fixpoint run_alone (fuel : nat) (i : nat) (s : tmd_sys) : tmd_sys :=
  match fuel with
  | O => s
  | S f =>
      if decide (clients s !! i = Some Idle) then s
      else match tmd_step s (Step i) with Some s' => run_alone f i s' | None => s end
  end.

(** What [handle_append_file] and [handle_lock_release] do with the lock. *)
Definition append_calls (clock id : Z) : M tmdspinlock Z :=
  rc ← tmdspinlock_pause_if_owner id;
  if decide (rc < 0) then mret rc else tmdspinlock_reset_if_owner clock id.

Definition release_calls (clock id : Z) : M tmdspinlock Z :=
  rc ← tmdspinlock_pause_if_owner id;
  (if decide (rc = 0) then _ ← tmdspinlock_reset_if_owner clock id; skip else skip);;
  tmdspinlock_release id.

Section alone.
Context (s : tmd_sys) (i : nat) (Hi : clients s !! i = Some Idle) (Htick : tick s = Tick_idle).

Definition at_pc (l : tmdspinlock) (pc : tmd_pc) : tmd_sys :=
  s <| tmd := l |> <| clients := <[i := pc]> (clients s) |>.

Lemma at_pc_lookup l pc : clients (at_pc l pc) !! i = Some pc.
Proof. apply list_lookup_insert_eq. by eapply lookup_lt_Some. Qed.

Lemma alone_step f l pc l' pc' :
  pc <> Idle -> client_access (Z.of_nat i) pc (at_pc l pc) = Some (l', pc') ->
  run_alone (S f) i (at_pc l pc) = run_alone f i (at_pc l' pc').
Proof.
  intros Hne Hacc. cbn [run_alone]. rewrite at_pc_lookup, decide_False by congruence.
  unfold tmd_step. rewrite at_pc_lookup. cbn [mbind option_bind]. rewrite Hacc. f_equal.
  unfold at_pc, upd. cbn. by rewrite list_insert_insert_eq.
Qed.

Lemma alone_idle f l : run_alone f i (at_pc l Idle) = s <| tmd := l |>.
Proof.
  assert (at_pc l Idle = s <| tmd := l |>) as Heq.
  { unfold at_pc. by rewrite list_insert_id. }
  destruct f; cbn [run_alone]; [done|]. rewrite at_pc_lookup. by rewrite decide_True.
Qed.

Lemma call_at pc : entry_point pc = true -> tmd_step s (Call i pc) = Some (at_pc (tmd s) pc).
Proof. intros He. cbn. by rewrite Hi, He. Qed.
End alone.

#[local] Arguments run_alone : simpl never.
#[local] Arguments at_pc : simpl never.

(** One access of [alone], whose test is decided by the context. *)
Ltac astep :=
  erewrite alone_step;
  [|done..|cbn; unfold timer_op, at_pc, compare_and_swap; cbn;
     rewrite ?decide_True, ?decide_False by (done || congruence || tauto); reflexivity].

(** Evaluates a call of the first half, whose tests the context decides. *)
Ltac evaluate H :=
  repeat first
    [ rewrite decide_False in H by (tauto || lia || congruence)
    | rewrite decide_True in H by (done || lia || congruence)
    | progress (rewrite ?run_bind in H; unfold gets, modify, skip in H; cbn in H) ].

Theorem tmdspinlock_acquire_alone s i rc l :
  clients s !! i = Some Idle -> tick s = Tick_idle ->
  tmdspinlock_acquire (clock s) (Z.of_nat i) (tmd s) = Ok (rc, l) ->
  exists s1, tmd_step s (Call i Acquire_check) = Some s1 /\ run_alone 4 i s1 = s <| tmd := l |>.
Proof.
  intros Hi Ht H. eexists. split; [by apply call_at|].
  unfold tmdspinlock_acquire in H. rewrite run_bind in H. cbn in H.
  case_decide as Hh; [injection H as _ <-; astep; by apply alone_idle|]. cbn in H.
  rewrite run_bind in H. unfold gets, compare_and_swap in H. case_decide as Hf; [|done]. injection H as _ <-.
  do 4 astep. by apply alone_idle.
Qed.

Theorem tmdspinlock_append_alone s i rc l :
  clients s !! i = Some Idle -> tick s = Tick_idle ->
  append_calls (clock s) (Z.of_nat i) (tmd s) = Ok (rc, l) ->
  exists s1, tmd_step s (Call i (Pause_check For_append)) = Some s1 /\
    run_alone 6 i s1 = s <| tmd := l |>.
Proof.
  intros Hi Ht H. eexists. split; [by apply call_at|].
  unfold append_calls, tmdspinlock_pause_if_owner, tmdspinlock_reset_if_owner in H.
  destruct (decide (holder_id (tmd s) = Z.of_nat i)) as [Hh|Hh]; evaluate H; injection H as _ <-.
  - do 6 astep. by apply alone_idle.
  - astep. by apply alone_idle.
Qed.

(** Access by access, a thread that releases the lock with no other
    thread running has the effect of the sequence of calls handle_lock_release
    makes. *)
Theorem tmdspinlock_release_alone s i rc l :
  clients s !! i = Some Idle -> tick s = Tick_idle ->
  release_calls (clock s) (Z.of_nat i) (tmd s) = Ok (rc, l) ->
  exists s1, tmd_step s (Call i (Pause_check For_release)) = Some s1 /\
    run_alone 11 i s1 = s <| tmd := l |>.
Proof.
  intros Hi Ht H. eexists. split; [by apply call_at|].
  unfold release_calls, tmdspinlock_release, tmdspinlock_pause_if_owner, tmdspinlock_reset_if_owner in H.
  destruct (decide (holder_id (tmd s) = Z.of_nat i)) as [Hh|Hh]; evaluate H; injection H as _ <-.
  - do 11 astep. by apply alone_idle.
  - do 2 astep. by apply alone_idle.
Qed.
