(* ===== verification/RaftStorage.v ===== *)
(** [raft_storage_manager.c]: the state file, the snapshot directories and the
    snapshot iterator, over the file system of [Posix.v]. *)
From S2P Require Import Prelude Libc Posix RaftTypes.

#[local] Open Scope string_scope.
#[local] Open Scope Z_scope.
#[local] Open Scope list_scope.

(** [%i] and [%s]. *)
Definition itoa (z : Z) : string := pretty z.
Definition to_bytes (s : string) : bytes := String.list_ascii_of_string s.
Definition of_bytes (s : bytes) : string := String.string_of_list_ascii s.

Definition PATH_SIZE : nat := 256.
Definition N_FILES : Z := 100.

(** [char path[256]] filled by [sprintf]. *)
Definition path_buf (s : string) : M world string := lift (sprintf PATH_SIZE s).

(** * The state file *)

Definition state_file (dir : string) : string := dir +:+ "raft_state".
Definition tmp_state_file (dir : string) : string := dir +:+ "tmp_raft_state".

Definition Raft_load_state (filedir : string) : M world unit :=
  raft_file ← path_buf (state_file filedir);
  d ← gets disk;
  match fopen_r d raft_file with
  | None => throw NullDeref
  | Some c =>
      match f_image c with
      | None => throw ShortRead
      | Some r => rmod (fun _ => r)
      end
  end.

(** The file system calls of [Raft_save_state], in order: [fopen] (which
    truncates), [fwrite] and [rename]. *)
Definition Raft_save_state_calls (r : raft_state) : list (fs raft_state -> option (fs raft_state)) :=
  let tmp := tmp_state_file (files_dir r) in
  [ (fun d => fopen_w d tmp empty_file);
    (fun d => fopen_w d tmp (mkFile (Some r) []));
    (fun d => Some (rename d tmp (state_file (files_dir r)))) ].

Definition Raft_save_state : M world unit :=
  r ← rself;
  _ ← path_buf (tmp_state_file (files_dir r));
  _ ← path_buf (state_file (files_dir r));
  for_ (Raft_save_state_calls r) fs_call.

(** * Snapshots *)

Definition snapshot_path (dir : string) (id : Z) : string :=
  if decide (id = -1) then dir else dir +:+ "snapshot_" +:+ itoa id +:+ "/".

Definition file_name (file_ind : Z) : string := "file_" +:+ itoa file_ind.

Definition Raft_get_snapshot_path (id : Z) : M world string :=
  dir ← rget files_dir; path_buf (snapshot_path dir id).

Definition Raft_create_snapshot_dir (snapshot_id : Z) : M world unit :=
  dir ← Raft_get_snapshot_path snapshot_id; fs_do (fun d => mkdir d dir).

Definition Raft_remove_snapshot (snapshot_id : Z) : M world unit :=
  path ← Raft_get_snapshot_path snapshot_id;
  for_ (seqZ 0 N_FILES) (fun file_ind =>
    p ← path_buf (path +:+ file_name file_ind);
    fs_do (fun d => remove d p));;
  path ← Raft_get_snapshot_path snapshot_id;
  fs_do (fun d => rmdir d path).

Definition Raft_clean_main_files : M world unit :=
  for_ (seqZ 0 N_FILES) (fun file_ind =>
    dir ← rget files_dir;
    p ← path_buf (dir +:+ file_name file_ind);
    fs_call (fun d => fopen_w d p empty_file)).

Definition Raft_copy_snapshot (source_snapshot_id dest_snapshot_id : Z) : M world unit :=
  dir1 ← Raft_get_snapshot_path source_snapshot_id;
  dir2 ← Raft_get_snapshot_path dest_snapshot_id;
  for_ (seqZ 0 N_FILES) (fun file_ind =>
    p1 ← path_buf (dir1 +:+ file_name file_ind);
    d ← gets disk;
    match fopen_r d p1 with
    | None => skip
    | Some c =>
        p2 ← path_buf (dir2 +:+ file_name file_ind);
        fs_call (fun d => fopen_w d p2 c)
    end).

(** [filename] and [buffer] are [char[256]] and [char[1024]] arrays. *)
Definition Raft_add_to_snapshot (snapshot_id : Z) (create_new_sn : bool)
    (filename buffer : bytes) : M world unit :=
  dir ← Raft_get_snapshot_path snapshot_id;
  when create_new_sn (fs_do (fun d => mkdir d dir));;
  name ← lift (c_str FILENAME_SIZE filename);
  p ← path_buf (dir +:+ of_bytes name);
  text ← lift (c_str BUFFER_SIZE buffer);
  fs_call (fun d => fopen_a d p text).

(** * The snapshot iterator *)

(** [FILE *f] is the bytes not read yet, or [NULL]. *)
Record snapshot_iterator := { it_f : option bytes; it_fileno : Z; it_snapshot_id : Z }.

#[export] Instance snapshot_iterator_eta : Eta snapshot_iterator := fun it =>
  {| it_f := it_f it; it_fileno := it_fileno it; it_snapshot_id := it_snapshot_id it |}.

Definition snapshot_it_init (snapshot_id : Z) : snapshot_iterator :=
  {| it_f := None; it_fileno := -1; it_snapshot_id := snapshot_id |}.

(** [while(it->f == NULL)]: the next file that can be opened among [l]. *)
Fixpoint open_next (dir : string) (l : list Z) : M world (option (Z * bytes)) :=
  match l with
  | [] => mret None
  | fileno :: l' =>
      p ← path_buf (dir +:+ file_name fileno);
      d ← gets disk;
      match fopen_r d p with
      | Some c => mret (Some (fileno, f_text c))
      | None => open_next dir l'
      end
  end.

(** The answer is [None] for [return 0]; otherwise the iterator after the
    chunk, the file name and the chunk. *)
Definition snapshot_it_get_next (it : snapshot_iterator)
    : M world (option (snapshot_iterator * bytes * bytes)) :=
  dir ← Raft_get_snapshot_path (it_snapshot_id it);
  opened ← match it_f it with
           | Some rest => mret (Some (it_fileno it, rest))
           | None => open_next dir (seqZ (it_fileno it + 1) (N_FILES - (it_fileno it + 1)))
           end;
  match opened with
  | None => mret None
  | Some (fileno, rest) =>
      let chunk := take BUFFER_SIZE rest in
      let f := if (length chunk <? BUFFER_SIZE)%nat then None else Some (drop BUFFER_SIZE rest) in
      mret (Some ({| it_f := f; it_fileno := fileno; it_snapshot_id := it_snapshot_id it |},
                  to_bytes (file_name fileno), chunk))
  end.

(** * Lengths of paths *)

Lemma length_app_string a b : String.length (a +:+ b) = (String.length a + String.length b)%nat.
Proof. induction a as [|c a IH]; [done|]. exact (f_equal S IH). Qed.

Lemma length_of_bytes s : String.length (of_bytes s) = length s.
Proof. induction s as [|c s IH]; [done|]. exact (f_equal S IH). Qed.

Lemma length_to_bytes s : length (to_bytes s) = String.length s.
Proof. induction s as [|c s IH]; [done|]. exact (f_equal S IH). Qed.
