(* ===== verification/StorageSpec.v ===== *)
(** What [raft_storage_manager.c] promises: the saved state survives a crash,
    and the snapshot directories are copied, cleared and read back whole. *)
From S2P Require Import Prelude Libc Posix RaftTypes RaftStorage.

#[local] Open Scope string_scope.
#[local] Open Scope Z_scope.
#[local] Open Scope list_scope.

(** * Saving and loading the state *)

(** The server's directory exists and the paths fit their buffers. *)
Record disk_ready (w : world) : Prop := {
  ready_dir : is_dir_path (files_dir (raft w));
  ready_exists : files_dir (raft w) ∈ dirs (disk w);
  ready_length : (String.length (files_dir (raft w)) + 40 < 256)%nat
}.

Lemma run_path_buf s w : (String.length s < 256)%nat -> path_buf s w = Ok (s, w).
Proof.
  intros H. unfold path_buf, lift, sprintf, PATH_SIZE. by rewrite (proj2 (Nat.ltb_lt _ _) H).
Qed.

Lemma tmp_ne_state dir : tmp_state_file dir <> state_file dir.
Proof. intros E%string_app_inj. discriminate. Qed.

Lemma dir_of_state dir : is_dir_path dir -> dir_of (state_file dir) = dir.
Proof. intros H. by apply dir_of_app. Qed.
Lemma dir_of_tmp dir : is_dir_path dir -> dir_of (tmp_state_file dir) = dir.
Proof. intros H. by apply dir_of_app. Qed.

(** The calls, up to a crash after [k] of them. *)
Fixpoint run_calls (l : list (fs raft_state -> option (fs raft_state))) (d : fs raft_state)
    : option (fs raft_state) :=
  match l with
  | [] => Some d
  | c :: l' => d' ← c d; run_calls l' d'
  end.

(** The disk after the whole sequence. *)
Definition saved_disk (r : raft_state) (d : fs raft_state) : fs raft_state :=
  d <| files ::= fun m => <[state_file (files_dir r) := mkFile (Some r) []]>
                            (delete (tmp_state_file (files_dir r)) m) |>.

Lemma save_calls r d :
  is_dir_path (files_dir r) -> files_dir r ∈ dirs d ->
  run_calls (Raft_save_state_calls r) d = Some (saved_disk r d).
Proof.
  intros Hd Hin. unfold Raft_save_state_calls. cbn [run_calls]. unfold fopen_w.
  rewrite dir_of_tmp by done. rewrite decide_True by done. cbn. rewrite decide_True by done. cbn.
  unfold rename. cbn. rewrite lookup_insert_eq. unfold saved_disk, upd. cbn. f_equal. f_equal.
  by rewrite !delete_insert_eq.
Qed.

Lemma for_fs_calls l w :
  for_ l fs_call w =
  match run_calls l (disk w) with
  | Some d => Ok (tt, w <| disk := d |>)
  | None => Fault NullDeref
  end.
Proof.
  revert w. induction l as [|c l IH]; intros w; [by destruct w|]. cbn. rewrite run_bind.
  unfold fs_call at 1. destruct (c (disk w)) as [d|]; cbn; [|done]. rewrite IH. cbn.
  by destruct (run_calls l d).
Qed.

Lemma save_state_total w :
  disk_ready w -> Raft_save_state w = Ok (tt, w <| disk := saved_disk (raft w) (disk w) |>).
Proof.
  intros [Hd Hin Hl]. unfold Raft_save_state, rself, gets. rewrite run_bind. cbn beta iota.
  rewrite run_bind, run_path_buf by (unfold tmp_state_file; rewrite length_app_string; cbn; lia).
  rewrite run_bind, run_path_buf by (unfold state_file; rewrite length_app_string; cbn; lia).
  by rewrite for_fs_calls, save_calls.
Qed.

Lemma load_state_file dir d r w :
  (String.length dir + 40 < 256)%nat -> files d !! state_file dir = Some (mkFile (Some r) []) ->
  disk w = d -> Raft_load_state dir w = Ok (tt, w <| raft := r |>).
Proof.
  intros Hl Hf <-. unfold Raft_load_state. rewrite run_bind, run_path_buf.
  - unfold gets. rewrite run_bind. cbn beta iota. unfold fopen_r. by rewrite Hf.
  - unfold state_file. rewrite length_app_string. cbn. lia.
Qed.

(** What Raft_save_state writes, Raft_load_state reads back. *)
Theorem save_load_roundtrip w r0 :
  disk_ready w ->
  exists w', Raft_save_state w = Ok (tt, w') /\ raft w' = raft w /\
    Raft_load_state (files_dir (raft w)) (w' <| raft := r0 |>) = Ok (tt, w').
Proof.
  intros Hr. eexists. split; [by apply save_state_total|]. split; [done|].
  erewrite load_state_file; [reflexivity|apply Hr| |reflexivity]. cbn. by rewrite lookup_insert_eq.
Qed.

(** C22: A crash between any two calls of Raft_save_state leaves the state
    file as it was or with the new state in full, and no other file but the
    temporary one is touched. *)
Theorem save_state_crash_atomic w k :
  disk_ready w ->
  exists d, run_calls (take k (Raft_save_state_calls (raft w))) (disk w) = Some d /\
    (files d !! state_file (files_dir (raft w)) = files (disk w) !! state_file (files_dir (raft w)) \/
     files d !! state_file (files_dir (raft w)) = Some (mkFile (Some (raft w)) [])) /\
    forall p, p <> state_file (files_dir (raft w)) -> p <> tmp_state_file (files_dir (raft w)) ->
      files d !! p = files (disk w) !! p.
Proof.
  intros [Hd Hin _]. pose proof (tmp_ne_state (files_dir (raft w))) as Hne.
  unfold Raft_save_state_calls. destruct k as [|[|[|k]]]; rewrite ?take_nil;
    cbn [take run_calls]; rewrite ?take_nil; cbn [run_calls]; [eauto| | |];
    unfold fopen_w; rewrite dir_of_tmp, decide_True by done; cbn;
    rewrite ?decide_True by done; eexists; (split; [done|]); unfold rename; cbn.
  - rewrite lookup_insert_ne by done. split; [by left|]. intros p _ Hp. by rewrite lookup_insert_ne.
  - rewrite !lookup_insert_ne by done. split; [by left|]. intros p _ Hp. by rewrite !lookup_insert_ne.
  - rewrite lookup_insert_eq. cbn. rewrite lookup_insert_eq. split; [by right|].
    intros p Hp1 Hp2. rewrite lookup_insert_ne by done. rewrite lookup_delete_ne by done.
    by rewrite !lookup_insert_ne by done.
Qed.

(** * Paths of snapshot files *)

Lemma has_slash_go x s : has_slash (pretty_N_go x s) = has_slash s.
Proof.
  revert s. induction (N.lt_wf_0 x) as [x _ IH]. intros s.
  destruct (decide (x = 0)%N) as [->|Hx]; [by rewrite pretty_N_go_0|].
  rewrite pretty_N_go_step by lia. rewrite IH by (apply N.div_lt; lia). cbn [has_slash].
  assert (bool_decide (pretty_N_char (x `mod` 10) = slash) = false) as ->; [|done].
  apply bool_decide_eq_false. unfold pretty_N_char. repeat case_match; vm_compute; congruence.
Qed.

Lemma pretty_N_no_slash (x : N) : has_slash (pretty x) = false.
Proof. unfold pretty, pretty_N. case_decide; [by vm_compute|]. by rewrite has_slash_go. Qed.

Lemma itoa_no_slash z : has_slash (itoa z) = false.
Proof.
  unfold itoa, pretty, pretty_Z. destruct z as [|p|p].
  - by vm_compute.
  - apply (pretty_N_no_slash (N.pos p)).
  - rewrite has_slash_app. apply (pretty_N_no_slash (N.pos p)).
Qed.

Lemma file_name_no_slash k : has_slash (file_name k) = false.
Proof. unfold file_name. rewrite has_slash_app. by rewrite itoa_no_slash. Qed.

Lemma file_name_inj i j : file_name i = file_name j -> i = j.
Proof. intros H%string_app_inj. by apply (inj pretty). Qed.

Lemma is_dir_path_slash x : is_dir_path (x +:+ "/").
Proof.
  unfold is_dir_path. induction x as [|c x IH]; [done|].
  change (String c x +:+ "/") with (String c (x +:+ "/")). cbn [dir_of has_slash].
  rewrite has_slash_app. rewrite !orb_true_r. by rewrite IH.
Qed.

Lemma snapshot_path_is_dir dir id : is_dir_path dir -> is_dir_path (snapshot_path dir id).
Proof.
  intros Hd. unfold snapshot_path. case_decide; [done|]. apply is_dir_path_app; [done| |].
  - by rewrite !has_slash_app, !orb_true_r.
  - rewrite <- app_assoc_string. apply is_dir_path_slash.
Qed.

Lemma dir_of_snapshot_file dir id k :
  is_dir_path dir -> dir_of (snapshot_path dir id +:+ file_name k) = snapshot_path dir id.
Proof. intros Hd. apply dir_of_app; [by apply snapshot_path_is_dir|apply file_name_no_slash]. Qed.

Lemma snapshot_path_inj dir a b : snapshot_path dir a = snapshot_path dir b -> a = b.
Proof.
  unfold snapshot_path. intros E. repeat case_decide; try congruence.
  - exfalso. apply (f_equal String.length) in E. rewrite !length_app_string in E. cbn in E. lia.
  - exfalso. apply (f_equal String.length) in E. rewrite !length_app_string in E. cbn in E. lia.
  - apply string_app_inj, string_app_inj, (f_equal strip_last) in E.
    rewrite !strip_last_app in E. by apply (inj pretty).
Qed.

Lemma snapshot_file_inj dir a b i j :
  is_dir_path dir -> snapshot_path dir a +:+ file_name i = snapshot_path dir b +:+ file_name j ->
  a = b /\ i = j.
Proof.
  intros Hd H. pose proof (f_equal dir_of H) as H'. rewrite !dir_of_snapshot_file in H' by done.
  rewrite H' in H. apply snapshot_path_inj in H'. by apply string_app_inj, file_name_inj in H.
Qed.

Definition file_numbers : list Z := seqZ 0 N_FILES.

Lemma file_name_short k : k ∈ file_numbers -> (String.length (file_name k) <= 7)%nat.
Proof.
  assert (Forall (fun k => String.length (file_name k) <= 7)%nat file_numbers) as H
    by (apply (bool_decide_unpack _); vm_compute; exact I).
  intros Hk. rewrite list.Forall_forall in H. by apply H.
Qed.

(** * Loops over the files of a directory *)

Lemma for_files (l : list Z) body (path : Z -> string) (new : Z -> option (file raft_state)) w :
  NoDup (path <$> l) ->
  (forall k d, k ∈ l -> dirs d = dirs (disk w) ->
     (forall p, p ∉ path <$> l -> files d !! p = files (disk w) !! p) ->
     files d !! path k = files (disk w) !! path k ->
     exists d', body k (w <| disk := d |>) = Ok (tt, w <| disk := d' |>) /\ dirs d' = dirs d /\
       files d' !! path k = new k /\ forall p, p <> path k -> files d' !! p = files d !! p) ->
  exists d', for_ l body w = Ok (tt, w <| disk := d' |>) /\ dirs d' = dirs (disk w) /\
    (forall k, k ∈ l -> files d' !! path k = new k) /\
    (forall p, p ∉ path <$> l -> files d' !! p = files (disk w) !! p).
Proof.
  intros Hnd Hb.
  assert (forall l1 l2, l = l1 ++ l2 -> forall d, dirs d = dirs (disk w) ->
    (forall k, k ∈ l1 -> files d !! path k = new k) ->
    (forall p, p ∉ path <$> l1 -> files d !! p = files (disk w) !! p) ->
    exists d', for_ l2 body (w <| disk := d |>) = Ok (tt, w <| disk := d' |>) /\
      dirs d' = dirs (disk w) /\ (forall k, k ∈ l -> files d' !! path k = new k) /\
      (forall p, p ∉ path <$> l -> files d' !! p = files (disk w) !! p)) as Hloop.
  { intros l1 l2. revert l1. induction l2 as [|k l2 IH]; intros l1 Hl d Hdirs Hold Hrest.
    - rewrite app_nil_r in Hl. subst l1. by exists d.
    - assert (path k ∉ path <$> l1) as Hk.
      { rewrite Hl, fmap_app in Hnd. apply list.NoDup_app in Hnd as (_ & Hdis & _). intros Hin.
        apply (Hdis _ Hin). rewrite fmap_cons. by left. }
      destruct (Hb k d) as (d1 & Hrun & Hd1 & Hnew & Hsame); [set_solver|done| |by apply Hrest|].
      { intros p Hp. apply Hrest. rewrite Hl, fmap_app in Hp. set_solver. }
      cbn [for_]. rewrite run_bind, Hrun. apply (IH (l1 ++ [k])).
      + by rewrite <- app_assoc.
      + by rewrite Hd1.
      + intros k' [Hk'| ->%list_elem_of_singleton]%elem_of_app; [|done].
        rewrite Hsame; [by apply Hold|]. intros Heq. apply Hk. rewrite <- Heq.
        by apply list_elem_of_fmap_2.
      + intros p Hp. rewrite fmap_app in Hp. rewrite Hsame by set_solver. apply Hrest. set_solver. }
  destruct (Hloop [] l eq_refl (disk w)) as (d' & Hrun & H); [done|set_solver|done|].
  exists d'. split; [|done]. rewrite <- Hrun. by destruct w.
Qed.

Lemma file_paths_nodup dir id :
  is_dir_path dir -> NoDup ((fun k => snapshot_path dir id +:+ file_name k) <$> file_numbers).
Proof.
  intros Hd. apply list.NoDup_fmap_2_strong; [|apply NoDup_seqZ].
  intros i j _ _ H. by destruct (snapshot_file_inj _ _ _ _ _ Hd H).
Qed.

(** * The snapshot directories *)

(** The paths of the files of snapshot [id] fit. *)
Definition paths_fit (dir : string) (id : Z) : Prop :=
  (String.length (snapshot_path dir id) + 7 < 256)%nat.

Lemma run_snapshot_path id w :
  paths_fit (files_dir (raft w)) id ->
  Raft_get_snapshot_path id w = Ok (snapshot_path (files_dir (raft w)) id, w).
Proof.
  intros H. unfold Raft_get_snapshot_path, rget, gets. rewrite run_bind. cbn beta iota.
  apply run_path_buf. unfold paths_fit in H. lia.
Qed.

Lemma run_file_path dir id k w :
  paths_fit dir id -> k ∈ file_numbers ->
  path_buf (snapshot_path dir id +:+ file_name k) w = Ok (snapshot_path dir id +:+ file_name k, w).
Proof.
  intros H Hk. apply run_path_buf. rewrite length_app_string.
  pose proof (file_name_short k Hk). unfold paths_fit in H. lia.
Qed.

Section snapshots.
Context (w : world) (dir : string) (Hw : files_dir (raft w) = dir) (Hdir : is_dir_path dir).

Definition snap_file (id k : Z) : string := snapshot_path dir id +:+ file_name k.
Definition snap_files (id : Z) : list string := snap_file id <$> file_numbers.

Lemma dir_of_snap_file id k : dir_of (snap_file id k) = snapshot_path dir id.
Proof. by apply dir_of_snapshot_file. Qed.

Lemma snap_file_other a b k : a <> b -> snap_file a k ∉ snap_files b.
Proof.
  intros Hne (k' & Heq & _)%list_elem_of_fmap. by destruct (snapshot_file_inj dir a b k k' Hdir Heq).
Qed.

(** Copying a snapshot: the files the source has, whole; nothing else changes. *)
Lemma copy_snapshot_total a b :
  paths_fit dir a -> paths_fit dir b -> a <> b -> snapshot_path dir b ∈ dirs (disk w) ->
  exists d, Raft_copy_snapshot a b w = Ok (tt, w <| disk := d |>) /\ dirs d = dirs (disk w) /\
    (forall k, k ∈ file_numbers -> files d !! snap_file b k =
       match files (disk w) !! snap_file a k with
       | Some c => Some c | None => files (disk w) !! snap_file b k end) /\
    (forall p, p ∉ snap_files b -> files d !! p = files (disk w) !! p).
Proof.
  intros Ha Hb Hne Hin. unfold Raft_copy_snapshot.
  rewrite run_bind, run_snapshot_path, Hw by by rewrite Hw.
  rewrite run_bind, run_snapshot_path, Hw by by rewrite Hw.
  apply (for_files _ _ (snap_file b)); [by apply file_paths_nodup|].
  intros k d Hk Hd Hrest Hsame. rewrite run_bind, run_file_path by done.
  unfold gets at 1. rewrite run_bind. cbn beta iota. cbn [disk upd]. unfold fopen_r.
  fold (snap_file a k). rewrite (Hrest (snap_file a k)) by by apply snap_file_other.
  destruct (files (disk w) !! snap_file a k) as [c|].
  - rewrite run_bind, run_file_path by done. fold (snap_file b k). unfold fs_call. cbn [disk upd].
    unfold fopen_w. rewrite dir_of_snap_file, decide_True by by rewrite Hd.
    eexists. split; [reflexivity|]. cbn. split; [done|]. split; [by rewrite lookup_insert_eq|].
    intros p Hp. by rewrite lookup_insert_ne.
  - exists d. split; [by destruct w|]. split; [done|]. by split.
Qed.

(** Removing a snapshot leaves none of its files. *)
Lemma remove_snapshot_total id :
  paths_fit dir id ->
  exists d, Raft_remove_snapshot id w = Ok (tt, w <| disk := d |>) /\
    (dirs d = dirs (disk w) \/ dirs d = dirs (disk w) ∖ {[snapshot_path dir id]}) /\
    (forall k, k ∈ file_numbers -> files d !! snap_file id k = None) /\
    (forall p, p ∉ snap_files id -> files d !! p = files (disk w) !! p).
Proof.
  intros Hid. unfold Raft_remove_snapshot.
  rewrite run_bind, run_snapshot_path, Hw by by rewrite Hw.
  match goal with |- context [for_ ?l ?b] =>
    destruct (for_files l b (snap_file id) (fun _ => None) w) as (d & Hrun & Hd & Hnew & Hrest);
    [by apply file_paths_nodup| |rewrite run_bind, Hrun] end.
  { intros k d Hk _ _ _. rewrite run_bind, run_file_path by done. unfold fs_do, modify.
    eexists. split; [reflexivity|]. split; [done|]. split; [cbn; by rewrite lookup_delete_eq|].
    intros p Hp. cbn. by rewrite lookup_delete_ne. }
  cbn beta iota. rewrite run_bind, run_snapshot_path by (cbn; by rewrite Hw). cbn [raft upd files_dir]. rewrite Hw.
  unfold fs_do, modify. eexists. split; [reflexivity|]. cbn. unfold rmdir.
  destruct (dir_empty _ _); cbn; rewrite Hd; (split; [first [by left|by right]|]); by split.
Qed.

(** The main files are there, and empty. *)
Lemma clean_main_files_total :
  paths_fit dir (-1) -> dir ∈ dirs (disk w) ->
  exists d, Raft_clean_main_files w = Ok (tt, w <| disk := d |>) /\ dirs d = dirs (disk w) /\
    (forall k, k ∈ file_numbers -> files d !! snap_file (-1) k = Some empty_file) /\
    (forall p, p ∉ snap_files (-1) -> files d !! p = files (disk w) !! p).
Proof.
  intros Hfit Hin. unfold Raft_clean_main_files. apply for_files; [by apply file_paths_nodup|].
  intros k d Hk Hd _ _. unfold rget, gets. rewrite run_bind. cbn beta iota. cbn [raft upd]. rewrite Hw.
  change dir with (snapshot_path dir (-1)). rewrite run_bind, run_file_path by done.
  fold (snap_file (-1) k). unfold fs_call. cbn [disk upd]. unfold fopen_w.
  rewrite dir_of_snap_file, decide_True by by rewrite Hd.
  eexists. split; [reflexivity|]. cbn. split; [done|]. split; [by rewrite lookup_insert_eq|].
  intros p Hp. by rewrite lookup_insert_ne.
Qed.
End snapshots.

(** * Reading a snapshot back *)

(** The existing files among [l], and what the iterator has still to hand out. *)
Definition existing (d : fs raft_state) (dir : string) (id : Z) (l : list Z) : list (Z * bytes) :=
  omap (fun k => (fun c => (k, f_text c)) <$> files d !! snap_file dir id k) l.

Definition remaining (d : fs raft_state) (dir : string) (it : snapshot_iterator) : list (Z * bytes) :=
  (match it_f it with Some rest => [(it_fileno it, rest)] | None => [] end) ++
  existing d dir (it_snapshot_id it) (seqZ (it_fileno it + 1) (N_FILES - (it_fileno it + 1))).

(** The whole iteration: the chunks with their file names, when the iterator
    has answered 0 within [fuel] calls. *)
Fixpoint run_iterator (fuel : nat) (it : snapshot_iterator) : M world (option (list (bytes * bytes))) :=
  match fuel with
  | O => mret None
  | S fuel' =>
      res ← snapshot_it_get_next it;
      match (res : option (snapshot_iterator * bytes * bytes)) with
      | None => mret (Some [])
      | Some (it', name, chunk) =>
          rest ← run_iterator fuel' it';
          mret (cons (name, chunk) <$> rest)
      end
  end.

Section iterator.
Context (w : world) (dir : string) (Hw : files_dir (raft w) = dir).

Lemma open_next_first id first n :
  paths_fit dir id -> 0 <= first -> first + n = N_FILES -> 0 <= n ->
  match existing (disk w) dir id (seqZ first n) with
  | [] => open_next (snapshot_path dir id) (seqZ first n) w = Ok (None, w)
  | (k, t) :: l =>
      open_next (snapshot_path dir id) (seqZ first n) w = Ok (Some (k, t), w) /\
      first <= k < N_FILES /\ l = existing (disk w) dir id (seqZ (k + 1) (N_FILES - (k + 1)))
  end.
Proof.
  intros Hfit. intros H1 H2 Hn. revert first H1 H2. pattern n. apply natlike_ind; [done| |done]; clear n Hn.
  intros n Hn IH first Hf Hl. rewrite seqZ_cons by lia. replace (Z.pred (Z.succ n)) with n by lia.
  unfold existing. cbn [omap list_omap open_next].
  rewrite run_bind, run_file_path; [|done|apply elem_of_seqZ; lia]. unfold gets. rewrite run_bind.
  cbn beta iota. fold (snap_file dir id first). unfold fopen_r.
  destruct (files (disk w) !! snap_file dir id first) as [c|]; cbn [fmap option_fmap option_map].
  - split; [done|]. split; [lia|]. unfold existing. do 2 f_equal; lia.
  - specialize (IH (Z.succ first) ltac:(lia) ltac:(lia)). unfold existing in IH.
    destruct (omap _ (seqZ (Z.succ first) n)) as [|[k t] l]; [done|].
    destruct IH as (? & ? & ?). split; [done|]. split; [lia|done].
Qed.

(** One call hands out the next chunk of what remains. *)
Lemma get_next_remaining it :
  paths_fit dir (it_snapshot_id it) -> -1 <= it_fileno it < N_FILES ->
  match remaining (disk w) dir it with
  | [] => snapshot_it_get_next it w = Ok (None, w)
  | (k, t) :: l => exists it',
      snapshot_it_get_next it w =
        Ok (Some (it', to_bytes (file_name k), take BUFFER_SIZE t), w) /\
      it_snapshot_id it' = it_snapshot_id it /\ -1 <= it_fileno it' < N_FILES /\
      remaining (disk w) dir it' =
        if (length t <? BUFFER_SIZE)%nat then l else (k, drop BUFFER_SIZE t) :: l
  end.
Proof.
  intros Hfit Hno. unfold snapshot_it_get_next. rewrite run_bind, run_snapshot_path, Hw by by rewrite Hw.
  assert (forall t : bytes, (length (take BUFFER_SIZE t) <? BUFFER_SIZE)%nat = (length t <? BUFFER_SIZE)%nat) as Htake.
  { intros t. rewrite length_take.
    destruct (Nat.ltb_spec (length t) BUFFER_SIZE), (Nat.ltb_spec (BUFFER_SIZE `min` length t) BUFFER_SIZE); lia. }
  unfold remaining. destruct (it_f it) as [rest|]; cbn [app].
  - rewrite run_bind, run_ret. cbv zeta. rewrite Htake. eexists. split; [reflexivity|].
    cbn [it_snapshot_id it_fileno it_f]. split; [done|]. split; [done|].
    by destruct (length rest <? BUFFER_SIZE)%nat.
  - pose proof (open_next_first (it_snapshot_id it) (it_fileno it + 1)
      (N_FILES - (it_fileno it + 1)) Hfit ltac:(lia) ltac:(lia) ltac:(lia)) as Ho.
    destruct (existing (disk w) dir (it_snapshot_id it) _) as [|[k t] l]; rewrite run_bind.
    + by rewrite Ho.
    + destruct Ho as (-> & Hk & Hl). cbv zeta. rewrite Htake. eexists. split; [reflexivity|].
      cbn [it_snapshot_id it_fileno it_f]. split; [done|]. split; [lia|]. rewrite Hl.
      by destruct (length t <? BUFFER_SIZE)%nat.
Qed.

Definition named (k : Z) (l : list (bytes * bytes)) : bytes :=
  flat_map (fun '(n, c) => if decide (n = to_bytes (file_name k)) then c else []) l.
Definition content (k : Z) (l : list (Z * bytes)) : bytes :=
  flat_map (fun '(i, t) => if decide (i = k) then t else []) l.

Lemma to_bytes_inj a b : to_bytes a = to_bytes b -> a = b.
Proof.
  intros H. apply (f_equal String.string_of_list_ascii) in H. unfold to_bytes in H.
  by rewrite !String.string_of_list_ascii_of_string in H.
Qed.

Lemma run_iterator_remaining l it :
  paths_fit dir (it_snapshot_id it) -> -1 <= it_fileno it < N_FILES ->
  remaining (disk w) dir it = l ->
  exists fuel chunks, run_iterator fuel it w = Ok (Some chunks, w) /\
    Forall (fun c => (length c.2 <= BUFFER_SIZE)%nat) chunks /\
    forall k, named k chunks = content k l.
Proof.
  intros Hfit Hno Hrem.
  remember (sum_list_with (fun x => S (length x.2)) l) as m eqn:Hm.
  revert l it Hfit Hno Hrem Hm. induction (lt_wf m) as [m _ IH]. intros l it Hfit Hno Hrem Hm.
  pose proof (get_next_remaining it Hfit Hno) as Hn. rewrite Hrem in Hn. destruct l as [|[k t] l].
  - exists 1%nat, []. cbn [run_iterator]. rewrite run_bind, Hn. by repeat constructor.
  - destruct Hn as (it' & Hrun & Hid & Hno' & Hrem'). rewrite <- Hid in Hfit.
    destruct (fun H => IH _ H _ it' Hfit Hno' Hrem' eq_refl) as (fuel & chunks & Hr & Hc & Hall).
    { subst m. cbn [sum_list_with snd].
      destruct (Nat.ltb_spec (length t) BUFFER_SIZE); cbn [sum_list_with snd]; [lia|].
      rewrite length_drop. unfold BUFFER_SIZE in *. lia. }
    exists (S fuel), ((to_bytes (file_name k), take BUFFER_SIZE t) :: chunks).
    cbn [run_iterator]. rewrite run_bind, Hrun, run_bind, Hr. split; [done|]. split.
    + constructor; [|done]. cbn [snd]. rewrite length_take. lia.
    + intros j. cbn [named flat_map]. fold (named j chunks). rewrite Hall. cbn [content flat_map].
      fold (content j l). destruct (decide (k = j)) as [->|Hne].
      * rewrite decide_True by done. destruct (Nat.ltb_spec (length t) BUFFER_SIZE).
        -- by rewrite take_ge by lia.
        -- cbn [content flat_map]. rewrite decide_True by done. by rewrite app_assoc, take_drop.
      * rewrite decide_False by (intros H%to_bytes_inj%file_name_inj; done).
        destruct (length t <? BUFFER_SIZE)%nat; [done|]. cbn [content flat_map]. by rewrite decide_False.
Qed.
End iterator.

Lemma existing_cons d dir id j l :
  existing d dir id (j :: l) =
  match files d !! snap_file dir id j with
  | Some c => (j, f_text c) :: existing d dir id l
  | None => existing d dir id l
  end.
Proof. unfold existing. cbn. by destruct (files d !! snap_file dir id j). Qed.

Lemma content_absent d dir id k l : k ∉ l -> content k (existing d dir id l) = [].
Proof.
  induction l as [|i l IH]; intros Hi; [done|]. rewrite existing_cons.
  destruct (files d !! snap_file dir id i); cbn [content flat_map];
    [rewrite decide_False by set_solver; cbn [app]|]; apply IH; set_solver.
Qed.

Lemma content_existing d dir id k l :
  NoDup l -> k ∈ l -> content k (existing d dir id l) = text_of d (snap_file dir id k).
Proof.
  unfold text_of. induction 1 as [|j l Hj Hnd IH]; intros Hk; [by apply not_elem_of_nil in Hk|].
  rewrite existing_cons. apply elem_of_cons in Hk as [->|Hk].
  - destruct (files d !! snap_file dir id j); cbn [content flat_map default];
      [rewrite decide_True by done|]; fold (content j (existing d dir id l));
      rewrite (content_absent _ _ _ _ _ Hj); [apply app_nil_r|done].
  - destruct (files d !! snap_file dir id j); cbn [content flat_map]; [|by apply IH].
    rewrite decide_False by (by intros ->). by apply IH.
Qed.


(** * Paths that fit *)

Lemma length_go n x s :
  (x < 10 ^ N.of_nat n)%N -> (String.length (pretty_N_go x s) <= n + String.length s)%nat.
Proof.
  revert x s. induction n as [|n IH]; intros x s Hx.
  - rewrite N.pow_0_r in Hx. assert (x = 0%N) as -> by lia. rewrite pretty_N_go_0. lia.
  - destruct (decide (x = 0)%N) as [->|Hne]; [rewrite pretty_N_go_0; lia|].
    rewrite pretty_N_go_step by lia.
    etrans; [apply IH|cbn [String.length]; lia].
    apply N.Div0.div_lt_upper_bound. rewrite Nat2N.inj_succ, N.pow_succ_r' in Hx. done.
Qed.

Lemma length_itoa z : int_ok z = true -> 0 <= z -> (String.length (itoa z) <= 10)%nat.
Proof.
  rewrite int_ok_spec. unfold INT_MAX. intros Hz H0. unfold itoa, pretty, pretty_Z.
  destruct z as [|p|p]; [cbn; lia| |lia]. change (pretty p) with (pretty (N.pos p)).
  unfold pretty, pretty_N. case_decide; [lia|]. etrans; [apply (length_go 10)|cbn; lia].
  cbn. lia.
Qed.

Lemma paths_fit_int dir id :
  (String.length dir + 40 < 256)%nat -> id = -1 \/ (0 <= id /\ int_ok id = true) -> paths_fit dir id.
Proof.
  unfold paths_fit, snapshot_path. intros Hd [->|[H0 Hid]]; [rewrite decide_True by done; lia|].
  rewrite decide_False by lia. rewrite !length_app_string. pose proof (length_itoa id Hid H0).
  change (String.length "snapshot_") with 9%nat. change (String.length "/") with 1%nat. lia.
Qed.

(** * Appending to a snapshot *)

Lemma add_to_snapshot_ok id new f b w u w' :
  Raft_add_to_snapshot id new f b w = Ok (u, w') ->
  exists d, w' = w <| disk := d |> /\
    (dirs d = dirs (disk w) \/ dirs d = {[snapshot_path (files_dir (raft w)) id]} ∪ dirs (disk w)) /\
    (forall p, files d !! p ≫= f_image = files (disk w) !! p ≫= f_image) /\
    (forall p, text_of d p =
       if decide (p = snapshot_path (files_dir (raft w)) id +:+ of_bytes (until_nul f))
       then text_of (disk w) p ++ until_nul b else text_of (disk w) p) /\
    (forall p, p <> snapshot_path (files_dir (raft w)) id +:+ of_bytes (until_nul f) ->
       files d !! p = files (disk w) !! p).
Proof.
  unfold Raft_add_to_snapshot, Raft_get_snapshot_path, path_buf, lift, sprintf.
  intros (dir & w1 & H1 & H)%bind_ok. apply bind_ok in H1 as (d0 & w2 & [= <- <-] & H1).
  destruct (_ <? PATH_SIZE)%nat; [|done]. injection H1 as <- <-.
  set (dir := snapshot_path (files_dir (raft w)) id) in *.
  apply bind_ok in H as ([] & w1 & Hm & H).
  assert (exists d1, w1 = w <| disk := d1 |> /\ files d1 = files (disk w) /\
            (dirs d1 = dirs (disk w) \/ dirs d1 = {[dir]} ∪ dirs (disk w))) as (d1 & -> & Hf1 & Hd1).
  { destruct new; cbn in Hm; injection Hm as <-.
    - eexists. split; [reflexivity|]. unfold mkdir. case_decide; cbn; auto.
    - exists (disk w). split; [by destruct w|]. auto. }
  clear Hm. apply bind_ok in H as (name & w2 & Hn & H).
  destruct (c_str FILENAME_SIZE f) as [n|] eqn:Ef; [|done]. injection Hn as <- <-.
  apply c_str_ok in Ef as [-> _].
  apply bind_ok in H as (p & w2 & Hp & H). destruct (_ <? PATH_SIZE)%nat; [|done]. injection Hp as <- <-.
  apply bind_ok in H as (t & w2 & Ht & H). destruct (c_str BUFFER_SIZE b) as [t'|] eqn:Eb; [|done].
  injection Ht as <- <-. apply c_str_ok in Eb as [-> _]. unfold fs_call in H. cbn [disk upd] in H.
  destruct (fopen_a d1 _ _) as [d|] eqn:Ha; [|done]. injection H as _ <-.
  exists d. split; [done|]. split; [|split; [|split]].
  - apply fopen_w_dirs in Ha. by rewrite Ha.
  - intros q. rewrite (image_fopen_a _ _ _ _ q Ha). by rewrite Hf1.
  - intros q. rewrite (text_of_fopen_a _ _ _ _ q Ha). unfold text_of. rewrite Hf1.
    destruct (decide (_ = q)) as [<-|]; [by rewrite decide_True|by rewrite decide_False].
  - intros q Hq. unfold fopen_a in Ha. rewrite (fopen_w_lookup _ _ _ _ q Ha), decide_False by done.
    by rewrite Hf1.
Qed.
