(* ===== verification/RaftUtils.v ===== *)
(** [raft_utils.c]: log indices.  An absolute index counts every entry ever
    appended; the array [raft->log] holds the entries from [start_log_index]
    on.  A [raft_log_entry_t *] is the index of the cell it points to, or
    [NULL] ([None]); it may point past the array, and using it is then a fault. *)
From S2P Require Import Prelude Libc Posix RaftTypes RaftStorage.

#[local] Open Scope string_scope.
#[local] Open Scope Z_scope.
#[local] Open Scope list_scope.

Definition Raft_get_log (r : raft_state) (abs_index : Z) : option Z :=
  if (abs_index <? start_log_index r) || (log_count r <=? abs_index) then None
  else Some (abs_index - start_log_index r).

(** Reading and writing through a [raft_log_entry_t *]. *)
Definition log_deref (p : option Z) : M world raft_log_entry :=
  match p with
  | None => throw NullDeref
  | Some i => log ← rget raft_log; lift (arr_get log i)
  end.

Definition log_store (p : option Z) (e : raft_log_entry) : M world unit :=
  match p with
  | None => throw NullDeref
  | Some i =>
      log ← rget raft_log;
      log' ← lift (arr_set log i e);
      rmod (fun r => r <| raft_log := log' |>)
  end.

Definition Raft_get_log_term (abs_index : Z) : M world Z :=
  r ← rself;
  match Raft_get_log r abs_index with
  | None => mret (-1)
  | Some i => e ← lift (arr_get (raft_log r) i); mret (le_term e)
  end.

Definition Raft_absli2relli (r : raft_state) (absolute_log_index : Z) : Z :=
  if (absolute_log_index <? start_log_index r) ||
     (start_log_index r + LOG_SIZE <=? absolute_log_index) then -1
  else absolute_log_index - start_log_index r.

Definition Raft_relli2absli (r : raft_state) (relative_log_index : Z) : Z :=
  relative_log_index + start_log_index r.

(** * Printing *)

(** What [Raft_print_state] formats for the [i]-th cell of the array. *)
Definition print_entry (r : raft_state) (i : Z) : outcome string :=
  e ← arr_get (raft_log r) i;
  mret ((if decide (le_type e = LEADER_LOG) then "l" else "") +:+
        itoa (i + start_log_index r) +:+ "(" +:+ itoa (le_term e) +:+ ")" +:+
        (if decide (i + start_log_index r <= commit_index r) then "c" else "") +:+
        (if decide (i < log_count r - start_log_index r - 1) then ", " else "")).

Definition STATE_STR_SIZE : nat := 1024.

Definition tab : string := String (Ascii.ascii_of_nat 9) "".
Definition newline : string := String (Ascii.ascii_of_nat 10) "".

(** The text is built in [char state_str[1024]], one [sprintf] after another. *)
Fixpoint print_entries (r : raft_state) (l : list Z) (acc : string) : outcome string :=
  match l with
  | [] => sprintf STATE_STR_SIZE (acc +:+ "]" +:+ newline)
  | i :: l' =>
      s ← print_entry r i;
      acc' ← sprintf STATE_STR_SIZE (acc +:+ s);
      print_entries r l' acc'
  end.

Definition print_state_text (r : raft_state) : outcome string :=
  acc ← sprintf STATE_STR_SIZE
          (itoa (raft_id r) +:+ "(" +:+ itoa (current_term r) +:+ ")" +:+ tab +:+
           itoa (start_log_index r) +:+ "[");
  print_entries r (seqZ 0 (log_count r - start_log_index r)) acc.

(** The text goes to the standard output, which is not modelled. *)
Definition Raft_print_state : M world unit :=
  r ← rself; _ ← lift (print_state_text r); skip.
