(* ===== verification/RaftFollower.v ===== *)
(** [raft_follower.c], and [Raft_commit_update] of [raft.c] which it calls. *)
From S2P Require Import Prelude Libc Posix RaftTypes RaftStorage RaftUtils.

(** What [raft->commit_handler] points to: the function that applies a
    committed transaction to the disk.  The program's ([Server.v]) reads the
    directory of its process in a global, which holds what [main] hands to the
    raft module as [files_dir]. *)
Class CommitHandler :=
  commit_handler : string -> list raft_transaction_entry -> fs raft_state -> outcome (fs raft_state).

Definition run_commit_handler `{CommitHandler} (data : list raft_transaction_entry) : M world unit :=
  dir ← rget files_dir;
  d ← gets disk;
  d' ← lift (commit_handler dir data d);
  fs_do (fun _ => d').

Section follower.
Context `{CommitHandler}.

Definition commit_one (i : Z) : M world unit :=
  r ← rself;
  e ← log_deref (Raft_get_log r i);
  if decide (le_type e = LEADER_LOG) then skip
  else
    r ← rself;
    e ← log_deref (Raft_get_log r i);
    run_commit_handler (le_data e).

Definition Raft_commit_update (new_commit_index : Z) : M world unit :=
  c ← rget commit_index;
  first ← int_of (c + 1);
  for_ (seqZ first (new_commit_index - first + 1)) commit_one;;
  rmod (fun r => r <| commit_index := new_commit_index |>).

Definition Raft_convert_to_follower (term : Z) : M world unit :=
  rmod (fun r => r <| current_term := term |> <| nvoted := 0 |> <| nblocked := 0 |>
                   <| voted_for := -1 |> <| state := FOLLOWER |>);;
  snap ← rget install_snapshot_id;
  if decide (snap <> -1) then
    Raft_remove_snapshot snap;;
    rmod (fun r => r <| install_snapshot_id := -1 |> <| install_snapshot_index := -1 |>)
  else skip.

(** The three-way test of [Raft_handle_append_request] that refuses. *)
Definition append_refused (a : raft_append_request) : M world bool :=
  r ← rself;
  orM (ar_term a <? current_term r)
    (orM (log_count r <=? ar_prev_log_index a)
      (t ← Raft_get_log_term (ar_prev_log_index a);
       mret (bool_decide (t <> ar_prev_log_term a)))).

(** The branch of a heartbeat. *)
Definition append_heartbeat (a : raft_append_request) : M world unit :=
  rmod (fun r => r <| state := FOLLOWER |>);;
  c ← rget commit_index;
  when (c <? ar_leader_commit a) (Raft_commit_update (ar_leader_commit a)).

(** The branch that stores an entry. *)
Definition append_store (a : raft_append_request) : M world unit :=
  rmod (fun r => r <| state := FOLLOWER |>);;
  index ← int_of (ar_prev_log_index a + 1);
  n ← rget log_count;
  conflict ← andM (index <? n)
               (t ← Raft_get_log_term index;
                mret (bool_decide (t <> le_term (ar_entry a))));
  (if (conflict : bool) then
     m ← int_of (index + 1); rmod (fun r => r <| log_count := m |>)
   else when (n =? index)
     (m ← int_of (n + 1); rmod (fun r => r <| log_count := m |>)));;
  r ← rself;
  log_store (Raft_get_log r index) (ar_entry a);;
  c ← rget commit_index;
  when (c <? ar_leader_commit a)
    (Raft_commit_update (if index <? ar_leader_commit a then index else ar_leader_commit a)).

Definition Raft_handle_append_request (addr : sockaddr_in) (a : raft_append_request) : M world unit :=
  raft_lock_acquire;;
  t ← rget current_term;
  when (t <? ar_term a) (Raft_convert_to_follower (ar_term a));;
  r ← rself;
  refused ← append_refused a;
  success ← (if (refused : bool) then mret 0
             else if ar_entries_n a =? 0 then append_heartbeat a;; mret 1
             else append_store a;; mret 1);
  Raft_save_state;;
  UDP_send addr (RESPONSE {| rp_id := raft_id r; rp_term := current_term r;
                             rp_success := success; rp_request_id := ar_request_id a |});;
  raft_lock_release.

(** The test of [Raft_handle_install_snapshot_request] that refuses. *)
Definition install_refused (r : raft_state) (q : raft_install_snapshot_request) : bool :=
  (ir_term q <? current_term r) ||
  (bool_decide (install_snapshot_id r <> -1) &&
   bool_decide (install_snapshot_id r <> ir_snapshot_id q)) ||
  bool_decide (install_snapshot_index r + 1 <> ir_index q).

(** The last packet: the snapshot replaces the log.  The answer is the
    snapshot to remove ([outdated_snapshot]). *)
Definition install_done (q : raft_install_snapshot_request) : M world Z :=
  rmod (fun r => r <| snapshot_in_progress := 0 |>);;
  outdated_snapshot ← rget start_log_index;
  c ← int_of (ir_snapshot_id q - 1);
  rmod (fun r => r <| start_log_index := ir_snapshot_id q |>
                   <| log_count := ir_snapshot_id q |>
                   <| commit_index := c |> <| last_applied_index := c |>
                   <| install_snapshot_index := -1 |> <| install_snapshot_id := -1 |>);;
  Raft_copy_snapshot (ir_snapshot_id q) (-1);;
  Raft_save_state;;
  mret outdated_snapshot.

(** Any other packet: one more chunk of the snapshot. *)
Definition install_chunk (q : raft_install_snapshot_request) : M world unit :=
  r ← rself;
  Raft_add_to_snapshot (ir_snapshot_id q) (bool_decide (install_snapshot_id r = -1))
    (ir_filename q) (ir_buffer q);;
  i ← int_of (install_snapshot_index r + 1);
  rmod (fun r => r <| snapshot_in_progress := 1 |>
                   <| install_snapshot_id := ir_snapshot_id q |>
                   <| install_snapshot_index := i |>);;
  Raft_save_state.

Definition Raft_handle_install_snapshot_request (addr : sockaddr_in)
    (q : raft_install_snapshot_request) : M world unit :=
  raft_lock_acquire;;
  t ← rget current_term;
  when (t <? ir_term q) (Raft_convert_to_follower (ir_term q);; Raft_save_state);;
  r ← rself;
  res ← (if install_refused r q then mret (0, 0)
         else if negb (ir_done q =? 0) then s ← install_done q; mret (s, 1)
         else install_chunk q;; mret (0, 1));
  UDP_send addr (RESPONSE {| rp_id := raft_id r; rp_term := current_term r;
                             rp_success := (res : Z * Z).2; rp_request_id := ir_request_id q |});;
  raft_lock_release;;
  if decide (res.1 <> 0) then Raft_remove_snapshot res.1 else skip.
End follower.

(** The promise of a commit handler to the raft module: it does not touch a
    dumped structure or a directory. *)
Class CommitHandlerOk `{CommitHandler} := {
  commit_handler_image : forall dir data d d' p, commit_handler dir data d = Ok d' ->
    files d' !! p ≫= f_image = files d !! p ≫= f_image;
  commit_handler_dirs : forall dir data d d', commit_handler dir data d = Ok d' -> dirs d' = dirs d
}.
Arguments CommitHandlerOk _ : clear implicits.

(** What a transaction appends to the file [f]: its entries up to the first
    empty name, those that name [f], in order. *)
Fixpoint applied (f : bytes) (data : list raft_transaction_entry) : bytes :=
  match data with
  | [] => []
  | e :: data' =>
      if first_is_nul (filename e) then []
      else (if decide (until_nul (filename e) = f) then until_nul (buffer e) else []) ++ applied f data'
  end.

(** The files of a transaction are named without a directory. *)
Definition plain_data (data : list raft_transaction_entry) : Prop :=
  Forall (fun e => has_slash (of_bytes (until_nul (filename e))) = false) data.

(** The promise to those who read the files: the handler appends the
    transaction to the files of the directory [dir], and plain names lead to no
    other directory. *)
Class CommitHandlerAppends `{CommitHandler} := {
  commit_handler_text : forall dir data d d' f, commit_handler dir data d = Ok d' ->
    is_dir_path dir -> dir ∈ dirs d -> has_slash (of_bytes f) = false ->
    text_of d' (dir +:+ of_bytes f) = text_of d (dir +:+ of_bytes f) ++ applied f data;
  commit_handler_other : forall dir data d d' p, commit_handler dir data d = Ok d' ->
    is_dir_path dir -> plain_data data -> dir_of p <> dir -> files d' !! p = files d !! p
}.
Arguments CommitHandlerAppends _ : clear implicits.
