(* ===== verification/RaftLeader.v ===== *)
(** [raft_leader.c].  A leader thread is a state machine: [leader_pc] is the
    point where it waits for the lock, and a segment runs from taking the lock
    to giving it back. *)
From S2P Require Import Prelude Libc Posix RaftTypes RaftStorage RaftUtils RaftFollower.

(** [uninit] is the part of the stack packet that a heartbeat leaves unset. *)
Definition Raft_send_append_entry_request (uninit : raft_log_entry)
    (follower_id : Z) (addr : sockaddr_in) : M world unit :=
  r ← rself;
  next_ind ← idx_get next_index follower_id;
  prev ← int_of (next_ind - 1);
  prev_term ← Raft_get_log_term prev;
  request_id ← idx_get last_request_id follower_id;
  payload ← (if next_ind =? log_count r then mret (0, uninit)
             else e ← log_deref (Raft_get_log r next_ind); mret (1, e));
  UDP_send addr (APPEND {|
    ar_term := current_term r; ar_leader_id := raft_id r;
    ar_prev_log_index := prev; ar_prev_log_term := prev_term;
    ar_entry := (payload : Z * raft_log_entry).2; ar_entries_n := payload.1;
    ar_leader_commit := commit_index r; ar_request_id := request_id |}).

(** * Sending a snapshot *)

(** The locals of [Raft_send_snapshot] while it waits for an answer. *)
Record send_state := {
  ss_it : snapshot_iterator;
  ss_ind : Z;
  ss_packet : raft_install_snapshot_request
}.

Inductive leader_pc :=
  | Leader_loop
  | Snapshot_wait
  | Snapshot_send (s : send_state)
  | Leader_exit.

(** [UDP_Write] inside [while(request_id == last_request_id[follower_id])],
    up to the release of the lock before [usleep]. *)
Definition snapshot_transmit (addr : sockaddr_in) (s : send_state) : M world leader_pc :=
  UDP_send addr (INSTALL_SNAPSHOT (ss_packet s));;
  raft_lock_release;;
  mret (Snapshot_send s).

(** The next chunk, or the closing packet when there is none left. *)
Definition snapshot_next (follower_id : Z) (addr : sockaddr_in) (s : send_state)
    : M world leader_pc :=
  res ← snapshot_it_get_next (ss_it s);
  request_id ← idx_get last_request_id follower_id;
  let p := ss_packet s in
  match res with
  | Some (it, fname, chunk) =>
      ind ← int_of (ss_ind s + 1);
      snapshot_transmit addr {| ss_it := it; ss_ind := ind; ss_packet :=
        {| ir_term := ir_term p; ir_leader_id := ir_leader_id p; ir_snapshot_id := ir_snapshot_id p;
           ir_index := ss_ind s; ir_done := 0; ir_request_id := request_id;
           ir_filename := fname; ir_buffer := chunk |} |}
  | None =>
      snapshot_transmit addr {| ss_it := ss_it s; ss_ind := ss_ind s; ss_packet :=
        {| ir_term := ir_term p; ir_leader_id := ir_leader_id p; ir_snapshot_id := ir_snapshot_id p;
           ir_index := ss_ind s; ir_done := 1; ir_request_id := request_id;
           ir_filename := ir_filename p; ir_buffer := ir_buffer p |} |}
  end.

(** The start of [Raft_send_snapshot], lock held: wait while a snapshot is in
    progress, then send the first chunk.  [uninit] is the unset stack packet. *)
Definition snapshot_start (uninit : raft_install_snapshot_request)
    (follower_id : Z) (addr : sockaddr_in) : M world leader_pc :=
  busy ← rget snapshot_in_progress;
  if decide (busy <> 0) then raft_lock_release;; mret Snapshot_wait
  else
    n ← rget n_followers_receiving_snapshots;
    n' ← int_of (n + 1);
    rmod (fun r => r <| n_followers_receiving_snapshots := n' |>);;
    r ← rself;
    snapshot_next follower_id addr {| ss_it := snapshot_it_init (start_log_index r); ss_ind := 0;
      ss_packet :=
        {| ir_term := current_term r; ir_leader_id := raft_id r;
           ir_snapshot_id := start_log_index r; ir_index := ir_index uninit;
           ir_done := ir_done uninit; ir_request_id := ir_request_id uninit;
           ir_filename := ir_filename uninit; ir_buffer := ir_buffer uninit |} |}.

(** [raft->n_followers_receiving_snapshots --; return;], then the release in
    [Raft_leader_thread]. *)
Definition snapshot_return : M world leader_pc :=
  n ← rget n_followers_receiving_snapshots;
  n' ← int_of (n - 1);
  rmod (fun r => r <| n_followers_receiving_snapshots := n' |>);;
  raft_lock_release;;
  mret Leader_loop.

(** After [usleep], lock held: resend, give up, go on, or finish. *)
Definition snapshot_resume (follower_id : Z) (addr : sockaddr_in) (s : send_state)
    : M world leader_pc :=
  request_id ← idx_get last_request_id follower_id;
  if decide (ir_request_id (ss_packet s) = request_id) then snapshot_transmit addr s
  else
    answer ← idx_get last_request_response follower_id;
    if decide (answer = 0) then snapshot_return
    else if decide (ir_done (ss_packet s) = 0) then snapshot_next follower_id addr s
    else
      start ← rget start_log_index;
      idx_set next_index follower_id start;;
      m ← int_of (start - 1);
      idx_set match_index follower_id m;;
      snapshot_return.

(** * The leader thread *)

Definition Raft_leader_thread (uninit_e : raft_log_entry) (uninit_s : raft_install_snapshot_request)
    (follower_id : Z) (addr : sockaddr_in) (pc : leader_pc) : M world leader_pc :=
  match pc with
  | Leader_exit => mret Leader_exit
  | Leader_loop =>
      raft_lock_acquire;;
      st ← rget state;
      if decide (st <> LEADER) then raft_lock_release;; mret Leader_exit
      else
        next ← idx_get next_index follower_id;
        start ← rget start_log_index;
        if next <? start then snapshot_start uninit_s follower_id addr
        else
          Raft_send_append_entry_request uninit_e follower_id addr;;
          raft_lock_release;;
          mret Leader_loop
  | Snapshot_wait =>
      raft_lock_acquire;; snapshot_start uninit_s follower_id addr
  | Snapshot_send s =>
      raft_lock_acquire;; snapshot_resume follower_id addr s
  end.

(** * Becoming the leader *)

(** The lock is held on entry and released here. *)
Definition Raft_convert_to_leader : M world unit :=
  rmod (fun r => r <| n_followers_receiving_snapshots := 0 |>);;
  n ← rget log_count;
  n' ← int_of (n + 1);
  rmod (fun r => r <| log_count := n' |>);;
  r ← rself;
  let p := Raft_get_log r (log_count r - 1) in
  e ← log_deref p;
  log_store p (e <| le_term := current_term r |> <| le_n_servers_replicated := 1 |>
                 <| le_type := LEADER_LOG |>);;
  for_ (seqZ 0 (MAX_SERVER_ID + 1)) (fun i =>
    n ← rget log_count;
    idx_set next_index i n;;
    idx_set match_index i 0;;
    idx_set last_request_id i 0;;
    idx_set last_request_response i (-1));;
  Raft_print_state;;
  Raft_save_state;;
  rmod (fun r => r <| state := LEADER |>);;
  raft_lock_release;;
  r ← rself;
  for_ (config r) (fun s =>
    if decide (server_id s = raft_id r) then skip
    else pthread_create (Raft_leader_thread_start (server_id s) (raft_socket s))).

(** * Answers *)

Section leader.
Context `{CommitHandler}.

(** [++Raft_get_log(raft, n)->n_servers_replicated]. *)
Definition count_replica (n : Z) : M world Z :=
  r ← rself;
  let p := Raft_get_log r n in
  e ← log_deref p;
  k ← int_of (le_n_servers_replicated e + 1);
  log_store p (e <| le_n_servers_replicated := k |>);;
  mret k.

Definition Raft_handle_append_response (p : raft_response_packet) : M world unit :=
  (if rp_success p =? 0 then idx_add next_index (rp_id p) (-1)
   else
     n ← idx_get next_index (rp_id p);
     r ← rself;
     when (n <? log_count r)
       (majority ← andM (commit_index r <? n)
                     (t ← Raft_get_log_term n;
                      andM (t =? current_term r)
                        (k ← count_replica n; mret (N_SERVERS <? k * 2)));
        when majority (Raft_commit_update n);;
        idx_set match_index (rp_id p) n;;
        idx_add next_index (rp_id p) 1));;
  idx_add last_request_id (rp_id p) 1;;
  Raft_save_state.

Definition Raft_handle_install_response (p : raft_response_packet) : M world unit :=
  idx_add last_request_id (rp_id p) 1;;
  Raft_save_state.
End leader.
