(* ===== verification/RaftCandidate.v ===== *)
(** [raft_candidate.c]: elections and votes.  The election thread is a state
    machine like the leader thread; the clock is an input of its segments. *)
From S2P Require Import Prelude Libc Posix RaftTypes RaftStorage RaftUtils RaftFollower RaftLeader.

(** * The election thread *)

(** [Raft_attempt_to_elect] up to the first release of the lock, which the
    caller holds. *)
Definition Raft_start_election : M world unit :=
  t ← rget current_term;
  t' ← int_of (t + 1);
  rmod (fun r => r <| current_term := t' |> <| voted_for := raft_id r |> <| state := CANDIDATE |>
                   <| nvoted := 1 |> <| nblocked := 0 |>);;
  Raft_save_state;;
  r ← rself;
  last_term ← Raft_get_log_term (log_count r - 1);
  for_ (config r) (fun s =>
    if decide (server_id s = raft_id r) then skip
    else UDP_send (raft_socket s) (VOTE {|
           vr_term := current_term r; vr_candidate_id := raft_id r;
           vr_last_log_index := log_count r - 1; vr_last_log_term := last_term |}));;
  raft_lock_release.

Inductive election_pc :=
  | Elect_start
  | Elect_poll
  | Elect_exit.

(** One turn of the loop: [time_diff_msec] and [timeout] come from the clock
    and [rand].  Answering [Elect_start] leaves the lock held. *)
Definition Raft_poll_election (time_diff_msec timeout : Z) : M world election_pc :=
  raft_lock_acquire;;
  r ← rself;
  if decide (state r <> CANDIDATE) then raft_lock_release;; mret Elect_exit
  else if (timeout <? time_diff_msec) && (nblocked r * 2 <? N_SERVERS) then mret Elect_start
  else raft_lock_release;; mret Elect_poll.

Definition Raft_election_thread (time_diff_msec timeout : Z) (pc : election_pc)
    : M world election_pc :=
  match pc with
  | Elect_exit => mret Elect_exit
  | Elect_start => Raft_start_election;; mret Elect_poll
  | Elect_poll => Raft_poll_election time_diff_msec timeout
  end.

Definition Raft_convert_to_candidate : M world unit := pthread_create Raft_election_thread_start.

(** * Votes *)

Section candidate.
Context `{CommitHandler}.

Definition Raft_handle_vote_request (addr : sockaddr_in) (v : raft_vote_request) : M world unit :=
  raft_lock_acquire;;
  t ← rget current_term;
  when (t <? vr_term v) (Raft_convert_to_follower (vr_term v);; Raft_save_state);;
  r ← rself;
  success ←
    (if (current_term r =? vr_term v) && (voted_for r =? -1) then
       last_log_term ← Raft_get_log_term (log_count r - 1);
       let last_log_index := log_count r - 1 in
       s ← (if last_log_term <? vr_last_log_term v then
              rmod (fun r => r <| voted_for := vr_candidate_id v |>);; mret 1
            else if (vr_last_log_term v =? last_log_term) &&
                    (last_log_index <=? vr_last_log_index v) then
              rmod (fun r => r <| voted_for := vr_candidate_id v |>);; mret 1
            else mret (-1));
       Raft_save_state;;
       mret s
     else mret 0);
  UDP_send addr (RESPONSE {| rp_id := raft_id r; rp_term := current_term r;
                             rp_success := success; rp_request_id := -1 |});;
  raft_lock_release.

(** [true] stands for [return 1]: the lock was released on the way. *)
Definition Raft_handle_vote_response (p : raft_response_packet) : M world bool :=
  if rp_success p <=? 0 then
    (if rp_success p =? -1 then
       b ← rget nblocked; b' ← int_of (b + 1); rmod (fun r => r <| nblocked := b' |>)
     else skip);;
    mret false
  else
    n ← rget nvoted; n' ← int_of (n + 1);
    rmod (fun r => r <| nvoted := n' |>);;
    if N_SERVERS <? n' * 2 then Raft_convert_to_leader;; mret true
    else mret false.
End candidate.
