(* ===== verification/Raft.v ===== *)
(** [raft.c]: start-up, the log interface offered to [server.c], snapshots and
    the dispatch of packets. *)
From S2P Require Import Prelude Libc Posix RaftTypes RaftStorage RaftUtils RaftFollower RaftLeader RaftCandidate.

Section raft.
Context `{CommitHandler}.

(** * Start-up *)

(** [sd] is the socket [UDP_Open(port)] answered. *)
Definition Raft_server_init (cfg : raft_configuration) (filedir : string) (id sd : Z) : M world unit :=
  rmod (fun r => r <| raft_id := id |> <| rpc_sd := sd |> <| config := cfg |>
                   <| state := FOLLOWER |> <| lock_flag := 0 |> <| voted_for := -1 |>
                   <| start_log_index := 0 |> <| current_term := 0 |>
                   <| snapshot_in_progress := 0 |> <| n_followers_receiving_snapshots := 0 |>
                   <| commit_index := -1 |> <| log_count := 0 |> <| last_applied_index := -1 |>
                   <| nvoted := 0 |> <| nblocked := 0 |> <| files_dir := filedir |>
                   <| install_snapshot_id := -1 |> <| install_snapshot_index := -1 |>);;
  for_ (seqZ 0 100) Raft_remove_snapshot;;
  Raft_clean_main_files.

Definition Raft_server_restore (filedir : string) (id sd : Z) : M world unit :=
  Raft_load_state filedir;;
  id' ← rget raft_id;
  (if decide (id' = id) then skip else throw AssertFailed);;
  rmod (fun r => r <| rpc_sd := sd |> <| state := FOLLOWER |> <| snapshot_in_progress := 0 |>
                   <| n_followers_receiving_snapshots := 0 |> <| lock_flag := 0 |>);;
  prev_session_commit_index ← rget commit_index;
  start ← rget start_log_index;
  c ← int_of (start - 1);
  rmod (fun r => r <| commit_index := c |> <| last_applied_index := -1 |>
                   <| nvoted := 0 |> <| nblocked := 0 |> <| files_dir := filedir |>
                   <| install_snapshot_id := -1 |> <| install_snapshot_index := -1 |>);;
  Raft_clean_main_files;;
  (if decide (start <> 0) then Raft_copy_snapshot start (-1) else skip);;
  Raft_commit_update prev_session_commit_index;;
  for_ (seqZ 0 100) (fun i =>
    if decide (i = start) then skip else Raft_remove_snapshot i).

(** * The log, as [server.c] uses it *)

Fixpoint find_entry (term id : Z) (l : list Z) : M world Z :=
  match l with
  | [] => mret 0
  | i :: l' =>
      r ← rself;
      e ← log_deref (Raft_get_log r i);
      if (le_term e =? term) && (le_id e =? id) then
        mret (if i <=? commit_index r then 1 else 0)
      else if term <? le_term e then mret (if i <=? commit_index r then -1 else 0)
      else find_entry term id l'
  end.

Definition Raft_is_entry_committed (term id : Z) : M world Z :=
  raft_lock_acquire;;
  r ← rself;
  res ← find_entry term id (seqZ (start_log_index r) (log_count r - start_log_index r));
  raft_lock_release;;
  mret res.

(** The answer is the return code and the caller's entry after the call. *)
Definition Raft_append_entry (log : raft_log_entry) : M world (Z * raft_log_entry) :=
  raft_lock_acquire;;
  r ← rself;
  if bool_decide (state r <> LEADER) || (log_count r =? start_log_index r + LOG_SIZE) then
    raft_lock_release;; mret (-1, log)
  else
    n ← int_of (log_count r + 1);
    rmod (fun r => r <| log_count := n |>);;
    let log' := log <| le_term := current_term r |> <| le_n_servers_replicated := 1 |>
                    <| le_type := CLIENT_LOG |> in
    r ← rself;
    log_store (Raft_get_log r (log_count r - 1)) log';;
    Raft_save_state;;
    raft_lock_release;;
    mret (0, log').

(** * Snapshots *)

(** Up to the first release of the lock; [false] is [return -1]. *)
Definition Raft_create_snapshot_begin (new_log_start : Z) : M world bool :=
  raft_lock_acquire;;
  r ← rself;
  if bool_decide (snapshot_in_progress r <> 0) || (0 <? n_followers_receiving_snapshots r) ||
     (new_log_start <=? start_log_index r) || (commit_index r + 1 <? new_log_start)
  then raft_lock_release;; mret false
  else
    rmod (fun r => r <| snapshot_in_progress := 1 |>);;
    raft_lock_release;;
    mret true.

(** The transactions of one entry, up to the first empty file name. *)
Fixpoint snapshot_entry (new_log_start : Z) (data : list raft_transaction_entry) : M world unit :=
  match data with
  | [] => skip
  | d :: data' =>
      if first_is_nul (filename d) then skip
      else
        Raft_add_to_snapshot new_log_start false (filename d) (buffer d);;
        snapshot_entry new_log_start data'
  end.

(** Without the lock: the directory and the files of the snapshot.  The
    answer is [prev_snap_id]. *)
Definition Raft_create_snapshot_build (new_log_start : Z) : M world Z :=
  Raft_create_snapshot_dir new_log_start;;
  prev_snap_id ← rget start_log_index;
  start ← rget start_log_index;
  (if decide (start <> 0) then Raft_copy_snapshot start new_log_start else skip);;
  for_ (seqZ start (new_log_start - start)) (fun i =>
    r ← rself;
    e ← log_deref (Raft_get_log r i);
    if decide (le_type e = LEADER_LOG) then skip
    else snapshot_entry new_log_start (le_data e));;
  mret prev_snap_id.

(** With the lock again: the log is moved down and the state saved. *)
Definition shift_log (new_log_start : Z) (i : Z) : M world unit :=
  r ← rself;
  e ← lift (arr_get (raft_log r) (i - start_log_index r));
  log' ← lift (arr_set (raft_log r) (i - new_log_start) e);
  rmod (fun r => r <| raft_log := log' |>).

Definition Raft_create_snapshot_end (new_log_start prev_snap_id : Z) : M world unit :=
  raft_lock_acquire;;
  rmod (fun r => r <| snapshot_in_progress := 0 |>);;
  n ← rget log_count;
  for_ (seqZ new_log_start (n - new_log_start)) (shift_log new_log_start);;
  rmod (fun r => r <| start_log_index := new_log_start |>);;
  Raft_save_state;;
  raft_lock_release;;
  if decide (prev_snap_id <> 0) then Raft_remove_snapshot prev_snap_id else skip.

(** The three phases run without another thread in between. *)
Definition Raft_create_snapshot (new_log_start : Z) : M world Z :=
  go ← Raft_create_snapshot_begin new_log_start;
  if (go : bool) then
    prev ← Raft_create_snapshot_build new_log_start;
    Raft_create_snapshot_end new_log_start prev;;
    mret 0
  else mret (-1).

(** * Packets *)

Definition Raft_handle_response (p : raft_response_packet) : M world unit :=
  raft_lock_acquire;;
  r ← rself;
  if rp_term p <? current_term r then raft_lock_release
  else if current_term r <? rp_term p then
    Raft_convert_to_follower (rp_term p);; Raft_save_state;; raft_lock_release
  else
    idx_set last_request_response (rp_id p) (rp_success p);;
    if decide (state r = CANDIDATE) then
      done ← Raft_handle_vote_response p;
      if (done : bool) then skip else raft_lock_release
    else
      (if decide (state r = LEADER) then
         request_id ← idx_get last_request_id (rp_id p);
         when (rp_request_id p =? request_id)
           (next ← idx_get next_index (rp_id p);
            if next <? start_log_index r then Raft_handle_install_response p
            else Raft_handle_append_response p)
       else skip);;
      raft_lock_release.

(** The [switch] of [Raft_handle_packet]; [addr] is the sender. *)
Definition Raft_dispatch (addr : sockaddr_in) (p : raft_packet) : M world unit :=
  match p with
  | RESPONSE q => Raft_handle_response q
  | VOTE q => Raft_handle_vote_request addr q
  | APPEND q => Raft_handle_append_request addr q
  | INSTALL_SNAPSHOT q => Raft_handle_install_snapshot_request addr q
  end.

(** The test that follows it, made without the lock. *)
Definition snapshot_due (r : raft_state) : bool :=
  COMMITS_TO_SNAPSHOT <=? commit_index r - start_log_index r + 1.

Definition Raft_handle_packet (addr : sockaddr_in) (p : raft_packet) : M world unit :=
  Raft_dispatch addr p;;
  r ← rself;
  when (snapshot_due r)
    (_ ← Raft_create_snapshot (start_log_index r + SNAPSHOT_SIZE); skip).

(** One turn of [Raft_RPC_listen] without a packet ([timed_out]: the read
    failed with [ETIMEDOUT] or [EAGAIN]): a follower takes the lock and leaves
    it to the election thread. *)
Definition Raft_RPC_listen_timeout (timed_out : bool) : M world unit :=
  st ← rget state;
  if timed_out && bool_decide (st = FOLLOWER) then
    raft_lock_acquire;; Raft_convert_to_candidate
  else skip.
End raft.
