(* ===== verification/SnapshotInstall.v ===== *)
(** A snapshot that arrives at a follower ([raft_follower.c]): the chunks it is
    made of, and the follower that puts them together from any sequence of
    requests. *)
From S2P Require Import Prelude Libc Posix RaftTypes RaftStorage StorageSpec RaftUtils RaftFollower.

#[local] Open Scope string_scope.
#[local] Open Scope Z_scope.
#[local] Open Scope list_scope.

(** * Chunks *)

(** A chunk is the number of a file and the bytes appended to it. *)
Abbreviation chunk := (Z * bytes)%type.

(** A chunk the packet can carry: [buffer] has room for the NUL. *)
Definition chunk_ok (c : chunk) : Prop :=
  c.1 ∈ file_numbers /\ no_nul c.2 /\ (length c.2 < BUFFER_SIZE)%nat.

(** The file [k] after the chunks: absent until a chunk names it. *)
Definition put (k : Z) (acc : option bytes) (c : chunk) : option bytes :=
  if decide (c.1 = k) then Some (default [] acc ++ c.2) else acc.
Definition rebuilt (l : list chunk) (k : Z) : option bytes := foldl (put k) None l.

(** The request [q] carries a chunk of snapshot [sid], or closes it. *)
Definition chunk_packet (sid : Z) (chunks : list chunk) (q : raft_install_snapshot_request) : Prop :=
  ir_snapshot_id q = sid /\ exists i : nat, ir_index q = Z.of_nat i /\
  match chunks !! i with
  | Some c => ir_done q = 0 /\ ir_filename q = to_bytes (file_name c.1) /\ ir_buffer q = c.2
  | None => i = length chunks /\ ir_done q <> 0
  end.

Lemma rebuilt_snoc l c k : rebuilt (l ++ [c]) k = put k (rebuilt l k) c.
Proof. unfold rebuilt. by rewrite foldl_app. Qed.

(** * The files of a snapshot *)

(** The texts of the files of snapshot [id]. *)
Definition texts (d : fs raft_state) (dir : string) (id k : Z) : option bytes :=
  f_text <$> files d !! snap_file dir id k.

Lemma snap_file_not_state dir id k :
  is_dir_path dir ->
  snap_file dir id k <> state_file dir /\ snap_file dir id k <> tmp_state_file dir.
Proof.
  intros Hd. unfold snap_file. destruct (decide (id = -1)) as [->|Hid].
  - unfold snapshot_path, state_file, tmp_state_file. rewrite decide_True by done.
    split; intros E%string_app_inj; discriminate.
  - split; intros E; apply Hid; apply (f_equal dir_of) in E; rewrite dir_of_snapshot_file in E by done;
      rewrite ?dir_of_state, ?dir_of_tmp in E by done; by apply (snapshot_path_inj dir id (-1)).
Qed.

Lemma saved_disk_other r d p :
  p <> state_file (files_dir r) -> p <> tmp_state_file (files_dir r) ->
  files (saved_disk r d) !! p = files d !! p.
Proof. intros H1 H2. cbn. by rewrite lookup_insert_ne, lookup_delete_ne. Qed.

Lemma saved_disk_state r d :
  files (saved_disk r d) !! state_file (files_dir r) = Some (mkFile (Some r) []).
Proof. cbn. by rewrite lookup_insert_eq. Qed.

Lemma saved_disk_texts r d id k :
  is_dir_path (files_dir r) -> texts (saved_disk r d) (files_dir r) id k = texts d (files_dir r) id k.
Proof.
  intros Hd. unfold texts. destruct (snap_file_not_state (files_dir r) id k Hd).
  by rewrite saved_disk_other.
Qed.

Lemma texts_other d d' dir a b k :
  is_dir_path dir -> a <> b ->
  (forall p, p ∉ snap_files dir b -> files d' !! p = files d !! p) -> texts d' dir a k = texts d dir a k.
Proof. intros Hd Hne H. unfold texts. rewrite H; [done|]. by apply snap_file_other. Qed.

Lemma of_to_bytes s : of_bytes (to_bytes s) = s.
Proof. apply String.string_of_list_ascii_of_string. Qed.

Lemma file_name_c_str k :
  k ∈ file_numbers -> c_str FILENAME_SIZE (to_bytes (file_name k)) = Ok (to_bytes (file_name k)).
Proof.
  intros Hk. pose proof (file_name_short k Hk) as Hl.
  assert (Forall (fun k => no_nul (to_bytes (file_name k))) file_numbers) as H.
  { unfold no_nul. apply (bool_decide_unpack _). vm_compute. exact I. }
  rewrite list.Forall_forall in H. apply c_str_ok.
  rewrite until_nul_id by by apply H. split; [done|]. rewrite length_to_bytes. unfold FILENAME_SIZE. lia.
Qed.

(** Appending a chunk: the directory is there afterwards, and one file grew. *)
Lemma add_to_snapshot_total id new c w dir :
  disk_ready w -> files_dir (raft w) = dir -> id <> -1 -> paths_fit dir id -> chunk_ok c ->
  new = true \/ snapshot_path dir id ∈ dirs (disk w) ->
  exists d, Raft_add_to_snapshot id new (to_bytes (file_name c.1)) c.2 w = Ok (tt, w <| disk := d |>) /\
    dirs (disk w) ⊆ dirs d /\ snapshot_path dir id ∈ dirs d /\
    (forall k, texts d dir id k = put k (texts (disk w) dir id k) c) /\
    (forall p, p <> snap_file dir id c.1 -> files d !! p = files (disk w) !! p).
Proof.
  intros [Hd Hin Hl] Hw Hid Hfit (Hk & Hnul & Hlen) Hnew. rewrite Hw in *.
  unfold Raft_add_to_snapshot. rewrite run_bind, run_snapshot_path, Hw by by rewrite Hw.
  set (d1 := if new then mkdir (disk w) (snapshot_path dir id) else disk w).
  assert (when new (fs_do (fun d => mkdir d (snapshot_path dir id))) w = Ok (tt, w <| disk := d1 |>)) as E.
  { unfold d1. destruct new; [done|by destruct w]. }
  assert (files d1 = files (disk w) /\ dirs (disk w) ⊆ dirs d1 /\ snapshot_path dir id ∈ dirs d1)
    as (Hf1 & Hsub & Hsn).
  { unfold d1. destruct new; [|by destruct Hnew].
    unfold mkdir. rewrite decide_True.
    - cbn. set_solver.
    - unfold snapshot_path. rewrite decide_False by done. rewrite <- (app_assoc_string "snapshot_"). rewrite parent_of_app; [done|done|].
      rewrite has_slash_app. by rewrite itoa_no_slash. }
  clearbody d1. rewrite run_bind, E. rewrite run_bind. unfold lift at 1.
  rewrite file_name_c_str by done. rewrite of_to_bytes. rewrite run_bind, run_file_path by done.
  fold (snap_file dir id c.1). rewrite run_bind. unfold lift at 1.
  rewrite (proj2 (c_str_ok BUFFER_SIZE c.2 c.2)) by by rewrite until_nul_id.
  unfold fs_call, fopen_a. cbn [disk upd]. unfold fopen_w. rewrite dir_of_snap_file, decide_True by done.
  eexists. split; [reflexivity|]. cbn [dirs files upd]. rewrite Hf1. split; [done|]. split; [done|]. split.
  - intros k. unfold texts, put. cbn. destruct (decide (c.1 = k)) as [<-|Hne].
    + rewrite lookup_insert_eq. cbn. by destruct (files (disk w) !! snap_file dir id c.1).
    + rewrite lookup_insert_ne; [by rewrite Hf1|]. intros E'. apply Hne.
      by destruct (snapshot_file_inj _ _ _ _ _ Hd E').
  - intros p Hp. cbn. by rewrite lookup_insert_ne.
Qed.

(** * The follower *)

(** What a transfer leaves alone: the log, and every file that is not of the
    snapshot on its way or a saved state. *)
Record untouched (dir : string) (sid : Z) (w w' : world) : Prop := {
  ut_id : raft_id (raft w') = raft_id (raft w);
  ut_start : start_log_index (raft w') = start_log_index (raft w);
  ut_count : log_count (raft w') = log_count (raft w);
  ut_commit : commit_index (raft w') = commit_index (raft w);
  ut_log : raft_log (raft w') = raft_log (raft w);
  ut_files : forall p, p <> state_file dir -> p <> tmp_state_file dir -> p ∉ snap_files dir sid ->
    files (disk w') !! p = files (disk w) !! p
}.

#[export] Instance untouched_preorder dir sid : PreOrder (untouched dir sid).
Proof.
  split; [by constructor|]. intros w1 w2 w3 [] []. constructor; try congruence.
  intros p H1 H2 H3. rewrite ut_files1 by done. by apply ut_files0.
Qed.

Section follower.
Context (dir : string) (sid : Z) (chunks : list chunk).
Context (Hdir : is_dir_path dir) (Hlength : (String.length dir + 40 < 256)%nat).
Context (Hsid : 0 <= sid) (Hint : int_ok sid = true).
Context (Hchunks : Forall chunk_ok chunks) (Hcount : Z.of_nat (length chunks) <= INT_MAX).

(** The follower has put the first [j] chunks together; [f] is the lock. *)
Record receiving (f : Z) (j : nat) (w : world) : Prop := {
  rv_lock : lock_flag (raft w) = f;
  rv_dir : files_dir (raft w) = dir;
  rv_exists : dir ∈ dirs (disk w);
  rv_le : (j <= length chunks)%nat;
  rv_index : install_snapshot_index (raft w) = Z.of_nat j - 1;
  rv_id : install_snapshot_id (raft w) = if decide (j = 0%nat) then -1 else sid;
  rv_snap : j <> 0%nat -> snapshot_path dir sid ∈ dirs (disk w);
  rv_texts : forall k, k ∈ file_numbers -> texts (disk w) dir sid k = rebuilt (take j chunks) k
}.

(** The follower has installed the snapshot; [w] is how it was before. *)
Record installed (f : Z) (w w' : world) : Prop := {
  in_lock : lock_flag (raft w') = f;
  in_dir : files_dir (raft w') = dir;
  in_exists : dir ∈ dirs (disk w');
  in_start : start_log_index (raft w') = sid;
  in_count : log_count (raft w') = sid;
  in_commit : commit_index (raft w') = sid - 1;
  in_applied : last_applied_index (raft w') = sid - 1;
  in_idle : install_snapshot_id (raft w') = -1 /\ install_snapshot_index (raft w') = -1 /\
            snapshot_in_progress (raft w') = 0;
  in_snapshot : forall k, k ∈ file_numbers -> texts (disk w') dir sid k = rebuilt chunks k;
  in_main : forall k, k ∈ file_numbers -> texts (disk w') dir (-1) k =
    match rebuilt chunks k with Some t => Some t | None => texts (disk w) dir (-1) k end;
  in_saved : files (disk w') !! state_file dir = Some (mkFile (Some ((raft w') <| lock_flag := 1 |>)) [])
}.

Lemma ready w : files_dir (raft w) = dir -> dir ∈ dirs (disk w) -> disk_ready w.
Proof. intros <- H. by split. Qed.

Lemma sid_fits : paths_fit dir sid.
Proof. apply paths_fit_int; auto. Qed.

Lemma main_fits : paths_fit dir (-1).
Proof. apply paths_fit_int; auto. Qed.

Lemma snap_dir_ne : snapshot_path dir sid <> dir.
Proof. intros E. assert (sid = -1) by by apply (snapshot_path_inj dir). lia. Qed.

(** Saving the state changes nothing a transfer looks at. *)
Lemma saved_texts w id k :
  files_dir (raft w) = dir -> texts (saved_disk (raft w) (disk w)) dir id k = texts (disk w) dir id k.
Proof. intros <-. by apply saved_disk_texts. Qed.

Lemma saved_other w p :
  files_dir (raft w) = dir -> p <> state_file dir -> p <> tmp_state_file dir ->
  files (saved_disk (raft w) (disk w)) !! p = files (disk w) !! p.
Proof. intros <-. apply saved_disk_other. Qed.

Lemma save_receiving f j w :
  receiving f j w -> exists w', Raft_save_state w = Ok (tt, w') /\ raft w' = raft w /\ out w' = out w /\
    receiving f j w' /\ untouched dir sid w w'.
Proof.
  intros []. eexists. split; [by apply save_state_total, ready|]. split; [done|]. split; [done|]. split.
  - split; try done. intros k Hk. cbn [disk upd]. rewrite saved_texts; auto.
  - split; try done. intros p H1 H2 _. by apply saved_other.
Qed.

(** A newer term makes the follower start over. *)
Lemma convert_receiving f j t w :
  receiving f j w -> exists w', Raft_convert_to_follower t w = Ok (tt, w') /\
    receiving f 0 w' /\ untouched dir sid w w' /\ out w' = out w /\ current_term (raft w') = t.
Proof.
  intros []. unfold Raft_convert_to_follower. rewrite run_bind. unfold rmod at 1, modify.
  unfold rget at 1, gets. rewrite run_bind. cbn [raft upd install_snapshot_id]. rewrite rv_id0.
  destruct (decide (j = 0%nat)) as [->|Hj].
  - rewrite decide_False by auto. eexists. split; [reflexivity|]. split; [by split|]. by split.
  - rewrite decide_True by lia. rewrite run_bind.
    match goal with |- context [Raft_remove_snapshot sid ?w1] =>
      destruct (remove_snapshot_total w1 dir rv_dir0 Hdir sid sid_fits) as (d & -> & Hd & Hnone & Hrest) end.
    cbn [disk upd] in Hd, Hrest. eexists. split; [reflexivity|]. split; [split|]; cbn; try done.
    + destruct Hd as [->| ->]; [done|]. pose proof snap_dir_ne. set_solver.
    + lia.
    + intros k Hk. unfold texts. rewrite Hnone by done. done.
    + split; [|done]. split; try done. intros p _ _ Hp. by apply Hrest.
Qed.

Lemma adopt_term j t w :
  receiving 1 j w -> exists j' w',
    when (current_term (raft w) <? t) (Raft_convert_to_follower t;; Raft_save_state) w = Ok (tt, w') /\
    receiving 1 j' w' /\ untouched dir sid w w' /\ out w' = out w /\
    current_term (raft w') = Z.max (current_term (raft w)) t /\
    (t <= current_term (raft w) \/ j = 0%nat -> j' = j).
Proof.
  intros Hr. destruct (Z.ltb_spec (current_term (raft w)) t) as [Ht|Ht]; cbn [when].
  - destruct (convert_receiving 1 j t w Hr) as (w1 & Hc & Hr1 & Hu1 & Ho1 & Ht1).
    destruct (save_receiving 1 0 w1 Hr1) as (w2 & Hs & E & Ho2 & Hr2 & Hu2).
    exists 0%nat, w2. rewrite run_bind, Hc. split; [done|]. split; [done|].
    split; [by etrans|]. split; [congruence|]. rewrite E, Ht1. lia.
  - exists j, w. split; [done|]. split; [done|]. split; [done|]. split; [done|]. lia.
Qed.

(** The next chunk is stored. *)
Lemma install_chunk_receiving j q c w :
  receiving 1 j w -> chunks !! j = Some c -> ir_snapshot_id q = sid ->
  ir_filename q = to_bytes (file_name c.1) -> ir_buffer q = c.2 ->
  exists w', install_chunk q w = Ok (tt, w') /\ receiving 1 (S j) w' /\ untouched dir sid w w' /\
    out w' = out w /\ current_term (raft w') = current_term (raft w).
Proof.
  intros Hr Hc Eid Ename Etext. pose proof Hr as [].
  assert (chunk_ok c) as Hok by by eapply list.Forall_lookup_1.
  assert (j < length chunks)%nat as Hj by by eapply lookup_lt_Some.
  unfold install_chunk, rself, gets. rewrite run_bind. rewrite Eid, Ename, Etext.
  destruct (add_to_snapshot_total sid (bool_decide (install_snapshot_id (raft w) = -1)) c w dir)
    as (d & E & Hsub & Hsn & Htexts & Hrest); try done; [by apply ready|lia|apply sid_fits| |].
  { rewrite rv_id0. destruct (decide (j = 0%nat)); [by left|right; auto]. }
  rewrite run_bind, E, run_bind, run_int_of by (rewrite int_ok_spec; unfold INT_MIN; lia).
  rewrite run_bind. unfold rmod at 1, modify.
  match goal with |- exists w', Raft_save_state ?w1 = _ /\ _ =>
    destruct (save_receiving 1 (S j) w1) as (w2 & Hs & E2 & Ho & Hr2 & Hu2) end.
  { split; cbn; [done|done|set_solver|lia|lia|done|done|]. intros k Hk. rewrite Htexts, rv_texts0 by done.
    by rewrite (take_S_r _ _ _ Hc), rebuilt_snoc. }
  exists w2. split; [done|]. split; [done|]. split; [|by rewrite Ho, E2].
  etrans; [|exact Hu2]. split; try done. intros p _ _ Hp. apply Hrest. intros ->.
  apply Hp. unfold snap_files. apply list_elem_of_fmap_2. apply Hok.
Qed.
(** The last packet, from the state in which all chunks have arrived. *)
Lemma install_done_installed q w :
  receiving 1 (length chunks) w -> ir_snapshot_id q = sid ->
  exists w', install_done q w = Ok (start_log_index (raft w), w') /\
    installed 1 w w' /\ out w' = out w /\ current_term (raft w') = current_term (raft w).
Proof.
  intros [] E. unfold install_done. rewrite E. rewrite run_bind. unfold rmod at 1, modify.
  rewrite run_bind. unfold rget at 1, gets. cbn [raft upd start_log_index].
  rewrite run_bind, run_int_of by (revert Hint; rewrite !int_ok_spec; unfold INT_MIN; lia).
  rewrite run_bind. unfold rmod at 1, modify. rewrite run_bind.
  match goal with |- context [Raft_copy_snapshot sid (-1) ?w1] =>
    destruct (copy_snapshot_total w1 dir rv_dir0 Hdir sid (-1) sid_fits main_fits ltac:(lia))
      as (d & -> & Hd & Hnew & Hrest); [done|] end.
  cbn [disk upd] in Hd, Hnew, Hrest. cbn beta iota.
  rewrite run_bind. match goal with |- context [Raft_save_state ?w1] => set (w2 := w1) end.
  rewrite save_state_total by (apply ready; cbn; [done|by rewrite Hd]).
  eexists. split; [reflexivity|]. split; [|done].
  assert (forall k, k ∈ file_numbers -> texts (disk w2) dir sid k = rebuilt chunks k) as Hsnap.
  { intros k Hk. rewrite <- (firstn_all chunks), <- rv_texts0 by done.
    apply (texts_other _ _ _ _ (-1)); [done|lia|exact Hrest]. }
  split; try done; cbn [disk upd].
  - cbn. by rewrite Hd.
  - intros k Hk. rewrite (saved_texts w2) by done. by apply Hsnap.
  - intros k Hk. rewrite (saved_texts w2) by done. rewrite <- (Hsnap k Hk). unfold texts at 1 2.
    change (disk w2) with d. rewrite Hnew by done.
    rewrite (Hrest (snap_file dir sid k)) by (apply snap_file_other; [done|lia]).
    by destruct (files (disk w) !! snap_file dir sid k).
  - rewrite <- rv_dir0 at 1. etrans; [exact (saved_disk_state (raft w2) (disk w2))|].
    do 3 f_equal. unfold w2. cbn [raft upd]. by rewrite <- rv_lock0.
Qed.

(** The snapshot the follower had before is removed without the lock. *)
Lemma outdated_installed w w' old :
  installed 0 w w' -> 0 <= old -> int_ok old = true -> old <> sid ->
  exists w'', (if decide (old <> 0) then Raft_remove_snapshot old else skip) w' = Ok (tt, w'') /\
    installed 0 w w'' /\ out w'' = out w' /\ raft w'' = raft w'.
Proof.
  intros Hi Hold Hint' Hne. pose proof Hi as []. case_decide as Hz.
  - destruct (remove_snapshot_total w' dir in_dir0 Hdir old) as (d & E & Hd & _ & Hrest).
    { apply paths_fit_int; auto. }
    eexists. split; [exact E|]. split; [|done].
    assert (forall id k, id <> old -> texts d dir id k = texts (disk w') dir id k) as Ht.
    { intros id k Hid. by apply (texts_other _ _ _ _ old). }
    split; try done; cbn [disk upd].
    + destruct Hd as [->| ->]; [done|]. 
      assert (snapshot_path dir old <> dir); [|set_solver].
      intros E'. assert (old = -1) by by apply (snapshot_path_inj dir). lia.
    + intros k Hk. rewrite Ht by done. by apply in_snapshot0.
    + intros k Hk. rewrite Ht by lia. by apply in_main0.
    + rewrite Hrest; [done|]. intros (k & E' & _)%list_elem_of_fmap.
      by destruct (snap_file_not_state dir old k Hdir).
  - by exists w'.
Qed.

Lemma installed_untouched w0 w w' :
  untouched dir sid w0 w -> installed 0 w w' -> installed 0 w0 w'.
Proof.
  intros Hu []. split; try done. intros k Hk. rewrite in_main0 by done.
  destruct (rebuilt chunks k); [done|]. unfold texts. destruct (snap_file_not_state dir (-1) k Hdir).
  rewrite (ut_files _ _ _ _ Hu); [done..|]. apply snap_file_other; [done|lia].
Qed.

(** The lock is taken; an answer is sent and the lock released. *)
Definition acquired (w : world) : world := w <| raft ::= fun r => r <| lock_flag := 1 |> |>.
Definition answered (addr : sockaddr_in) (p : raft_packet) (w : world) : world :=
  w <| out ::= fun l => l ++ [(addr, p)] |> <| raft ::= fun r => r <| lock_flag := 0 |> |>.

Lemma run_answer addr p w :
  lock_flag (raft w) = 1 -> (UDP_send addr p;; raft_lock_release) w = Ok (tt, answered addr p w).
Proof.
  intros Hl. unfold UDP_send, raft_lock_release, rget, gets, rmod, modify. rewrite !run_bind. cbn.
  by rewrite Hl.
Qed.

Lemma answered_receiving addr p j w : receiving 1 j w -> receiving 0 j (answered addr p w).
Proof. by intros []. Qed.

Lemma answered_installed addr p w w' : installed 1 w w' -> installed 0 w (answered addr p w').
Proof. by intros []. Qed.

(** What the follower answers to an install request, and where that leaves it. *)
Inductive install_result (q : raft_install_snapshot_request) (w w' : world) : Z -> Prop :=
  | install_refuses j :
      receiving 0 j w' -> untouched dir sid w w' -> install_result q w w' 0
  | install_stores j :
      ir_index q = Z.of_nat j -> ir_done q = 0 ->
      receiving 0 (S j) w' -> untouched dir sid w w' -> install_result q w w' 1
  | install_finishes :
      ir_done q <> 0 -> installed 0 w w' -> install_result q w w' 1.

Definition install_answer (q : raft_install_snapshot_request) (w : world) (s : Z) : raft_packet :=
  RESPONSE {| rp_id := raft_id (raft w); rp_term := Z.max (current_term (raft w)) (ir_term q);
              rp_success := s; rp_request_id := ir_request_id q |}.

(** The start of a server's log is a snapshot other than [sid]. *)
Definition other_start (w : world) : Prop :=
  0 <= start_log_index (raft w) /\ int_ok (start_log_index (raft w)) = true /\
  start_log_index (raft w) <> sid.

Lemma run_answer_remove addr p old w :
  lock_flag (raft w) = 1 ->
  (UDP_send addr p;; raft_lock_release;;
   if decide (old <> 0) then Raft_remove_snapshot old else skip) w =
  (if decide (old <> 0) then Raft_remove_snapshot old else skip) (answered addr p w).
Proof.
  intros Hl. transitivity (((UDP_send addr p;; raft_lock_release);;
    if decide (old <> 0) then Raft_remove_snapshot old else skip) w).
  - by rewrite !run_bind.
  - by rewrite run_bind, run_answer.
Qed.

(** The handler on a request of the transfer, whatever its place in it. *)
Lemma install_request addr j q w :
  receiving 0 j w -> other_start w -> chunk_packet sid chunks q ->
  exists s w', Raft_handle_install_snapshot_request addr q w = Ok (tt, w') /\
    install_result q w w' s /\ out w' = out w ++ [(addr, install_answer q w s)] /\
    current_term (raft w') = Z.max (current_term (raft w)) (ir_term q) /\
    (ir_index q = Z.of_nat j -> ir_term q = current_term (raft w) \/
       (current_term (raft w) <= ir_term q /\ j = 0%nat) -> s = 1).
Proof.
  intros Hr (Hs0 & Hs1 & Hs2) (Eid & i & Ei & Hq). unfold Raft_handle_install_snapshot_request.
  rewrite run_bind, run_lock_acquire by apply Hr. fold (acquired w). set (w0 := acquired w).
  assert (receiving 1 j w0) as Hr0 by by destruct Hr. unfold rget, gets. rewrite run_bind. cbn beta iota.
  destruct (adopt_term j (ir_term q) w0 Hr0) as (j1 & w1 & E1 & Hr1 & Hu1 & Ho1 & Ht1 & Hj1).
  assert (untouched dir sid w w1) as Hu by by destruct Hu1.
  rewrite run_bind, E1. unfold rself, gets. rewrite run_bind. cbn beta iota. rewrite run_bind.
  replace (raft_id (raft w1)) with (raft_id (raft w)) by (symmetry; apply Hu).
  rewrite Ht1. change (current_term (raft w0)) with (current_term (raft w)) in *.
  fold (install_answer q w). pose proof Hr1 as [].
  destruct (install_refused (raft w1) q) eqn:Hrefused.
  { exists 0, (answered addr (install_answer q w 0) w1). rewrite run_ret.
    rewrite run_answer_remove by done. cbn [fst snd]. rewrite decide_False by auto.
    split; [done|]. split; [|split; [cbn; by rewrite Ho1|split; [done|]]].
    - apply (install_refuses _ _ _ j1); [by apply answered_receiving|by destruct Hu].
    - intros Hi Ht. exfalso. rewrite Hj1 in * by lia. revert Hrefused. unfold install_refused.
      rewrite Ht1, Eid, rv_id0, rv_index0, Hi.
      rewrite !orb_true_iff, andb_true_iff, !bool_decide_eq_true. case_decide; lia. }
  unfold install_refused in Hrefused. rewrite !orb_false_iff, bool_decide_eq_false in Hrefused.
  destruct Hrefused as [[_ _] Hidx]. rewrite rv_index0, Ei in Hidx.
  assert (i = j1) as -> by (apply dec_stable in Hidx; lia). clear Hidx.
  destruct (chunks !! j1) as [c|] eqn:Hc.
  - destruct Hq as (Hdone & Hname & Htext). rewrite Hdone. cbn [Z.eqb negb]. rewrite run_bind.
    destruct (install_chunk_receiving j1 q c w1 Hr1 Hc Eid Hname Htext)
      as (w2 & E2 & Hr2 & Hu2 & Ho2 & Ht2).
    rewrite E2, run_ret. rewrite run_answer_remove by apply Hr2. cbn [fst snd].
    rewrite decide_False by auto. exists 1, (answered addr (install_answer q w 1) w2).
    split; [done|]. split; [|split; [cbn; by rewrite Ho2, Ho1|split; [|done]]].
    + apply (install_stores _ _ _ j1); [done|done|by apply answered_receiving|].
      by etrans; [|destruct Hu2].
    + cbn. congruence.
  - destruct Hq as [-> Hdone]. rewrite (proj2 (Z.eqb_neq _ _) Hdone). cbn [negb]. rewrite run_bind.
    destruct (install_done_installed q w1 Hr1 Eid) as (w2 & E2 & Hi2 & Ho2 & Ht2).
    rewrite E2, run_ret. rewrite run_answer_remove by apply Hi2. cbn [fst snd].
    apply (answered_installed addr (install_answer q w 1)) in Hi2.
    destruct (outdated_installed w1 _ (start_log_index (raft w1)) Hi2) as (w3 & E3 & Hi3 & Ho3 & E3').
    { by rewrite (ut_start _ _ _ _ Hu). }
    { by rewrite (ut_start _ _ _ _ Hu). }
    { by rewrite (ut_start _ _ _ _ Hu). }
    exists 1, w3. split; [done|]. split; [|split; [|split; [|done]]].
    + apply install_finishes; [done|]. by apply (installed_untouched w w1).
    + rewrite Ho3. cbn. by rewrite Ho2, Ho1.
    + rewrite E3'. cbn. congruence.
Qed.
End follower.

(** * Any sequence of requests *)

(** The follower is not receiving a snapshot and has no file of [sid]. *)
Record idle (sid : Z) (w : world) : Prop := {
  idle_lock : lock_flag (raft w) = 0;
  idle_ready : disk_ready w;
  idle_index : install_snapshot_index (raft w) = -1;
  idle_id : install_snapshot_id (raft w) = -1;
  idle_files : forall k, k ∈ file_numbers -> texts (disk w) (files_dir (raft w)) sid k = None
}.

(** A snapshot index, and chunks that fit their packets. *)
Record chunks_ok (sid : Z) (chunks : list chunk) : Prop := {
  ck_id : 0 <= sid;
  ck_int : int_ok sid = true;
  ck_each : Forall chunk_ok chunks;
  ck_count : Z.of_nat (length chunks) <= INT_MAX
}.

Lemma idle_receiving sid chunks w :
  idle sid w -> receiving (files_dir (raft w)) sid chunks 0 0 w.
Proof. intros [? [] ? ? ?]. split; try done. lia. Qed.

Lemma other_start_untouched dir sid w w' :
  untouched dir sid w w' -> other_start sid w -> other_start sid w'.
Proof. intros Hu. unfold other_start. by rewrite (ut_start _ _ _ _ Hu). Qed.

Definition install_all (l : list (sockaddr_in * raft_install_snapshot_request)) : M world unit :=
  for_ l (fun p => Raft_handle_install_snapshot_request p.1 p.2).

Lemma install_all_cons addr q l w w' :
  Raft_handle_install_snapshot_request addr q w = Ok (tt, w') ->
  install_all ((addr, q) :: l) w = install_all l w'.
Proof. intros E. unfold install_all. cbn [for_ fst snd]. by rewrite run_bind, E. Qed.

Lemma install_all_receiving dir sid chunks l w j :
  is_dir_path dir -> (String.length dir + 40 < 256)%nat -> chunks_ok sid chunks ->
  Forall (fun p => chunk_packet sid chunks p.2) l ->
  receiving dir sid chunks 0 j w -> other_start sid w ->
  (exists w', install_all l w = Ok (tt, w') /\ untouched dir sid w w') \/
  (exists l1 l2 w1, l = l1 ++ l2 /\ install_all l1 w = Ok (tt, w1) /\ installed dir sid chunks 0 w w1).
Proof.
  intros Hdir Hlen [] Hl. revert w j. induction Hl as [|[addr q] l Hq Hl IH]; intros w j Hr Ho.
  { left. by exists w. }
  destruct (install_request dir sid chunks Hdir Hlen ck_id0 ck_int0 ck_each0 ck_count0 addr j q w Hr Ho Hq)
    as (s & w1 & E & Hres & _).
  assert (forall j', receiving dir sid chunks 0 j' w1 -> untouched dir sid w w1 ->
    (exists w', install_all ((addr, q) :: l) w = Ok (tt, w') /\ untouched dir sid w w') \/
    (exists l1 l2 w1, (addr, q) :: l = l1 ++ l2 /\ install_all l1 w = Ok (tt, w1) /\
                      installed dir sid chunks 0 w w1)) as Hgo.
  { intros j' Hr1 Hu1.
    destruct (IH w1 j' Hr1 (other_start_untouched _ _ _ _ Hu1 Ho))
      as [(w2 & E2 & Hu2)|(l1 & l2 & w2 & -> & E2 & Hi2)].
    - left. exists w2. split; [|by etrans]. by rewrite (install_all_cons _ _ _ _ _ E).
    - right. exists ((addr, q) :: l1), l2, w2. split; [done|]. split.
      + by rewrite (install_all_cons _ _ _ _ _ E).
      + by eapply installed_untouched. }
  destruct Hres as [j' Hr1 Hu1|j' _ _ Hr1 Hu1|_ Hi]; [by apply (Hgo j')|by apply (Hgo (S j'))|].
  right. exists [(addr, q)], l, w1. split; [done|]. split; [|done].
  by rewrite (install_all_cons _ _ _ _ _ E).
Qed.

(** C18: Whatever copies of the packets of one snapshot reach a follower that
    is not receiving one, has no file of it and whose log starts elsewhere,
    and in whatever order, when each chunk is free of NUL and under 1024 bytes
    (a full chunk has no terminating NUL and faults, full_chunk_unterminated),
    no request faults and the log and the files are untouched until a last
    packet is accepted; the installed snapshot then has the chunks of every
    file in full and in order, and so have the main files. *)
Theorem snapshot_install_any_order w sid chunks l :
  idle sid w -> chunks_ok sid chunks -> other_start sid w ->
  Forall (fun p => chunk_packet sid chunks p.2) l ->
  (exists w', install_all l w = Ok (tt, w') /\ untouched (files_dir (raft w)) sid w w') \/
  (exists l1 l2 w1, l = l1 ++ l2 /\ install_all l1 w = Ok (tt, w1) /\
     installed (files_dir (raft w)) sid chunks 0 w w1).
Proof.
  intros Hi Hc Ho Hl. pose proof (idle_ready _ _ Hi) as [].
  by apply (install_all_receiving _ _ _ _ _ 0); [..|apply idle_receiving|].
Qed.

(** A chunk that fills the packet has no NUL: storing it reads past [buffer]. *)
Theorem full_chunk_unterminated addr q w sid k :
  idle sid w -> 0 <= sid -> int_ok sid = true -> k ∈ file_numbers ->
  ir_term q = current_term (raft w) -> ir_snapshot_id q = sid -> ir_index q = 0 -> ir_done q = 0 ->
  ir_filename q = to_bytes (file_name k) -> (BUFFER_SIZE <= length (until_nul (ir_buffer q)))%nat ->
  Raft_handle_install_snapshot_request addr q w = Fault Unterminated.
Proof.
  intros [Hl [Hd He Hlen] Hi Hid _] H0 Hint Hk Et Es Ei Edone Ef Hb.
  unfold Raft_handle_install_snapshot_request.
  rewrite run_bind, run_lock_acquire by done. rewrite run_bind, run_rget. cbn [raft upd current_term].
  rewrite Et, Z.ltb_irrefl. cbn [when]. rewrite run_bind. unfold skip at 1.
  unfold rself, gets. rewrite run_bind. cbn beta iota. rewrite run_bind.
  assert (forall r, current_term r = current_term (raft w) -> install_snapshot_id r = -1 ->
            install_snapshot_index r = -1 -> install_refused r q = false) as Href.
  { intros r E1 E2 E3. unfold install_refused. by rewrite E1, E2, E3, Et, Ei, Z.ltb_irrefl. }
  rewrite Href, Edone by done. cbn [Z.eqb negb]. rewrite run_bind. unfold install_chunk, rself, gets.
  rewrite run_bind. cbn beta iota. rewrite run_bind. unfold Raft_add_to_snapshot. rewrite Es, Ef.
  rewrite run_bind, run_snapshot_path by (apply paths_fit_int; auto). rewrite run_bind.
  assert (forall b w1, exists w2, when b (fs_do (fun d => mkdir d (snapshot_path (files_dir (raft w)) sid))) w1 =
            Ok (tt, w2)) as Hw by (intros [] w1; cbn; eauto).
  match goal with |- context [when ?b ?m ?w1] => destruct (Hw b w1) as (w2 & E2) end.
  cbn [raft upd files_dir] in E2 |- *. rewrite E2. rewrite run_bind. unfold lift at 1.
  rewrite file_name_c_str, of_to_bytes by done. rewrite run_bind, run_file_path; [|by apply paths_fit_int; auto|done].
  rewrite run_bind. unfold lift, c_str, terminated. by rewrite (proj2 (Nat.ltb_ge _ _) Hb).
Qed.
