(* ===== verification/SnapshotTransfer.v ===== *)
(** The leader thread that sends a snapshot ([raft_leader.c]) and the follower
    that receives it, in turn: when every datagram arrives before the next time
    out, the transfer ends and the follower has the leader's snapshot. *)
From S2P Require Import Prelude Libc Posix RaftTypes RaftStorage StorageSpec RaftUtils RaftFollower RaftLeader RaftCandidate Raft SnapshotInstall.

(** * What the leader has to send *)

(** The chunks of snapshot [sid], when each file fits one packet. *)
Definition snapshot_chunks (d : fs raft_state) (dir : string) (sid : Z) : list chunk :=
  existing d dir sid file_numbers.

Definition small_files (d : fs raft_state) (dir : string) (sid : Z) : Prop :=
  forall k c, k ∈ file_numbers -> files d !! snap_file dir sid k = Some c ->
    no_nul (f_text c) /\ (length (f_text c) < BUFFER_SIZE)%nat.

Lemma existing_small d dir sid l :
  small_files d dir sid -> l ⊆ file_numbers ->
  Forall chunk_ok (existing d dir sid l) /\ (length (existing d dir sid l) <= length l)%nat.
Proof.
  intros Hs. induction l as [|k l IH]; intros Hl; [done|]. rewrite existing_cons.
  destruct IH as [IH1 IH2]; [set_solver|].
  destruct (files d !! snap_file dir sid k) as [c|] eqn:E; cbn [length]; (split; [|lia]); [|done].
  constructor; [|done]. split; [set_solver|]. apply (Hs k); [set_solver|done].
Qed.

Lemma foldl_existing d dir sid k l acc :
  NoDup l -> foldl (put k) acc (existing d dir sid l) =
  if decide (k ∈ l) then
    match texts d dir sid k with Some t => Some (default [] acc ++ t) | None => acc end
  else acc.
Proof.
  unfold texts. intros Hnd. revert acc. induction Hnd as [|j l Hj Hnd IH]; intros acc; [done|].
  rewrite existing_cons. destruct (files d !! snap_file dir sid j) as [c|] eqn:E; cbn [foldl];
    rewrite IH; unfold put; cbn [fst snd].
  - destruct (decide (j = k)) as [->|Hne].
    + rewrite decide_False by done. rewrite decide_True by set_solver. by rewrite E.
    + destruct (decide (k ∈ l)); [rewrite decide_True by set_solver|rewrite decide_False by set_solver]; done.
  - destruct (decide (j = k)) as [->|Hne].
    + rewrite decide_False by done. rewrite decide_True by set_solver. by rewrite E.
    + destruct (decide (k ∈ l)); [rewrite decide_True by set_solver|rewrite decide_False by set_solver]; done.
Qed.

Lemma rebuilt_chunks d dir sid k :
  k ∈ file_numbers -> rebuilt (snapshot_chunks d dir sid) k = texts d dir sid k.
Proof.
  intros Hk. unfold rebuilt, snapshot_chunks. rewrite foldl_existing by apply NoDup_seqZ.
  rewrite decide_True by done. by destruct (texts d dir sid k).
Qed.

Lemma existing_saved r d dir sid l :
  is_dir_path dir -> files_dir r = dir ->
  existing (saved_disk r d) dir sid l = existing d dir sid l.
Proof.
  intros Hd <-. induction l as [|k l IH]; [done|]. rewrite !existing_cons, IH.
  destruct (snap_file_not_state (files_dir r) sid k Hd). by rewrite saved_disk_other.
Qed.

(** * The two in turn *)

Definition last_packet (w : world) : option raft_packet := snd <$> list.last (out w).

(** Rounds of a transfer: the last datagram of the leader [wl] reaches the
    follower [wf], its answer reaches the leader, and the leader thread goes on. *)
Fixpoint transfer `{CommitHandler} (fuel : nat) (uninit_e : raft_log_entry)
    (uninit_s : raft_install_snapshot_request) (follower_id : Z) (laddr faddr : sockaddr_in)
    (pc : leader_pc) (wl wf : world) : outcome (leader_pc * world * world) :=
  match fuel, pc, last_packet wl with
  | S fuel', Snapshot_send _, Some p =>
      match Raft_dispatch laddr p wf with
      | Fault f => Fault f
      | Ok (_, wf') =>
          match last_packet wf' with
          | None => Ok (pc, wl, wf')
          | Some a =>
              match (Raft_dispatch faddr a;;
                     Raft_leader_thread uninit_e uninit_s follower_id faddr pc) wl with
              | Fault f => Fault f
              | Ok (pc', wl') =>
                  transfer fuel' uninit_e uninit_s follower_id laddr faddr pc' wl' wf'
              end
          end
      end
  | _, _, _ => Ok (pc, wl, wf)
  end.

(** * The leader thread *)

Section leader.
Context `{CommitHandler} (dir : string) (sid term fid : Z) (faddr : sockaddr_in) (chunks : list chunk).
Context (Hdir : is_dir_path dir) (Hlength : (String.length dir + 40 < 256)%nat).
Context (Hck : chunks_ok sid chunks).

(** A leader of [term] that serves the follower [fid], whose next request has
    the number [rid]; [f] is the lock and [n] how many are being served. *)
Record serving (f n rid : Z) (w : world) : Prop := {
  sv_lock : lock_flag (raft w) = f;
  sv_dir : files_dir (raft w) = dir;
  sv_exists : dir ∈ dirs (disk w);
  sv_state : state (raft w) = LEADER;
  sv_term : current_term (raft w) = term;
  sv_start : start_log_index (raft w) = sid;
  sv_behind : exists i, arr_get (next_index (raft w)) fid = Ok i /\ i < sid;
  sv_match : exists i, arr_get (match_index (raft w)) fid = Ok i;
  sv_response : exists a, arr_get (last_request_response (raft w)) fid = Ok a;
  sv_request : arr_get (last_request_id (raft w)) fid = Ok rid;
  sv_chunks : snapshot_chunks (disk w) dir sid = chunks;
  sv_count : n_followers_receiving_snapshots (raft w) = n
}.

(** The iterator stands before chunk [i]. *)
Record before (i : nat) (s : send_state) (w : world) : Prop := {
  bf_le : (i <= length chunks)%nat;
  bf_id : it_snapshot_id (ss_it s) = sid;
  bf_no : -1 <= it_fileno (ss_it s) < N_FILES;
  bf_rest : remaining (disk w) dir (ss_it s) = drop i chunks;
  bf_ind : ss_ind s = Z.of_nat i;
  bf_packet : ir_snapshot_id (ss_packet s) = sid /\ ir_term (ss_packet s) = term
}.

(** The packet [i] has been sent as request [rid]. *)
Record sending (i : nat) (rid : Z) (s : send_state) (w : world) : Prop := {
  sd_packet : chunk_packet sid chunks (ss_packet s);
  sd_index : ir_index (ss_packet s) = Z.of_nat i;
  sd_term : ir_term (ss_packet s) = term;
  sd_request : ir_request_id (ss_packet s) = rid;
  sd_next : (i < length chunks)%nat -> before (S i) s w
}.

Lemma before_disk i s w w' :
  remaining (disk w') dir (ss_it s) = remaining (disk w) dir (ss_it s) ->
  before i s w -> before i s w'.
Proof. intros E []. split; [done..| |done|done]. by rewrite E. Qed.

Lemma run_transmit s w :
  lock_flag (raft w) = 1 ->
  snapshot_transmit faddr s w =
  Ok (Snapshot_send s, answered faddr (INSTALL_SNAPSHOT (ss_packet s)) w).
Proof.
  intros Hl. unfold snapshot_transmit.
  transitivity (((UDP_send faddr (INSTALL_SNAPSHOT (ss_packet s));; raft_lock_release);;
    mret (Snapshot_send s)) w).
  - by rewrite !run_bind.
  - by rewrite run_bind, run_answer.
Qed.

Lemma snapshot_next_sends i n rid s w :
  serving 1 n rid w -> before i s w ->
  exists s', snapshot_next fid faddr s w =
      Ok (Snapshot_send s', answered faddr (INSTALL_SNAPSHOT (ss_packet s')) w) /\
    sending i rid s' w.
Proof.
  intros [] [? ? ? ? ? [Epid Eterm]]. pose proof Hck as []. unfold snapshot_next.
  assert (paths_fit dir (it_snapshot_id (ss_it s))) as Hfit by (rewrite bf_id0; by apply sid_fits).
  pose proof (get_next_remaining w dir sv_dir0 (ss_it s) Hfit bf_no0) as Hn.
  rewrite bf_rest0 in Hn. destruct (drop i chunks) as [|[k t] l] eqn:Ed.
  - assert (i = length chunks) as ->.
    { apply (f_equal length) in Ed. rewrite length_drop in Ed. cbn in Ed. lia. }
    rewrite run_bind, Hn, run_bind, (run_idx_get _ _ _ _ sv_request0). cbv zeta.
    rewrite run_transmit by done. eexists. split; [reflexivity|].
    split; cbn; [|done|done|done|lia]. split; [done|]. exists (length chunks). split; [done|].
    by rewrite lookup_ge_None_2.
  - destruct Hn as (it' & En & Eid & Hno & Hrest).
    assert (chunks !! i = Some (k, t)) as Hi.
    { rewrite <- (Nat.add_0_r i), <- lookup_drop. by rewrite Ed. }
    assert (i < length chunks)%nat as Hlt by by eapply lookup_lt_Some.
    destruct (list.Forall_lookup_1 _ _ _ _ ck_each Hi) as (Hk & _ & Ht). cbn [fst snd] in Hk, Ht.
    rewrite (proj2 (Nat.ltb_lt _ _) Ht) in Hrest. rewrite take_ge in En by lia.
    rewrite run_bind, En, run_bind, (run_idx_get _ _ _ _ sv_request0). cbv zeta.
    rewrite run_bind, bf_ind0, run_int_of by (rewrite int_ok_spec; unfold INT_MIN; lia).
    rewrite run_transmit by done. eexists. split; [reflexivity|].
    split; cbn; [|done|done|done|intros _].
    + split; [done|]. exists i. cbn. by rewrite Hi.
    + split; cbn; [lia|congruence|done| |lia|done].
      rewrite Hrest. apply (f_equal (drop 1)) in Ed. rewrite drop_drop in Ed. cbn in Ed.
      by rewrite Nat.add_comm in Ed.
Qed.

Lemma saved_remaining r d it :
  files_dir r = dir -> remaining (saved_disk r d) dir it = remaining d dir it.
Proof. intros Hr. unfold remaining. by rewrite existing_saved. Qed.

(** The answer to request [rid] is counted: the next one has a new number. *)
Lemma response_serving n rid w id :
  serving 0 n rid w -> int_ok (rid + 1) = true -> id = fid ->
  exists w', Raft_handle_response {| rp_id := id; rp_term := term; rp_success := 1;
                                     rp_request_id := rid |} w = Ok (tt, w') /\
    serving 0 n (rid + 1) w' /\ arr_get (last_request_response (raft w')) fid = Ok 1 /\
    (forall it, remaining (disk w') dir it = remaining (disk w) dir it).
Proof.
  intros [? ? ? ? ? ? (i & Hi & Hbehind) [m Hm] [a Ha] ? ? ?] Hint ->. unfold Raft_handle_response.
  rewrite run_bind, run_lock_acquire by done. fold (acquired w). cbn beta iota. unfold rself, gets. rewrite run_bind.
  cbn [acquired raft upd current_term rp_term rp_id rp_success rp_request_id state start_log_index].
  rewrite sv_term0, Z.ltb_irrefl, run_bind.
  destruct (run_idx_set last_request_response fid 1 a (acquired w) Ha) as (l & El & ->). cbn beta iota.
  rewrite decide_False by congruence. rewrite run_bind, decide_True by done.
  rewrite run_bind, (run_idx_get _ _ rid) by done. rewrite Z.eqb_refl. cbn [when].
  rewrite run_bind, (run_idx_get _ _ i) by done. rewrite (proj2 (Z.ltb_lt i _)) by congruence.
  unfold Raft_handle_install_response, idx_add. cbn [rp_id]. rewrite !run_bind.
  rewrite (run_idx_get _ _ rid) by done. rewrite run_bind, run_int_of by done.
  match goal with |- context [idx_set last_request_id fid (rid + 1) ?w1] =>
    destruct (run_idx_set last_request_id fid (rid + 1) rid w1 sv_request0) as (l' & El' & ->) end.
  cbn beta iota. rewrite save_state_total by (by apply (ready dir)).
  rewrite run_lock_release by done. eexists. split; [reflexivity|].
  split; [|split; [by eapply arr_get_set_eq|intros it; by apply saved_remaining]].
  split; try done; [by exists i|by exists m| |by eapply arr_get_set_eq|].
  - exists 1. by eapply arr_get_set_eq.
  - unfold snapshot_chunks. rewrite <- sv_chunks0. by apply existing_saved.
Qed.

Context (uninit_e : raft_log_entry) (uninit_s : raft_install_snapshot_request).

(** The transfer is over for the leader. *)
Record served (n : Z) (w : world) : Prop := {
  sd_lock : lock_flag (raft w) = 0;
  sd_state : state (raft w) = LEADER;
  sd_start : start_log_index (raft w) = sid;
  sd_next_index : arr_get (next_index (raft w)) fid = Ok sid;
  sd_match_index : arr_get (match_index (raft w)) fid = Ok (sid - 1);
  sd_count : n_followers_receiving_snapshots (raft w) = n;
  sd_chunks : snapshot_chunks (disk w) dir sid = chunks
}.

Lemma last_packet_answered addr p w : last_packet (answered addr p w) = Some p.
Proof. unfold last_packet, answered. cbn. by rewrite list.last_snoc. Qed.

Lemma serving_answered n rid addr p w : serving 1 n rid w -> serving 0 n rid (answered addr p w).
Proof. by intros []. Qed.

(** A positive answer makes the leader go on to the next packet. *)
Lemma resume_sends i n rid s w :
  serving 0 n (rid + 1) w -> arr_get (last_request_response (raft w)) fid = Ok 1 ->
  sending i rid s w -> (i < length chunks)%nat ->
  exists s' w', Raft_leader_thread uninit_e uninit_s fid faddr (Snapshot_send s) w =
      Ok (Snapshot_send s', w') /\
    serving 0 n (rid + 1) w' /\ sending (S i) (rid + 1) s' w' /\
    last_packet w' = Some (INSTALL_SNAPSHOT (ss_packet s')).
Proof.
  intros Hs Hr Hsend Hi. assert (serving 1 n (rid + 1) (acquired w)) as Hs1 by by destruct Hs.
  pose proof Hsend as [(_ & j & Ej & Hj) Ei _ Erid Hnext]. rewrite Ei in Ej. apply Nat2Z.inj in Ej as <-.
  destruct (lookup_lt_is_Some_2 chunks i Hi) as [c Hc]. rewrite Hc in Hj. destruct Hj as [Hdone _].
  destruct (snapshot_next_sends (S i) n (rid + 1) s (acquired w) Hs1) as (s' & E & Hs').
  { by destruct (Hnext Hi). }
  exists s', (answered faddr (INSTALL_SNAPSHOT (ss_packet s')) (acquired w)).
  split; [|split; [by apply serving_answered|split; [|by apply last_packet_answered]]].
  - cbn [Raft_leader_thread]. rewrite run_bind, run_lock_acquire by apply Hs. cbn beta iota.
    fold (acquired w). unfold snapshot_resume. rewrite run_bind, (run_idx_get _ _ (rid + 1)) by apply Hs1.
    rewrite decide_False by lia. rewrite run_bind, (run_idx_get _ _ 1) by done.
    rewrite decide_False by done. by rewrite decide_True by done.
  - destruct Hs' as [? ? ? ? Hb]. split; try done. intros Hlt. by destruct (Hb Hlt).
Qed.

Lemma resume_ends n rid s w :
  serving 0 n (rid + 1) w -> arr_get (last_request_response (raft w)) fid = Ok 1 ->
  sending (length chunks) rid s w -> int_ok (n - 1) = true ->
  exists w', Raft_leader_thread uninit_e uninit_s fid faddr (Snapshot_send s) w = Ok (Leader_loop, w') /\
    served (n - 1) w'.
Proof.
  intros [] Hr [(_ & j & Ej & Hj) Ei _ Erid _] Hn. rewrite Ei in Ej. apply Nat2Z.inj in Ej as <-.
  rewrite lookup_ge_None_2 in Hj by done. destruct Hj as [_ Hdone].
  destruct sv_behind0 as (i & Hi & _). destruct sv_match0 as [m Hm].
  cbn [Raft_leader_thread]. rewrite run_bind, run_lock_acquire by done. cbn beta iota.
  fold (acquired w). unfold snapshot_resume. rewrite run_bind, (run_idx_get _ _ (rid + 1)) by done.
  rewrite decide_False by lia. rewrite run_bind, (run_idx_get _ _ 1) by done.
  rewrite decide_False by done. rewrite decide_False by done.
  rewrite run_bind. unfold rget at 1, gets. cbn [acquired raft upd start_log_index]. rewrite sv_start0.
  fold (acquired w). rewrite run_bind.
  destruct (run_idx_set next_index fid sid i (acquired w) Hi) as (l & El & ->). cbn beta iota.
  pose proof (ck_id _ _ Hck). pose proof (ck_int _ _ Hck) as Hsid. rewrite int_ok_spec in Hsid.
  rewrite run_bind, run_int_of by (rewrite int_ok_spec; unfold INT_MIN; lia). rewrite run_bind.
  match goal with |- context [idx_set match_index fid (sid - 1) ?w1] =>
    destruct (run_idx_set match_index fid (sid - 1) m w1 Hm) as (l' & El' & ->) end.
  cbn beta iota. unfold snapshot_return. rewrite run_bind. unfold rget at 1, gets.
  cbn [raft upd n_followers_receiving_snapshots acquired]. rewrite sv_count0, run_bind, run_int_of by done.
  rewrite run_bind. unfold rmod at 1, modify. rewrite run_bind, run_lock_release by done.
  eexists. split; [reflexivity|]. split; try done; by eapply arr_get_set_eq.
Qed.

Context (fdir : string) (laddr : sockaddr_in).
Context (Hfdir : is_dir_path fdir) (Hflength : (String.length fdir + 40 < 256)%nat).

(** The follower has the first [i] chunks, in the leader's term. *)
Record following (i : nat) (w : world) : Prop := {
  fl_receiving : receiving fdir sid chunks 0 i w;
  fl_other : other_start sid w;
  fl_id : raft_id (raft w) = fid;
  fl_term : current_term (raft w) = term \/ (current_term (raft w) <= term /\ i = 0%nat)
}.

(** The follower takes packet [i] and says so. *)
Lemma following_takes i rid s wl wf :
  following i wf -> sending i rid s wl ->
  exists wf', Raft_dispatch laddr (INSTALL_SNAPSHOT (ss_packet s)) wf = Ok (tt, wf') /\
    last_packet wf' = Some (RESPONSE {| rp_id := fid; rp_term := term; rp_success := 1;
                                        rp_request_id := rid |}) /\
    (if decide (i = length chunks) then installed fdir sid chunks 0 wf wf'
     else following (S i) wf' /\ untouched fdir sid wf wf').
Proof.
  intros [Hr Ho Hid Ht] [Hp Ei Et Erid _]. pose proof Hck as [].
  destruct (install_request fdir sid chunks Hfdir Hflength ck_id ck_int ck_each ck_count
              laddr i (ss_packet s) wf Hr Ho Hp) as (a & wf' & E & Hres & Hout & Hterm & Ha).
  rewrite Ha in * by (rewrite ?Ei, ?Et; auto; destruct Ht; auto). clear Ha a.
  exists wf'. split; [done|]. split.
  { unfold last_packet. rewrite Hout, list.last_snoc. cbn. unfold install_answer.
    rewrite Hid, Erid, Et. do 3 f_equal. lia. }
  destruct Hp as (_ & j & Ej & Hj). rewrite Ei in Ej. apply Nat2Z.inj in Ej as <-.
  inversion Hres as [|j Hj' Hdone Hr' Hu|Hdone Hi]; subst; case_decide as Hlen; try done.
  - exfalso. rewrite lookup_ge_None_2 in Hj by lia. by destruct Hj.
  - split; [|done]. rewrite Ei in Hj'. apply Nat2Z.inj in Hj' as <-. split; [done| | |].
    + by eapply other_start_untouched.
    + by rewrite (ut_id _ _ _ _ Hu).
    + left. rewrite Hterm, Et. lia.
  - exfalso. assert (i < length chunks)%nat as Hlt by (pose proof (rv_le _ _ _ _ _ _ Hr); lia).
    destruct (lookup_lt_is_Some_2 chunks i Hlt) as [c Hc]. rewrite Hc in Hj. by destruct Hj.
Qed.

(** From packet [i] on, with one round for each packet. *)
Lemma transfer_ends n k i rid s wl wf fuel :
  (i + k = length chunks)%nat -> (k < fuel)%nat ->
  serving 0 n rid wl -> sending i rid s wl -> last_packet wl = Some (INSTALL_SNAPSHOT (ss_packet s)) ->
  following i wf -> 0 <= rid -> rid + Z.of_nat k + 1 <= INT_MAX -> int_ok (n - 1) = true ->
  exists wl' wf', transfer fuel uninit_e uninit_s fid laddr faddr (Snapshot_send s) wl wf =
      Ok (Leader_loop, wl', wf') /\
    served (n - 1) wl' /\ installed fdir sid chunks 0 wf wf'.
Proof.
  revert i rid s wl wf fuel. induction k as [|k IH]; intros i rid s wl wf fuel Hik Hfuel Hs Hsend Hlast
    Hf Hrid Hbound Hn; (destruct fuel as [|fuel]; [lia|]); cbn [transfer]; rewrite Hlast;
    destruct (following_takes i rid s wl wf Hf Hsend) as (wf' & -> & -> & Hf');
    (destruct (response_serving n rid wl fid Hs) as (wl' & El & Hs' & Hr' & Hrem);
     [rewrite int_ok_spec; unfold INT_MIN; lia|done|]);
    rewrite run_bind; cbn [Raft_dispatch]; rewrite El;
    (assert (sending i rid s wl') as Hsend' by
      (destruct Hsend as [? ? ? ? Hb]; split; try done; intros Hi; eapply before_disk; eauto)).
  - rewrite decide_True in Hf' by lia. replace i with (length chunks) in Hsend' by lia.
    destruct (resume_ends n rid s wl' Hs' Hr' Hsend' Hn) as (wl2 & -> & Hd).
    exists wl2, wf'. split; [|done]. by destruct fuel.
  - rewrite decide_False in Hf' by lia. destruct Hf' as [Hf' Hu].
    destruct (resume_sends i n rid s wl' Hs' Hr' Hsend') as (s' & wl2 & -> & Hs2 & Hsend2 & Hlast2); [lia|].
    destruct (IH (S i) (rid + 1) s' wl2 wf' fuel) as (wl3 & wf3 & E3 & Hd & Hi); try done; [lia..|].
    exists wl3, wf3. split; [done|]. split; [done|]. eapply installed_untouched; eauto. apply Hck.
Qed.
End leader.

(** * The whole transfer *)

(** A leader whose follower [fid] needs an entry the log no longer has. *)
Record needs_snapshot (fid : Z) (w : world) : Prop := {
  nd_lock : lock_flag (raft w) = 0;
  nd_ready : disk_ready w;
  nd_state : state (raft w) = LEADER;
  nd_free : snapshot_in_progress (raft w) = 0;
  nd_start : 0 <= start_log_index (raft w) /\ int_ok (start_log_index (raft w)) = true;
  nd_behind : exists i, arr_get (next_index (raft w)) fid = Ok i /\ i < start_log_index (raft w);
  nd_match : exists i, arr_get (match_index (raft w)) fid = Ok i;
  nd_response : exists a, arr_get (last_request_response (raft w)) fid = Ok a;
  nd_request : exists rid, arr_get (last_request_id (raft w)) fid = Ok rid /\ 0 <= rid <= INT_MAX - 101;
  nd_count : 0 <= n_followers_receiving_snapshots (raft w) < INT_MAX;
  nd_small : small_files (disk w) (files_dir (raft w)) (start_log_index (raft w))
}.

(** The thread finds out, and sends the first packet. *)
Lemma leader_starts `{CommitHandler} ue us fid faddr w rid
    (chunks := snapshot_chunks (disk w) (files_dir (raft w)) (start_log_index (raft w))) :
  needs_snapshot fid w -> arr_get (last_request_id (raft w)) fid = Ok rid ->
  chunks_ok (start_log_index (raft w)) chunks ->
  exists s w', Raft_leader_thread ue us fid faddr Leader_loop w = Ok (Snapshot_send s, w') /\
    serving (files_dir (raft w)) (start_log_index (raft w)) (current_term (raft w)) fid chunks 0
      (n_followers_receiving_snapshots (raft w) + 1) rid w' /\
    sending (files_dir (raft w)) (start_log_index (raft w)) (current_term (raft w)) chunks 0 rid s w' /\
    last_packet w' = Some (INSTALL_SNAPSHOT (ss_packet s)).
Proof.
  intros [? [Hd He Hl] ? ? ? (i & Hi & Hlt) ? ? _ ? _] Hrid Hck.
  cbn [Raft_leader_thread]. rewrite run_bind, run_lock_acquire by done. fold (acquired w). cbn beta iota.
  rewrite run_bind, run_rget. rewrite decide_False by auto.
  rewrite run_bind, (run_idx_get _ _ i), run_bind, run_rget by done.
  cbn [acquired raft upd start_log_index]. rewrite (proj2 (Z.ltb_lt _ _) Hlt). fold (acquired w).
  unfold snapshot_start. rewrite run_bind, run_rget, decide_False by auto.
  rewrite run_bind, run_rget, run_bind, run_int_of by (rewrite int_ok_spec; unfold INT_MIN; cbn; lia).
  rewrite run_bind, run_rmod. unfold rself, gets. rewrite run_bind. cbn beta iota.
  match goal with |- context [snapshot_next fid faddr ?s0 ?w0] =>
    destruct (snapshot_next_sends (files_dir (raft w)) (start_log_index (raft w)) (current_term (raft w))
      fid faddr chunks Hl Hck 0 (n_followers_receiving_snapshots (raft w) + 1) rid s0 w0)
      as (s & -> & Hs) end.
  - split; try done. by exists i.
  - split; try done. lia.
  - eexists s, _. split; [reflexivity|]. split; [|split; [|by apply last_packet_answered]].
    + split; try done. by exists i.
    + destruct Hs as [? ? ? ? Hb]. split; try done. intros Hj. by destruct (Hb Hj).
Qed.

