(* ===== verification/Server.v ===== *)
(** [server.c]: the handlers of the clients' requests, the commit handler and
    the start of the server. *)
From S2P Require Import Prelude Libc Posix RaftTypes PacketFormat Spinlock TimedLock RaftStorage RaftUtils RaftFollower RaftLeader RaftCandidate Raft.

#[local] Open Scope string_scope.
#[local] Open Scope Z_scope.
#[local] Open Scope list_scope.

(** * The commit handler *)

(** One file of a transaction: the text is appended when the file opens. *)
Definition commit_file (files_dir : string) (e : raft_transaction_entry) (d : fs raft_state)
    : outcome (fs raft_state) :=
  name ← c_str FILENAME_SIZE (filename e);
  fn ← sprintf 256 (files_dir +:+ of_bytes name);
  if decide (dir_of fn ∈ dirs d) then
    text ← c_str BUFFER_SIZE (buffer e);
    match fopen_a d fn text with Some d' => Ok d' | None => Ok d end
  else Ok d.

Fixpoint handle_raft_commit (files_dir : string) (data : list raft_transaction_entry)
    (d : fs raft_state) : outcome (fs raft_state) :=
  match data with
  | [] => Ok d
  | e :: data' =>
      if first_is_nul (filename e) then Ok d
      else d' ← commit_file files_dir e d; handle_raft_commit files_dir data' d'
  end.

(** What [main] installs as [raft->commit_handler]. *)
Definition server_commit_handler : CommitHandler := handle_raft_commit.

(** * The state of the server *)

Record server := {
  sv_raft : world;
  sv_lock : tmdspinlock;
  current_log_entry : raft_log_entry
}.

#[export] Instance server_eta : Eta server := fun s =>
  {| sv_raft := sv_raft s; sv_lock := sv_lock s; current_log_entry := current_log_entry s |}.

(** A call on one part of the state. *)
Definition on_raft {A} (m : M world A) : M server A := fun s =>
  match m (sv_raft s) with Ok (a, w) => Ok (a, s <| sv_raft := w |>) | Fault f => Fault f end.
Definition on_lock {A} (m : M tmdspinlock A) : M server A := fun s =>
  match m (sv_lock s) with Ok (a, l) => Ok (a, s <| sv_lock := l |>) | Fault f => Fault f end.

(** [strcpy(message, "...")]. *)
Definition answer (rc : Z) (text : string) (message : bytes) : M server (Z * bytes) :=
  m ← lift (strcpy MESSAGE_SIZE message (to_bytes text)); mret (rc, m).

(** * The handlers *)

Definition handle_lock_acquire (clock client_id : Z) (message : bytes) : M server (Z * bytes) :=
  rc ← on_lock (tmdspinlock_acquire clock client_id);
  if rc <? 0 then
    answer E_LOCK ("the client already has the lock" +:+ newline) message
  else
    modify (fun s => s <| current_log_entry ::= fun e =>
      e <| le_data := le_data zero_log_entry |> <| le_client := client_id |> |>);;
    e ← gets current_log_entry;
    id ← int_of (le_id e + 1);
    modify (fun s => s <| current_log_entry ::= fun e => e <| le_id := id |> |>);;
    term ← on_raft (rget current_term);
    mret (0, put_token term id message).

(** One turn of [while(rc == 0)]; [None] goes on. *)
Definition release_poll (term id : Z) (message : bytes) : M server (option (Z * bytes)) :=
  rc ← on_raft (Raft_is_entry_committed term id);
  if rc =? 0 then mret None
  else if rc =? 1 then a ← answer 0 "lock released" message; mret (Some a)
  else a ← answer E_LOST "transaction lost" message; mret (Some a).

(** Between two turns the other threads change the state of the raft module:
    [others] is what they do.  [None] is a call that has not returned yet. *)
Fixpoint release_wait (term id : Z) (message : bytes) (others : list (world -> world))
    : M server (option (Z * bytes)) :=
  a ← release_poll term id message;
  match (a : option (Z * bytes)), others with
  | Some a, _ => mret (Some a)
  | None, [] => mret None
  | None, f :: others' =>
      modify (fun s => s <| sv_raft ::= f |>);; release_wait term id message others'
  end.

(** [true] when the transaction is from this term and the lock was released. *)
Definition release_begin (clock client_id : Z) : M server bool :=
  rc ← on_lock (tmdspinlock_pause_if_owner client_id);
  (if decide (rc = 0) then
     e ← gets current_log_entry;
     res ← on_raft (Raft_append_entry e);
     modify (fun s => s <| current_log_entry := (res : Z * raft_log_entry).2 |>);;
     _ ← on_lock (tmdspinlock_reset_if_owner clock client_id); skip
   else skip);;
  rc ← on_lock (tmdspinlock_release client_id);
  mret (negb (rc <? 0)).

Definition handle_lock_release (clock client_id transaction_term transaction_id : Z)
    (message : bytes) (others : list (world -> world)) : M server (option (Z * bytes)) :=
  t ← on_raft (rget current_term);
  if decide (transaction_term = t) then
    released ← release_begin clock client_id;
    if (released : bool) then release_wait transaction_term transaction_id message others
    else a ← answer E_LOCK_EXP "lock released before being acquired" message; mret (Some a)
  else release_wait transaction_term transaction_id message others.

(** The loop over [current_log_entry.data]; [None] when no entry is left. *)
Fixpoint append_to (data : list raft_transaction_entry) (file text : bytes)
    : outcome (option (list raft_transaction_entry)) :=
  match data with
  | [] => Ok None
  | e :: data' =>
      if first_is_nul (filename e) then
        name ← c_str FILENAME_SIZE file;
        f ← strcpy FILENAME_SIZE (filename e) name;
        t ← c_str BUFFER_SIZE text;
        b ← strcpy BUFFER_SIZE (buffer e) t;
        Ok (Some ({| filename := f; buffer := b |} :: data'))
      else
        same ← strcmp_eq FILENAME_SIZE (filename e) file;
        if (same : bool) then
          t ← c_str BUFFER_SIZE text;
          b ← strcat BUFFER_SIZE (buffer e) t;
          Ok (Some (e <| buffer := b |> :: data'))
        else
          rest ← append_to data' file text;
          Ok (match rest with Some l => Some (e :: l) | None => None end)
  end.

Definition handle_append_file (clock client_id : Z) (file text message : bytes) : M server (Z * bytes) :=
  rc ← on_lock (tmdspinlock_pause_if_owner client_id);
  if rc <? 0 then answer E_LOCK_EXP "trying to write to file without holding a lock" message
  else
    e ← gets current_log_entry;
    res ← lift (append_to (le_data e) file text);
    a ← (match (res : option (list raft_transaction_entry)) with
         | Some data =>
             modify (fun s => s <| current_log_entry ::= fun e => e <| le_data := data |> |>);;
             answer 0 "success" message
         | None =>
             answer E_TRANSACTION_LIMIT "too many files modified within one transaction" message
         end);
    _ ← on_lock (tmdspinlock_reset_if_owner clock client_id);
    mret a.

(** * The start of the server *)

(** The directory of the server [id]: the loop keeps the last match. *)
Definition server_files_dir (config : raft_configuration) (id : Z) : string :=
  foldl (fun dir s => if decide (server_id s = id) then file_directory s else dir) "" config.

(** [main] up to [Server_RPC_listen], on a machine with disk [d]; [sd] is the
    raft socket. *)
Definition server_main (config : raft_configuration) (id : Z) (use_backup : bool) (sd : Z)
    (d : fs raft_state) : outcome server :=
  let files_dir := server_files_dir config id in
  let w := {| raft := zero_raft_state; disk := d; out := []; spawned := [] |} in
  match (if use_backup
         then @Raft_server_restore server_commit_handler files_dir id sd
         else Raft_server_init config files_dir id sd) w with
  | Ok (_, w') =>
      Ok {| sv_raft := w'; sv_lock := tmdspinlock_init; current_log_entry := zero_log_entry |}
  | Fault f => Fault f
  end.

(** * The commit handler keeps its promises *)

Lemma of_bytes_inj a b : of_bytes a = of_bytes b -> a = b.
Proof.
  intros H. apply (f_equal String.list_ascii_of_string) in H. unfold of_bytes in H.
  by rewrite !String.list_ascii_of_string_of_list_ascii in H.
Qed.

Lemma commit_file_ok dir e d d' :
  commit_file dir e d = Ok d' ->
  dirs d' = dirs d /\ (forall p, files d' !! p ≫= f_image = files d !! p ≫= f_image) /\
  (forall p, text_of d' p =
     if decide (p = dir +:+ of_bytes (until_nul (filename e)) /\ dir_of p ∈ dirs d)
     then text_of d p ++ until_nul (buffer e) else text_of d p) /\
  (forall p, p <> dir +:+ of_bytes (until_nul (filename e)) -> files d' !! p = files d !! p).
Proof.
  unfold commit_file. destruct (c_str FILENAME_SIZE (filename e)) as [name|] eqn:Hn; [|done]. cbn.
  apply c_str_ok in Hn as [-> _].
  unfold sprintf. destruct (String.length _ <? 256)%nat; [|done]. cbn. case_decide as Hd.
  - destruct (c_str BUFFER_SIZE (buffer e)) as [t|] eqn:Ht; [|done]. cbn. apply c_str_ok in Ht as [-> _].
    destruct (fopen_a d _ _) as [d1|] eqn:Ha; intros [= <-].
    + split; [by apply fopen_w_dirs in Ha|]. split; [intros p; by eapply image_fopen_a|].
      split; [|intros p Hp; unfold fopen_a in Ha; by rewrite (fopen_w_lookup _ _ _ _ p Ha), decide_False].
      intros p. rewrite (text_of_fopen_a _ _ _ _ p Ha). destruct (decide (_ = p)) as [<-|Hne].
      * by rewrite decide_True.
      * rewrite decide_False; [done|]. by intros [? _].
    + unfold fopen_a, fopen_w in Ha. by rewrite decide_True in Ha.
  - intros [= <-]. split_and!; try done. intros p. rewrite decide_False; [done|].
    by intros [-> ?].
Qed.

#[export] Instance server_commit_handler_ok : CommitHandlerOk server_commit_handler.
Proof.
  split; intros dir data; induction data as [|e data IH]; intros d d' *; cbn;
    try (by intros [= <-]); destruct (first_is_nul (filename e)); try (by intros [= <-]);
    destruct (commit_file dir e d) as [d1|] eqn:H1; cbn; try done; intros H.
  - apply commit_file_ok in H1 as (_ & Hi & _). by rewrite (IH d1 d' p H), Hi.
  - apply commit_file_ok in H1 as (Hd & _). by rewrite (IH d1 d' H), Hd.
Qed.

#[export] Instance server_commit_handler_appends : CommitHandlerAppends server_commit_handler.
Proof.
  split; intros dir data; induction data as [|e data IH]; intros d d' f; cbn.
  - intros [= <-] _ _ _. by rewrite app_nil_r.
  - destruct (first_is_nul (filename e)); [intros [= <-] _ _ _; by rewrite app_nil_r|].
    destruct (commit_file dir e d) as [d1|] eqn:H1; [|done]. cbn. intros H Hdir Hin Hf.
    apply commit_file_ok in H1 as (Hd & _ & Ht & _).
    rewrite (IH d1 d' f H) by (try done; by rewrite Hd). rewrite Ht, app_assoc. f_equal.
    destruct (decide (until_nul (filename e) = f)) as [<-|Hne].
    + rewrite decide_True; [done|]. split; [done|]. by rewrite dir_of_app.
    + rewrite decide_False, app_nil_r; [done|]. intros [Heq _]. apply string_app_inj, of_bytes_inj in Heq. congruence.
  - by intros [= <-].
  - destruct (first_is_nul (filename e)); [by intros [= <-]|].
    destruct (commit_file dir e d) as [d1|] eqn:H1; [|done]. cbn.
    intros H Hdir [Hplain Hpl]%list.Forall_cons Hf. rewrite (IH d1 d' f H) by done.
    apply commit_file_ok in H1 as (_ & _ & _ & Ho). apply Ho. intros ->. by rewrite dir_of_app in Hf.
Qed.

(** The transactions on which the handler returns: texts that end, and names
    that leave room for the directory. *)
Definition readable (dir : string) (data : list raft_transaction_entry) : Prop :=
  Forall (fun e => (String.length (dir +:+ of_bytes (until_nul (filename e))) < 256)%nat /\
                   terminated BUFFER_SIZE (buffer e) = true) data.

Lemma commit_file_total dir e d :
  (String.length (dir +:+ of_bytes (until_nul (filename e))) < 256)%nat ->
  terminated BUFFER_SIZE (buffer e) = true -> exists d', commit_file dir e d = Ok d'.
Proof.
  intros Hn Ht. unfold commit_file, c_str, sprintf. rewrite Ht.
  assert (terminated FILENAME_SIZE (filename e) = true) as ->.
  { apply Nat.ltb_lt. unfold FILENAME_SIZE. revert Hn. rewrite length_app_string, length_of_bytes. lia. }
  cbn [mbind outcome_bind]. apply Nat.ltb_lt in Hn. rewrite Hn. cbn [mbind outcome_bind].
  case_decide; [|by eexists]. destruct (fopen_a d _ _); by eexists.
Qed.

Lemma handle_raft_commit_total dir data d :
  readable dir data -> exists d', handle_raft_commit dir data d = Ok d'.
Proof.
  intros Hr. revert d. induction Hr as [|e data [Hn Ht] Hr IH]; intros d; cbn; [by eexists|].
  destruct (first_is_nul (filename e)); [by eexists|].
  destruct (commit_file_total dir e d Hn Ht) as [d1 ->]. apply IH.
Qed.

(** A directory that leaves the same room. *)
Lemma handle_raft_commit_room dir dir' data d :
  (String.length dir' <= String.length dir)%nat -> readable dir data ->
  exists d', handle_raft_commit dir' data d = Ok d'.
Proof.
  intros Hl Hr. apply handle_raft_commit_total. eapply list.Forall_impl; [exact Hr|].
  intros e [Hn Ht]. split; [|done]. revert Hn. rewrite !length_app_string. lia.
Qed.

(** A name that [handle_append_file] can store, but not behind the directory. *)
Lemma commit_long_name dir e data d :
  terminated FILENAME_SIZE (filename e) = true -> first_is_nul (filename e) = false ->
  (256 <= String.length dir + length (until_nul (filename e)))%nat ->
  handle_raft_commit dir (e :: data) d = Fault BufferOverflow.
Proof.
  intros Ht Hn Hlen. cbn [handle_raft_commit]. rewrite Hn. unfold commit_file, c_str, sprintf. rewrite Ht.
  cbn [mbind outcome_bind]. by rewrite length_app_string, length_of_bytes, (proj2 (Nat.ltb_ge _ _)).
Qed.

(** * The transaction under construction *)

Definition tx_name (e : raft_transaction_entry) : bytes := until_nul (filename e).

(** The used entries of the array, then the free ones; a file has one entry. *)
Record tx_split (act rest data : list raft_transaction_entry) : Prop := {
  tx_data : data = act ++ rest;
  tx_used : Forall (fun e => first_is_nul (filename e) = false) act;
  tx_free : Forall (fun e => first_is_nul (filename e) = true) rest;
  tx_names : NoDup (tx_name <$> act)
}.

Lemma applied_free f rest :
  Forall (fun e => first_is_nul (filename e) = true) rest -> applied f rest = [].
Proof. destruct 1 as [|e rest He _]; cbn; [done|]. by rewrite He. Qed.

Lemma applied_absent f act rest :
  Forall (fun e => first_is_nul (filename e) = true) rest -> f ∉ tx_name <$> act ->
  applied f (act ++ rest) = [].
Proof.
  intros Hr. induction act as [|e act IH]; cbn; intros Hf; [by apply applied_free|].
  destruct (first_is_nul (filename e)); [done|]. unfold tx_name in Hf.
  rewrite decide_False by set_solver. apply IH. set_solver.
Qed.

Lemma first_is_nul_until a : first_is_nul a = false <-> until_nul a <> [].
Proof.
  destruct a as [|c a]; cbn; [done|]. rewrite bool_decide_eq_false. by case_decide.
Qed.

(** A write to the file with no name takes the first free slot, and leaves it
    free: nothing of it is applied. *)
Lemma append_to_no_name e data file text t f :
  first_is_nul (filename e) = true -> first_is_nul file = true -> c_str BUFFER_SIZE text = Ok t ->
  exists e', append_to (e :: data) file text = Ok (Some (e' :: data)) /\ applied f (e' :: data) = [].
Proof.
  intros He Hf Ht. cbn [append_to]. rewrite He, Ht. pose proof Ht as [Et Hl]%c_str_ok.
  assert (until_nul file = []) as Hn.
  { destruct (until_nul file) as [|c l] eqn:E; [done|]. exfalso.
    assert (first_is_nul file = false) by (apply first_is_nul_until; congruence). congruence. }
  assert (c_str FILENAME_SIZE file = Ok []) as -> by (apply c_str_ok; split; [done|unfold FILENAME_SIZE; cbn; lia]).
  cbn [mbind outcome_bind]. unfold strcpy. rewrite (proj2 (Nat.ltb_lt _ _) Hl).
  eexists. split; [reflexivity|]. done.
Qed.

Lemma strcpy_until cap a s d : no_nul s -> strcpy cap a s = Ok d -> until_nul d = s.
Proof. intros Hs H. by apply (c_str_strcpy _ _ _ _ Hs), c_str_ok in H as [<- _]. Qed.

Lemma strcat_until cap a s d :
  no_nul s -> strcat cap a s = Ok d -> until_nul d = until_nul a ++ s.
Proof.
  intros Hs. unfold strcat. destruct (c_str cap a) as [t|] eqn:Ht; [|done]. cbn.
  apply c_str_ok in Ht as [-> _]. apply strcpy_until. pose proof (until_nul_no_nul a).
  unfold no_nul in *. set_solver.
Qed.

Lemma append_to_names data file text data' e' :
  append_to data file text = Ok (Some data') -> e' ∈ tx_name <$> data' ->
  e' ∈ tx_name <$> data \/ e' = until_nul file.
Proof.
  revert data'. induction data as [|e data IH]; intros data'; cbn; [done|].
  destruct (first_is_nul (filename e)).
  - destruct (c_str FILENAME_SIZE file) as [n|] eqn:Hn; [|done]. cbn. apply c_str_ok in Hn as [-> _].
    destruct (strcpy FILENAME_SIZE (filename e) _) as [n'|] eqn:Hc; [|done]. cbn.
    destruct (c_str BUFFER_SIZE text) as [t|]; [|done]. cbn. destruct (strcpy BUFFER_SIZE (buffer e) _); [|done]. cbn.
    intros [= <-]. cbn. unfold tx_name at 1. cbn.
    apply strcpy_until in Hc; [|apply until_nul_no_nul]. rewrite Hc. set_solver.
  - destruct (strcmp_eq FILENAME_SIZE _ _) as [[]|]; [| |done]; cbn.
    + destruct (c_str BUFFER_SIZE text); [|done]. cbn. destruct (strcat BUFFER_SIZE (buffer e) _); [|done]. cbn.
      intros [= <-]. cbn. tauto.
    + destruct (append_to data file text) as [[rest|]|] eqn:Hr; [|done..]. cbn.
      intros [= <-]. cbn. intros [->|H]%elem_of_cons; [set_solver|].
      destruct (IH rest eq_refl H); [set_solver|tauto].
Qed.

(** Appending to the array appends to what the transaction will write. *)
Lemma append_to_spec act rest data file text data' :
  tx_split act rest data -> first_is_nul file = false ->
  append_to data file text = Ok (Some data') ->
  (exists act' rest', tx_split act' rest' data') /\ length data' = length data /\
  forall f, applied f data' =
    applied f data ++ (if decide (until_nul file = f) then until_nul text else []).
Proof.
  intros [-> Hu Hr Hnd] Hfile. revert data' Hu Hnd. induction act as [|e act IH]; intros data' Hu Hnd H.
  - destruct rest as [|e rest]; [done|]. cbn in H. apply list.Forall_cons in Hr as [He Hr].
    rewrite He in H. destruct (c_str FILENAME_SIZE file) as [n|] eqn:Hn; [|done]. cbn in H.
    apply c_str_ok in Hn as [-> _].
    destruct (strcpy FILENAME_SIZE (filename e) _) as [n'|] eqn:Hc; [|done]. cbn in H.
    destruct (c_str BUFFER_SIZE text) as [t|] eqn:Ht; [|done]. cbn in H. apply c_str_ok in Ht as [-> _].
    destruct (strcpy BUFFER_SIZE (buffer e) _) as [b|] eqn:Hb; [|done]. injection H as <-.
    apply strcpy_until in Hc; [|apply until_nul_no_nul].
    apply strcpy_until in Hb; [|apply until_nul_no_nul].
    assert (first_is_nul n' = false) as Hn' by (apply first_is_nul_until; rewrite Hc; by apply first_is_nul_until).
    split_and!.
    + exists [{| filename := n'; buffer := b |}], rest. constructor; try done.
      * by repeat constructor.
      * apply NoDup_singleton.
    + done.
    + intros f. cbn. rewrite Hn', Hc, Hb, He, applied_free, app_nil_r by done. done.
  - apply list.Forall_cons in Hu as [He Hu]. rewrite fmap_cons in Hnd.
    apply list.NoDup_cons in Hnd as [Hni Hnd]. cbn in H. rewrite He in H.
    destruct (strcmp_eq FILENAME_SIZE _ _) as [[]|] eqn:Hs; [| |done]; cbn in H; apply strcmp_eq_ok in Hs;
      [symmetry in Hs; apply bool_decide_eq_true in Hs|symmetry in Hs; apply bool_decide_eq_false in Hs].
    + destruct (c_str BUFFER_SIZE text) as [t|] eqn:Ht; [|done]. cbn in H. apply c_str_ok in Ht as [-> _].
      destruct (strcat BUFFER_SIZE (buffer e) _) as [b|] eqn:Hb; [|done]. injection H as <-.
      apply strcat_until in Hb; [|apply until_nul_no_nul]. split_and!.
      * exists (e <| buffer := b |> :: act), rest. constructor; try done; [by constructor|].
        by constructor.
      * done.
      * intros f. cbn. rewrite He, Hb, Hs. case_decide as Hf; [|by rewrite app_nil_r].
        rewrite applied_absent; [by rewrite !app_nil_r|done|]. by rewrite <- Hf, <- Hs.
    + destruct (append_to (act ++ rest) file text) as [[r|]|] eqn:Hr'; [|done..]. injection H as <-.
      destruct (IH r Hu Hnd eq_refl) as ((act' & rest' & [-> Hu' Hr2 Hnd']) & Hlen & Happ). split_and!.
      * exists (e :: act'), rest'. constructor; try done; [by constructor|].
        rewrite fmap_cons. constructor; [|done]. intros Hin.
        destruct (append_to_names _ _ _ _ (tx_name e) Hr') as [Hi|Hi]; [rewrite fmap_app; set_solver| |done].
        rewrite fmap_app in Hi. apply elem_of_app in Hi as [?|Hi]; [done|].
        apply list_elem_of_fmap in Hi as (e0 & Heq & He0). rewrite list.Forall_forall in Hr.
        specialize (Hr e0 He0). unfold tx_name in Heq. apply first_is_nul_until in He. rewrite Heq in He.
        apply (first_is_nul_until (filename e0)) in He. congruence.
      * cbn. by rewrite Hlen.
      * intros f. cbn. by rewrite He, Happ, app_assoc.
Qed.
