(* ===== verification/RaftView.v ===== *)
(** What the raft functions do to the part of a server the election depends
    on: its term, vote, role and count of votes, what its disk would restore of
    them, and the datagrams it sends. *)
From S2P Require Import Prelude Libc Posix RaftTypes RaftStorage RaftUtils RaftFollower RaftLeader RaftCandidate Raft.

#[local] Open Scope string_scope.
#[local] Open Scope Z_scope.
#[local] Open Scope list_scope.

(** * Paths that differ *)

Lemma snapshot_file_not_state dir id i : snapshot_path dir id +:+ file_name i <> state_file dir.
Proof.
  unfold snapshot_path, state_file, file_name. case_decide.
  - intros E%string_app_inj. discriminate.
  - rewrite app_assoc_string. intros E%string_app_inj. discriminate.
Qed.

Lemma tmp_not_state dir : tmp_state_file dir <> state_file dir.
Proof. intros E%string_app_inj. discriminate. Qed.

Lemma path_buf_ok s w a w' : path_buf s w = Ok (a, w') -> a = s /\ w' = w.
Proof.
  unfold path_buf, lift, sprintf. destruct (_ <? _)%nat; [|done]. by intros [= <- <-].
Qed.

Lemma path_ok snap w a w' :
  Raft_get_snapshot_path snap w = Ok (a, w') ->
  a = snapshot_path (files_dir (raft w)) snap /\ w' = w.
Proof. intros (d & w1 & [= <- <-] & H)%bind_ok. by apply path_buf_ok in H. Qed.

(** * Views *)

(** What [Raft_server_restore] would find. *)
Definition image (w : world) : option raft_state :=
  files (disk w) !! state_file (files_dir (raft w)) ≫= f_image.

(** A part of the state to follow: [view] of the memory, [sv] of what the state
    file holds.  Neither depends on the lock. *)
Class ViewOk {V W} (view : raft_state -> V) (sv : raft_state -> W) := {
  view_dir : forall r r', view r = view r' -> files_dir r = files_dir r';
  view_saved : forall r r', view r = view r' -> sv r = sv r';
  view_lock : forall r f, view (r <| lock_flag := f |>) = view r
}.

(** A view that leaves out the commit index. *)
Class ViewCommit {V} (view : raft_state -> V) :=
  view_commit : forall r c, view (r <| commit_index := c |>) = view r.

Section view.
Context {V W O : Type} (view : raft_state -> V) (sv : raft_state -> W)
  (ob : list (sockaddr_in * raft_packet) -> O) `{!ViewOk view sv}.

(** [w'] shows the same view as [w], has sent nothing to observe, and its disk
    holds what it held or the current state. *)
Definition vquiet (w w' : world) : Prop :=
  view (raft w') = view (raft w) /\ ob (out w') = ob (out w) /\
  (sv <$> image w' = sv <$> image w \/ sv <$> image w' = Some (sv (raft w'))).

#[export] Instance vquiet_preorder : PreOrder vquiet.
Proof.
  split.
  - intros w. unfold vquiet. auto.
  - intros w1 w2 w3 (E1 & O1 & I1) (E2 & O2 & I2). split_and!; [congruence..|].
    destruct I2 as [->|?]; [|by right]. rewrite (view_saved _ _ E2). done.
Qed.

Lemma vquiet_dir w w' : vquiet w w' -> files_dir (raft w') = files_dir (raft w).
Proof. intros (E & _). by eapply view_dir. Qed.

End view.

(** [m] run by the server whose files are in [dir] changes nothing in view. *)
Definition vkeeps {V W O : Type} (view : raft_state -> V) (sv : raft_state -> W)
    (ob : list (sockaddr_in * raft_packet) -> O) `{!ViewOk view sv}
    {A} (dir : string) (m : M world A) : Prop :=
  forall w a w', files_dir (raft w) = dir -> m w = Ok (a, w') -> vquiet view sv ob w w'.

(** The view of the election. *)
Definition eview (r : raft_state) :=
  (current_term r, voted_for r, state r, nvoted r, raft_id r, config r, files_dir r).
Definition saved (r : raft_state) := (current_term r, voted_for r, config r).

#[export] Instance eview_ok : ViewOk eview saved.
Proof. split; try done; unfold eview, saved; intros r r' E; congruence. Qed.
#[export] Instance eview_commit : ViewCommit eview.
Proof. done. Qed.

Abbreviation quiet := (vquiet eview saved (fun l => l)).
Abbreviation keeps := (vkeeps eview saved (fun l => l)).

Section keeps.
Context {V W O : Type} (view : raft_state -> V) (sv : raft_state -> W)
  (ob : list (sockaddr_in * raft_packet) -> O) `{!ViewOk view sv}.
#[local] Abbreviation quiet := (vquiet view sv ob).
#[local] Abbreviation keeps := (vkeeps view sv ob).
Context (dir : string).

Lemma keeps_bind {A B} (m : M world A) (k : A -> M world B) :
  keeps dir m -> (forall a, keeps dir (k a)) -> keeps dir (m ≫= k).
Proof.
  intros Hm Hk w b w' Hd (a & w1 & H1 & H2)%bind_ok.
  pose proof (Hm _ _ _ Hd H1) as Hq. etrans; [exact Hq|].
  eapply Hk; [|exact H2]. by rewrite (vquiet_dir _ _ _ _ _ Hq).
Qed.

(** A command that only reads hands its result on. *)
Lemma keeps_read {A B} (m : M world A) (k : A -> M world B) :
  (forall w a w', files_dir (raft w) = dir -> m w = Ok (a, w') -> w' = w /\ keeps dir (k a)) ->
  keeps dir (m ≫= k).
Proof.
  intros Hm w b w' Hd (a & w1 & H1 & H2)%bind_ok.
  destruct (Hm _ _ _ Hd H1) as [-> Hk]. eapply Hk; eauto.
Qed.

Lemma keeps_ret {A} (a : A) : keeps dir (mret a).
Proof. intros w b w' _ [= _ <-]. reflexivity. Qed.
Lemma keeps_skip : keeps dir skip.
Proof. intros w b w' _ [= _ <-]. reflexivity. Qed.
Lemma keeps_throw {A} f : keeps dir (throw (A:=A) f).
Proof. done. Qed.
Lemma keeps_gets {A} (f : world -> A) : keeps dir (gets f).
Proof. intros w b w' _ [= _ <-]. reflexivity. Qed.
Lemma keeps_rself : keeps dir rself.
Proof. apply keeps_gets. Qed.
Lemma keeps_rget {A} (f : raft_state -> A) : keeps dir (rget f).
Proof. apply keeps_gets. Qed.
Lemma keeps_lift {A} (o : outcome A) : keeps dir (lift o).
Proof. intros w b w' _. unfold lift. destruct o; [|done]. intros [= _ <-]. reflexivity. Qed.
Lemma keeps_int_of z : keeps dir (int_of z).
Proof. unfold int_of. case_match; [apply keeps_ret|apply keeps_throw]. Qed.
Lemma keeps_when b m : keeps dir m -> keeps dir (when b m).
Proof. destruct b; [done|intros _; apply keeps_skip]. Qed.
Lemma keeps_orM a b : keeps dir b -> keeps dir (orM a b).
Proof. destruct a; [intros _; apply keeps_ret|done]. Qed.
Lemma keeps_andM a b : keeps dir b -> keeps dir (andM a b).
Proof. destruct a; [done|intros _; apply keeps_ret]. Qed.

Lemma keeps_for {A} (l : list A) body : (forall x, keeps dir (body x)) -> keeps dir (for_ l body).
Proof.
  intros Hb. induction l as [|x l IH]; [apply keeps_skip|].
  apply keeps_bind; [apply Hb|intros _; exact IH].
Qed.

Lemma keeps_rmod f : (forall r, view (f r) = view r) -> keeps dir (rmod f).
Proof.
  intros Hf w b w' _ [= _ <-]. unfold vquiet, image. cbn.
  rewrite (view_dir _ _ (Hf (raft w))), Hf. auto.
Qed.

Lemma keeps_send a p : (forall l, ob (l ++ [(a, p)]) = ob l) -> keeps dir (UDP_send a p).
Proof.
  intros Hob w b w' _ [= _ <-]. unfold vquiet, image. cbn. rewrite Hob. auto.
Qed.

Lemma keeps_disk (c : fs raft_state -> option (fs raft_state)) :
  (forall d d', c d = Some d' ->
     files d' !! state_file dir ≫= f_image = files d !! state_file dir ≫= f_image) ->
  keeps dir (fs_call c).
Proof.
  intros Hc w b w' Hd. unfold fs_call. destruct (c (disk w)) as [d|] eqn:E; [|done].
  intros [= _ <-]. unfold vquiet, image. cbn. rewrite Hd.
  rewrite (Hc _ _ E). auto.
Qed.

Lemma keeps_disk_do (c : fs raft_state -> fs raft_state) :
  (forall d, files (c d) !! state_file dir ≫= f_image = files d !! state_file dir ≫= f_image) ->
  keeps dir (fs_do c).
Proof.
  intros Hc w b w' Hd [= _ <-]. unfold vquiet, image. cbn. rewrite Hd, Hc. auto.
Qed.

Lemma keeps_path_buf {B} s (k : string -> M world B) :
  keeps dir (k s) -> keeps dir (path_buf s ≫= k).
Proof.
  intros Hk. apply keeps_read. by intros w a w' _ [-> ->]%path_buf_ok.
Qed.

Lemma keeps_dir {B} (k : string -> M world B) : keeps dir (k dir) -> keeps dir (rget files_dir ≫= k).
Proof. intros Hk. apply keeps_read. intros w a w' Hd [= <- <-]. by rewrite Hd. Qed.

Lemma keeps_snapshot_path {B} snap (k : string -> M world B) :
  keeps dir (k (snapshot_path dir snap)) -> keeps dir (Raft_get_snapshot_path snap ≫= k).
Proof.
  intros Hk. apply keeps_read. intros w a w' <-. by intros [-> ->]%path_ok.
Qed.
End keeps.

Create HintDb keeps discriminated.
#[export] Hint Resolve keeps_ret keeps_skip keeps_throw keeps_gets keeps_rself keeps_rget
  keeps_lift keeps_int_of keeps_when keeps_orM keeps_andM keeps_for : keeps.

(** Walks through the code of a function, closing what the hints close. *)
Ltac keeps_step :=
  match goal with
  | |- vkeeps _ _ _ _ (let _ := _ in _) => cbv zeta
  | |- vkeeps _ _ _ _ (rget files_dir ≫= _) => apply keeps_dir
  | |- vkeeps _ _ _ _ (Raft_get_snapshot_path _ ≫= _) => apply keeps_snapshot_path
  | |- vkeeps _ _ _ _ (path_buf _ ≫= _) => apply keeps_path_buf
  | |- vkeeps _ _ _ _ (_ ≫= _) => apply keeps_bind; [|intros ?]
  | |- vkeeps _ _ _ _ (for_ _ _) => apply keeps_for; intros ?
  | |- vkeeps _ _ _ _ (when _ _) => apply keeps_when
  | |- vkeeps _ _ _ _ (orM _ _) => apply keeps_orM
  | |- vkeeps _ _ _ _ (andM _ _) => apply keeps_andM
  | |- vkeeps _ _ _ _ (rmod _) => apply keeps_rmod; intros ?; reflexivity
  | |- vkeeps _ _ _ _ (match ?x with _ => _ end) => destruct x
  | |- vkeeps _ _ _ _ _ => solve [auto with keeps]
  end.
Ltac keeps := repeat keeps_step.

(** * Functions that keep the view *)

Section functions.
Context {V W O : Type} (view : raft_state -> V) (sv : raft_state -> W)
  (ob : list (sockaddr_in * raft_packet) -> O) `{!ViewOk view sv}.
Context `{CH : CommitHandler} `{!CommitHandlerOk CH}.
#[local] Abbreviation keeps := (vkeeps view sv ob).
Context (dir : string).

Lemma keeps_remove_snapshot snap : keeps dir (Raft_remove_snapshot snap).
Proof.
  unfold Raft_remove_snapshot. keeps.
  - apply keeps_disk_do. intros d. rewrite remove_lookup, decide_False; [done|].
    apply snapshot_file_not_state.
  - apply keeps_disk_do. intros d. unfold rmdir. by case_match.
Qed.

Lemma keeps_create_snapshot_dir snap : keeps dir (Raft_create_snapshot_dir snap).
Proof.
  unfold Raft_create_snapshot_dir. keeps. apply keeps_disk_do. intros d.
  unfold mkdir. by case_match.
Qed.

Lemma keeps_open_snapshot_file snap i (c : file raft_state) :
  keeps dir (fs_call (fun d => fopen_w d (snapshot_path dir snap +:+ file_name i) c)).
Proof.
  apply keeps_disk. intros d d' E. rewrite (fopen_w_lookup _ _ _ _ _ E), decide_False; [done|].
  apply snapshot_file_not_state.
Qed.

Lemma keeps_clean_main_files : keeps dir Raft_clean_main_files.
Proof.
  unfold Raft_clean_main_files. keeps. apply (keeps_open_snapshot_file (-1)).
Qed.

Lemma keeps_copy_snapshot a b : keeps dir (Raft_copy_snapshot a b).
Proof. unfold Raft_copy_snapshot. keeps. apply keeps_open_snapshot_file. Qed.

Lemma keeps_add_to_snapshot snap new f b : keeps dir (Raft_add_to_snapshot snap new f b).
Proof.
  unfold Raft_add_to_snapshot. keeps.
  - apply keeps_disk_do. intros d. unfold mkdir. by case_match.
  - apply keeps_disk. intros d d' E. by apply image_fopen_a with (q := state_file dir) in E.
Qed.

Lemma keeps_open_next l d : keeps dir (open_next d l).
Proof. induction l as [|i l IH]; simpl; keeps. Qed.

Lemma keeps_it_get_next it : keeps dir (snapshot_it_get_next it).
Proof. unfold snapshot_it_get_next. keeps. apply keeps_open_next. Qed.

Lemma keeps_log_deref p : keeps dir (log_deref p).
Proof. unfold log_deref. keeps. Qed.

Lemma keeps_get_log_term i : keeps dir (Raft_get_log_term i).
Proof. unfold Raft_get_log_term. keeps. Qed.

Lemma keeps_print_state : keeps dir Raft_print_state.
Proof. unfold Raft_print_state. keeps. Qed.

Lemma keeps_idx_get f i : keeps dir (idx_get f i).
Proof. unfold idx_get. keeps. Qed.

Lemma keeps_run_commit_handler data : keeps dir (run_commit_handler data).
Proof.
  unfold run_commit_handler. intros w a w' Hd (dir' & w1 & [= <- <-] & H)%bind_ok.
  apply bind_ok in H as (d & w1 & [= <- <-] & H). apply bind_ok in H as (d' & w2 & H & [= _ <-]). unfold lift in H.
  destruct (commit_handler _ data (disk w)) as [e|] eqn:E; [|done]. injection H as <- <-.
  unfold vquiet, image. cbn. rewrite (commit_handler_image _ _ _ _ _ E). auto.
Qed.

Lemma keeps_lock_acquire : keeps dir raft_lock_acquire.
Proof.
  unfold raft_lock_acquire. keeps. apply keeps_rmod. intros r. apply view_lock.
Qed.
Lemma keeps_lock_release : keeps dir raft_lock_release.
Proof.
  unfold raft_lock_release. keeps. apply keeps_rmod. intros r. apply view_lock.
Qed.

Lemma keeps_pthread_create t : keeps dir (pthread_create t).
Proof. intros w a w' _ [= _ <-]. unfold vquiet, image. auto. Qed.

Lemma keeps_commit_update `{!ViewCommit view} c : keeps dir (Raft_commit_update c).
Proof.
  unfold Raft_commit_update, commit_one. keeps.
  all: auto using keeps_log_deref, keeps_run_commit_handler.
  apply keeps_rmod. intros r. apply view_commit.
Qed.
End functions.

#[export] Hint Resolve keeps_remove_snapshot keeps_create_snapshot_dir keeps_clean_main_files
  keeps_copy_snapshot keeps_add_to_snapshot keeps_it_get_next keeps_log_deref
  keeps_get_log_term keeps_print_state keeps_idx_get keeps_lock_acquire keeps_lock_release
  keeps_pthread_create : keeps.
#[export] Hint Extern 1 (vkeeps _ _ _ _ (Raft_commit_update _)) => (apply keeps_commit_update; apply _) : keeps.

(** * Saving, sending, converting *)

Lemma keeps_log_store dir p e : keeps dir (log_store p e).
Proof. unfold log_store. keeps. Qed.
#[export] Hint Resolve keeps_log_store : keeps.

Definition stable (w w' : world) : Prop :=
  raft_id (raft w') = raft_id (raft w) /\ config (raft w') = config (raft w) /\
  files_dir (raft w') = files_dir (raft w).

Definition img (w : world) := saved <$> image w.

(** The disk holds what it held, or the current state. *)
Definition img_kept (w w' : world) : Prop :=
  img w' = img w \/ img w' = Some (saved (raft w')).

Lemma save_ok w a w' :
  Raft_save_state w = Ok (a, w') ->
  raft w' = raft w /\ out w' = out w /\ spawned w' = spawned w /\ image w' = Some (raft w).
Proof.
  unfold Raft_save_state, rself. intros (r & w1 & [= <- <-] & H)%bind_ok.
  apply bind_ok in H as (? & ? & [-> ->]%path_buf_ok & H).
  apply bind_ok in H as (? & ? & [-> ->]%path_buf_ok & H).
  unfold Raft_save_state_calls in H. cbn [for_] in H.
  apply bind_ok in H as (? & w2 & H2 & H). apply bind_ok in H as (? & w3 & H3 & H).
  apply bind_ok in H as (? & w4 & H4 & [= _ <-]). unfold fs_call in H2, H3, H4.
  destruct (fopen_w (disk w) _ _) as [d2|]; [|done]. injection H2 as _ <-. cbn in H3.
  destruct (fopen_w d2 _ _) as [d3|] eqn:E; [|done]. injection H3 as _ <-. cbn in H4.
  injection H4 as _ <-. cbn. split_and!; try done. unfold image, rename. cbn.
  rewrite (fopen_w_lookup _ _ _ _ _ E), decide_True by done. cbn.
  by rewrite lookup_insert_eq.
Qed.

Lemma keeps_save_state {V W O} (view : raft_state -> V) (sv : raft_state -> W)
  (ob : list (sockaddr_in * raft_packet) -> O) `{!ViewOk view sv} dir : vkeeps view sv ob dir Raft_save_state.
Proof.
  intros w a w' _ (Hr & Ho & _ & Hi)%save_ok. unfold vquiet. rewrite Hr, Ho, Hi. auto.
Qed.
#[export] Hint Resolve keeps_save_state : keeps.

Lemma quiet_view w w' :
  quiet w w' -> stable w w' /\ current_term (raft w') = current_term (raft w) /\
    voted_for (raft w') = voted_for (raft w) /\ state (raft w') = state (raft w) /\
    nvoted (raft w') = nvoted (raft w) /\ out w' = out w /\ img_kept w w'.
Proof.
  intros (E & O & I). unfold eview in E. injection E as -> -> -> -> ? ? ?.
  unfold stable, img_kept, img. split_and!; done.
Qed.

Lemma convert_ok `{CommitHandler} t w a w' :
  Raft_convert_to_follower t w = Ok (a, w') ->
  stable w w' /\ current_term (raft w') = t /\ voted_for (raft w') = -1 /\
  state (raft w') = FOLLOWER /\ nvoted (raft w') = 0 /\ out w' = out w /\ img_kept w w'.
Proof.
  unfold Raft_convert_to_follower. intros (? & w1 & [= _ <-] & H1)%bind_ok.
  apply bind_ok in H1 as (snap & w2 & [= <- <-] & H1).
  match type of H1 with ?m ?w1 = _ =>
    assert (keeps (files_dir (raft w1)) m) as Hk by keeps;
    pose proof (quiet_view _ _ (Hk _ _ _ eq_refl H1)) as (Hs & ? & ? & ? & ? & ? & Hi) end.
  clear H1. unfold stable, img_kept, img, image in *. cbn in *. split_and!; tauto.
Qed.
