(* ===== verification/RaftLog.v ===== *)
(** The log of a server: its entries by absolute index, the invariant of its
    indices, and what the operations on the log do to them. *)
From S2P Require Import Prelude Libc Posix RaftTypes RaftStorage RaftUtils RaftFollower RaftLeader RaftCandidate Raft RaftView StorageSpec.

#[local] Open Scope string_scope.
#[local] Open Scope Z_scope.
#[local] Open Scope list_scope.

(** * The log by absolute index *)

Definition log_at (r : raft_state) (i : Z) : option raft_log_entry :=
  if (start_log_index r <=? i) && (i <? log_count r)
  then raft_log r !! Z.to_nat (i - start_log_index r) else None.

(** The indices fit: the snapshot covers what is below [start_log_index], the
    commit index is in the log or just below it, and the log is in its array. *)
Record raft_wf (r : raft_state) : Prop := {
  wf_array : Z.of_nat (length (raft_log r)) = LOG_SIZE;
  wf_start : 0 <= start_log_index r;
  wf_commit_low : start_log_index r <= commit_index r + 1;
  wf_commit_high : commit_index r < log_count r;
  wf_room : log_count r <= start_log_index r + LOG_SIZE
}.

Lemma log_at_some r i : raft_wf r -> start_log_index r <= i < log_count r -> exists e, log_at r i = Some e.
Proof.
  intros [Hl ? ? ? ?] Hi. unfold log_at. destruct (_ && _) eqn:E; [|lia].
  apply lookup_lt_is_Some_2. lia.
Qed.

Lemma log_at_range r i e : log_at r i = Some e -> start_log_index r <= i < log_count r.
Proof. unfold log_at. destruct (_ && _) eqn:E; [lia|done]. Qed.

Lemma arr_get_log r i :
  start_log_index r <= i < log_count r ->
  arr_get (raft_log r) (i - start_log_index r) =
  match log_at r i with Some e => Ok e | None => Fault OutOfBounds end.
Proof.
  intros Hi. unfold arr_get, log_at. rewrite (proj2 (Z.leb_le 0 _)) by lia.
  destruct (_ && _) eqn:E; [done|lia].
Qed.

Lemma get_log_in r i :
  start_log_index r <= i < log_count r -> Raft_get_log r i = Some (i - start_log_index r).
Proof. intros Hi. unfold Raft_get_log. destruct (_ || _) eqn:E; [lia|done]. Qed.

Lemma get_log_out r i :
  i < start_log_index r \/ log_count r <= i -> Raft_get_log r i = None.
Proof. intros Hi. unfold Raft_get_log. destruct (_ || _) eqn:E; [done|lia]. Qed.

(** Reading through the pointer of an entry. *)
Lemma log_deref_at w i e w' :
  log_deref (Raft_get_log (raft w) i) w = Ok (e, w') <-> log_at (raft w) i = Some e /\ w' = w.
Proof.
  destruct (decide (start_log_index (raft w) <= i < log_count (raft w))) as [Hi|Hi].
  - rewrite get_log_in by done. unfold log_deref, rget, gets. rewrite run_bind.
    unfold lift. rewrite arr_get_log by done. destruct (log_at (raft w) i); split; try done.
    + by intros [= <- <-].
    + by intros [[= ->] ->].
    + by intros [? _].
  - rewrite get_log_out by lia. split; [done|]. intros [H%log_at_range _]. lia.
Qed.

(** The term of an entry, -1 without one. *)
Definition term_at (r : raft_state) (i : Z) : Z :=
  match log_at r i with Some e => le_term e | None => -1 end.

Lemma get_log_term_ok w i t w' :
  Raft_get_log_term i w = Ok (t, w') -> t = term_at (raft w) i /\ w' = w.
Proof.
  unfold Raft_get_log_term, rself, gets. rewrite run_bind. unfold term_at.
  destruct (decide (start_log_index (raft w) <= i < log_count (raft w))) as [Hi|Hi].
  - rewrite get_log_in by done. rewrite run_bind. unfold lift. rewrite arr_get_log by done.
    destruct (log_at (raft w) i); [by intros [= <- <-]|done].
  - rewrite get_log_out by lia. intros [= <- <-]. split; [|done].
    destruct (log_at (raft w) i) eqn:E; [|done]. apply log_at_range in E. lia.
Qed.

Lemma get_log_term_total w i :
  raft_wf (raft w) -> Raft_get_log_term i w = Ok (term_at (raft w) i, w).
Proof.
  intros Hwf. unfold Raft_get_log_term, rself, gets. rewrite run_bind. unfold term_at.
  destruct (decide (start_log_index (raft w) <= i < log_count (raft w))) as [Hi|Hi].
  - rewrite get_log_in by done. rewrite run_bind. unfold lift. rewrite arr_get_log by done.
    destruct (log_at_some _ _ Hwf Hi) as [e ->]. done.
  - rewrite get_log_out by lia. destruct (log_at (raft w) i) eqn:E; [|done].
    apply log_at_range in E. lia.
Qed.

(** Writing an entry in the log. *)
Definition set_log (r : raft_state) (i : Z) (e : raft_log_entry) : raft_state :=
  r <| raft_log := <[Z.to_nat (i - start_log_index r) := e]> (raft_log r) |>.

Lemma log_store_ok w i e u w' :
  log_store (Raft_get_log (raft w) i) e w = Ok (u, w') ->
  start_log_index (raft w) <= i < log_count (raft w) /\
  i - start_log_index (raft w) < Z.of_nat (length (raft_log (raft w))) /\
  w' = w <| raft := set_log (raft w) i e |>.
Proof.
  destruct (decide (start_log_index (raft w) <= i < log_count (raft w))) as [Hi|Hi].
  - rewrite get_log_in by done. unfold log_store.
    intros (l & w1 & [= <- <-] & H)%bind_ok. apply bind_ok in H as (l' & w1 & H1 & H2).
    unfold lift in H1. destruct (arr_set _ _ e) as [l1|] eqn:E; [|done]. injection H1 as <- <-.
    injection H2 as _ <-. apply arr_set_ok in E as [Hb%in_bounds_spec ->]. split_and!; [lia..|done].
  - rewrite get_log_out by lia. done.
Qed.

Lemma log_store_total w i e :
  raft_wf (raft w) -> start_log_index (raft w) <= i < log_count (raft w) ->
  log_store (Raft_get_log (raft w) i) e w = Ok (tt, w <| raft := set_log (raft w) i e |>).
Proof.
  intros [Hl ? ? ? ?] Hi. rewrite get_log_in by done. unfold log_store, rget, gets.
  rewrite !run_bind. unfold lift, arr_set, in_bounds.
  destruct (_ && _) eqn:E; [done|lia].
Qed.

Lemma log_at_set r i e j :
  start_log_index r <= i < log_count r -> i - start_log_index r < Z.of_nat (length (raft_log r)) ->
  log_at (set_log r i e) j = if decide (j = i) then Some e else log_at r j.
Proof.
  intros Hi Hl. unfold log_at, set_log. cbn. destruct (_ && _) eqn:E.
  - case_decide as Hj; [subst; rewrite list_lookup_insert_eq by lia; done|].
    rewrite list_lookup_insert_ne by lia. done.
  - case_decide as Hj; [lia|done].
Qed.

Lemma wf_set_log r i e : raft_wf r -> raft_wf (set_log r i e).
Proof. intros [? ? ? ? ?]. constructor; cbn; rewrite ?length_insert; done. Qed.

(** * Functions that leave part of the state alone *)

(** [m] does not change [view] of the server. *)
Definition frames {V A} (view : world -> V) (m : M world A) : Prop :=
  forall w a w', m w = Ok (a, w') -> view w' = view w.

Abbreviation rframes view := (frames (fun w => view (raft w))).

Section frames.
Context {V : Type} (view : world -> V).

Lemma frames_bind {A B} (m : M world A) (k : A -> M world B) :
  frames view m -> (forall a, frames view (k a)) -> frames view (m ≫= k).
Proof.
  intros Hm Hk w b w' (a & w1 & H1 & H2)%bind_ok. by rewrite (Hk _ _ _ _ H2), (Hm _ _ _ H1).
Qed.
Lemma frames_ret {A} (a : A) : frames view (mret a).
Proof. by intros w b w' [= _ <-]. Qed.
Lemma frames_skip : frames view skip.
Proof. by intros w b w' [= _ <-]. Qed.
Lemma frames_throw {A} f : frames view (throw (A:=A) f).
Proof. done. Qed.
Lemma frames_gets {A} (f : world -> A) : frames view (gets f).
Proof. by intros w b w' [= _ <-]. Qed.
Lemma frames_rself : frames view rself.
Proof. apply frames_gets. Qed.
Lemma frames_rget {A} (f : raft_state -> A) : frames view (rget f).
Proof. apply frames_gets. Qed.
Lemma frames_lift {A} (o : outcome A) : frames view (lift o).
Proof. intros w b w'. unfold lift. destruct o; [|done]. by intros [= _ <-]. Qed.
Lemma frames_int_of z : frames view (int_of z).
Proof. unfold int_of. case_match; [apply frames_ret|apply frames_throw]. Qed.
Lemma frames_when b m : frames view m -> frames view (when b m).
Proof. destruct b; [done|intros _; apply frames_skip]. Qed.
Lemma frames_orM a b : frames view b -> frames view (orM a b).
Proof. destruct a; [intros _; apply frames_ret|done]. Qed.
Lemma frames_andM a b : frames view b -> frames view (andM a b).
Proof. destruct a; [done|intros _; apply frames_ret]. Qed.
Lemma frames_for {A} (l : list A) body :
  (forall x, frames view (body x)) -> frames view (for_ l body).
Proof.
  intros Hb. induction l as [|x l IH]; [apply frames_skip|].
  apply frames_bind; [apply Hb|intros _; exact IH].
Qed.
Lemma frames_fs_call c :
  (forall w d, view (w <| disk := d |>) = view w) -> frames view (fs_call c).
Proof. intros Hv w b w'. unfold fs_call. destruct (c (disk w)); [|done]. intros [= _ <-]. apply Hv. Qed.
Lemma frames_fs_do c :
  (forall w d, view (w <| disk := d |>) = view w) -> frames view (fs_do c).
Proof. intros Hv w b w' [= _ <-]. apply (Hv w (c (disk w))). Qed.
Lemma frames_send a p :
  (forall w l, view (w <| out := l |>) = view w) -> frames view (UDP_send a p).
Proof. intros Hv w b w' [= _ <-]. apply (Hv w (out w ++ [(a, p)])). Qed.
Lemma frames_create t :
  (forall w l, view (w <| spawned := l |>) = view w) -> frames view (pthread_create t).
Proof. intros Hv w b w' [= _ <-]. apply (Hv w (spawned w ++ [t])). Qed.
Lemma frames_rmod f : (forall w, view (w <| raft ::= f |>) = view w) -> frames view (rmod f).
Proof. intros Hf w b w' [= _ <-]. apply Hf. Qed.
End frames.

Create HintDb frames discriminated.
#[export] Hint Resolve frames_ret frames_skip frames_throw frames_gets frames_rself frames_rget
  frames_lift frames_int_of frames_when frames_orM frames_andM frames_for frames_fs_call
  frames_fs_do frames_send frames_create : frames.
#[export] Hint Extern 1 (forall _ _, _ = _) => (intros ? ?; reflexivity) : frames.

(** Walks through the code of a function. *)
Ltac frames_step :=
  match goal with
  | |- frames _ (let _ := _ in _) => cbv zeta
  | |- frames _ (_ ≫= _) => apply frames_bind; [|intros ?]
  | |- frames _ (for_ _ _) => apply frames_for; intros ?
  | |- frames _ (when _ _) => apply frames_when
  | |- frames _ (orM _ _) => apply frames_orM
  | |- frames _ (andM _ _) => apply frames_andM
  | |- frames _ (rmod _) => apply frames_rmod; intros ?; reflexivity
  | |- frames _ (match ?x with _ => _ end) => destruct x
  | |- frames _ _ => solve [auto with frames]
  end.
Ltac frames := repeat frames_step.

(** The part the log's invariant is about, and the committed part of it. *)
Definition lview (r : raft_state) := (raft_log r, start_log_index r, log_count r, commit_index r).

Lemma lview_log_at r r' i : lview r' = lview r -> log_at r' i = log_at r i.
Proof. unfold lview, log_at. by intros [= -> -> -> _]. Qed.

Lemma lview_wf r r' : lview r' = lview r -> raft_wf r -> raft_wf r'.
Proof. unfold lview. intros [= H1 H2 H3 H4] [? ? ? ? ?]. constructor; rewrite ?H1, ?H2, ?H3, ?H4; done. Qed.

(** [files_dir] and what the snapshots are made of. *)
Section functions.
Context {V : Type} (view : world -> V) (Hd : forall w d, view (w <| disk := d |>) = view w).
Context `{CH : CommitHandler}.
#[local] Hint Resolve Hd : frames.

Lemma frames_get_snapshot_path id : frames view (Raft_get_snapshot_path id).
Proof. unfold Raft_get_snapshot_path, path_buf. frames. Qed.
#[local] Hint Resolve frames_get_snapshot_path : frames.
Lemma frames_remove_snapshot id : frames view (Raft_remove_snapshot id).
Proof. unfold Raft_remove_snapshot, path_buf. frames. Qed.
Lemma frames_clean_main_files : frames view Raft_clean_main_files.
Proof. unfold Raft_clean_main_files, path_buf. frames. Qed.
Lemma frames_copy_snapshot a b : frames view (Raft_copy_snapshot a b).
Proof. unfold Raft_copy_snapshot, path_buf. frames. Qed.
Lemma frames_add_to_snapshot id new f b : frames view (Raft_add_to_snapshot id new f b).
Proof. unfold Raft_add_to_snapshot, path_buf. frames. Qed.
Lemma frames_create_snapshot_dir id : frames view (Raft_create_snapshot_dir id).
Proof. unfold Raft_create_snapshot_dir. frames. Qed.
Lemma frames_save_state : frames view Raft_save_state.
Proof. unfold Raft_save_state, path_buf. frames. Qed.
Lemma frames_log_deref p : frames view (log_deref p).
Proof. unfold log_deref. frames. Qed.
Lemma frames_get_log_term i : frames view (Raft_get_log_term i).
Proof. unfold Raft_get_log_term. frames. Qed.
Lemma frames_print_state : frames view Raft_print_state.
Proof. unfold Raft_print_state. frames. Qed.
Lemma frames_idx_get f i : frames view (idx_get f i).
Proof. unfold idx_get. frames. Qed.
Lemma frames_run_commit_handler data : frames view (run_commit_handler data).
Proof. unfold run_commit_handler. frames. Qed.
Lemma frames_commit_one i : frames view (commit_one i).
Proof. unfold commit_one. frames. all: auto using frames_log_deref, frames_run_commit_handler. Qed.
End functions.

#[export] Hint Resolve frames_get_snapshot_path frames_remove_snapshot frames_clean_main_files
  frames_copy_snapshot frames_add_to_snapshot frames_create_snapshot_dir frames_save_state
  frames_log_deref frames_get_log_term frames_print_state frames_idx_get frames_run_commit_handler
  frames_commit_one : frames.

Section log_functions.
Context `{CH : CommitHandler}.

Lemma lframes_lock_acquire : rframes lview raft_lock_acquire.
Proof. unfold raft_lock_acquire. frames. Qed.
Lemma lframes_lock_release : rframes lview raft_lock_release.
Proof. unfold raft_lock_release. frames. Qed.
Lemma lframes_convert_to_follower t : rframes lview (Raft_convert_to_follower t).
Proof. unfold Raft_convert_to_follower. frames. Qed.
Lemma lframes_idx_set_next i v : rframes lview (idx_set next_index i v).
Proof. unfold idx_set. frames. Qed.
Lemma lframes_idx_set_match i v : rframes lview (idx_set match_index i v).
Proof. unfold idx_set. frames. Qed.
Lemma lframes_idx_set_id i v : rframes lview (idx_set last_request_id i v).
Proof. unfold idx_set. frames. Qed.
Lemma lframes_idx_set_response i v : rframes lview (idx_set last_request_response i v).
Proof. unfold idx_set. frames. Qed.
Lemma lframes_idx_add_next i v : rframes lview (idx_add next_index i v).
Proof. unfold idx_add. frames. apply lframes_idx_set_next. Qed.
Lemma lframes_idx_add_id i v : rframes lview (idx_add last_request_id i v).
Proof. unfold idx_add. frames. apply lframes_idx_set_id. Qed.
End log_functions.

#[export] Hint Resolve lframes_lock_acquire lframes_lock_release lframes_convert_to_follower
  lframes_idx_set_next lframes_idx_set_match lframes_idx_set_id lframes_idx_set_response
  lframes_idx_add_next lframes_idx_add_id : frames.

(** * Committing *)

(** A loop that returned has run its body on every element, each time from a
    state that shows the same view. *)
Lemma for_frames_body {V A} (view : world -> V) (l : list A) (body : A -> M world unit) w u w' x :
  (forall y, frames view (body y)) -> for_ l body w = Ok (u, w') -> x ∈ l ->
  exists w1 w2, view w1 = view w /\ body x w1 = Ok (tt, w2).
Proof.
  intros Hb. revert w. induction l as [|y l IH]; intros w H Hx; [by apply not_elem_of_nil in Hx|].
  cbn in H. apply bind_ok in H as ([] & w1 & H1 & H2).
  apply elem_of_cons in Hx as [->|Hx]; [by exists w, w1|].
  destruct (IH w1 H2 Hx) as (w2 & w3 & Hv & Hx'). exists w2, w3. split; [|done].
  by rewrite Hv, (Hb _ _ _ _ H1).
Qed.

Section commit.
Context `{CH : CommitHandler}.

Lemma commit_one_at i w u w' : commit_one i w = Ok (u, w') -> exists e, log_at (raft w) i = Some e.
Proof.
  unfold commit_one. intros (r & w1 & [= <- <-] & H)%bind_ok.
  apply bind_ok in H as (e & w1 & [He _]%log_deref_at & _). by exists e.
Qed.

Lemma commit_update_ok c w u w' :
  Raft_commit_update c w = Ok (u, w') ->
  raft w' = (raft w) <| commit_index := c |> /\
  forall i, commit_index (raft w) < i <= c -> exists e, log_at (raft w) i = Some e.
Proof.
  unfold Raft_commit_update. intros (k & w1 & [= <- <-] & H)%bind_ok.
  apply bind_ok in H as (first & w1 & Hf & H). unfold int_of in Hf.
  destruct (int_ok _); [|done]. injection Hf as <- <-.
  apply bind_ok in H as ([] & w2 & Hl & [= _ <-]). split.
  - cbn. assert (frames raft (for_ (seqZ (commit_index (raft w) + 1)
      (c - (commit_index (raft w) + 1) + 1)) commit_one)) as Hfr by frames.
    by rewrite <- (Hfr _ _ _ Hl).
  - intros i Hi.
    destruct (for_frames_body raft _ _ _ _ _ i (fun _ => frames_commit_one raft ltac:(done) _) Hl)
      as (w3 & w4 & Hr & Hb); [apply elem_of_seqZ; lia|].
    apply commit_one_at in Hb. by rewrite Hr in Hb.
Qed.

(** The reference: the committed transactions handed to the handler in order. *)
Fixpoint commit_all (dir : string) (l : list raft_log_entry) (d : fs raft_state) : outcome (fs raft_state) :=
  match l with
  | [] => Ok d
  | e :: l' =>
      d' ← (if decide (le_type e = LEADER_LOG) then Ok d else commit_handler dir (le_data e) d);
      commit_all dir l' d'
  end.

Definition log_range (r : raft_state) (first n : Z) : list raft_log_entry :=
  omap (log_at r) (seqZ first n).

Lemma log_range_cons r first n e :
  0 <= n -> log_at r first = Some e -> log_range r first (n + 1) = e :: log_range r (first + 1) n.
Proof.
  intros Hn He. unfold log_range. rewrite seqZ_cons by lia. cbn. rewrite He.
  by replace (Z.succ first) with (first + 1) by lia; replace (Z.pred (n + 1)) with n by lia.
Qed.

Lemma commit_one_total i w e :
  log_at (raft w) i = Some e ->
  commit_one i w =
  match (if decide (le_type e = LEADER_LOG) then Ok (disk w) else commit_handler (files_dir (raft w)) (le_data e) (disk w))
  with Ok d => Ok (tt, w <| disk := d |>) | Fault f => Fault f end.
Proof.
  intros He. unfold commit_one, rself, gets. rewrite run_bind. cbn beta iota.
  assert (log_deref (Raft_get_log (raft w) i) w = Ok (e, w)) as Hd by by apply log_deref_at.
  rewrite run_bind, Hd. case_decide; [by destruct w|].
  rewrite !run_bind. rewrite Hd. unfold run_commit_handler. rewrite run_bind, run_rget.
  unfold gets, lift. rewrite run_bind. cbn beta iota. rewrite run_bind. by destruct (commit_handler _ _ _).
Qed.

Lemma commit_loop r first n w :
  raft w = r -> 0 <= n -> (forall i, first <= i < first + n -> exists e, log_at r i = Some e) ->
  for_ (seqZ first n) commit_one w =
  match commit_all (files_dir r) (log_range r first n) (disk w) with
  | Ok d => Ok (tt, w <| disk := d |>)
  | Fault f => Fault f
  end.
Proof.
  intros Hr Hn. revert first w Hr. pattern n. apply natlike_ind; [| |done]; clear n Hn.
  - intros first w _ _. by destruct w.
  - intros n Hn IH first w Hr He. change (Z.succ n) with (n + 1) in *.
    destruct (He first) as [e Hf]; [lia|]. rewrite (log_range_cons r first n e) by done.
    rewrite seqZ_cons by lia. replace (Z.pred (n + 1)) with n by lia.
    cbn [for_ commit_all]. rewrite run_bind.
    rewrite (commit_one_total _ _ e) by by rewrite Hr. rewrite Hr.
    destruct (if decide (le_type e = LEADER_LOG) then Ok (disk w) else _) as [d|]; [|done]. cbn [mbind outcome_bind].
    replace (Z.succ first) with (first + 1) by lia. rewrite IH; [|done|].
    + cbn. by destruct (commit_all _ _ d).
    + intros i Hi. apply He. lia.
Qed.

Lemma commit_update_run c w :
  raft_wf (raft w) -> log_count (raft w) <= INT_MAX ->
  commit_index (raft w) <= c < log_count (raft w) ->
  Raft_commit_update c w =
  match commit_all (files_dir (raft w)) (log_range (raft w) (commit_index (raft w) + 1) (c - commit_index (raft w))) (disk w) with
  | Ok d => Ok (tt, w <| disk := d |> <| raft ::= fun r => r <| commit_index := c |> |>)
  | Fault f => Fault f
  end.
Proof.
  intros Hwf Hmax Hc. pose proof (wf_commit_low _ Hwf). pose proof (wf_start _ Hwf).
  unfold Raft_commit_update, rget, gets. rewrite run_bind. cbn beta iota.
  rewrite run_bind, run_int_of by (apply int_ok_spec; unfold INT_MIN; lia).
  rewrite run_bind. replace (c - (commit_index (raft w) + 1) + 1) with (c - commit_index (raft w)) by lia.
  rewrite (commit_loop (raft w)); [|done|lia|].
  - by destruct (commit_all _ _ _).
  - intros i Hi. apply log_at_some; [done|lia].
Qed.
End commit.

(** * The follower's side *)

(** The log count and the commit index after storing an entry of term [t] at
    [index], with the leader's commit index [lc]. *)
Definition store_count (r : raft_state) (index t : Z) : Z :=
  if (index <? log_count r) && bool_decide (term_at r index <> t) then index + 1
  else if log_count r =? index then log_count r + 1 else log_count r.
Definition store_commit (r : raft_state) (index lc : Z) : Z :=
  if commit_index r <? lc then (if index <? lc then index else lc) else commit_index r.

Section follower.
Context `{CH : CommitHandler}.

Lemma append_refused_ok a w b w' :
  append_refused a w = Ok (b, w') ->
  w' = w /\
  b = (ar_term a <? current_term (raft w)) || (log_count (raft w) <=? ar_prev_log_index a) ||
      bool_decide (term_at (raft w) (ar_prev_log_index a) <> ar_prev_log_term a).
Proof.
  unfold append_refused, orM. intros (r & w1 & [= <- <-] & H)%bind_ok.
  destruct (ar_term a <? _); [by injection H as <- <-|].
  destruct (_ <=? ar_prev_log_index a); [by injection H as <- <-|].
  apply bind_ok in H as (t & w1 & [-> ->]%get_log_term_ok & [= <- <-]). done.
Qed.

Lemma append_store_ok a w u w' :
  append_store a w = Ok (u, w') ->
  let r := raft w in
  let index := ar_prev_log_index a + 1 in
  let n := store_count r index (le_term (ar_entry a)) in
  start_log_index r <= index < n /\ index - start_log_index r < Z.of_nat (length (raft_log r)) /\
  raft w' = (set_log (r <| state := FOLLOWER |> <| log_count := n |>) index (ar_entry a))
              <| commit_index := store_commit r index (ar_leader_commit a) |>.
Proof.
  unfold append_store. intros (? & w1 & [= _ <-] & H)%bind_ok.
  apply bind_ok in H as (index & w2 & (-> & -> & _)%int_of_ok & H).
  apply bind_ok in H as (n & w2 & [= <- <-] & H). cbn [raft upd log_count] in H.
  apply bind_ok in H as (conflict & w2 & Hc & H).
  assert (w2 = w <| raft ::= fun r => r <| state := FOLLOWER |> |> /\
          conflict = (ar_prev_log_index a + 1 <? log_count (raft w)) &&
            bool_decide (term_at (raft w) (ar_prev_log_index a + 1) <> le_term (ar_entry a))) as [-> ->].
  { unfold andM in Hc. cbn in Hc. destruct (_ <? _); [|by injection Hc as <- <-].
    apply bind_ok in Hc as (t & w3 & [-> ->]%get_log_term_ok & [= <- <-]). done. }
  apply bind_ok in H as ([] & w2 & Hn & H).
  set (r := raft w) in *. set (index := ar_prev_log_index a + 1) in *.
  set (n := store_count r index (le_term (ar_entry a))).
  assert (w2 = w <| raft := r <| state := FOLLOWER |> <| log_count := n |> |>) as ->.
  { subst n. unfold store_count. destruct (_ && _).
    - apply bind_ok in Hn as (m & w3 & (-> & -> & _)%int_of_ok & [= <-]). done.
    - unfold when in Hn. cbn [raft upd log_count] in Hn.
      destruct (log_count r =? index).
      + apply bind_ok in Hn as (m & w3 & (-> & -> & _)%int_of_ok & [= <-]). done.
      + injection Hn as <-. subst r. by destruct w as [[]]. }
  clear Hn. apply bind_ok in H as (r1 & w3 & [= <- <-] & H).
  apply bind_ok in H as ([] & w3 & Hst & H).
  pose proof (log_store_ok (w <| raft := r <| state := FOLLOWER |> <| log_count := n |> |>)
    index (ar_entry a) tt w3 Hst) as (Hi & Hl & ->). cbn in Hi, Hl.
  split; [exact Hi|]. split; [exact Hl|].
  apply bind_ok in H as (c & w3 & [= <- <-] & H). cbn [raft upd commit_index set_log] in H.
  unfold store_commit. unfold when in H.
  change (commit_index (raft w)) with (commit_index r) in H.
  destruct (commit_index r <? ar_leader_commit a).
  - by apply commit_update_ok in H as [-> _].
  - injection H as _ <-. subst r. by destruct w as [[]].
Qed.

Lemma append_heartbeat_ok a w u w' :
  append_heartbeat a w = Ok (u, w') ->
  let r := raft w in
  let c := if commit_index r <? ar_leader_commit a then ar_leader_commit a else commit_index r in
  raft w' = r <| state := FOLLOWER |> <| commit_index := c |> /\
  forall i, commit_index r < i <= c -> exists e, log_at r i = Some e.
Proof.
  unfold append_heartbeat. intros (? & w1 & [= _ <-] & H)%bind_ok.
  apply bind_ok in H as (c & w2 & [= <- <-] & H). cbn [raft upd commit_index] in H.
  unfold when in H. change (commit_index (raft w)) with (commit_index (raft w)) in H. cbn in H.
  destruct (commit_index (raft w) <? ar_leader_commit a).
  - apply commit_update_ok in H as [-> Hc]. split; [done|]. exact Hc.
  - injection H as _ <-. split; [by destruct w as [[]]|]. intros i Hi. lia.
Qed.
End follower.


(** * Answering an append request *)

Lemma lock_acquire_ok w u w' :
  raft_lock_acquire w = Ok (u, w') ->
  lock_flag (raft w) = 0 /\ w' = w <| raft ::= fun r => r <| lock_flag := 1 |> |>.
Proof.
  unfold raft_lock_acquire. intros (f & w1 & [= <- <-] & H)%bind_ok.
  case_decide; [|done]. by injection H as _ <-.
Qed.

Lemma lock_release_ok w u w' :
  raft_lock_release w = Ok (u, w') ->
  exists f, w' = w <| raft ::= fun r => r <| lock_flag := f |> |>.
Proof.
  unfold raft_lock_release. intros (f & w1 & [= <- <-] & H)%bind_ok. case_decide.
  - injection H as _ <-. by exists 0.
  - injection H as _ <-. exists (lock_flag (raft w)). by destruct w as [[]].
Qed.

(** The test that refuses an append request, on the state before it. *)
Definition refuses (r : raft_state) (a : raft_append_request) : bool :=
  (ar_term a <? current_term r) || (log_count r <=? ar_prev_log_index a) ||
  bool_decide (term_at r (ar_prev_log_index a) <> ar_prev_log_term a).

(** The log after an append request. *)
Definition appended (r : raft_state) (a : raft_append_request) :=
  let index := ar_prev_log_index a + 1 in
  if refuses r a then lview r
  else if ar_entries_n a =? 0 then
    (raft_log r, start_log_index r, log_count r,
     if commit_index r <? ar_leader_commit a then ar_leader_commit a else commit_index r)
  else
    (<[Z.to_nat (index - start_log_index r) := ar_entry a]> (raft_log r), start_log_index r,
     store_count r index (le_term (ar_entry a)), store_commit r index (ar_leader_commit a)).

(** Where the request touches the log, and what it makes of the commit index. *)
Definition append_in_log (r : raft_state) (a : raft_append_request) : Prop :=
  let index := ar_prev_log_index a + 1 in
  refuses r a = false ->
  if ar_entries_n a =? 0 then
    forall i, commit_index r < i <= ar_leader_commit a -> exists e, log_at r i = Some e
  else
    start_log_index r <= index < store_count r index (le_term (ar_entry a)) /\
    index - start_log_index r < Z.of_nat (length (raft_log r)).

Section append_request.
Context `{CH : CommitHandler}.

Lemma oframes_convert t : frames out (Raft_convert_to_follower t).
Proof. unfold Raft_convert_to_follower. frames. Qed.
Lemma oframes_commit_update c : frames out (Raft_commit_update c).
Proof. unfold Raft_commit_update. frames. Qed.
Lemma oframes_refused a : frames out (append_refused a).
Proof. unfold append_refused. frames. Qed.
Lemma oframes_heartbeat a : frames out (append_heartbeat a).
Proof. unfold append_heartbeat. frames. apply oframes_commit_update. Qed.
Lemma oframes_store a : frames out (append_store a).
Proof. unfold append_store, log_store. frames. all: apply oframes_commit_update. Qed.

Lemma convert_when t t0 w u w' :
  when (t0 <? t) (Raft_convert_to_follower t) w = Ok (u, w') -> t0 = current_term (raft w) ->
  lview (raft w') = lview (raft w) /\ out w' = out w /\ current_term (raft w') = Z.max t0 t /\
  raft_id (raft w') = raft_id (raft w).
Proof.
  intros H ->. destruct (Z.ltb_spec (current_term (raft w)) t); cbn in H.
  - pose proof (lframes_convert_to_follower t _ _ _ H) as Hl.
    destruct (convert_ok _ _ _ _ H) as ((Hid & _) & Ht & _ & _ & _ & Ho & _).
    split_and!; try done. lia.
  - injection H as _ <-. split_and!; try done. lia.
Qed.

Lemma refuses_bumped r r' a :
  lview r' = lview r -> current_term r' = Z.max (current_term r) (ar_term a) ->
  refuses r' a = refuses r a.
Proof.
  intros Hl Ht. unfold refuses, term_at. rewrite (lview_log_at _ _ _ Hl), Ht.
  unfold lview in Hl. injection Hl as _ _ -> _. do 2 f_equal.
  destruct (Z.ltb_spec (ar_term a) (current_term r)); lia.
Qed.

(** What the handler does between the test and the save, seen from the state
    [r0] before the term was followed. *)
Lemma append_body_ok a r0 w s w' :
  lview (raft w) = lview r0 ->
  (if refuses r0 a then mret 0
   else if ar_entries_n a =? 0 then append_heartbeat a;; mret 1
   else append_store a;; mret 1) w = Ok (s, w') ->
  lview (raft w') = appended r0 a /\ append_in_log r0 a /\ out w' = out w /\
  current_term (raft w') = current_term (raft w) /\ s = (if refuses r0 a then 0 else 1) /\
  (refuses r0 a = false -> state (raft w') = FOLLOWER).
Proof.
  intros Hl H. unfold appended, append_in_log. pose proof Hl as Hl'. unfold lview in Hl'.
  injection Hl' as E1 E2 E3 E4. destruct (refuses r0 a); [by injection H as <- <-|].
  destruct (ar_entries_n a =? 0).
  - apply bind_ok in H as ([] & w1 & Hh & [= <- <-]).
    pose proof (oframes_heartbeat a _ _ _ Hh) as Ho. apply append_heartbeat_ok in Hh as [-> Hi].
    split_and!; [| |done..].
    + unfold lview. cbn. by rewrite E1, E2, E3, E4.
    + intros _ i Hi'. rewrite <- (lview_log_at _ _ i Hl). apply Hi. rewrite E4.
      destruct (Z.ltb_spec (commit_index r0) (ar_leader_commit a)); lia.
  - apply bind_ok in H as ([] & w1 & Hh & [= <- <-]).
    pose proof (oframes_store a _ _ _ Hh) as Ho. apply append_store_ok in Hh as (Hi & Hlen & ->).
    assert (forall i t, store_count (raft w) i t = store_count r0 i t) as Hsc.
    { intros i t. unfold store_count, term_at. by rewrite E3, (lview_log_at _ _ _ Hl). }
    split_and!; [| |done..].
    + unfold lview. cbn. rewrite E1, E2, Hsc. unfold store_commit. by rewrite E4.
    + intros _. rewrite Hsc, E2 in Hi. rewrite E1, E2 in Hlen. done.
Qed.

Lemma append_handler_ok addr a w w' :
  Raft_handle_append_request addr a w = Ok (tt, w') ->
  (lock_flag (raft w) = 0 /\ (refuses (raft w) a = false -> state (raft w') = FOLLOWER)) /\
  lview (raft w') = appended (raft w) a /\ append_in_log (raft w) a /\
  current_term (raft w') = Z.max (current_term (raft w)) (ar_term a) /\
  out w' = out w ++ [(addr, RESPONSE {| rp_id := raft_id (raft w);
    rp_term := Z.max (current_term (raft w)) (ar_term a);
    rp_success := if refuses (raft w) a then 0 else 1; rp_request_id := ar_request_id a |})] /\
  exists r', image w' = Some r' /\ lview r' = appended (raft w) a.
Proof.
  unfold Raft_handle_append_request. intros (? & w1 & [Hf ->]%lock_acquire_ok & H)%bind_ok.
  apply bind_ok in H as (t & w1 & [= <- <-] & H). cbn [raft upd] in H.
  apply bind_ok in H as (? & w2 & Hc & H).
  apply convert_when in Hc as (Hl2 & Ho2 & Ht2 & Hid2); [|done].
  change (lview (raft w2) = lview (raft w)) in Hl2. cbn in Ho2, Ht2, Hid2.
  pose proof (refuses_bumped _ _ _ Hl2 Ht2) as Href.
  apply bind_ok in H as (r & w3 & [= <- <-] & H).
  apply bind_ok in H as (b & w3 & Hb & H). apply append_refused_ok in Hb as [-> ->].
  change (_ || _ || _) with (refuses (raft w2) a) in H. rewrite Href in H.
  apply bind_ok in H as (s & w3 & Hs & H).
  apply (append_body_ok a (raft w)) in Hs as (Hl3 & Hin & Ho3 & Ht3 & -> & Hst3); [|done].
  apply bind_ok in H as (? & w4 & (Hr4 & Ho4 & _ & Hi4)%save_ok & H).
  apply bind_ok in H as (? & w5 & [= _ <-] & H). apply lock_release_ok in H as [f ->].
  unfold image in *. cbn. rewrite Hr4, Ho4, Ho3, Ht3, Hid2, Ht2, Ho2. split_and!; try done.
  exists (raft w3). rewrite <- Hr4. split; [by rewrite Hr4 in *|by rewrite Hr4].
Qed.
End append_request.

Lemma lview_log_at_set r r' i e n c j :
  lview r' = (<[Z.to_nat (i - start_log_index r) := e]> (raft_log r), start_log_index r, n, c) ->
  start_log_index r <= i < n -> i - start_log_index r < Z.of_nat (length (raft_log r)) ->
  log_at r' j = if decide (j = i) then Some e
                else if j <? n then log_at (r <| log_count := n |>) j else None.
Proof.
  unfold lview. intros [= H1 H2 H3 _] Hi Hl. unfold log_at. rewrite H1, H2, H3. cbn.
  destruct (_ && _) eqn:E.
  - case_decide as Hj; [subst; apply list_lookup_insert_eq; lia|].
    rewrite list_lookup_insert_ne by lia. destruct (j <? n) eqn:?; [done|lia].
  - case_decide; [lia|]. by destruct (j <? n).
Qed.

Lemma log_at_count r n j :
  j < log_count r -> j < n -> log_at (r <| log_count := n |>) j = log_at r j.
Proof. intros H1 H2. unfold log_at. cbn. by rewrite (proj2 (Z.ltb_lt _ _) H1), (proj2 (Z.ltb_lt _ _) H2). Qed.

Section append_theorems.
Context `{CH : CommitHandler}.

(** C19: An accepted append request puts its entry right after the entry it
    names, leaves the log below unchanged, truncates the log exactly when the
    entry replaces one of another term, and the state file holds the new log.
    *)
Theorem append_request_stores addr a w w' :
  Raft_handle_append_request addr a w = Ok (tt, w') ->
  refuses (raft w) a = false -> ar_entries_n a <> 0 ->
  let index := ar_prev_log_index a + 1 in
  log_at (raft w') index = Some (ar_entry a) /\
  term_at (raft w) (ar_prev_log_index a) = ar_prev_log_term a /\
  (forall i, i < index -> log_at (raft w') i = log_at (raft w) i) /\
  (term_at (raft w) index = le_term (ar_entry a) ->
     forall i, i <> index -> log_at (raft w') i = log_at (raft w) i) /\
  (term_at (raft w) index <> le_term (ar_entry a) -> log_count (raft w') = index + 1) /\
  exists r', image w' = Some r' /\ lview r' = lview (raft w').
Proof.
  intros H Href Hn. apply append_handler_ok in H as (_ & Hl & Hin & _ & _ & r' & Hi & Hl').
  assert (exists r', image w' = Some r' /\ lview r' = lview (raft w')) as Himg
    by (exists r'; split; [done|congruence]).
  unfold appended in Hl. unfold append_in_log in Hin. specialize (Hin Href). rewrite Href in Hl.
  destruct (Z.eqb_spec (ar_entries_n a) 0); [done|]. destruct Hin as [Hidx Hlen].
  set (index := ar_prev_log_index a + 1) in *. cbn zeta.
  pose proof (fun j => lview_log_at_set _ _ _ _ _ _ j Hl Hidx Hlen) as Hat.
  unfold refuses in Href. apply orb_false_iff in Href as [[Ht Hc]%orb_false_iff Hp].
  apply bool_decide_eq_false, dec_stable in Hp. apply Z.leb_gt in Hc.
  assert (log_count (raft w') = store_count (raft w) index (le_term (ar_entry a))) as Hcount
    by (unfold lview in Hl; congruence).
  split_and!; try done.
  - by rewrite Hat, decide_True.
  - intros i Hlt. rewrite Hat, decide_False by lia.
    destruct (Z.ltb_spec i (store_count (raft w) index (le_term (ar_entry a)))); [|lia].
    apply log_at_count; lia.
  - intros Hterm i Hne. rewrite Hat, decide_False by lia. unfold store_count in *.
    rewrite bool_decide_eq_false_2, andb_false_r in * by (intros []; done).
    destruct (Z.eqb_spec (log_count (raft w)) index).
    + destruct (Z.ltb_spec i (log_count (raft w) + 1)).
      * apply log_at_count; lia.
      * destruct (log_at (raft w) i) eqn:E; [apply log_at_range in E; lia|done].
    + destruct (Z.ltb_spec i (log_count (raft w))).
      * apply log_at_count; lia.
      * destruct (log_at (raft w) i) eqn:E; [apply log_at_range in E; lia|done].
  - intros Hterm. rewrite Hcount. unfold store_count. rewrite bool_decide_eq_true_2, andb_true_r by done.
    destruct (Z.ltb_spec index (log_count (raft w))); [done|].
    destruct (Z.eqb_spec (log_count (raft w)) index); lia.
Qed.

(** The leader contradicts nothing committed. *)
Definition append_safe (r : raft_state) (a : raft_append_request) : Prop :=
  let index := ar_prev_log_index a + 1 in
  ar_entries_n a <> 0 -> index <= commit_index r -> term_at r index = le_term (ar_entry a).

Lemma append_request_wf addr a w w' :
  raft_wf (raft w) -> append_safe (raft w) a ->
  Raft_handle_append_request addr a w = Ok (tt, w') -> raft_wf (raft w').
Proof.
  intros Hwf Hsafe H. apply append_handler_ok in H as (_ & Hl & Hin & _).
  unfold appended in Hl. unfold append_in_log in Hin. unfold append_safe in Hsafe.
  destruct (refuses (raft w) a) eqn:Href; [by eapply lview_wf|]. specialize (Hin eq_refl).
  unfold refuses in Href. apply orb_false_iff in Href as [[_ Hc]%orb_false_iff _].
  apply Z.leb_gt in Hc. destruct Hwf as [Ha Hs Hlo Hhi Hroom].
  destruct (Z.eqb_spec (ar_entries_n a) 0) as [|Hne]; unfold lview in Hl; injection Hl as E1 E2 E3 E4.
  - constructor; rewrite ?E1, ?E2, ?E3, ?E4; try done;
      destruct (Z.ltb_spec (commit_index (raft w)) (ar_leader_commit a)); try lia.
    destruct (Hin (ar_leader_commit a)) as [e1 He%log_at_range]; lia.
  - specialize (Hsafe Hne). set (index := ar_prev_log_index a + 1) in *.
    destruct Hin as [Hidx Hlen]. unfold store_count, store_commit in *.
    destruct (Z.ltb_spec index (log_count (raft w)));
      [destruct (bool_decide_reflect (term_at (raft w) index <> le_term (ar_entry a)))|];
      destruct (Z.eqb_spec (log_count (raft w)) index); cbn [andb] in *;
      constructor; rewrite ?E1, ?E2, ?E3, ?E4, ?length_insert; try done; try lia;
      repeat case_match; lia.
Qed.

(** C20: Handling an accepted append request that replaces no committed entry
    by one of another term twice leaves the same log and commit index as
    handling it once, and the copy is accepted too. *)
Theorem append_request_idempotent addr a w w1 w2 :
  raft_wf (raft w) -> append_safe (raft w) a -> refuses (raft w) a = false ->
  Raft_handle_append_request addr a w = Ok (tt, w1) ->
  Raft_handle_append_request addr a w1 = Ok (tt, w2) ->
  lview (raft w2) = lview (raft w1) /\ refuses (raft w1) a = false.
Proof.
  intros Hwf Hsafe Hr H1 H2. pose proof (append_request_wf _ _ _ _ Hwf Hsafe H1) as Hwf1.
  apply append_handler_ok in H1 as (_ & Hl1 & Hin1 & Ht1 & _).
  apply append_handler_ok in H2 as (_ & Hl2 & _).
  unfold appended in Hl1. unfold append_in_log in Hin1. specialize (Hin1 Hr). rewrite Hr in Hl1.
  pose proof Hr as Hr'. unfold refuses in Hr'.
  apply orb_false_iff in Hr' as [[Ht Hc]%orb_false_iff Hp].
  apply Z.ltb_ge in Ht. apply Z.leb_gt in Hc. apply bool_decide_eq_false, dec_stable in Hp.
  set (index := ar_prev_log_index a + 1) in *.
  destruct (Z.eqb_spec (ar_entries_n a) 0) as [Hz|Hz].
  - assert (refuses (raft w1) a = false) as Hr1.
    { unfold refuses. rewrite Ht1. unfold lview in Hl1. injection Hl1 as E1 E2 E3 _.
      replace (term_at (raft w1) (ar_prev_log_index a)) with (ar_prev_log_term a)
        by (unfold term_at, log_at; rewrite E1, E2, E3; exact (eq_sym Hp)).
      rewrite E3, bool_decide_eq_false_2 by (by intros []). lia. }
    split; [|done]. rewrite Hl2. unfold appended. rewrite Hr1, Hz. cbn [Z.eqb].
    unfold lview in *. injection Hl1 as E1 E2 E3 E4. rewrite E1, E2, E3, E4. f_equal.
    repeat case_match; lia.
  - destruct Hin1 as [Hidx Hlen].
    pose proof (fun j => lview_log_at_set _ _ _ _ _ _ j Hl1 Hidx Hlen) as Hat.
    unfold lview in Hl1. injection Hl1 as E1 E2 E3 E4.
    assert (term_at (raft w1) index = le_term (ar_entry a)) as Hterm
      by (unfold term_at; by rewrite Hat, decide_True).
    assert (refuses (raft w1) a = false) as Hr1.
    { unfold refuses. rewrite Ht1. unfold term_at. rewrite Hat, decide_False by lia.
      destruct (Z.ltb_spec (ar_prev_log_index a) (store_count (raft w) index (le_term (ar_entry a)))); [|lia].
      rewrite log_at_count by lia. fold (term_at (raft w) (ar_prev_log_index a)). rewrite Hp, E3.
      rewrite bool_decide_eq_false_2 by (by intros []). lia. }
    split; [|done]. rewrite Hl2. unfold appended. rewrite Hr1.
    destruct (Z.eqb_spec (ar_entries_n a) 0); [done|]. fold index. unfold lview.
    unfold store_count at 1. rewrite Hterm, bool_decide_eq_false_2, andb_false_r by (by intros []).
    rewrite E1, E2, E3, list_insert_insert_eq. unfold store_commit at 1. rewrite E4.
    f_equal; [f_equal|].
    + destruct (Z.eqb_spec (store_count (raft w) index (le_term (ar_entry a))) index); lia.
    + unfold store_commit. repeat case_match; lia.
Qed.

(** An append request above the commit index changes no entry up to it
    and does not take it back. *)
Theorem append_request_committed_stable addr a w w' i :
  raft_wf (raft w) -> Raft_handle_append_request addr a w = Ok (tt, w') ->
  (ar_entries_n a <> 0 -> commit_index (raft w) <= ar_prev_log_index a) ->
  i <= commit_index (raft w) ->
  log_at (raft w') i = log_at (raft w) i /\ commit_index (raft w) <= commit_index (raft w').
Proof.
  intros Hwf H%append_handler_ok Hnew Hi. destruct H as (_ & Hl & Hin & _).
  unfold appended in Hl. unfold append_in_log in Hin.
  destruct (refuses (raft w) a); [rewrite (lview_log_at _ _ _ Hl); unfold lview in Hl; split; [done|injection Hl; lia]|].
  specialize (Hin eq_refl). destruct (Z.eqb_spec (ar_entries_n a) 0) as [|Hne].
  - unfold lview in Hl. injection Hl as E1 E2 E3 E4. unfold log_at. rewrite E1, E2, E3. split; [done|].
    rewrite E4. case_match; lia.
  - specialize (Hnew Hne). destruct Hin as [Hidx Hlen].
    rewrite (lview_log_at_set _ _ _ _ _ _ i Hl Hidx Hlen), decide_False by lia.
    destruct (Z.ltb_spec i (store_count (raft w) (ar_prev_log_index a + 1) (le_term (ar_entry a)))); [|lia].
    pose proof (wf_commit_high _ Hwf). rewrite log_at_count by lia. split; [done|].
    unfold lview in Hl. injection Hl as _ _ _ ->. unfold store_commit. repeat case_match; lia.
Qed.
End append_theorems.

(** * The leader's side *)

Lemma wf_append r e :
  raft_wf r -> log_count r - start_log_index r < Z.of_nat (length (raft_log r)) ->
  raft_wf (set_log (r <| log_count := log_count r + 1 |>) (log_count r) e).
Proof. intros [? ? ? ? ?] H. constructor; cbn; rewrite ?length_insert; lia. Qed.

(** The log with one more entry. *)
Definition pushed (r : raft_state) (e : raft_log_entry) :=
  (<[Z.to_nat (log_count r - start_log_index r) := e]> (raft_log r), start_log_index r,
   log_count r + 1, commit_index r).

Lemma pushed_log_at r r' e i :
  raft_wf r -> log_count r < start_log_index r + LOG_SIZE -> lview r' = pushed r e ->
  log_at r' i = if decide (i = log_count r) then Some e else log_at r i.
Proof.
  intros [? ? ? ? ?] Hroom Hl. unfold pushed in Hl.
  rewrite (lview_log_at_set _ _ _ _ _ _ i Hl) by lia. case_decide; [done|].
  destruct (Z.ltb_spec i (log_count r + 1)); [apply log_at_count; lia|].
  destruct (log_at r i) eqn:E; [|done]. apply log_at_range in E. lia.
Qed.

Lemma pushed_wf r r' e :
  raft_wf r -> log_count r < start_log_index r + LOG_SIZE -> lview r' = pushed r e -> raft_wf r'.
Proof.
  unfold pushed, lview. intros [? ? ? ? ?] Hroom [= E1 E2 E3 E4].
  constructor; rewrite ?E1, ?E2, ?E3, ?E4, ?length_insert; lia.
Qed.

Section leader.
Context `{CH : CommitHandler}.

(** The artificial entry of a new leader is written over the stale cell. *)
Lemma convert_to_leader_log w u w' :
  Raft_convert_to_leader w = Ok (u, w') ->
  let r := raft w in
  log_count r - start_log_index r < Z.of_nat (length (raft_log r)) /\
  exists e0, raft_log r !! Z.to_nat (log_count r - start_log_index r) = Some e0 /\
    lview (raft w') = pushed r (e0 <| le_term := current_term r |>
      <| le_n_servers_replicated := 1 |> <| le_type := LEADER_LOG |>).
Proof.
  unfold Raft_convert_to_leader. intros (? & w1 & [= _ <-] & H)%bind_ok.
  apply bind_ok in H as (n & w2 & [= <- <-] & H).
  apply bind_ok in H as (n' & w2 & (-> & -> & _)%int_of_ok & H).
  apply bind_ok in H as (? & w2 & [= _ <-] & H). apply bind_ok in H as (r1 & w3 & [= <- <-] & H).
  match type of H with (_ ≫= _) ?w0 = _ => set (w2 := w0) in * end.
  set (r2 := (raft w) <| n_followers_receiving_snapshots := 0 |>
               <| log_count := log_count (raft w) + 1 |>) in H.
  assert (log_count r2 - 1 = log_count (raft w)) as Hn by (cbn; lia). rewrite Hn in H.
  apply bind_ok in H as (e0 & w3 & He & H).
  apply (log_deref_at w2 (log_count (raft w))) in He as [He ->].
  apply bind_ok in H as ([] & w3 & Hst & H).
  pose proof (log_store_ok w2 (log_count (raft w)) _ _ _ Hst) as (Hi & Hl & Hw3).
  assert (lview (raft w') = lview (raft w3)) as Hv.
  { match type of H with ?m _ = _ => assert (rframes lview m) as Hf; [|by apply Hf in H] end.
    frames. }
  split; [exact Hl|]. exists e0. split.
  - unfold log_at in He. by destruct (_ && _) in He.
  - rewrite Hv, Hw3. reflexivity.
Qed.

Lemma lframes_vote_request addr v : rframes lview (Raft_handle_vote_request addr v).
Proof. unfold Raft_handle_vote_request. frames. Qed.

Lemma convert_to_leader_wf w u w' :
  raft_wf (raft w) -> Raft_convert_to_leader w = Ok (u, w') -> raft_wf (raft w').
Proof.
  intros Hwf (Hl & e0 & _ & Hv)%convert_to_leader_log.
  eapply pushed_wf; [exact Hwf| |exact Hv]. pose proof (wf_array _ Hwf). lia.
Qed.

Lemma count_replica_ok i w k w' :
  count_replica i w = Ok (k, w') ->
  exists e, log_at (raft w) i = Some e /\ k = le_n_servers_replicated e + 1 /\
    w' = w <| raft := set_log (raft w) i (e <| le_n_servers_replicated := k |>) |>.
Proof.
  unfold count_replica. intros (r & w1 & [= <- <-] & H)%bind_ok.
  apply bind_ok in H as (e & w1 & [He ->]%log_deref_at & H).
  apply bind_ok in H as (k1 & w1 & (-> & -> & _)%int_of_ok & H).
  apply bind_ok in H as (? & w1 & (_ & _ & ->)%log_store_ok & [= <- <-]). by exists e.
Qed.

(** A leader commits the entry it is sending to a server when the answer
    makes its count a majority and the entry is from its term. *)
Lemma append_response_log p w w' :
  Raft_handle_append_response p w = Ok (tt, w') ->
  let r := raft w in
  lview (raft w') = lview r \/
  exists n e, arr_get (next_index r) (rp_id p) = Ok n /\ rp_success p <> 0 /\
    log_at r n = Some e /\ le_term e = current_term r /\ commit_index r < n /\
    let e' := e <| le_n_servers_replicated := le_n_servers_replicated e + 1 |> in
    lview (raft w') = (raft_log (set_log r n e'), start_log_index r, log_count r,
      if N_SERVERS <? (le_n_servers_replicated e + 1) * 2 then n else commit_index r).
Proof.
  unfold Raft_handle_append_response. intros H.
  apply bind_ok in H as ([] & w1 & H1 & H). cbn zeta.
  assert (lview (raft w') = lview (raft w1)) as ->.
  { match type of H with ?m _ = _ => assert (rframes lview m) as Hf; [|by apply Hf in H] end. frames. }
  clear H. destruct (Z.eqb_spec (rp_success p) 0) as [|Hs]; [left; by apply lframes_idx_add_next in H1|].
  apply bind_ok in H1 as (n & w2 & Hn & H). unfold idx_get in Hn.
  apply bind_ok in Hn as (l & w3 & [= <- <-] & Hn). unfold lift in Hn.
  destruct (arr_get (next_index (raft w)) (rp_id p)) as [n1|] eqn:Ha; [|done]. injection Hn as <- <-.
  apply bind_ok in H as (r & w2 & [= <- <-] & H). unfold when at 1 in H.
  destruct (n1 <? log_count (raft w)); [|injection H as <-; by left].
  apply bind_ok in H as (maj & w2 & Hm & H). apply bind_ok in H as ([] & w3 & Hu & H).
  assert (lview (raft w1) = lview (raft w3)) as ->.
  { match type of H with ?m _ = _ => assert (rframes lview m) as Hf; [|by apply Hf in H] end. frames. }
  clear H. unfold andM in Hm. destruct (Z.ltb_spec (commit_index (raft w)) n1); cycle 1.
  { injection Hm as <- <-. injection Hu as <-. by left. }
  apply bind_ok in Hm as (t & w4 & [-> ->]%get_log_term_ok & Hm).
  destruct (Z.eqb_spec (term_at (raft w) n1) (current_term (raft w))) as [Ht|]; cycle 1.
  { injection Hm as <- <-. injection Hu as <-. by left. }
  apply bind_ok in Hm as (k & w4 & Hk & [= <- <-]).
  apply count_replica_ok in Hk as (e & He & -> & ->). right. exists n1, e.
  unfold term_at in Ht. rewrite He in Ht. split_and!; try done.
  unfold when in Hu. destruct (_ <? _).
  - apply commit_update_ok in Hu as [-> _]. done.
  - by injection Hu as <-.
Qed.

Lemma append_response_wf p w w' :
  raft_wf (raft w) -> Raft_handle_append_response p w = Ok (tt, w') -> raft_wf (raft w').
Proof.
  intros Hwf [Hl|(n & e & _ & _ & He%log_at_range & _ & Hc & Hl)]%append_response_log;
    [by eapply lview_wf|]. destruct Hwf as [? ? ? ? ?]. unfold lview in Hl. injection Hl as E1 E2 E3 E4.
  constructor; rewrite ?E1, ?E2, ?E3, ?E4; cbn; rewrite ?length_insert; try case_match; lia.
Qed.

Lemma handle_response_wf p w w' :
  raft_wf (raft w) -> Raft_handle_response p w = Ok (tt, w') -> raft_wf (raft w').
Proof.
  intros Hwf. unfold Raft_handle_response. intros (? & w1 & Ha & H)%bind_ok.
  assert (raft_wf (raft w1)) as Hwf1 by (eapply lview_wf; [by apply lframes_lock_acquire in Ha|done]).
  clear Ha. apply bind_ok in H as (r & w2 & [= <- <-] & H).
  destruct (rp_term p <? _); [eapply lview_wf; [by apply lframes_lock_release in H|done]|].
  destruct (_ <? rp_term p).
  { eapply lview_wf; [|exact Hwf1].
    match type of H with ?m _ = _ => assert (rframes lview m) as Hf; [|by apply Hf in H] end. frames. }
  apply bind_ok in H as (? & w2 & Hi & H).
  assert (raft_wf (raft w2)) as Hwf2 by (eapply lview_wf; [by apply lframes_idx_set_response in Hi|done]).
  clear Hi. case_decide.
  - apply bind_ok in H as (b & w3 & Hv & H). unfold Raft_handle_vote_response in Hv.
    assert (raft_wf (raft w3)) as Hwf3; [|destruct b; [by injection H as <-|]].
    2: { eapply lview_wf; [by apply lframes_lock_release in H|done]. }
    clear H. destruct (rp_success p <=? 0).
    { eapply lview_wf; [|exact Hwf2].
      match type of Hv with ?m _ = _ => assert (rframes lview m) as Hf; [|by apply Hf in Hv] end. frames. }
    apply bind_ok in Hv as (n & w4 & [= <- <-] & Hv).
    apply bind_ok in Hv as (n' & w4 & (-> & -> & _)%int_of_ok & Hv).
    apply bind_ok in Hv as (? & w4 & [= _ <-] & Hv).
    destruct (_ <? _); [|injection Hv as _ <-; by apply (lview_wf (raft w2))].
    apply bind_ok in Hv as (? & w5 & Hc & [= _ <-]). eapply convert_to_leader_wf; [|exact Hc].
    eapply lview_wf; [|exact Hwf2]. done.
  - apply bind_ok in H as ([] & w3 & Hr & H).
    assert (raft_wf (raft w3)) as Hwf3; [|eapply lview_wf; [by apply lframes_lock_release in H|done]].
    clear H. case_decide; [|by injection Hr as <-].
    apply bind_ok in Hr as (q & w4 & Hq & Hr). pose proof (frames_idx_get raft last_request_id (rp_id p) _ _ _ Hq) as Er4.
    unfold when in Hr. destruct (_ =? _); [|injection Hr as <-; by rewrite Er4].
    apply bind_ok in Hr as (nx & w5 & Hn & Hr). pose proof (frames_idx_get raft next_index (rp_id p) _ _ _ Hn) as Er5.
    assert (raft_wf (raft w5)) as Hwf5 by by rewrite Er5, Er4.
    destruct (_ <? _); [|by eapply append_response_wf].
    eapply lview_wf; [|exact Hwf5].
    match type of Hr with ?m _ = _ => assert (rframes lview m) as Hf; [|by apply Hf in Hr] end.
    unfold Raft_handle_install_response. frames.
Qed.

Lemma install_request_wf addr q w w' :
  raft_wf (raft w) -> 0 <= ir_snapshot_id q ->
  Raft_handle_install_snapshot_request addr q w = Ok (tt, w') -> raft_wf (raft w').
Proof.
  intros Hwf Hq. unfold Raft_handle_install_snapshot_request. intros (? & w1 & Ha & H)%bind_ok.
  assert (raft_wf (raft w1)) as Hwf1 by (eapply lview_wf; [by apply lframes_lock_acquire in Ha|done]).
  clear Ha. apply bind_ok in H as (t & w2 & [= <- <-] & H).
  apply bind_ok in H as (? & w2 & Hc & H).
  assert (raft_wf (raft w2)) as Hwf2.
  { eapply lview_wf; [|exact Hwf1].
    match type of Hc with ?m _ = _ => assert (rframes lview m) as Hf; [|by apply Hf in Hc] end. frames. }
  clear Hc. apply bind_ok in H as (r & w3 & [= <- <-] & H).
  apply bind_ok in H as (res & w3 & Hr & H).
  assert (raft_wf (raft w3)) as Hwf3.
  { destruct (install_refused _ _); [by injection Hr as _ <-|]. destruct (negb _).
    - apply bind_ok in Hr as (s & w4 & Hd & [= _ <-]). unfold install_done in Hd.
      apply bind_ok in Hd as (? & w5 & [= _ <-] & Hd). apply bind_ok in Hd as (o & w5 & [= _ <-] & Hd).
      apply bind_ok in Hd as (c & w5 & (-> & -> & _)%int_of_ok & Hd).
      apply bind_ok in Hd as (? & w5 & [= _ <-] & Hd).
      match type of Hd with ?m _ = _ => assert (rframes lview m) as Hf; [|apply Hf in Hd] end; [frames|].
      eapply lview_wf; [exact Hd|]. destruct Hwf2. constructor; cbn; unfold LOG_SIZE in *; lia.
    - eapply lview_wf; [|exact Hwf2].
      match type of Hr with ?m _ = _ => assert (rframes lview m) as Hf; [|by apply Hf in Hr] end.
      unfold install_chunk. frames. }
  eapply lview_wf; [|exact Hwf3].
  match type of H with ?m _ = _ => assert (rframes lview m) as Hf; [|by apply Hf in H] end. frames.
Qed.

(** What a packet must not do to the log of a server. *)
Definition packet_safe (r : raft_state) (p : raft_packet) : Prop :=
  match p with
  | APPEND a => append_safe r a
  | INSTALL_SNAPSHOT q => 0 <= ir_snapshot_id q
  | VOTE _ | RESPONSE _ => True
  end.

(** C21: The handlers of all four packet types preserve the shape of the log
    (the array keeps its size, start <= commit + 1 <= count, and the log fits
    the array), provided an append request with an entry does not replace a
    committed entry by one of another term - the handler does not test this,
    and committed_entry_lost reaches such a request - and a snapshot packet
    has an id of 0 or more. *)
Theorem Raft_dispatch_preserves_wf addr p w w' :
  raft_wf (raft w) -> packet_safe (raft w) p ->
  Raft_dispatch addr p w = Ok (tt, w') -> raft_wf (raft w').
Proof.
  intros Hwf Hp H. destruct p; cbn in H, Hp.
  - by eapply append_request_wf.
  - eapply lview_wf; [by apply lframes_vote_request in H|done].
  - by eapply install_request_wf.
  - by eapply handle_response_wf.
Qed.
End leader.

(** * The interface of [server.c] *)

(** What [Raft_append_entry] makes of the caller's entry. *)
Definition stamp (r : raft_state) (e : raft_log_entry) : raft_log_entry :=
  e <| le_term := current_term r |> <| le_n_servers_replicated := 1 |> <| le_type := CLIENT_LOG |>.

(** Taking and giving the lock leaves no trace. *)
Lemma lock_unlock w :
  lock_flag (raft w) = 0 ->
  w <| raft ::= fun r => r <| lock_flag := 1 |> |> <| raft ::= fun r => r <| lock_flag := 0 |> |> = w.
Proof. intros H. destruct w as [[] d o s]. cbn in H. subst. reflexivity. Qed.

Lemma append_entry_run w log :
  raft_wf (raft w) -> lock_flag (raft w) = 0 -> disk_ready w -> log_count (raft w) < INT_MAX ->
  let r := raft w in
  if bool_decide (state r <> LEADER) || (log_count r =? start_log_index r + LOG_SIZE)
  then Raft_append_entry log w = Ok ((-1, log), w)
  else exists w', Raft_append_entry log w = Ok ((0, stamp r log), w') /\
    raft_wf (raft w') /\ log_count (raft w') = log_count r + 1 /\ commit_index (raft w') = commit_index r /\
    (forall i, log_at (raft w') i = if decide (i = log_count r) then Some (stamp r log) else log_at r i) /\
    out w' = out w /\ lock_flag (raft w') = 0 /\
    (exists r', image w' = Some r' /\ lview r' = lview (raft w')) /\
    disk_ready w' /\ current_term (raft w') = current_term r.
Proof.
  intros Hwf Hlock Hdisk Hmax r. subst r. unfold Raft_append_entry.
  destruct (_ || _) eqn:Hc.
  - rewrite run_bind, run_lock_acquire by done. unfold rself, gets. rewrite run_bind. cbn beta iota.
    cbn [raft upd state log_count start_log_index]. rewrite Hc.
    rewrite run_bind, run_lock_release by done. by rewrite lock_unlock.
  - apply orb_false_iff in Hc as [Hst Hfull]. apply Z.eqb_neq in Hfull.
    assert (log_count (raft w) < start_log_index (raft w) + LOG_SIZE) as Hroom
      by (pose proof (wf_room _ Hwf); lia).
    set (w1 := w <| raft ::= fun r => r <| lock_flag := 1 |> <| log_count := log_count (raft w) + 1 |> |>).
    assert (raft_wf (raft w1)) as Hwf1.
    { destruct Hwf. constructor; cbn; lia. }
    assert (pushed_view : lview (set_log (raft w1) (log_count (raft w)) (stamp (raft w) log)) =
              pushed (raft w) (stamp (raft w) log)) by done.
    eexists. split.
    { rewrite run_bind, run_lock_acquire by done. unfold rself, gets. rewrite run_bind. cbn beta iota.
      cbn [raft upd state log_count start_log_index]. rewrite Hst. rewrite (proj2 (Z.eqb_neq _ _) Hfull).
      cbn [orb]. rewrite run_bind, run_int_of
        by (apply int_ok_spec; pose proof (wf_start _ Hwf); destruct Hwf; unfold INT_MIN; lia).
      rewrite run_bind. unfold rmod, modify. rewrite run_bind. cbn beta iota.
      change (upd raft _ (upd raft _ w)) with w1. rewrite run_bind.
      replace (log_count (raft w1) - 1) with (log_count (raft w)) by (cbn; lia).
      change (log <| le_term := _ |> <| le_n_servers_replicated := 1 |> <| le_type := CLIENT_LOG |>)
        with (stamp (raft w) log).
      rewrite log_store_total by (done || (cbn; pose proof (wf_commit_low _ Hwf);
        pose proof (wf_commit_high _ Hwf); lia)).
      cbn beta iota. rewrite run_bind, save_state_total.
      - rewrite run_bind, run_lock_release by done. reflexivity.
      - by destruct Hdisk as [? ? ?]; constructor. }
    split_and!; try done.
    + eapply pushed_wf; [exact Hwf|exact Hroom|reflexivity].
    + intros i. eapply pushed_log_at; [exact Hwf|exact Hroom|reflexivity].
    + eexists. split; [unfold image; cbn; rewrite lookup_insert_eq; reflexivity|reflexivity].
    + by destruct Hdisk.
Qed.

(** * Has an entry been committed? *)

(** An entry on which the search stops. *)
Definition hits (term id : Z) (e : raft_log_entry) : Prop :=
  (le_term e = term /\ le_id e = id) \/ term < le_term e.

Definition terms_sorted (r : raft_state) : Prop :=
  forall i j ei ej, i <= j -> log_at r i = Some ei -> log_at r j = Some ej -> le_term ei <= le_term ej.

Lemma find_entry_spec term id w first n :
  0 <= n -> (forall i, first <= i < first + n -> exists e, log_at (raft w) i = Some e) ->
  exists c, find_entry term id (seqZ first n) w = Ok (c, w) /\
    ((c = 0 /\ forall i e, first <= i < first + n -> i <= commit_index (raft w) ->
        log_at (raft w) i = Some e -> ~ hits term id e) \/
     exists i e, first <= i < first + n /\ i <= commit_index (raft w) /\ log_at (raft w) i = Some e /\
       (forall j ej, first <= j < i -> log_at (raft w) j = Some ej -> ~ hits term id ej) /\
       ((c = 1 /\ le_term e = term /\ le_id e = id) \/ (c = -1 /\ term < le_term e))).
Proof.
  intros Hn. revert first. pattern n. apply natlike_ind; [| |done]; clear n Hn.
  - intros first _. exists 0. split; [done|]. left. split; [done|]. lia.
  - intros n Hn IH first Hall. change (Z.succ n) with (n + 1) in *.
    rewrite seqZ_cons by lia. replace (Z.pred (n + 1)) with n by lia. cbn [find_entry].
    destruct (Hall first) as [e He]; [lia|].
    unfold rself, gets. rewrite run_bind. cbn beta iota.
    assert (log_deref (Raft_get_log (raft w) first) w = Ok (e, w)) as Hd by by apply log_deref_at.
    rewrite run_bind, Hd.
    assert (Hstop : forall v, hits term id e ->
      (v = 1 /\ le_term e = term /\ le_id e = id) \/ (v = -1 /\ term < le_term e) ->
      exists c, (mret (if first <=? commit_index (raft w) then v else 0) : M world Z) w = Ok (c, w) /\
      ((c = 0 /\ forall i e, first <= i < first + (n + 1) -> i <= commit_index (raft w) ->
          log_at (raft w) i = Some e -> ~ hits term id e) \/
       exists i e, first <= i < first + (n + 1) /\ i <= commit_index (raft w) /\ log_at (raft w) i = Some e /\
         (forall j ej, first <= j < i -> log_at (raft w) j = Some ej -> ~ hits term id ej) /\
         ((c = 1 /\ le_term e = term /\ le_id e = id) \/ (c = -1 /\ term < le_term e)))).
    { intros v Hh Hv. eexists. split; [reflexivity|].
      destruct (Z.leb_spec first (commit_index (raft w))).
      - right. exists first, e. split_and!; try done; try lia.
      - left. split; [done|]. lia. }
    destruct ((le_term e =? term) && (le_id e =? id)) eqn:E1.
    { apply Hstop; [left; lia|left; lia]. }
    destruct (Z.ltb_spec term (le_term e)); [apply Hstop; [by right|by right]|].
    assert (~ hits term id e) as Hmiss by (unfold hits; lia).
    destruct (IH (Z.succ first)) as (c & Hrun & Hc); [intros i Hi; apply Hall; lia|].
    exists c. split; [exact Hrun|]. destruct Hc as [[-> Hc]|(i & e' & Hi & Hcm & Hat & Hbefore & Hc)].
    + left. split; [done|]. intros i ei Hi Hcm Hat. destruct (decide (i = first)) as [->|]; [congruence|].
      apply (Hc i ei); [lia|done|done].
    + right. exists i, e'. split_and!; try done; try lia.
      intros j ej Hj Hatj. destruct (decide (j = first)) as [->|]; [congruence|].
      apply (Hbefore j ej); [lia|done].
Qed.

(** It looks at the committed entries, up to the first one that decides. *)
Lemma is_entry_committed_ok term id w :
  raft_wf (raft w) -> lock_flag (raft w) = 0 ->
  exists c, Raft_is_entry_committed term id w = Ok (c, w) /\
    ((c = 0 /\ forall i e, i <= commit_index (raft w) -> log_at (raft w) i = Some e -> ~ hits term id e) \/
     exists i e, i <= commit_index (raft w) /\ log_at (raft w) i = Some e /\
       (forall j ej, j < i -> log_at (raft w) j = Some ej -> ~ hits term id ej) /\
       ((c = 1 /\ le_term e = term /\ le_id e = id) \/ (c = -1 /\ term < le_term e))).
Proof.
  intros Hwf Hl. set (w1 := w <| raft ::= fun r => r <| lock_flag := 1 |> |>).
  destruct (find_entry_spec term id w1 (start_log_index (raft w))
    (log_count (raft w) - start_log_index (raft w))) as (c & Hrun & Hc).
  { pose proof (wf_commit_low _ Hwf). pose proof (wf_commit_high _ Hwf). lia. }
  { intros i Hi. destruct (log_at_some (raft w) i Hwf) as [e He]; [lia|]. by exists e. }
  exists c. split.
  - unfold Raft_is_entry_committed. rewrite run_bind, run_lock_acquire by done. fold w1.
    unfold rself, gets. rewrite run_bind. cbn beta iota.
    change (start_log_index (raft w1)) with (start_log_index (raft w)).
    change (log_count (raft w1)) with (log_count (raft w)).
    rewrite run_bind, Hrun, run_bind, run_lock_release by done. cbn beta iota. unfold w1.
    by rewrite lock_unlock.
  - change (commit_index (raft w1)) with (commit_index (raft w)) in Hc.
    destruct Hc as [[-> Hc]|(i & e & Hi & Hcm & He & Hbefore & Hc)].
    + left. split; [done|]. intros i e Hcm He. apply (Hc i e); [|done|done]. apply log_at_range in He. lia.
    + right. exists i, e. split_and!; try done. intros j ej Hj Hat. apply (Hbefore j ej); [|done].
      apply log_at_range in Hat. lia.
Qed.

Section query.
Context `{CH : CommitHandler}.

Lemma query_hit t id w c i0 e0 :
  raft_wf (raft w) -> lock_flag (raft w) = 0 -> log_at (raft w) i0 = Some e0 ->
  le_term e0 = t -> le_id e0 = id -> commit_index (raft w) = c ->
  (forall i e, log_at (raft w) i = Some e -> hits t id e -> i = i0) ->
  Raft_is_entry_committed t id w = Ok (if decide (i0 <= c) then 1 else 0, w).
Proof.
  intros Hwf Hl H0 Ht Hid Hc Hu. destruct (is_entry_committed_ok t id w Hwf Hl) as (a & -> & Ha).
  f_equal. f_equal. destruct Ha as [[-> Hn]|(i & e & Hi & He & _ & [(-> & Het & Heid)|(-> & Het)])].
  - rewrite decide_False; [done|]. intros Hle. apply (Hn i0 e0); [lia|done|]. by left.
  - rewrite <- (Hu i e He (or_introl (conj Het Heid))), decide_True by lia. done.
  - rewrite (Hu i e He (or_intror Het)) in He. rewrite H0 in He. injection He as <-. lia.
Qed.

(** An entry the leader appended is reported as open until the commit
    index reaches it, and as committed from then on. *)
Theorem append_commit_query e w w1 e1 c w2 :
  raft_wf (raft w) -> lock_flag (raft w) = 0 -> disk_ready w -> log_count (raft w) < INT_MAX ->
  (forall i ei, log_at (raft w) i = Some ei -> ~ hits (current_term (raft w)) (le_id e) ei) ->
  Raft_append_entry e w = Ok ((0, e1), w1) ->
  commit_index (raft w1) <= c <= log_count (raft w) -> Raft_commit_update c w1 = Ok (tt, w2) ->
  Raft_is_entry_committed (current_term (raft w)) (le_id e) w1 = Ok (0, w1) /\
  Raft_is_entry_committed (current_term (raft w)) (le_id e) w2 =
    Ok (if decide (c = log_count (raft w)) then 1 else 0, w2).
Proof.
  intros Hwf Hl Hd Hmax Hnew Happ Hc Hcu. pose proof (append_entry_run w e Hwf Hl Hd Hmax) as Hrun.
  cbn zeta in Hrun. destruct (_ || _); [by rewrite Hrun in Happ|].
  destruct Hrun as (w1' & Hrun & Hwf1 & Hn & Hci & Hat & _ & Hl1 & _). rewrite Hrun in Happ.
  injection Happ as <- <-. set (n := log_count (raft w)) in *.
  assert (log_at (raft w1') n = Some (stamp (raft w) e)) as Hnew1 by by rewrite Hat, decide_True.
  assert (forall i ei, log_at (raft w1') i = Some ei -> hits (current_term (raft w)) (le_id e) ei -> i = n) as Hu.
  { intros i ei Hi Hh. destruct (decide (i = n)) as [|Hne]; [done|]. rewrite Hat, decide_False in Hi by done.
    by destruct (Hnew i ei Hi). }
  pose proof (wf_commit_high _ Hwf) as Hch. fold n in Hch. split.
  - rewrite (query_hit (current_term (raft w)) (le_id e) w1' _ n (stamp (raft w) e) Hwf1 Hl1 Hnew1 eq_refl eq_refl eq_refl Hu).
    rewrite decide_False by lia. done.
  - rewrite commit_update_run in Hcu by (try done; lia).
    destruct (commit_all _ _ _) as [d|]; [|done]. injection Hcu as <-.
    set (w2 := w1' <| disk := d |> <| raft ::= fun r => r <| commit_index := c |> |>).
    assert (raft_wf (raft w2)) as Hwf2.
    { pose proof (wf_commit_low _ Hwf1). destruct Hwf1 as [? ? ? ? ?]. constructor; cbn; try done; lia. }
    rewrite (query_hit (current_term (raft w)) (le_id e) w2 c n (stamp (raft w) e) Hwf2 Hl1 Hnew1 eq_refl eq_refl eq_refl Hu).
    f_equal. f_equal. destruct (decide (n <= c)), (decide (c = n)); done || lia.
Qed.
End query.
