(* ===== verification/StateMachine.v ===== *)
(** The replicated state machine: the files a server shows are what the
    committed transactions write, whether they come from the log, from a
    snapshot or from a restart. *)
From S2P Require Import Prelude Libc Posix RaftTypes RaftStorage StorageSpec RaftUtils RaftFollower RaftLeader RaftCandidate Raft RaftView RaftLog.

#[local] Open Scope string_scope.
#[local] Open Scope Z_scope.
#[local] Open Scope list_scope.

(** * What a log writes *)

(** What the client entries of [l] append to the file [f]. *)
Definition applied_log (f : bytes) (l : list raft_log_entry) : bytes :=
  flat_map (fun e => if decide (le_type e = LEADER_LOG) then [] else applied f (le_data e)) l.

Lemma applied_log_app f l1 l2 : applied_log f (l1 ++ l2) = applied_log f l1 ++ applied_log f l2.
Proof. apply flat_map_app. Qed.

Definition fname (k : Z) : bytes := to_bytes (file_name k).

Lemma of_bytes_fname k : of_bytes (fname k) = file_name k.
Proof. apply String.string_of_list_ascii_of_string. Qed.

(** The text of file [k] in the snapshot that ends below [start]; there is no
    snapshot below entry 0. *)
Definition snap_text (d : fs raft_state) (dir : string) (start k : Z) : bytes :=
  if decide (start = 0) then [] else text_of d (snap_file dir start k).

(** The committed part of the log. *)
Definition committed (r : raft_state) : list raft_log_entry :=
  log_range r (start_log_index r) (commit_index r - start_log_index r + 1).

(** The main files hold the snapshot and then the committed entries. *)
Definition sm_inv (dir : string) (w : world) : Prop :=
  forall k, k ∈ file_numbers ->
    text_of (disk w) (snap_file dir (-1) k) =
    snap_text (disk w) dir (start_log_index (raft w)) k ++ applied_log (fname k) (committed (raft w)).

(** Every transaction in the log names plain files. *)
Definition log_plain (r : raft_state) : Prop :=
  forall i e, log_at r i = Some e -> plain_data (le_data e).

Lemma log_range_app r first m n :
  0 <= m -> 0 <= n -> log_range r first (m + n) = log_range r first m ++ log_range r (first + m) n.
Proof.
  intros Hm Hn. unfold log_range. rewrite seqZ_app by lia. apply omap_app.
Qed.

Lemma log_range_in r first n e : e ∈ log_range r first n -> exists i, log_at r i = Some e.
Proof. unfold log_range. intros (i & _ & Hi)%list_elem_of_omap. by exists i. Qed.

Lemma log_range_ext r r' first n :
  (forall i, first <= i < first + n -> log_at r' i = log_at r i) ->
  log_range r' first n = log_range r first n.
Proof.
  intros H. unfold log_range. apply list_omap_ext. apply list.Forall2_same_length_lookup_2; [done|].
  intros j x y Hx Hy. assert (x = y) as -> by congruence. apply H.
  apply list_elem_of_lookup_2, elem_of_seqZ in Hx. lia.
Qed.

Lemma log_range_lview r r' first n : lview r' = lview r -> log_range r' first n = log_range r first n.
Proof. intros H. apply log_range_ext. intros i _. by apply lview_log_at. Qed.

Lemma committed_lview r r' : lview r' = lview r -> committed r' = committed r.
Proof.
  intros H. unfold committed. rewrite (log_range_lview _ _ _ _ H).
  unfold lview in H. by injection H as _ -> _ ->.
Qed.

Section state_machine.
Context `{CH : CommitHandler} `{!CommitHandlerOk CH}.
Context `{!CommitHandlerAppends CH} (dir : string) (Hdir : is_dir_path dir).

Lemma commit_all_text l d d' :
  commit_all dir l d = Ok d' -> dir ∈ dirs d ->
  dirs d' = dirs d /\
  forall k, text_of d' (snap_file dir (-1) k) =
            text_of d (snap_file dir (-1) k) ++ applied_log (fname k) l.
Proof.
  revert d. induction l as [|e l IH]; intros d; cbn [commit_all applied_log flat_map].
  - intros [= <-] _. split; [done|]. intros k. by rewrite app_nil_r.
  - intros H Hin.
    destruct (if decide (le_type e = LEADER_LOG) then Ok d else commit_handler dir (le_data e) d)
      as [d1|] eqn:H1; [|done]. cbn in H.
    assert (dirs d1 = dirs d) as Hd1.
    { case_decide; [by injection H1 as <-|]. by eapply commit_handler_dirs. }
    destruct (IH d1 H) as [Hd' Ht]; [by rewrite Hd1|]. split; [congruence|].
    intros k. rewrite Ht. fold (applied_log (fname k) l). rewrite app_assoc. f_equal.
    case_decide; [injection H1 as <-; by rewrite app_nil_r|].
    change (snap_file dir (-1) k) with (dir +:+ file_name k). rewrite <- (of_bytes_fname k).
    eapply commit_handler_text; [done|done|done|]. rewrite of_bytes_fname. apply file_name_no_slash.
Qed.

Lemma commit_all_other l d d' p :
  commit_all dir l d = Ok d' -> (forall e, e ∈ l -> plain_data (le_data e)) -> dir_of p <> dir ->
  files d' !! p = files d !! p.
Proof.
  revert d. induction l as [|e l IH]; intros d; cbn [commit_all]; [by intros [= <-]|].
  intros H Hpl Hp.
  destruct (if decide (le_type e = LEADER_LOG) then Ok d else commit_handler dir (le_data e) d)
    as [d1|] eqn:H1; [|done]. cbn in H. rewrite (IH d1 H); [|set_solver|done].
  case_decide; [by injection H1 as <-|]. eapply commit_handler_other; [done|done| |done]. set_solver.
Qed.

Lemma snap_file_dir id k : id <> -1 -> dir_of (snap_file dir id k) <> dir.
Proof.
  intros Hid. rewrite dir_of_snap_file by done. intros H.
  by apply (snapshot_path_inj dir id (-1)) in H.
Qed.

Lemma commit_update_files c w u w' :
  raft_wf (raft w) -> log_count (raft w) <= INT_MAX -> commit_index (raft w) <= c < log_count (raft w) ->
  files_dir (raft w) = dir -> dir ∈ dirs (disk w) -> log_plain (raft w) ->
  Raft_commit_update c w = Ok (u, w') ->
  raft w' = (raft w) <| commit_index := c |> /\ dirs (disk w') = dirs (disk w) /\
  (forall k, text_of (disk w') (snap_file dir (-1) k) = text_of (disk w) (snap_file dir (-1) k) ++
     applied_log (fname k) (log_range (raft w) (commit_index (raft w) + 1) (c - commit_index (raft w)))) /\
  (forall p, dir_of p <> dir -> files (disk w') !! p = files (disk w) !! p).
Proof.
  intros Hwf Hmax Hc Hdw Hin Hpl. rewrite commit_update_run, Hdw by done.
  destruct (commit_all _ _ (disk w)) as [d|] eqn:Hd; [|done]. intros [= _ <-]. cbn.
  destruct (commit_all_text _ _ _ Hd Hin) as [Hdirs Ht]. split_and!; try done.
  intros p Hp. eapply commit_all_other; [exact Hd| |done].
  intros e [i He]%log_range_in. by eapply Hpl.
Qed.

(** C13: When the transactions in the log name plain files, advancing the
    commit index keeps every file equal to its snapshot followed by the writes
    of the committed entries, and moves the commit index to the given one. *)
Theorem commit_update_state_machine c w u w' :
  raft_wf (raft w) -> log_count (raft w) <= INT_MAX -> commit_index (raft w) <= c < log_count (raft w) ->
  files_dir (raft w) = dir -> dir ∈ dirs (disk w) -> log_plain (raft w) -> sm_inv dir w ->
  Raft_commit_update c w = Ok (u, w') -> sm_inv dir w' /\ commit_index (raft w') = c.
Proof.
  intros Hwf Hmax Hc Hdw Hin Hpl Hsm H.
  destruct (commit_update_files c w u w' Hwf Hmax Hc Hdw Hin Hpl H) as (Hr & _ & Ht & Ho).
  split; [|by rewrite Hr]. intros k Hk. rewrite Ht, (Hsm k Hk), <- app_assoc, Hr. cbn [start_log_index].
  change (start_log_index ((raft w) <| commit_index := c |>)) with (start_log_index (raft w)).
  f_equal.
  - unfold snap_text. case_decide; [done|]. unfold text_of. rewrite Ho; [done|].
    apply snap_file_dir. pose proof (wf_start _ Hwf). lia.
  - rewrite <- applied_log_app. f_equal. unfold committed.
    change (log_range ((raft w) <| commit_index := c |>)) with (log_range (raft w)).
    cbn [start_log_index commit_index upd].
    pose proof (wf_commit_low _ Hwf).
    replace (commit_index (raft w) + 1)
      with (start_log_index (raft w) + (commit_index (raft w) - start_log_index (raft w) + 1)) by lia.
    rewrite <- log_range_app by lia. f_equal. lia.
Qed.

(** * Restart *)

Lemma remove_loop keep l w :
  files_dir (raft w) = dir -> (String.length dir + 40 < 256)%nat ->
  (forall i, i ∈ l -> 0 <= i < 100) ->
  exists d, for_ l (fun i => if decide (i = keep) then skip else Raft_remove_snapshot i) w =
      Ok (tt, w <| disk := d |>) /\
    forall p, (forall i, i ∈ l -> i <> keep -> p ∉ snap_files dir i) -> files d !! p = files (disk w) !! p.
Proof.
  intros Hw Hlen. revert w Hw. induction l as [|i l IH]; intros w Hw Hl.
  - exists (disk w). split; [by destruct w|done].
  - assert (exists d, (if decide (i = keep) then skip else Raft_remove_snapshot i) w =
        Ok (tt, w <| disk := d |>) /\
      forall p, (i <> keep -> p ∉ snap_files dir i) -> files d !! p = files (disk w) !! p)
      as (d1 & Hrun & H1).
    { case_decide; [exists (disk w); split; [by destruct w|done]|].
      destruct (remove_snapshot_total w dir Hw Hdir i) as (d & Hrun & _ & _ & Hrest).
      - apply paths_fit_int; [done|]. right. pose proof (Hl i ltac:(by left)).
        split; [lia|]. apply int_ok_spec. unfold INT_MIN, INT_MAX. lia.
      - exists d. split; [done|]. intros p Hp. by apply Hrest, Hp. }
    set (w1 := w <| disk := d1 |>) in *.
    destruct (IH w1 Hw) as (d2 & Hrun2 & H2); [intros j Hj; apply Hl; by right|].
    exists d2. cbn [for_]. rewrite run_bind, Hrun. cbn beta iota. rewrite Hrun2.
    split; [done|].
    intros p Hp. rewrite H2 by (intros j Hj; apply Hp; by right). cbn. apply H1.
    intros Hne. apply Hp; [by left|done].
Qed.

Lemma load_state_ok w u w' r :
  files (disk w) !! state_file dir ≫= f_image = Some r ->
  Raft_load_state dir w = Ok (u, w') -> w' = w <| raft := r |>.
Proof.
  intros Himg. unfold Raft_load_state, path_buf, lift, sprintf, fopen_r.
  intros (p & w1 & Hp & H)%bind_ok. destruct (_ <? PATH_SIZE)%nat; [|done]. injection Hp as <- <-.
  apply bind_ok in H as (d & w1 & [= <- <-] & H).
  destruct (files (disk w) !! state_file dir) as [c|]; [|done]. cbn in Himg. rewrite Himg in H.
  by injection H as _ <-.
Qed.

(** Emptying the main files and copying a snapshot over them. *)
Lemma rebuild_ok start w w1 u w' u' :
  files_dir (raft w) = dir -> (String.length dir + 40 < 256)%nat -> dir ∈ dirs (disk w) ->
  0 <= start -> int_ok start = true ->
  Raft_clean_main_files w = Ok (u', w1) ->
  (if decide (start <> 0) then Raft_copy_snapshot start (-1) else skip) w1 = Ok (u, w') ->
  exists d, w' = w <| disk := d |> /\ dirs d = dirs (disk w) /\
    (forall k, k ∈ file_numbers -> text_of d (snap_file dir (-1) k) = snap_text (disk w) dir start k) /\
    (forall p, p ∉ snap_files dir (-1) -> files d !! p = files (disk w) !! p).
Proof.
  intros Hw Hlen Hin H0 Hint Hclean Hcopy.
  destruct (clean_main_files_total w dir Hw Hdir) as (d4 & Hrun & Hd4 & Hempty & Hrest4);
    [by apply paths_fit_int; [|left]|done|].
  rewrite Hrun in Hclean. injection Hclean as _ <-. unfold snap_text.
  destruct (decide (start = 0)) as [Hz|Hz].
  - rewrite decide_False in Hcopy by tauto. injection Hcopy as _ <-. exists d4.
    split_and!; try done. intros k Hk. unfold text_of. by rewrite (Hempty k Hk).
  - rewrite decide_True in Hcopy by done. set (w4 := w <| disk := d4 |>) in Hcopy.
    destruct (copy_snapshot_total w4 dir Hw Hdir start (-1)) as (d5 & Hrun5 & Hd5 & Hnew & Hrest5).
    + apply paths_fit_int; [done|by right].
    + by apply paths_fit_int; [|left].
    + lia.
    + cbn. by rewrite Hd4.
    + rewrite Hrun5 in Hcopy. injection Hcopy as _ <-. exists d5.
      change (disk w4) with d4 in Hd5, Hnew, Hrest5. split_and!.
      * done.
      * by rewrite Hd5, Hd4.
      * intros k Hk. unfold text_of. rewrite (Hnew k Hk).
        rewrite (Hempty k Hk), (Hrest4 (snap_file dir start k)) by (apply snap_file_other; [done|lia]).
        cbn. by destruct (files (disk w) !! snap_file dir start k).
      * intros p Hp. rewrite (Hrest5 p Hp). by apply Hrest4.
Qed.


(** * Compaction *)

(** [w'] differs from [w] on the disk alone, and there only in the directory
    [d] of a snapshot. *)
Definition in_snapshot (id : Z) (w w' : world) : Prop :=
  (exists d, w' = w <| disk := d |>) /\
  (forall p, p ∈ dirs (disk w) -> p ∈ dirs (disk w')) /\
  forall p, dir_of p <> snapshot_path dir id -> files (disk w') !! p = files (disk w) !! p.

Lemma in_snapshot_refl id w : in_snapshot id w w.
Proof. split; [exists (disk w); by destruct w|]. done. Qed.

Lemma in_snapshot_trans id w1 w2 w3 : in_snapshot id w1 w2 -> in_snapshot id w2 w3 -> in_snapshot id w1 w3.
Proof.
  intros ([d1 ->] & Hd1 & Hf1) ([d2 ->] & Hd2 & Hf2). split; [by exists d2|]. split; [auto|].
  intros p Hp. by rewrite Hf2, Hf1.
Qed.

Lemma in_snapshot_raft id w w' : in_snapshot id w w' -> raft w' = raft w.
Proof. by intros ([d ->] & _). Qed.

Lemma add_plain_ok id f b w u w' :
  files_dir (raft w) = dir -> has_slash (of_bytes (until_nul f)) = false ->
  Raft_add_to_snapshot id false f b w = Ok (u, w') ->
  in_snapshot id w w' /\
  forall k, text_of (disk w') (snap_file dir id k) = text_of (disk w) (snap_file dir id k) ++
    (if decide (until_nul f = fname k) then until_nul b else []).
Proof.
  intros Hw Hf (d & -> & Hdirs & _ & Ht & Ho)%add_to_snapshot_ok. rewrite Hw in *. split.
  - split; [by exists d|]. split; [cbn; set_solver|]. intros p Hp. apply Ho. intros ->.
    rewrite dir_of_app in Hp; [done|by apply snapshot_path_is_dir|done].
  - intros k. cbn [disk upd]. rewrite Ht. unfold snap_file.
    destruct (decide (until_nul f = fname k)) as [->|Hne].
    + rewrite decide_True; [done|]. by rewrite of_bytes_fname.
    + rewrite decide_False, app_nil_r; [done|]. intros E%string_app_inj. apply Hne.
      apply (f_equal to_bytes) in E. unfold to_bytes, of_bytes in E.
      by rewrite String.list_ascii_of_string_of_list_ascii in E.
Qed.

Lemma snapshot_entry_ok id data w u w' :
  files_dir (raft w) = dir -> plain_data data ->
  snapshot_entry id data w = Ok (u, w') ->
  in_snapshot id w w' /\
  forall k, text_of (disk w') (snap_file dir id k) =
            text_of (disk w) (snap_file dir id k) ++ applied (fname k) data.
Proof.
  revert w. induction data as [|e data IH]; intros w Hw Hpl; cbn [snapshot_entry applied].
  - intros [= _ <-]. split; [apply in_snapshot_refl|]. intros k. by rewrite app_nil_r.
  - apply list.Forall_cons in Hpl as [He Hpl]. destruct (first_is_nul (filename e)).
    + intros [= _ <-]. split; [apply in_snapshot_refl|]. intros k. by rewrite app_nil_r.
    + intros (? & w1 & H1 & H)%bind_ok. destruct (add_plain_ok _ _ _ _ _ _ Hw He H1) as [Hs1 Ht1].
      destruct (IH w1) as [Hs2 Ht2]; [by rewrite (in_snapshot_raft _ _ _ Hs1)|done|done|].
      split; [by eapply in_snapshot_trans|]. intros k. by rewrite Ht2, Ht1, app_assoc.
Qed.

(** The loop over the entries that the new snapshot takes in. *)
Definition snapshot_one (id : Z) (i : Z) : M world unit :=
  r ← rself;
  e ← log_deref (Raft_get_log r i);
  if decide (le_type e = LEADER_LOG) then skip else snapshot_entry id (le_data e).

Lemma snapshot_loop_ok id first n w u w' :
  files_dir (raft w) = dir -> log_plain (raft w) -> 0 <= n ->
  for_ (seqZ first n) (snapshot_one id) w = Ok (u, w') ->
  in_snapshot id w w' /\
  forall k, text_of (disk w') (snap_file dir id k) =
            text_of (disk w) (snap_file dir id k) ++ applied_log (fname k) (log_range (raft w) first n).
Proof.
  intros Hw Hpl Hn. revert first w Hw Hpl. pattern n. apply natlike_ind; [| |done]; clear n Hn.
  - intros first w Hw _ [= _ <-]. split; [apply in_snapshot_refl|]. intros k. by rewrite app_nil_r.
  - intros n Hn IH first w Hw Hpl. rewrite seqZ_cons by lia. replace (Z.pred (Z.succ n)) with n by lia.
    cbn [for_]. intros (? & w1 & H1 & H)%bind_ok. unfold snapshot_one in H1.
    apply bind_ok in H1 as (r & w2 & [= <- <-] & H1).
    apply bind_ok in H1 as (e & w2 & [He ->]%log_deref_at & H1).
    change (Z.succ n) with (n + 1). rewrite (log_range_cons _ _ _ _ Hn He).
    cbn [applied_log flat_map].
    assert (in_snapshot id w w1 /\ forall k, text_of (disk w1) (snap_file dir id k) =
      text_of (disk w) (snap_file dir id k) ++
      (if decide (le_type e = LEADER_LOG) then [] else applied (fname k) (le_data e))) as [Hs1 Ht1].
    { case_decide; [injection H1 as _ <-; split; [apply in_snapshot_refl|intros k; by rewrite app_nil_r]|].
      eapply snapshot_entry_ok; [done| |done]. by eapply Hpl. }
    pose proof (in_snapshot_raft _ _ _ Hs1) as Hr1.
    destruct (IH (Z.succ first) w1) as [Hs2 Ht2]; [by rewrite Hr1|by rewrite Hr1|done|].
    split; [by eapply in_snapshot_trans|]. intros k. rewrite Ht2, Ht1, Hr1. by rewrite app_assoc.
Qed.

Lemma snapshot_dir_parent id : id <> -1 -> parent_of (snapshot_path dir id) = dir.
Proof.
  intros Hid. unfold snapshot_path. rewrite decide_False by done. rewrite <- (app_assoc_string "snapshot_").
  apply parent_of_app; [done|]. by rewrite has_slash_app, itoa_no_slash.
Qed.

Lemma snapshot_file_in id p : p ∈ snap_files dir id -> dir_of p = snapshot_path dir id.
Proof. intros (k & -> & _)%list_elem_of_fmap. by apply dir_of_snap_file. Qed.

(** The new snapshot holds the old one and the entries up to its start. *)
Lemma snapshot_build_ok new w prev w' :
  let r := raft w in
  files_dir r = dir -> (String.length dir + 40 < 256)%nat -> dir ∈ dirs (disk w) ->
  0 <= start_log_index r < new -> int_ok new = true -> log_plain r ->
  (forall k, k ∈ file_numbers -> files (disk w) !! snap_file dir new k = None) ->
  Raft_create_snapshot_build new w = Ok (prev, w') ->
  prev = start_log_index r /\ in_snapshot new w w' /\
  forall k, k ∈ file_numbers -> text_of (disk w') (snap_file dir new k) =
    snap_text (disk w) dir (start_log_index r) k ++
    applied_log (fname k) (log_range r (start_log_index r) (new - start_log_index r)).
Proof.
  intros r Hw Hlen Hin Hnew Hint Hpl Hfresh. subst r. unfold Raft_create_snapshot_build.
  intros (? & w1 & Hmk & H)%bind_ok.
  unfold Raft_create_snapshot_dir in Hmk. apply bind_ok in Hmk as (p & w2 & Hp & [= _ <-]).
  rewrite run_snapshot_path, Hw in Hp by (rewrite Hw; apply paths_fit_int; [done|right; split; [lia|done]]).
  injection Hp as <- <-. set (d1 := mkdir (disk w) (snapshot_path dir new)).
  set (w1 := w <| disk ::= fun d => mkdir d (snapshot_path dir new) |>) in H.
  assert (disk w1 = d1) as Ed1 by done. assert (raft w1 = raft w) as Er1 by done.
  assert (snapshot_path dir new ∈ dirs d1 /\ (forall q, q ∈ dirs (disk w) -> q ∈ dirs d1) /\
          files d1 = files (disk w)) as (Hd1 & Hsub & Hf1).
  { unfold d1, mkdir. rewrite snapshot_dir_parent by lia. rewrite decide_True by done. cbn. set_solver. }
  assert (in_snapshot new w w1) as Hs1.
  { split; [by eexists|]. split; [by rewrite Ed1|]. intros q _. by rewrite Ed1, Hf1. }
  apply bind_ok in H as (prev' & w2 & [= <- <-] & H). apply bind_ok in H as (start & w2 & [= <- <-] & H).
  rewrite ?Er1 in H. set (start := start_log_index (raft w)) in *.
  apply bind_ok in H as (? & w2 & Hcopy & H).
  assert (in_snapshot new w1 w2 /\ forall k, k ∈ file_numbers ->
    text_of (disk w2) (snap_file dir new k) = snap_text (disk w) dir start k) as [Hs2 Ht2].
  { unfold snap_text. destruct (decide (start = 0)) as [Hz|Hz].
    - rewrite decide_False in Hcopy by tauto. injection Hcopy as _ <-.
      split; [apply in_snapshot_refl|]. intros k Hk. unfold text_of. by rewrite Ed1, Hf1, (Hfresh k Hk).
    - rewrite decide_True in Hcopy by done.
      destruct (copy_snapshot_total w1 dir Hw Hdir start new) as (d2 & Hrun & Hdirs & Hnew2 & Hrest).
      + apply paths_fit_int; [done|right]. split; [lia|].
        apply int_ok_spec in Hint. apply int_ok_spec. unfold INT_MIN in *. lia.
      + apply paths_fit_int; [done|right; split; [lia|done]].
      + lia.
      + by rewrite Ed1.
      + rewrite Hrun in Hcopy. injection Hcopy as _ <-. split.
        * split; [by exists d2|]. split; [cbn [disk upd]; by rewrite Hdirs|]. intros q Hq. apply Hrest.
          intros Hin'. by apply snapshot_file_in in Hin'.
        * intros k Hk. cbn [disk upd]. unfold text_of. rewrite (Hnew2 k Hk), Ed1, Hf1.
          by destruct (files (disk w) !! snap_file dir start k) eqn:E; rewrite ?(Hfresh k Hk). }
  pose proof (in_snapshot_raft _ _ _ Hs2) as Er2.
  apply bind_ok in H as ([] & w3 & Hloop & [= <- <-]).
  destruct (snapshot_loop_ok new start (new - start) w2 tt w3) as [Hs3 Ht3];
    [by rewrite Er2|by rewrite Er2, Er1|lia|exact Hloop|].
  split; [done|]. split; [by eapply in_snapshot_trans; [|eapply in_snapshot_trans]|].
  intros k Hk. by rewrite Ht3, (Ht2 k Hk), Er2.
Qed.

(** Moving the log down keeps every entry that stays. *)
Lemma shift_loop_ok new i n w u w' :
  let r := raft w in
  0 <= n -> start_log_index r < new <= i ->
  for_ (seqZ i n) (shift_log new) w = Ok (u, w') ->
  exists l, w' = w <| raft := r <| raft_log := l |> |> /\ length l = length (raft_log r) /\
    (forall j, i <= j < i + n -> l !! Z.to_nat (j - new) = raft_log r !! Z.to_nat (j - start_log_index r)) /\
    (forall p, (p < Z.to_nat (i - new))%nat -> l !! p = raft_log r !! p).
Proof.
  intros r Hn. subst r. revert i w. pattern n. apply natlike_ind; [| |done]; clear n Hn.
  - intros i w _ [= _ <-]. exists (raft_log (raft w)). split; [by destruct w as [[]]|].
    split_and!; [done|lia|done].
  - intros n Hn IH i w Hi. rewrite seqZ_cons by lia. replace (Z.pred (Z.succ n)) with n by lia.
    cbn [for_]. intros (? & w1 & H1 & H)%bind_ok. unfold shift_log in H1.
    apply bind_ok in H1 as (r & w2 & [= <- <-] & H1). apply bind_ok in H1 as (e & w2 & He & H1).
    unfold lift in He. destruct (arr_get _ _) as [e'|] eqn:Ee; [|done]. injection He as <- <-.
    apply bind_ok in H1 as (l & w2 & Hl & [= _ <-]). unfold lift in Hl.
    destruct (arr_set _ _ _) as [l'|] eqn:El; [|done]. injection Hl as <- <-.
    apply arr_get_ok in Ee as [_ Ee]. apply arr_set_ok in El as [Hb%in_bounds_spec ->].
    match type of H with for_ _ _ ?w0 = _ => set (w1 := w0) in * end.
    destruct (IH (Z.succ i) w1) as (l & -> & Hlen & Hj & Hp); [cbn; lia|done|].
    exists l. split; [done|]. change (raft_log (raft w1)) with
      (<[Z.to_nat (i - new) := e']> (raft_log (raft w))) in *.
    change (start_log_index (raft w1)) with (start_log_index (raft w)) in *.
    split; [by rewrite Hlen, length_insert|]. split.
    + intros j Hij. destruct (decide (j = i)) as [->|Hne].
      * rewrite Hp by lia. rewrite list_lookup_insert_eq by lia. done.
      * rewrite Hj by lia. rewrite list_lookup_insert_ne by lia. done.
    + intros q Hq. rewrite Hp by lia. rewrite list_lookup_insert_ne by lia. done.
Qed.

Lemma state_file_not_snap id k : state_file dir <> snap_file dir id k /\ tmp_state_file dir <> snap_file dir id k.
Proof.
  unfold snap_file, snapshot_path, state_file, tmp_state_file, file_name.
  case_decide; split; rewrite ?app_assoc_string; intros E%string_app_inj; discriminate.
Qed.

(** The last phase: the log starts at [new], the state is saved, and the
    files stay but for those of the old snapshot. *)
Lemma snapshot_end_ok new prev w u w' :
  let r := raft w in
  files_dir r = dir -> (String.length dir + 40 < 256)%nat -> dir ∈ dirs (disk w) ->
  start_log_index r < new <= log_count r -> raft_wf r ->
  prev = start_log_index r -> 0 <= prev -> int_ok prev = true ->
  Raft_create_snapshot_end new prev w = Ok (u, w') ->
  start_log_index (raft w') = new /\ log_count (raft w') = log_count r /\
  commit_index (raft w') = commit_index r /\ length (raft_log (raft w')) = length (raft_log r) /\
  (forall i, new <= i -> log_at (raft w') i = log_at r i) /\
  (exists r', image w' = Some r' /\ lview r' = lview (raft w')) /\
  forall id k, id <> prev -> files (disk w') !! snap_file dir id k = files (disk w) !! snap_file dir id k.
Proof.
  intros r Hw Hlen Hin Hnew Hwf -> H0 Hint. subst r. unfold Raft_create_snapshot_end.
  intros (? & w1 & [_ ->]%lock_acquire_ok & H)%bind_ok.
  apply bind_ok in H as (? & w2 & [= _ <-] & H). apply bind_ok in H as (n & w2 & [= <- <-] & H).
  match type of H with (_ ≫= _) ?w0 = _ => set (w2 := w0) in * end.
  apply bind_ok in H as (u2 & w3 & Hsh & H).
  destruct (shift_loop_ok new new (log_count (raft w) - new) w2 u2 w3) as (l & -> & Hl & Hj & _);
    [cbn; lia|cbn; lia|exact Hsh|]. clear Hsh.
  apply bind_ok in H as (? & w3 & [= _ <-] & H).
  match type of H with (_ ≫= _) ?w0 = _ => set (w3 := w0) in * end.
  apply bind_ok in H as (? & w4 & Hsave & H).
  assert (files_dir (raft w3) = dir) as Hw3 by done.
  rewrite save_state_total in Hsave by (constructor; rewrite Hw3; done). injection Hsave as _ <-.
  apply bind_ok in H as (? & w5 & [f Hw5]%lock_release_ok & H).
  assert (exists d, w' = w5 <| disk := d |> /\
    forall p, p ∉ snap_files dir (start_log_index (raft w)) -> files d !! p = files (disk w5) !! p)
    as (d & -> & Hd).
  { case_decide as Hz; [|injection H as _ <-; exists (disk w5); split; [by destruct w5|done]].
    destruct (remove_snapshot_total w5 dir ltac:(by rewrite Hw5) Hdir (start_log_index (raft w)))
      as (d & Hrun & _ & _ & Hrest); [apply paths_fit_int; [done|by right]|].
    rewrite Hrun in H. injection H as _ <-. by exists d. }
  change (raft (w5 <| disk := d |>)) with (raft w5). change (disk (w5 <| disk := d |>)) with d.
  assert (start_log_index (raft w5) = new /\ log_count (raft w5) = log_count (raft w) /\
    commit_index (raft w5) = commit_index (raft w) /\ raft_log (raft w5) = l /\ files_dir (raft w5) = dir)
    as (Es & En & Ec & El & Ed) by by rewrite Hw5.
  assert (lview (raft w3) = lview (raft w5)) as Elv by by rewrite Hw5.
  assert (disk w5 = saved_disk (raft w3) (disk w)) as Edisk by by rewrite Hw5.
  split_and!; try done.
  - by rewrite El, Hl.
  - intros i Hi. unfold log_at. rewrite Es, En, El.
    destruct (Z.ltb_spec i (log_count (raft w))); rewrite ?andb_false_r; [|done].
    rewrite !(proj2 (Z.leb_le _ _)) by lia. cbn [andb]. rewrite Hj by lia. reflexivity.
  - exists (raft w3). split; [|done]. unfold image. change (raft (w5 <| disk := d |>)) with (raft w5).
    rewrite Ed. change (disk (w5 <| disk := d |>)) with d.
    rewrite Hd.
    + rewrite Edisk. unfold saved_disk. cbn. rewrite <- Hw. by rewrite lookup_insert_eq.
    + intros Hin'. apply list_elem_of_fmap in Hin' as (k & Heq & _).
      by destruct (state_file_not_snap (start_log_index (raft w)) k).
  - intros id k Hne. rewrite Hd by by apply snap_file_other. rewrite Edisk. unfold saved_disk. cbn.
    destruct (state_file_not_snap id k) as [Hs1 Hs2]. rewrite <- Hw in Hs1, Hs2.
    rewrite Hw in *. rewrite lookup_insert_ne by done. by rewrite lookup_delete_ne by done.
Qed.

End state_machine.
