(* ===== verification/ServerSpec.v ===== *)
(** What the handlers of [server.c] promise the clients: the token of a
    transaction, what the transaction will write, and what the answer of a
    release means. *)
From S2P Require Import Prelude Libc Posix RaftTypes PacketFormat Spinlock TimedLock RaftStorage StorageSpec RaftUtils RaftFollower RaftLeader RaftCandidate Raft RaftView RaftLog Server StateMachine.

#[local] Open Scope string_scope.
#[local] Open Scope Z_scope.
#[local] Open Scope list_scope.

(** * Acquiring *)

Definition tx_data_of (s : server) : list raft_transaction_entry := le_data (current_log_entry s).
Definition tx_ok (s : server) : Prop := exists act rest, tx_split act rest (tx_data_of s).

Lemma on_lock_ok {A} (m : M tmdspinlock A) s a s' :
  on_lock m s = Ok (a, s') -> exists l, m (sv_lock s) = Ok (a, l) /\ s' = s <| sv_lock := l |>.
Proof. unfold on_lock. destruct (m (sv_lock s)) as [[b l]|]; [|done]. intros [= -> <-]. by exists l. Qed.

Lemma on_lock_run {A} (m : M tmdspinlock A) s a l :
  m (sv_lock s) = Ok (a, l) -> on_lock m s = Ok (a, s <| sv_lock := l |>).
Proof. unfold on_lock. by intros ->. Qed.

Lemma on_raft_ok {A} (m : M world A) s a s' :
  on_raft m s = Ok (a, s') -> exists w, m (sv_raft s) = Ok (a, w) /\ s' = s <| sv_raft := w |>.
Proof. unfold on_raft. destruct (m (sv_raft s)) as [[b w]|]; [|done]. intros [= -> <-]. by exists w. Qed.

Lemma answer_ok rc text msg s r s' :
  answer rc text msg s = Ok (r, s') -> s' = s /\ r.1 = rc.
Proof.
  unfold answer. intros (m & s1 & Hm & [= <- <-])%bind_ok. unfold lift in Hm.
  destruct (strcpy _ _ _); [|done]. by injection Hm as _ <-.
Qed.

Lemma tx_empty : tx_split [] (le_data zero_log_entry) (le_data zero_log_entry).
Proof. constructor; [done..| |apply NoDup_nil_2]. by repeat constructor. Qed.

(** A successful acquire answers the token of a new transaction (the term
    and a fresh id), starts an empty transaction of the client and makes it
    the holder. *)
Theorem lock_acquire_token clock id msg s :
  tmd_flag (sv_lock s) = 0 -> holder_id (sv_lock s) <> id ->
  int_ok (le_id (current_log_entry s) + 1) = true ->
  int_ok (current_term (raft (sv_raft s))) = true ->
  exists m s', handle_lock_acquire clock id msg s = Ok ((0, m), s') /\
    get_token m = (current_term (raft (sv_raft s)), le_id (current_log_entry s) + 1) /\
    le_id (current_log_entry s') = le_id (current_log_entry s) + 1 /\
    le_client (current_log_entry s') = id /\ holder_id (sv_lock s') = id /\
    tx_ok s' /\ (forall f, applied f (tx_data_of s') = []) /\ tx_data_of s' = le_data zero_log_entry /\
    sv_raft s' = sv_raft s.
Proof.
  intros Hf Hh Hid Ht. unfold handle_lock_acquire. unfold on_lock at 1. rewrite run_bind.
  unfold tmdspinlock_acquire. rewrite run_bind. unfold gets at 1. cbn beta iota.
  rewrite decide_False by done. rewrite run_bind. unfold gets at 1. cbn beta iota. rewrite Hf.
  cbn [compare_and_swap]. unfold compare_and_swap. rewrite decide_True by done.
  eexists _, _. split.
  { cbn -[int_ok Z.add put_token]. rewrite run_bind. unfold modify. cbn -[int_ok Z.add put_token].
    unfold gets. rewrite run_bind. cbn beta iota.
    rewrite run_bind. cbn beta iota. rewrite run_bind, run_int_of by done. reflexivity. }
  cbn -[put_token get_token]. split_and!; try done.
  - by apply get_put_token.
  - exists [], (le_data zero_log_entry). apply tx_empty.
Qed.

(** * Appending *)

Lemma pause_ok id l rc l' :
  tmdspinlock_pause_if_owner id l = Ok (rc, l') ->
  holder_id l' = holder_id l /\ tmd_flag l' = tmd_flag l /\
  (rc = 0 <-> holder_id l = id) /\ (rc = 0 \/ rc = -1).
Proof.
  unfold tmdspinlock_pause_if_owner. intros (h & l1 & [= <- <-] & H)%bind_ok.
  case_decide as Hh; [injection H as <- <-; repeat split; try done; auto|].
  apply bind_ok in H as (? & l1 & [= _ <-] & H).
  apply bind_ok in H as (h & l2 & [= <- <-] & H). cbn in H. rewrite decide_False in H by tauto.
  injection H as <- <-. cbn. repeat split; auto.
Qed.

Lemma reset_ok clock id l rc l' :
  tmdspinlock_reset_if_owner clock id l = Ok (rc, l') ->
  holder_id l' = holder_id l /\ tmd_flag l' = tmd_flag l.
Proof.
  unfold tmdspinlock_reset_if_owner. intros (h & l1 & [= <- <-] & H)%bind_ok. case_decide.
  - injection H as _ <-. done.
  - apply bind_ok in H as (? & l1 & [= _ <-] & [= _ <-]). done.
Qed.

(** A write that answered 0 is in the transaction; any other leaves it alone. *)
Lemma append_file_ok clock id file text msg s rc m s' :
  tx_ok s -> first_is_nul file = false ->
  handle_append_file clock id file text msg s = Ok ((rc, m), s') ->
  tx_ok s' /\ sv_raft s' = sv_raft s /\ holder_id (sv_lock s') = holder_id (sv_lock s) /\
  (rc = E_LOCK_EXP <-> holder_id (sv_lock s) <> id) /\
  (forall f, applied f (tx_data_of s') = applied f (tx_data_of s) ++
     (if decide (rc = 0 /\ until_nul file = f) then until_nul text else [])).
Proof.
  intros (act & rest & Htx) Hfile. unfold handle_append_file.
  intros (p & s1 & (l & Hp & ->)%on_lock_ok & H)%bind_ok. apply pause_ok in Hp as (Hh & _ & Hp & Hrc).
  destruct (Z.ltb_spec p 0).
  - apply answer_ok in H as [-> Hr]. cbn in Hr. subst rc.
    split; [by exists act, rest|]. split_and!; [done|exact Hh| |].
    + split; [intros _ E; lia|done].
    + intros f. rewrite decide_False, app_nil_r; [done|]. by intros [? _].
  - assert (p = 0) as -> by lia. assert (holder_id (sv_lock s) = id) as Hid by tauto.
    apply bind_ok in H as (e & s1 & [= <- <-] & H). apply bind_ok in H as (res & s1 & Hl & H).
    unfold lift in Hl. destruct (append_to _ file text) as [o|] eqn:Ha; [|done]. injection Hl as <- <-.
    change (le_data (current_log_entry (s <| sv_lock := l |>))) with (tx_data_of s) in Ha.
    apply bind_ok in H as (a & s1 & Hans & H). apply bind_ok in H as (z & s2 & (l2 & Hr & ->)%on_lock_ok & [= -> <-]).
    apply reset_ok in Hr as [Hh2 _]. destruct o as [data|].
    + apply bind_ok in Hans as (? & s2 & [= _ <-] & Hans). apply answer_ok in Hans as [-> Hrc0].
      cbn in Hrc0, Hh2. subst rc.
      destruct (append_to_spec _ _ _ _ _ _ Htx Hfile Ha) as (Htx' & _ & Happ).
      split_and!; [exact Htx'|done|cbn; by rewrite Hh2| |].
      * split; [done|congruence].
      * intros f. cbn. unfold tx_data_of at 1. cbn. rewrite Happ. f_equal.
        destruct (decide (until_nul file = f)); [by rewrite decide_True|by rewrite decide_False by tauto].
    + apply answer_ok in Hans as [-> Hrc0]. cbn in Hrc0, Hh2. subst rc.
      split; [by exists act, rest|]. split_and!; [done|cbn; by rewrite Hh2| |].
      * split; [done|congruence].
      * intros f. rewrite decide_False, app_nil_r; [done|]. by intros [? _].
Qed.

(** The writes of a client, one call after another; the answer tells which
    succeeded. *)
Fixpoint run_writes (clock id : Z) (ws : list (bytes * bytes)) : M server (list Z) :=
  match ws with
  | [] => mret []
  | (file, text) :: ws' =>
      r ← handle_append_file clock id file text [];
      rs ← run_writes clock id ws';
      mret (r.1 :: rs)
  end.

(** What the successful writes put in the file [f]. *)
Fixpoint written (f : bytes) (ws : list (bytes * bytes)) (rs : list Z) : bytes :=
  match ws, rs with
  | (file, text) :: ws', rc :: rs' =>
      (if decide (rc = 0 /\ until_nul file = f) then until_nul text else []) ++ written f ws' rs'
  | _, _ => []
  end.

(** C27: Committing a transaction appends to each file exactly the texts of
    the successful writes to it, in the order of the calls, when every write
    names a file (no empty name). *)
Theorem transaction_content clock id ws rs s s' d d' dir f :
  tx_ok s -> (forall g, applied g (tx_data_of s) = []) ->
  Forall (fun w => first_is_nul w.1 = false) ws ->
  run_writes clock id ws s = Ok (rs, s') ->
  handle_raft_commit dir (tx_data_of s') d = Ok d' ->
  is_dir_path dir -> dir ∈ dirs d -> has_slash (of_bytes f) = false ->
  text_of d' (dir +:+ of_bytes f) = text_of d (dir +:+ of_bytes f) ++ written f ws rs.
Proof.
  intros Htx Hempty Hws Hrun Hcommit Hdir Hin Hf.
  assert (forall ws s rs s', tx_ok s -> Forall (fun w => first_is_nul w.1 = false) ws ->
    run_writes clock id ws s = Ok (rs, s') ->
    applied f (tx_data_of s') = applied f (tx_data_of s) ++ written f ws rs) as Hall.
  { clear. induction ws as [|[file text] ws IH]; intros s rs s' Htx Hws.
    - intros [= <- <-]. cbn. by rewrite app_nil_r.
    - apply list.Forall_cons in Hws as [Hw Hws]. cbn [run_writes].
      intros ([rc m] & s1 & H1 & H)%bind_ok. apply bind_ok in H as (rs1 & s2 & H2 & [= <- <-]).
      destruct (append_file_ok _ _ _ _ _ _ _ _ _ Htx Hw H1) as (Htx1 & _ & _ & _ & Happ).
      rewrite (IH _ _ _ Htx1 Hws H2), Happ. cbn [written fst]. by rewrite app_assoc. }
  pose proof server_commit_handler_appends as Happ.
  rewrite (commit_handler_text (H := server_commit_handler) _ _ _ _ f Hcommit Hdir Hin Hf).
  f_equal. by rewrite (Hall _ _ _ _ Htx Hws Hrun), Hempty.
Qed.

(** ** The bound on the texts *)

(** The arrays of the entries hold strings. *)
Definition arrays_ok (data : list raft_transaction_entry) : Prop :=
  Forall (fun e => terminated FILENAME_SIZE (filename e) = true /\ terminated BUFFER_SIZE (buffer e) = true) data.

Lemma c_str_terminated cap a : terminated cap a = true -> c_str cap a = Ok (until_nul a).
Proof. unfold c_str. by intros ->. Qed.

Lemma terminated_c_str cap a s : c_str cap a = Ok s -> terminated cap a = true.
Proof. unfold c_str. by destruct (terminated cap a). Qed.

Lemma copy_string cap dst src :
  terminated cap src = true -> exists d, strcpy cap dst (until_nul src) = Ok d /\ terminated cap d = true.
Proof.
  intros Hs. destruct (strcpy_fits cap dst (until_nul src)) as [d Hd]; [by apply Nat.ltb_lt|].
  exists d. split; [done|]. eapply terminated_c_str, c_str_strcpy; [apply until_nul_no_nul|exact Hd].
Qed.

Lemma cat_string cap dst src :
  terminated cap dst = true ->
  match strcat cap dst (until_nul src) with
  | Ok d => (length (until_nul dst) + length (until_nul src) < cap)%nat /\ terminated cap d = true
  | Fault f => f = BufferOverflow /\ (cap <= length (until_nul dst) + length (until_nul src))%nat
  end.
Proof.
  intros Hd%c_str_terminated. destruct (c_str_strcat cap dst _ _ (until_nul_no_nul src) Hd) as [Hfit Hover].
  destruct (Nat.lt_ge_cases (length (until_nul dst) + length (until_nul src)) cap) as [Hl|Hl].
  - destruct (Hfit Hl) as (d & -> & Ht%terminated_c_str). done.
  - by rewrite (Hover Hl).
Qed.

(** The texts to one file must stay below the size of a buffer, and nothing else
    goes wrong. *)
Lemma append_to_bound act rest data file text :
  tx_split act rest data -> arrays_ok data -> first_is_nul file = false ->
  terminated FILENAME_SIZE file = true -> terminated BUFFER_SIZE text = true ->
  let n := (length (applied (until_nul file) data) + length (until_nul text))%nat in
  match append_to data file text with
  | Ok (Some data') => (n < BUFFER_SIZE)%nat /\ arrays_ok data'
  | Ok None => (n < BUFFER_SIZE)%nat
  | Fault f => f = BufferOverflow /\ (BUFFER_SIZE <= n)%nat
  end.
Proof.
  intros [-> Hu Hr Hnd] Hstr Hnul Hfile Htext. pose proof Htext as Hlen%Nat.ltb_lt.
  induction act as [|e act IH]; cbn zeta.
  - rewrite (applied_free _ _ Hr). destruct rest as [|e rest]; [done|]. cbn [append_to app].
    apply list.Forall_cons in Hr as [He Hr]. apply list.Forall_cons in Hstr as [Hs Hstr].
    rewrite He, (c_str_terminated _ _ Hfile), (c_str_terminated _ _ Htext). cbn [mbind outcome_bind].
    destruct (copy_string _ (filename e) _ Hfile) as (f & -> & Hf). cbn [mbind outcome_bind].
    destruct (copy_string _ (buffer e) _ Htext) as (b & -> & Hb). cbn [mbind outcome_bind].
    split; [exact Hlen|]. by constructor.
  - apply list.Forall_cons in Hu as [He Hu]. rewrite fmap_cons in Hnd. apply list.NoDup_cons in Hnd as [Hni Hnd].
    rewrite <- app_comm_cons in *. apply list.Forall_cons in Hstr as [[Hs1 Hs2] Hstr]. cbn [append_to applied].
    rewrite He, (strcmp_eq_strings _ _ _ _ _ (c_str_terminated _ _ Hs1) (c_str_terminated _ _ Hfile)).
    cbn [mbind outcome_bind]. specialize (IH Hu Hnd Hstr). cbn zeta in IH.
    destruct (decide (until_nul (filename e) = until_nul file)) as [E|E].
    + rewrite bool_decide_eq_true_2, (c_str_terminated _ _ Htext) by done. cbn [mbind outcome_bind].
      rewrite applied_absent, app_nil_r by (try done; by rewrite <- E).
      pose proof (cat_string _ (buffer e) text Hs2) as Hcat.
      destruct (strcat _ _ _) as [b|f]; cbn [mbind outcome_bind]; [|done]. destruct Hcat as [Hn Hb].
      split; [done|]. by constructor.
    + rewrite bool_decide_eq_false_2 by done. cbn [app].
      destruct (append_to (act ++ rest) file text) as [[data'|]|f]; cbn [mbind outcome_bind]; [|done..].
      destruct IH as [Hn Hd]. split; [done|]. by constructor.
Qed.

Lemma pause_held clock id l :
  holder_id l = id -> exists l', tmdspinlock_pause_if_owner id l = Ok (0, l') /\ holder_id l' = id /\
  exists rc l'', tmdspinlock_reset_if_owner clock id l' = Ok (rc, l'').
Proof.
  intros Hid. unfold tmdspinlock_pause_if_owner, tmdspinlock_reset_if_owner.
  rewrite run_bind. unfold gets at 1. cbn beta iota. rewrite decide_False by tauto.
  rewrite run_bind. unfold modify at 1. cbn beta iota. rewrite run_bind. unfold gets at 1. cbn beta iota. cbn [holder_id upd].
  rewrite decide_False by tauto. eexists. split; [reflexivity|]. split; [done|].
  rewrite run_bind. unfold gets. cbn beta iota. cbn [holder_id upd]. rewrite decide_False by tauto.
  by eexists _, _.
Qed.

Lemma answer_total rc text msg s :
  (length (to_bytes text) < MESSAGE_SIZE)%nat -> exists m, answer rc text msg s = Ok ((rc, m), s).
Proof.
  intros Ht. unfold answer. rewrite run_bind. destruct (strcpy_fits MESSAGE_SIZE msg (to_bytes text) Ht) as [m Hm].
  exists m. unfold lift. rewrite Hm. by rewrite run_ret.
Qed.

(** A write by the holder of the lock does what [append_to] does. *)
Lemma append_file_run clock id file text msg s :
  holder_id (sv_lock s) = id ->
  match append_to (tx_data_of s) file text with
  | Ok o => exists rc m s', handle_append_file clock id file text msg s = Ok ((rc, m), s') /\
      tx_data_of s' = default (tx_data_of s) o
  | Fault f => handle_append_file clock id file text msg s = Fault f
  end.
Proof.
  intros Hid. destruct (pause_held clock id (sv_lock s) Hid) as (l & Hp & _ & rc & l' & Hr).
  unfold handle_append_file. rewrite run_bind, (on_lock_run _ _ _ _ Hp). cbn [Z.ltb Z.compare].
  set (s1 := s <| sv_lock := l |>). unfold gets. rewrite run_bind. cbn beta iota. rewrite run_bind. unfold lift at 1.
  change (le_data (current_log_entry s1)) with (tx_data_of s).
  destruct (append_to (tx_data_of s) file text) as [[data|]|f]; [| |done]; cbn beta iota; rewrite run_bind.
  - rewrite run_bind. unfold modify at 1. cbn beta iota. set (s2 := s1 <| current_log_entry ::= _ |>).
    destruct (answer_total 0 "success" msg s2) as [a ->]; [by vm_compute; lia|].
    rewrite run_bind, (on_lock_run _ s2 _ _ Hr), run_ret. by eexists _, _, _.
  - destruct (answer_total E_TRANSACTION_LIMIT "too many files modified within one transaction" msg s1) as [a ->];
      [by vm_compute; lia|].
    rewrite run_bind, (on_lock_run _ s1 _ _ Hr), run_ret. by eexists _, _, _.
Qed.

(** C28: The bound of a write by the holder of the lock: it runs past the
    array exactly when what the transaction already writes to that file and
    the new text together reach 1024 bytes; below that it stays within its
    arrays, and all of them hold strings again. *)
Theorem append_file_bound clock id file text msg s :
  holder_id (sv_lock s) = id -> tx_ok s -> arrays_ok (tx_data_of s) -> first_is_nul file = false ->
  terminated FILENAME_SIZE file = true -> terminated BUFFER_SIZE text = true ->
  let n := (length (applied (until_nul file) (tx_data_of s)) + length (until_nul text))%nat in
  match handle_append_file clock id file text msg s with
  | Ok (_, s') => (n < BUFFER_SIZE)%nat /\ tx_ok s' /\ arrays_ok (tx_data_of s')
  | Fault f => f = BufferOverflow /\ (BUFFER_SIZE <= n)%nat
  end.
Proof.
  intros Hid Htx Hok Hnul Hfile Htext n. pose proof Htx as (act & rest & Hsplit).
  pose proof (append_to_bound act rest _ file text Hsplit Hok Hnul Hfile Htext) as Hb. cbn zeta in Hb. fold n in Hb.
  pose proof (append_file_run clock id file text msg s Hid) as Hrun.
  destruct (append_to (tx_data_of s) file text) as [o|f]; [|by rewrite Hrun].
  destruct Hrun as (rc & m & s' & H & Ed). rewrite H.
  destruct (append_file_ok _ _ _ _ _ _ _ _ _ Htx Hnul H) as (Htx' & _). rewrite Ed.
  destruct o as [data|]; [destruct Hb|]; by split_and!.
Qed.

(** Writing a buffer's worth of text to one file of a transaction
    overflows entry->buffer: strcat is not bounded. *)
Theorem append_file_overflow clock id file text msg s e rest n b t :
  holder_id (sv_lock s) = id -> tx_data_of s = e :: rest ->
  c_str FILENAME_SIZE (filename e) = Ok n -> n <> [] -> c_str FILENAME_SIZE file = Ok n ->
  c_str BUFFER_SIZE (buffer e) = Ok b -> c_str BUFFER_SIZE text = Ok t ->
  (BUFFER_SIZE <= length b + length t)%nat ->
  handle_append_file clock id file text msg s = Fault BufferOverflow.
Proof.
  intros Hid Hdata Hn Hne Hf Hb Ht Hlen. pose proof (append_file_run clock id file text msg s Hid) as Hrun.
  assert (append_to (tx_data_of s) file text = Fault BufferOverflow) as E; [|by rewrite E in Hrun].
  rewrite Hdata. cbn [append_to].
  assert (first_is_nul (filename e) = false) as ->.
  { apply first_is_nul_until. apply c_str_ok in Hn as [-> _]. done. }
  rewrite (strcmp_eq_strings _ _ _ _ _ Hn Hf), bool_decide_eq_true_2 by done. cbn [mbind outcome_bind].
  rewrite Ht. cbn [mbind outcome_bind].
  assert (no_nul t) as Hnt by (apply c_str_ok in Ht as [-> _]; apply until_nul_no_nul).
  destruct (c_str_strcat BUFFER_SIZE (buffer e) b t Hnt Hb) as [_ ->]; done.
Qed.

(** * Releasing *)

(** What the other threads do keeps the raft state in order. *)
Definition orderly (w : world) : Prop := raft_wf (raft w) /\ lock_flag (raft w) = 0.
Definition orderly_others (others : list (world -> world)) : Prop :=
  Forall (fun f => forall w, orderly w -> orderly (f w)) others.

(** Of the entries a server has committed and still holds, the first one that
    has the token or is of a later term. *)
Definition decisive (term id : Z) (e : raft_log_entry) : bool :=
  ((le_term e =? term) && (le_id e =? id)) || (term <? le_term e).
Definition verdict (r : raft_state) (term id : Z) : option Z :=
  (fun e => if le_term e =? term then 0 else E_LOST) <$> find (decisive term id) (committed r).

(** The verdict at the first poll that finds one; between two polls the other
    threads have changed the state. *)
Fixpoint first_verdict (term id : Z) (w : world) (others : list (world -> world)) : option Z :=
  match verdict (raft w) term id, others with
  | Some v, _ => Some v
  | None, [] => None
  | None, f :: others' => first_verdict term id (f w) others'
  end.

Lemma decisive_hits term id e : decisive term id e = true <-> hits term id e.
Proof. unfold decisive, hits. lia. Qed.

Lemma find_first {A} (f : A -> bool) l1 x l2 :
  Forall (fun y => f y = false) l1 -> f x = true -> find f (l1 ++ x :: l2) = Some x.
Proof. intros H Hx. induction H as [|y l1 Hy _ IH]; cbn; [by rewrite Hx|by rewrite Hy]. Qed.

Lemma find_nothing {A} (f : A -> bool) l : Forall (fun y => f y = false) l -> find f l = None.
Proof. induction 1 as [|y l Hy _ IH]; cbn; [done|by rewrite Hy]. Qed.

(** The entries of a range that does not decide. *)
Lemma undecided_range r term id n len :
  (forall i e, n <= i < n + len -> log_at r i = Some e -> ~ hits term id e) ->
  Forall (fun e => decisive term id e = false) (log_range r n len).
Proof.
  intros H. apply list.Forall_forall. unfold log_range. intros e (i & Hi%elem_of_seqZ & He)%list_elem_of_omap.
  apply not_true_iff_false. rewrite decisive_hits. by apply (H i).
Qed.

Lemma verdict_none r term id :
  (forall i e, i <= commit_index r -> log_at r i = Some e -> ~ hits term id e) -> verdict r term id = None.
Proof.
  intros H. unfold verdict. rewrite find_nothing; [done|]. apply undecided_range. intros i e Hi. apply H. lia.
Qed.

Lemma verdict_first r term id i e :
  i <= commit_index r -> log_at r i = Some e -> hits term id e ->
  (forall j ej, j < i -> log_at r j = Some ej -> ~ hits term id ej) ->
  verdict r term id = Some (if le_term e =? term then 0 else E_LOST).
Proof.
  intros Hi He Hh Hb. pose proof (log_at_range _ _ _ He) as Hr. unfold verdict, committed.
  replace (commit_index r - start_log_index r + 1) with ((i - start_log_index r) + (1 + (commit_index r - i))) by lia.
  rewrite !log_range_app by lia. replace (start_log_index r + (i - start_log_index r)) with i by lia.
  assert (log_range r i 1 = [e]) as -> by (unfold log_range; rewrite (seqZ_cons i) by lia; cbn; by rewrite He).
  cbn [app]. rewrite find_first; [done| |by apply decisive_hits]. apply undecided_range. intros j ej Hj. apply Hb. lia.
Qed.

(** The only entry of its token, in a log of rising terms: it is committed, or
    there is no verdict yet. *)
Lemma verdict_own_entry r term id i e :
  terms_sorted r -> log_at r i = Some e -> le_term e = term -> le_id e = id ->
  (forall j ej, log_at r j = Some ej -> le_term ej = term -> le_id ej = id -> j = i) ->
  verdict r term id = if decide (i <= commit_index r) then Some 0 else None.
Proof.
  intros Hs He Ht Hid Hu.
  assert (forall j ej, j < i -> log_at r j = Some ej -> ~ hits term id ej) as Hb.
  { intros j ej Hj Hat [[Htj Hidj]|Hlt]; [specialize (Hu j ej Hat Htj Hidj); lia|].
    pose proof (Hs j i ej e ltac:(lia) Hat He). lia. }
  case_decide as Hi.
  - rewrite (verdict_first r term id i e Hi He (or_introl (conj Ht Hid)) Hb). by rewrite Ht, Z.eqb_refl.
  - apply verdict_none. intros j ej Hj. apply Hb. lia.
Qed.

Lemma release_poll_ok term id msg s a s' :
  orderly (sv_raft s) -> release_poll term id msg s = Ok (a, s') ->
  s' = s /\ fst <$> a = verdict (raft (sv_raft s)) term id.
Proof.
  intros [Hwf Hl]. unfold release_poll. intros (rc & s1 & (w & Hc & ->)%on_raft_ok & H)%bind_ok.
  destruct (is_entry_committed_ok term id (sv_raft s) Hwf Hl) as (c & Hrun & Hcases).
  rewrite Hrun in Hc. injection Hc as <- <-.
  assert (s <| sv_raft := sv_raft s |> = s) as Es by by destruct s. rewrite Es in H.
  destruct Hcases as [[-> Hn]|(i & e & Hi & He & Hb & [(-> & Ht & Hid)|(-> & Ht)])]; cbn in H.
  - injection H as <- <-. by rewrite verdict_none.
  - apply bind_ok in H as ([rc m] & s1 & Ha & [= <- <-]). apply answer_ok in Ha as [-> Hr].
    cbn in Hr. subst rc. rewrite (verdict_first _ _ _ i e) by (done || by left). by rewrite Ht, Z.eqb_refl.
  - apply bind_ok in H as ([rc m] & s1 & Ha & [= <- <-]). apply answer_ok in Ha as [-> Hr].
    cbn in Hr. subst rc. rewrite (verdict_first _ _ _ i e) by (done || by right).
    by rewrite (proj2 (Z.eqb_neq _ _)) by lia.
Qed.

Lemma release_wait_ok term id msg others s a s' :
  orderly (sv_raft s) -> orderly_others others ->
  release_wait term id msg others s = Ok (a, s') ->
  fst <$> a = first_verdict term id (sv_raft s) others.
Proof.
  revert s. induction others as [|f others IH]; intros s Hs Hf; cbn [release_wait first_verdict];
    intros (b & s1 & Hp & H)%bind_ok; apply (release_poll_ok _ _ _ _ _ _ Hs) in Hp as [-> Hp];
    rewrite <- Hp; destruct b as [[rc1 m1]|]; try (by injection H as <- <-).
  apply list.Forall_cons in Hf as [Hf Hfs]. apply bind_ok in H as (? & s1 & [= _ <-] & H).
  change (fst <$> a = first_verdict term id (f (sv_raft s)) others).
  exact (IH (s <| sv_raft ::= f |>) (Hf _ Hs) Hfs H).
Qed.

(** The lock calls and [Raft_append_entry] leave the raft state in order. *)
Lemma append_entry_orderly e w r w' :
  orderly w -> disk_ready w -> log_count (raft w) < INT_MAX ->
  Raft_append_entry e w = Ok (r, w') -> orderly w'.
Proof.
  intros [Hwf Hl] Hd Hmax H. pose proof (append_entry_run w e Hwf Hl Hd Hmax) as Hs. cbn zeta in Hs.
  destruct (_ || _); [rewrite Hs in H; by injection H as _ <-|].
  destruct Hs as (w1 & Hrun & Hwf1 & _ & _ & _ & _ & Hl1 & _). rewrite Hrun in H.
  injection H as _ <-. by split.
Qed.

Lemma run_pause_foreign id l : holder_id l <> id -> tmdspinlock_pause_if_owner id l = Ok (-1, l).
Proof.
  intros H. unfold tmdspinlock_pause_if_owner. rewrite run_bind. unfold gets at 1. cbn beta iota.
  by rewrite decide_True.
Qed.

(** A client whose lock has expired gets E_LOCK_EXP and nothing enters
    the log. *)
Theorem lock_release_expired clock cid id msg others s :
  holder_id (sv_lock s) <> cid ->
  exists m, handle_lock_release clock cid (current_term (raft (sv_raft s))) id msg others s =
    Ok (Some (E_LOCK_EXP, m), s).
Proof.
  intros Hh. unfold handle_lock_release. rewrite run_bind.
  assert (on_raft (rget current_term) s = Ok (current_term (raft (sv_raft s)), s)) as -> by by destruct s.
  cbn beta iota. rewrite decide_True by done.
  assert (forall A (m : M tmdspinlock A) a, m (sv_lock s) = Ok (a, sv_lock s) -> on_lock m s = Ok (a, s)) as Hl.
  { intros A m a Hm. unfold on_lock. rewrite Hm. by destruct s. }
  assert (release_begin clock cid s = Ok (false, s)) as Hb.
  { unfold release_begin. rewrite run_bind, (Hl _ _ _ (run_pause_foreign _ _ Hh)).
    rewrite decide_False by lia. rewrite run_bind. cbn beta iota. unfold skip at 1. cbn beta iota.
    rewrite run_bind. rewrite (Hl _ (tmdspinlock_release cid) E_LOCK_EXP); [done|].
    unfold tmdspinlock_release. rewrite run_bind, run_pause_foreign by done. by rewrite decide_True. }
  rewrite run_bind, Hb. cbn beta iota. rewrite run_bind. unfold answer. rewrite run_bind.
  unfold lift, strcpy, MESSAGE_SIZE.
  change (length (to_bytes "lock released before being acquired") <? 256)%nat with true. cbn beta iota.
  eexists. rewrite run_ret. reflexivity.
Qed.

Lemma run_pause_owner id l :
  holder_id l = id -> exists l', tmdspinlock_pause_if_owner id l = Ok (0, l') /\ holder_id l' = id.
Proof.
  intros H. unfold tmdspinlock_pause_if_owner. rewrite run_bind. unfold gets at 1. cbn beta iota.
  rewrite decide_False by tauto. rewrite run_bind. unfold modify at 1. cbn beta iota.
  rewrite run_bind. unfold gets at 1. cbn beta iota. rewrite decide_False by (cbn; tauto).
  rewrite run_ret. by eexists.
Qed.

Lemma run_reset_owner clock id l :
  holder_id l = id ->
  exists l', tmdspinlock_reset_if_owner clock id l = Ok (0, l') /\ holder_id l' = id.
Proof.
  intros H. unfold tmdspinlock_reset_if_owner. rewrite run_bind. unfold gets at 1. cbn beta iota.
  rewrite decide_False by tauto. by eexists.
Qed.

Lemma run_release_owner id l :
  holder_id l = id -> exists l', tmdspinlock_release id l = Ok (0, l') /\ holder_id l' = -1.
Proof.
  intros H. unfold tmdspinlock_release. rewrite run_bind.
  destruct (run_pause_owner id l H) as (l' & -> & _). rewrite decide_False by tauto. by eexists.
Qed.

Lemma run_on_lock {A} (m : M tmdspinlock A) a l s :
  m (sv_lock s) = Ok (a, l) -> on_lock m s = Ok (a, s <| sv_lock := l |>).
Proof. intros H. unfold on_lock. by rewrite H. Qed.

Lemma run_on_raft {A} (m : M world A) a w s :
  m (sv_raft s) = Ok (a, w) -> on_raft m s = Ok (a, s <| sv_raft := w |>).
Proof. intros H. unfold on_raft. by rewrite H. Qed.

(** The first half of a release of the current term, and the raft state it
    leaves: the holder hands its transaction to the log. *)
Lemma release_begin_cases clock cid s b s' :
  orderly (sv_raft s) -> disk_ready (sv_raft s) -> log_count (raft (sv_raft s)) < INT_MAX -> cid <> -1 ->
  release_begin clock cid s = Ok (b, s') ->
  if decide (holder_id (sv_lock s) = cid)
  then b = true /\ orderly (sv_raft s') /\
       exists r, Raft_append_entry (current_log_entry s) (sv_raft s) = Ok (r, sv_raft s')
  else b = false /\ sv_raft s' = sv_raft s.
Proof.
  intros Ho Hd Hmax Hcid Hb. case_decide as Hh.
  - unfold release_begin in Hb. destruct (run_pause_owner cid (sv_lock s) Hh) as (l1 & Hp & Hh1).
    destruct (run_reset_owner clock cid l1 Hh1) as (l2 & Hrs & Hh2).
    destruct (run_release_owner cid l2 Hh2) as (l3 & Hrl & _).
    rewrite run_bind, (run_on_lock _ _ _ _ Hp), decide_True in Hb by done.
    apply bind_ok in Hb as ([] & s4 & Hm & Hb). apply bind_ok in Hm as (e & s5 & [= <- <-] & Hm).
    apply bind_ok in Hm as (r & s5 & (w5 & Hr & ->)%on_raft_ok & Hm). cbn in Hr.
    apply bind_ok in Hm as (? & s6 & [= _ <-] & Hm).
    rewrite run_bind, (run_on_lock _ _ l2) in Hm by exact Hrs. injection Hm as <-.
    rewrite run_bind, (run_on_lock _ _ l3) in Hb by exact Hrl. injection Hb as <- <-.
    split; [done|]. split; [by eapply append_entry_orderly|by eexists].
  - assert (forall A (m : M tmdspinlock A) a, m (sv_lock s) = Ok (a, sv_lock s) -> on_lock m s = Ok (a, s)) as Hl.
    { intros A m a Hm. unfold on_lock. rewrite Hm. by destruct s. }
    unfold release_begin in Hb. rewrite run_bind, (Hl _ _ _ (run_pause_foreign _ _ Hh)), decide_False, run_bind in Hb by lia.
    unfold skip at 1 in Hb. cbn beta iota in Hb.
    rewrite run_bind, (Hl _ (tmdspinlock_release cid) E_LOCK_EXP) in Hb; [by injection Hb as <- <-|].
    unfold tmdspinlock_release. rewrite run_bind, run_pause_foreign by done. by rewrite decide_True.
Qed.

(** C29: A release answers E_LOCK_EXP, and leaves the raft state alone, when
    the token is of the current term and the caller does not hold the lock.
    Otherwise a holder with a token of the current term first hands its
    transaction to Raft_append_entry, and the answer is the one of the first
    poll that finds, among the committed entries still in the log, one that
    has the token or is of a later term: success if the first such entry has
    the token, E_LOST if it is of a later term; the call has not returned
    while there is none. So long as a log of rising terms holds just one entry
    with the token, that is success exactly when it is committed, and never
    E_LOST; a leader's artificial entry that repeats the token, or a
    compaction that drops the entry, breaks this condition
    (leader_entry_answers_early, compacted_entry_reported_lost). The other
    threads keep the log well-formed and its lock free, the disk takes the
    state file, and the caller's number is not -1. *)
Theorem lock_release_answer clock cid term id msg others s a s' :
  orderly (sv_raft s) -> orderly_others others -> disk_ready (sv_raft s) ->
  log_count (raft (sv_raft s)) < INT_MAX -> cid <> -1 ->
  handle_lock_release clock cid term id msg others s = Ok (a, s') ->
  (if decide (term = current_term (raft (sv_raft s)) /\ holder_id (sv_lock s) <> cid)
   then fst <$> a = Some E_LOCK_EXP /\ sv_raft s' = sv_raft s
   else exists w1, fst <$> a = first_verdict term id w1 others /\
     if decide (term = current_term (raft (sv_raft s)))
     then exists r, Raft_append_entry (current_log_entry s) (sv_raft s) = Ok (r, w1)
     else w1 = sv_raft s) /\
  (forall r i e, terms_sorted r -> log_at r i = Some e -> le_term e = term -> le_id e = id ->
     (forall j ej, log_at r j = Some ej -> le_term ej = term -> le_id ej = id -> j = i) ->
     verdict r term id = if decide (i <= commit_index r) then Some 0 else None).
Proof.
  intros Ho Hf Hd Hmax Hcid H. split; [|intros r i e; apply verdict_own_entry]. revert H. unfold handle_lock_release.
  intros (t & s1 & (w & [= <- <-] & ->)%on_raft_ok & H)%bind_ok.
  assert (s <| sv_raft := sv_raft s |> = s) as Es by by destruct s. rewrite Es in H.
  destruct (decide (term = current_term (raft (sv_raft s)))) as [->|Hne].
  - apply bind_ok in H as (b & s2 & Hb & H).
    apply (release_begin_cases _ _ _ _ _ Ho Hd Hmax Hcid) in Hb. case_decide as Hh.
    + destruct Hb as (-> & Ho2 & Hr). rewrite decide_False by tauto.
      exists (sv_raft s2). split; [by eapply release_wait_ok|done].
    + destruct Hb as (-> & Hs2). rewrite decide_True by done.
      apply bind_ok in H as ([rc1 m1] & s3 & Ha & [= <- <-]). apply answer_ok in Ha as [-> Hr].
      cbn in Hr. by subst.
  - rewrite decide_False by tauto. exists (sv_raft s). split; [by eapply release_wait_ok|done].
Qed.

Lemma release_poll_miss term id msg s :
  orderly (sv_raft s) ->
  (forall i e, log_at (raft (sv_raft s)) i = Some e -> ~ hits term id e) ->
  release_poll term id msg s = Ok (None, s).
Proof.
  intros [Hwf Hl] Hmiss. unfold release_poll.
  destruct (is_entry_committed_ok term id (sv_raft s) Hwf Hl) as (c & Hrun & Hcases).
  rewrite run_bind. unfold on_raft. rewrite Hrun.
  assert (c = 0) as ->.
  { destruct Hcases as [[-> _]|(i & e & _ & He & _ & [(_ & Ht & Hid)|(_ & Ht)])]; [done|..].
    - destruct (Hmiss i e He). by left.
    - destruct (Hmiss i e He). by right. }
  cbn. by destruct s.
Qed.

(** With a full log the transaction is dropped without an error, and the
    release waits for an entry that is not there, for as long as the log
    stays. *)
Theorem lock_release_full_log_waits clock cid id msg n s :
  let w := sv_raft s in let term := current_term (raft w) in
  orderly w -> holder_id (sv_lock s) = cid -> cid <> -1 ->
  log_count (raft w) = start_log_index (raft w) + LOG_SIZE ->
  (forall i e, log_at (raft w) i = Some e -> ~ hits term id e) ->
  exists s', handle_lock_release clock cid term id msg (replicate n (fun w => w)) s = Ok (None, s') /\
    sv_raft s' = w.
Proof.
  intros w term Ho Hh Hc Hfull Hmiss. subst w term. unfold handle_lock_release. rewrite run_bind.
  assert (on_raft (rget current_term) s = Ok (current_term (raft (sv_raft s)), s)) as -> by by destruct s.
  cbn beta iota. rewrite decide_True by done.
  assert (forall e, Raft_append_entry e (sv_raft s) = Ok ((-1, e), sv_raft s)) as Happ.
  { intros e. destruct Ho as [_ Hl]. unfold Raft_append_entry. rewrite run_bind, run_lock_acquire by done.
    unfold rself, gets. rewrite run_bind. cbn beta iota. cbn [raft upd state log_count start_log_index].
    rewrite Hfull, Z.eqb_refl, orb_true_r. rewrite run_bind, run_lock_release by done.
    by rewrite lock_unlock. }
  destruct (run_pause_owner cid (sv_lock s) Hh) as (l1 & Hp & Hh1).
  destruct (run_reset_owner clock cid l1 Hh1) as (l2 & Hrs & Hh2).
  destruct (run_release_owner cid l2 Hh2) as (l3 & Hrl & _).
  assert (exists s1, release_begin clock cid s = Ok (true, s1) /\ sv_raft s1 = sv_raft s) as (s1 & Hb & Hs1).
  { unfold release_begin. rewrite run_bind, (run_on_lock _ _ _ _ Hp), decide_True by done.
    rewrite !run_bind. unfold gets. cbn beta iota.
    rewrite run_bind. erewrite (run_on_raft (Raft_append_entry _) _ (sv_raft s)); [|apply Happ]. cbn beta iota.
    rewrite run_bind. unfold modify at 1. cbn beta iota. rewrite run_bind.
    rewrite (run_on_lock _ _ l2) by exact Hrs. cbn beta iota. unfold skip at 1. cbn beta iota. rewrite run_bind.
    rewrite (run_on_lock _ _ l3) by exact Hrl. cbn beta iota. rewrite run_ret. by eexists. }
  rewrite run_bind, Hb. cbn beta iota.
  exists s1. split; [|done]. rewrite <- Hs1 in Ho, Hmiss |- *. clear -Ho Hmiss. revert s1 Ho Hmiss.
  induction n as [|n IH]; intros s Ho Hmiss; cbn -[release_poll].
  - rewrite run_bind, release_poll_miss by done. done.
  - rewrite run_bind, release_poll_miss by done. cbn beta iota. rewrite run_bind. unfold modify at 1.
    cbn beta iota. assert (s <| sv_raft ::= fun w => w |> = s) as -> by by destruct s. by apply IH.
Qed.
