(* ===== verification/LockService.v ===== *)
(** The lock service the clients see: an owner, the writes of its transaction,
    and what a release hands to the log.  The handlers of [server.c], the timer
    and whatever the raft threads do in between refine it, so that an entry of
    the log is one session of one client. *)
From S2P Require Import Prelude Libc Posix RaftTypes PacketFormat Spinlock TimedLock RaftStorage StorageSpec RaftUtils RaftFollower RaftLeader RaftCandidate Raft RaftView RaftLog Server ServerSpec.

(** * The service *)

(** [session] is the identifier of the last transaction begun. *)
Record service := { owner : option Z; session : Z; pending : list (bytes * bytes) }.

Inductive label :=
  | Granted (c id : Z)
  | Refused (c : Z)
  | Written (c : Z) (file text : bytes)
  | Nameless (c : Z)
  | Limit (c : Z) (file : bytes)
  | Late (c : Z)
  | Submitted (c id : Z) (ws : list (bytes * bytes))
  | Dropped (c : Z)
  | Expired
  | Unchanged.

Definition closed (id : Z) : service := {| owner := None; session := id; pending := [] |}.

(** The files a transaction writes to. *)
Definition files_of (ws : list (bytes * bytes)) : gset bytes := list_to_set (fst <$> ws).

Inductive svc_step (x : service) : label -> service -> Prop :=
  | svc_granted c :
      owner x = None ->
      svc_step x (Granted c (session x + 1)) {| owner := Some c; session := session x + 1; pending := [] |}
  | svc_refused c : owner x = Some c -> svc_step x (Refused c) x
  | svc_written c file text :
      owner x = Some c ->
      svc_step x (Written c file text)
        {| owner := owner x; session := session x; pending := pending x ++ [(file, text)] |}
  (* a write to the file with no name is accepted, and forgotten *)
  | svc_nameless c : owner x = Some c -> svc_step x (Nameless c) x
  | svc_limit c file :
      owner x = Some c -> file ∉ files_of (pending x) ->
      Z.of_nat (size (files_of (pending x))) = MAX_TRANSACTION_ENTRIES ->
      svc_step x (Limit c file) x
  | svc_late c : owner x <> Some c -> svc_step x (Late c) x
  | svc_submitted c :
      owner x = Some c -> svc_step x (Submitted c (session x) (pending x)) (closed (session x))
  | svc_dropped c : owner x = Some c -> svc_step x (Dropped c) (closed (session x))
  | svc_expired c : owner x = Some c -> svc_step x Expired (closed (session x))
  | svc_unchanged : svc_step x Unchanged x.

Inductive svc_run (x : service) : list label -> service -> Prop :=
  | svc_run_nil : svc_run x [] x
  | svc_run_snoc tr y l z : svc_run x tr y -> svc_step y l z -> svc_run x (tr ++ [l]) z.

(** A label that leaves the session of [c] open. *)
Definition within (c : Z) (l : label) : Prop :=
  match l with
  | Written c' _ _ | Nameless c' => c' = c
  | Granted _ _ | Submitted _ _ _ | Dropped _ | Expired => False
  | _ => True
  end.

Definition write_of (l : label) : list (bytes * bytes) :=
  match l with Written _ file text => [(file, text)] | _ => [] end.
Definition writes (tr : list label) : list (bytes * bytes) := flat_map write_of tr.

Definition submission_of (l : label) : list Z :=
  match l with Submitted _ id _ => [id] | _ => [] end.
Definition submissions (tr : list label) : list Z := flat_map submission_of tr.

(** The transaction [ws] is the open session of [c] at the end of [tr]. *)
Definition session_in (tr : list label) (c id : Z) (ws : list (bytes * bytes)) : Prop :=
  exists tr0 trm, tr = tr0 ++ Granted c id :: trm /\ Forall (within c) trm /\ ws = writes trm.

Lemma session_in_snoc tr c id ws l :
  session_in tr c id ws -> within c l -> session_in (tr ++ [l]) c id (ws ++ write_of l).
Proof.
  intros (tr0 & trm & -> & Hw & ->) Hl. exists tr0, (trm ++ [l]). split; [by rewrite <- app_assoc|].
  split; [by apply list.Forall_app_2; [|constructor]|].
  unfold writes. rewrite flat_map_app. cbn. by rewrite app_nil_r.
Qed.

(** What a run from a closed service looks like. *)
Record svc_inv (id0 : Z) (tr : list label) (x : service) : Prop := {
  inv_open : forall c, owner x = Some c -> session_in tr c (session x) (pending x);
  inv_session : id0 <= session x;
  inv_ids : Forall (fun id => id <= session x /\ (owner x <> None -> id < session x)) (submissions tr);
  inv_nodup : NoDup (submissions tr);
  inv_submitted : forall tr1 c id ws tr2,
    tr = tr1 ++ Submitted c id ws :: tr2 -> session_in tr1 c id ws
}.

Lemma submissions_snoc tr l : submissions (tr ++ [l]) = submissions tr ++ submission_of l.
Proof. unfold submissions. rewrite flat_map_app. cbn. by rewrite app_nil_r. Qed.

(** The submissions of a longer run: the old ones and perhaps the last label. *)
Lemma inv_submitted_snoc tr l :
  (forall tr1 c id ws tr2, tr = tr1 ++ Submitted c id ws :: tr2 -> session_in tr1 c id ws) ->
  (forall c id ws, l = Submitted c id ws -> session_in tr c id ws) ->
  forall tr1 c id ws tr2, tr ++ [l] = tr1 ++ Submitted c id ws :: tr2 -> session_in tr1 c id ws.
Proof.
  intros Hold Hl tr1 c id ws tr2 E. destruct tr2 as [|l2 tr2] using rev_ind.
  - apply List.app_inj_tail in E as [-> ->]. by apply Hl.
  - clear IHtr2. change (Submitted c id ws :: tr2 ++ [l2]) with ((Submitted c id ws :: tr2) ++ [l2]) in E.
    rewrite app_assoc in E. apply List.app_inj_tail in E as [-> _]. by eapply Hold.
Qed.

(** A label that neither opens nor closes a session. *)
Lemma svc_inv_keep id0 tr x l y :
  svc_inv id0 tr x -> owner y = owner x -> session y = session x -> pending y = pending x ++ write_of l ->
  (forall c, owner x = Some c -> within c l) -> submission_of l = [] -> svc_inv id0 (tr ++ [l]) y.
Proof.
  intros [Hopen Hs Hids Hnd Hsub] Eo Es Ep Hw Hl. split.
  - intros c Hc. rewrite Eo in Hc. rewrite Es, Ep. apply session_in_snoc; auto.
  - by rewrite Es.
  - by rewrite submissions_snoc, Hl, app_nil_r, Eo, Es.
  - by rewrite submissions_snoc, Hl, app_nil_r.
  - apply inv_submitted_snoc; [done|]. by intros c id ws ->.
Qed.

(** A label that closes it. *)
Lemma svc_inv_close id0 tr x l c :
  svc_inv id0 tr x -> owner x = Some c ->
  l = Submitted c (session x) (pending x) \/ submission_of l = [] ->
  svc_inv id0 (tr ++ [l]) (closed (session x)).
Proof.
  intros [Hopen Hs Hids Hnd Hsub] Ho Hl. split; cbn [closed owner session pending].
  - done.
  - done.
  - rewrite submissions_snoc. apply list.Forall_app. split.
    + eapply list.Forall_impl; [exact Hids|]. intros id [? _]. by split.
    + destruct Hl as [->| ->]; [|done]. by repeat constructor.
  - rewrite submissions_snoc. destruct Hl as [->| ->]; [|by rewrite app_nil_r]. cbn [submission_of].
    apply list.NoDup_app. split; [done|]. split; [|apply NoDup_singleton].
    intros id Hid ->%list_elem_of_singleton. rewrite list.Forall_forall in Hids.
    destruct (Hids _ Hid) as [_ Hlt]. assert (session x < session x) by (apply Hlt; congruence). lia.
  - apply inv_submitted_snoc; [done|]. intros c' id ws ->. destruct Hl as [[= -> -> ->]|Hl]; [auto|done].
Qed.

Lemma svc_inv_step id0 tr x l y : svc_inv id0 tr x -> svc_step x l y -> svc_inv id0 (tr ++ [l]) y.
Proof.
  intros Hi Hst. inversion Hst; subst.
  - destruct Hi as [_ Hs Hids Hnd Hsub]. split; cbn [owner session pending].
    + intros c' [= ->]. exists tr, []. by repeat constructor.
    + lia.
    + rewrite submissions_snoc, app_nil_r. eapply list.Forall_impl; [exact Hids|]. cbn. lia.
    + by rewrite submissions_snoc, app_nil_r.
    + by apply inv_submitted_snoc.
  - apply (svc_inv_keep id0 tr y); try done. by rewrite app_nil_r.
  - apply (svc_inv_keep id0 tr x); try done. intros c' Hc. cbn. congruence.
  - apply (svc_inv_keep id0 tr y); try done; [by rewrite app_nil_r|]. intros c' Hc. cbn. congruence.
  - apply (svc_inv_keep id0 tr y); try done. by rewrite app_nil_r.
  - apply (svc_inv_keep id0 tr y); try done. by rewrite app_nil_r.
  - eapply svc_inv_close; eauto.
  - eapply svc_inv_close; eauto.
  - eapply svc_inv_close; eauto.
  - apply (svc_inv_keep id0 tr y); try done. by rewrite app_nil_r.
Qed.

Lemma svc_run_inv id0 tr x : svc_run (closed id0) tr x -> svc_inv id0 tr x.
Proof.
  induction 1 as [|tr y l z _ IH Hst]; [|by eapply svc_inv_step].
  split; try done; [by constructor|by intros [|]].
Qed.

(** * The server *)

(** What reaches the handlers, the timer, and the raft threads in between.  A
    release that has to wait is the first turn of its loop, then polls. *)
Inductive event :=
  | Acquire (clock c : Z) (msg : bytes)
  | Append (clock c : Z) (file text msg : bytes)
  | Release (clock c term id : Z) (msg : bytes)
  | Poll (term id : Z) (msg : bytes)
  | Timer (clock : Z)
  | Others (f : world -> world).

Definition serve (ev : event) : M server (option (Z * bytes)) :=
  match ev with
  | Acquire clock c msg => a ← handle_lock_acquire clock c msg; mret (Some a)
  | Append clock c file text msg => a ← handle_append_file clock c file text msg; mret (Some a)
  | Release clock c term id msg => handle_lock_release clock c term id msg []
  | Poll term id msg => release_poll term id msg
  | Timer clock => on_lock (timer_thread clock);; mret None
  | Others f => modify (fun s => s <| sv_raft ::= f |>);; mret None
  end.

Fixpoint serve_all (evs : list event) : M server (list (option (Z * bytes))) :=
  match evs with
  | [] => mret []
  | ev :: evs' => a ← serve ev; l ← serve_all evs'; mret (a :: l)
  end.

(** What the raft threads keep. *)
Definition raft_sound (w : world) : Prop :=
  orderly w /\ disk_ready w /\ int_ok (current_term (raft w)) = true.

(** The number of a client is not the word for no holder. *)
Definition event_ok (ev : event) : Prop :=
  match ev with
  | Acquire _ c _ | Append _ c _ _ _ | Release _ c _ _ _ => c <> -1
  | Others f => forall w, raft_sound w -> raft_sound (f w)
  | _ => True
  end.

(** The texts written to the file [f]. *)
Definition content (f : bytes) (ws : list (bytes * bytes)) : bytes :=
  flat_map (fun w => if decide (w.1 = f) then w.2 else []) ws.

(** The entry [e] holds the transaction [ws] of [c]. *)
Record holds_writes (e : raft_log_entry) (term c id : Z) (ws : list (bytes * bytes)) : Prop := {
  hw_term : le_term e = term;
  hw_id : le_id e = id;
  hw_client : le_client e = c;
  hw_type : le_type e = CLIENT_LOG;
  hw_data : forall f, applied f (le_data e) = content f ws
}.

(** [Raft_append_entry] does not take an entry. *)
Definition takes_no_entry (r : raft_state) : Prop :=
  state r <> LEADER \/ log_count r = start_log_index r + LOG_SIZE.

(** The answer a label stands for, and its effect on the raft state: only a
    submission has one. *)
Inductive matches (s s' : server) : event -> option (Z * bytes) -> label -> Prop :=
  | m_granted clock c msg m id :
      get_token m = (current_term (raft (sv_raft s)), id) -> sv_raft s' = sv_raft s ->
      matches s s' (Acquire clock c msg) (Some (0, m)) (Granted c id)
  | m_refused clock c msg m :
      sv_raft s' = sv_raft s -> matches s s' (Acquire clock c msg) (Some (E_LOCK, m)) (Refused c)
  | m_written clock c file text msg m :
      first_is_nul file = false -> sv_raft s' = sv_raft s ->
      matches s s' (Append clock c file text msg) (Some (0, m)) (Written c (until_nul file) (until_nul text))
  | m_nameless clock c file text msg m :
      first_is_nul file = true -> sv_raft s' = sv_raft s ->
      matches s s' (Append clock c file text msg) (Some (0, m)) (Nameless c)
  | m_limit clock c file text msg m :
      sv_raft s' = sv_raft s ->
      matches s s' (Append clock c file text msg) (Some (E_TRANSACTION_LIMIT, m)) (Limit c (until_nul file))
  | m_late_append clock c file text msg m :
      sv_raft s' = sv_raft s ->
      matches s s' (Append clock c file text msg) (Some (E_LOCK_EXP, m)) (Late c)
  | m_late_release clock c term id msg m :
      term = current_term (raft (sv_raft s)) -> sv_raft s' = sv_raft s ->
      matches s s' (Release clock c term id msg) (Some (E_LOCK_EXP, m)) (Late c)
  | m_submitted clock c term id msg a e id' ws :
      term = current_term (raft (sv_raft s)) ->
      log_count (raft (sv_raft s')) = log_count (raft (sv_raft s)) + 1 ->
      log_at (raft (sv_raft s')) (log_count (raft (sv_raft s))) = Some e ->
      (forall i, i <> log_count (raft (sv_raft s)) -> log_at (raft (sv_raft s')) i = log_at (raft (sv_raft s)) i) ->
      holds_writes e term c id' ws ->
      matches s s' (Release clock c term id msg) a (Submitted c id' ws)
  | m_dropped clock c term id msg a :
      term = current_term (raft (sv_raft s)) -> sv_raft s' = sv_raft s ->
      takes_no_entry (raft (sv_raft s)) ->
      matches s s' (Release clock c term id msg) a (Dropped c)
  | m_old_release clock c term id msg a :
      term <> current_term (raft (sv_raft s)) -> s' = s ->
      matches s s' (Release clock c term id msg) a Unchanged
  | m_poll term id msg a : s' = s -> matches s s' (Poll term id msg) a Unchanged
  | m_expired clock : sv_raft s' = sv_raft s -> matches s s' (Timer clock) None Expired
  | m_timer clock : s' = s -> matches s s' (Timer clock) None Unchanged
  | m_others f : matches s s' (Others f) None Unchanged.

(** * The files of a transaction *)

Fixpoint names (data : list raft_transaction_entry) : list bytes :=
  match data with
  | [] => []
  | e :: data' => if first_is_nul (filename e) then [] else tx_name e :: names data'
  end.

Lemma names_split act rest data : tx_split act rest data -> names data = tx_name <$> act.
Proof.
  intros [-> Hu Hr _]. induction Hu as [|e act He Hu IH]; cbn; [|by rewrite He, IH].
  destruct Hr as [|e rest He _]; cbn; [done|by rewrite He].
Qed.

Lemma first_is_nul_nil a : first_is_nul a = true <-> until_nul a = [].
Proof.
  destruct (first_is_nul a) eqn:E; [|by apply first_is_nul_until in E].
  split; [|done]. intros _. destruct (until_nul a) eqn:Hu; [done|].
  assert (first_is_nul a = false) by (apply first_is_nul_until; congruence). congruence.
Qed.

Lemma append_to_files act rest data file text r :
  tx_split act rest data -> append_to data file text = Ok r ->
  match r with
  | Some data' => (list_to_set (names data') : gset bytes) =
      list_to_set (names data) ∪ if first_is_nul file then ∅ else {[until_nul file]}
  | None => length (names data) = length data /\ until_nul file ∉ names data
  end.
Proof.
  intros [-> Hu Hr _]. revert r. induction Hu as [|e act He Hu IH]; intros r.
  - destruct Hr as [|e rest He Hr]; cbn; [intros [= <-]; split; [done|apply not_elem_of_nil]|].
    rewrite He. destruct (c_str FILENAME_SIZE file) as [n|] eqn:Hn; [|done]. cbn.
    apply c_str_ok in Hn as [-> _].
    destruct (strcpy FILENAME_SIZE _ _) as [n'|] eqn:Hc; [|done]. cbn.
    destruct (c_str BUFFER_SIZE text) as [t|]; [|done]. cbn.
    destruct (strcpy BUFFER_SIZE _ _) as [b|]; [|done]. intros [= <-]. cbn.
    apply strcpy_until in Hc; [|apply until_nul_no_nul].
    assert (first_is_nul n' = first_is_nul file) as ->.
    { apply eq_true_iff_eq. by rewrite !first_is_nul_nil, Hc. }
    assert (names rest = []) as -> by (destruct Hr as [|e' rest He' _]; cbn; [done|by rewrite He']).
    destruct (first_is_nul file); [done|]. unfold tx_name. cbn. rewrite Hc. set_solver.
  - cbn. rewrite He. destruct (strcmp_eq FILENAME_SIZE _ _) as [same|] eqn:Hs; [|done]. cbn.
    apply strcmp_eq_ok in Hs. destruct same.
    + symmetry in Hs. apply bool_decide_eq_true in Hs.
      destruct (c_str BUFFER_SIZE text); [|done]. cbn. destruct (strcat _ _ _); [|done]. intros [= <-].
      cbn. rewrite He. unfold tx_name. cbn.
      assert (first_is_nul file = false) as -> by (apply first_is_nul_until; rewrite <- Hs; by apply first_is_nul_until).
      rewrite Hs. set_solver.
    + symmetry in Hs. apply bool_decide_eq_false in Hs.
      destruct (append_to (act ++ rest) file text) as [[r'|]|]; [| |done]; intros [= <-]; cbn;
        specialize (IH _ eq_refl); cbn in IH.
      * rewrite He. cbn. rewrite IH. set_solver.
      * rewrite ?He. cbn. destruct IH as [-> Hn]. split; [done|]. apply not_elem_of_cons. split; [|done].
        unfold tx_name. congruence.
Qed.

(** A write to the file with no name leaves the files of the transaction. *)
Lemma append_to_nameless act rest data file text data' :
  tx_split act rest data -> first_is_nul file = true -> append_to data file text = Ok (Some data') ->
  (exists act' rest', tx_split act' rest' data') /\ length data' = length data /\
  forall f, applied f data' = applied f data.
Proof.
  intros [-> Hu Hr Hnd] Hfile. revert data'.
  enough (forall data', append_to (act ++ rest) file text = Ok (Some data') -> exists rest',
    data' = act ++ rest' /\ Forall (fun e => first_is_nul (filename e) = true) rest' /\ length rest' = length rest) as H.
  { intros data' Ha. destruct (H _ Ha) as (rest' & -> & Hr' & Hl). split_and!.
    - exists act, rest'. by split.
    - by rewrite !length_app, Hl.
    - intros f. clear -Hr Hr'. induction act as [|e act IH]; cbn; [by rewrite !applied_free|]. by rewrite IH. }
  clear Hnd. induction Hu as [|e act He Hu IH]; intros data' Ha; cbn in Ha.
  - destruct Hr as [|e rest He Hr]; [done|]. cbn in Ha. rewrite He in Ha.
    destruct (c_str FILENAME_SIZE file) as [n|] eqn:Hn; [|done]. cbn in Ha. apply c_str_ok in Hn as [-> _].
    destruct (strcpy FILENAME_SIZE _ _) as [n'|] eqn:Hc; [|done]. cbn in Ha.
    destruct (c_str BUFFER_SIZE text) as [t|]; [|done]. cbn in Ha.
    destruct (strcpy BUFFER_SIZE _ _) as [b|]; [|done]. injection Ha as <-.
    eexists. split; [done|]. split; [|done]. constructor; [|done]. cbn.
    apply strcpy_until in Hc; [|apply until_nul_no_nul]. apply first_is_nul_nil. rewrite Hc.
    by apply first_is_nul_nil.
  - rewrite He in Ha. destruct (strcmp_eq FILENAME_SIZE _ _) as [same|] eqn:Hs; [|done]. cbn in Ha.
    apply strcmp_eq_ok in Hs. destruct same.
    + symmetry in Hs. apply bool_decide_eq_true in Hs. apply first_is_nul_nil in Hfile.
      apply first_is_nul_until in He. congruence.
    + destruct (append_to (act ++ rest) file text) as [[d|]|]; try done. injection Ha as <-.
      destruct (IH d eq_refl) as (rest' & -> & ? & ?). by exists rest'.
Qed.

(** * The refinement *)

(** The entry under construction holds the writes [ws] of [c]. *)
Record tx_rel (s : server) (c : Z) (ws : list (bytes * bytes)) : Prop := {
  tr_ok : tx_ok s;
  tr_length : Z.of_nat (length (tx_data_of s)) = MAX_TRANSACTION_ENTRIES;
  tr_client : le_client (current_log_entry s) = c;
  tr_data : forall f, applied f (tx_data_of s) = content f ws;
  tr_files : list_to_set (names (tx_data_of s)) = files_of ws
}.

Record rel (s : server) (x : service) : Prop := {
  rel_raft : raft_sound (sv_raft s);
  rel_session : le_id (current_log_entry s) = session x;
  rel_owner : match owner x with
              | None => holder_id (sv_lock s) = -1 /\ tmd_flag (sv_lock s) = 0
              | Some c => c <> -1 /\ holder_id (sv_lock s) = c /\ tmd_flag (sv_lock s) = 1 /\
                          tx_rel s c (pending x)
              end
}.

Lemma rel_held s x c : rel s x -> c <> -1 -> (holder_id (sv_lock s) = c <-> owner x = Some c).
Proof. intros [_ _ Ho] Hc. destruct (owner x) as [c'|]; [|split; [lia|done]]. split; [intros; f_equal; lia|intros [= ->]; lia]. Qed.

(** The calls on the lock, as relations of holder and flag. *)
Lemma tmd_acquire_cases clock id l rc l' :
  tmdspinlock_acquire clock id l = Ok (rc, l') ->
  (rc = E_LOCK /\ holder_id l = id /\ l' = l) \/
  (rc = 0 /\ holder_id l <> id /\ tmd_flag l = 0 /\ holder_id l' = id /\ tmd_flag l' = 1).
Proof.
  unfold tmdspinlock_acquire. intros (h & l1 & [= <- <-] & H)%bind_ok. case_decide; [by injection H as <- <-; left|].
  apply bind_ok in H as (f & l1 & [= <- <-] & H). unfold compare_and_swap in H.
  case_decide; [|done]. injection H as <- <-. right. by cbn.
Qed.

Lemma tmd_release_cases id l rc l' :
  tmdspinlock_release id l = Ok (rc, l') ->
  (rc = E_LOCK_EXP /\ holder_id l <> id /\ holder_id l' = holder_id l /\ tmd_flag l' = tmd_flag l) \/
  (rc = 0 /\ holder_id l = id /\ holder_id l' = -1 /\ tmd_flag l' = (compare_and_swap (tmd_flag l) 1 0).2).
Proof.
  unfold tmdspinlock_release. intros (p & l1 & Hp & H)%bind_ok. apply pause_ok in Hp as (Hh & Hf & Hp & _).
  case_decide; [injection H as <- <-; left; tauto|].
  injection H as <- <-. right. cbn. rewrite Hf. split; [done|]. split; [|done]. apply Hp. lia.
Qed.

Lemma timer_thread_ok clock l u l' :
  timer_thread clock l = Ok (u, l') ->
  l' = l \/ (holder_id l <> -1 /\ holder_id l' = -1 /\ tmd_flag l' = (compare_and_swap (tmd_flag l) 1 0).2).
Proof.
  unfold timer_thread. intros (t & l1 & [= <- <-] & H)%bind_ok. destruct (timer_expired _ _).
  - apply bind_ok in H as (? & l1 & [= _ <-] & H). unfold tmdspinlock_handle_timer in H.
    apply bind_ok in H as (h & l2 & [= <- <-] & H). case_decide; [done|]. injection H as _ <-. right. by cbn.
  - injection H as _ <-. by left.
Qed.

Lemma lock_unchanged s : s <| sv_lock := sv_lock s |> = s.
Proof. by destruct s. Qed.

Definition simulates (s : server) (x : service) (ev : event) (a : option (Z * bytes)) (s' : server) : Prop :=
  exists l x', svc_step x l x' /\ matches s s' ev a l /\ rel s' x'.

Lemma simulates_unchanged s x ev a s' :
  rel s x -> s' = s -> matches s s' ev a Unchanged -> simulates s x ev a s'.
Proof. intros Hr -> Hm. exists Unchanged, x. split; [constructor|]. by split. Qed.

Lemma acquire_sim clock c msg s x a s' :
  rel s x -> c <> -1 -> serve (Acquire clock c msg) s = Ok (a, s') -> simulates s x (Acquire clock c msg) a s'.
Proof.
  intros Hr Hc. cbn [serve]. intros (r & s1 & H & [= <- <-])%bind_ok. unfold handle_lock_acquire in H.
  apply bind_ok in H as (rc & s2 & (l & Hl & ->)%on_lock_ok & H).
  apply tmd_acquire_cases in Hl as [(-> & Hh & ->)|(-> & Hh & Hf & Hh' & Hf')].
  - rewrite lock_unchanged in H. destruct (answer_ok _ _ _ _ _ _ H) as [-> Er]. destruct r as [rc m].
    cbn in Er. subst rc. exists (Refused c), x. split; [|split; [by constructor|done]].
    constructor. by apply (rel_held s).
  - cbn [Z.ltb Z.compare] in H.
    apply bind_ok in H as (? & s2 & [= _ <-] & H). apply bind_ok in H as (e & s2 & [= <- <-] & H).
    apply bind_ok in H as (id & s2 & (-> & -> & Hid)%int_of_ok & H).
    apply bind_ok in H as (? & s2 & [= _ <-] & H).
    apply bind_ok in H as (t & s2 & (w & [= <- <-] & ->)%on_raft_ok & [= <- <-]).
    pose proof Hr as [Hsound Hs Ho]. cbn in Hid. rewrite Hs in Hid.
    exists (Granted c (session x + 1)), {| owner := Some c; session := session x + 1; pending := [] |}.
    split; [constructor|split].
    + destruct (owner x) as [c'|]; [|done]. destruct Ho as (_ & _ & Hfl & _). lia.
    + constructor; [|by destruct s as [[] ? ?]]. cbn. rewrite Hs. apply get_put_token; [|done]. apply Hsound.
    + split; cbn; [done|by rewrite Hs|]. split; [done|]. split; [done|]. split; [done|].
      split; try done. exists [], (le_data zero_log_entry). apply tx_empty.
Qed.

(** Only the holder and the flag of the lock matter. *)
Lemma rel_lock s x l :
  rel s x -> holder_id l = holder_id (sv_lock s) -> tmd_flag l = tmd_flag (sv_lock s) ->
  rel (s <| sv_lock := l |>) x.
Proof.
  intros [Hr Hs Ho] Hh Hf. split; [done|done|]. cbn. rewrite Hh, Hf. destruct (owner x); [|done].
  destruct Ho as (? & ? & ? & []). by split_and!.
Qed.

Lemma content_snoc f ws file text :
  content f (ws ++ [(file, text)]) = content f ws ++ (if decide (file = f) then text else []).
Proof. unfold content. rewrite flat_map_app. cbn. by rewrite app_nil_r. Qed.

(** A write that found room, and one that did not. *)
Lemma tx_rel_append s c ws file text data :
  tx_rel s c ws -> first_is_nul file = false -> append_to (tx_data_of s) file text = Ok (Some data) ->
  tx_rel (s <| current_log_entry ::= fun e => e <| le_data := data |> |>) c
    (ws ++ [(until_nul file, until_nul text)]).
Proof.
  intros [(act & rest & Htx) Hlen Hcl Hd Hfs] Hfile Ha.
  destruct (append_to_spec _ _ _ _ _ _ Htx Hfile Ha) as (Htx' & Hlen' & Happ).
  pose proof (append_to_files _ _ _ _ _ _ Htx Ha) as Hn. cbn in Hn. rewrite Hfile in Hn.
  split; unfold tx_data_of; cbn; try done.
  - by rewrite Hlen'.
  - intros f. by rewrite Happ, Hd, content_snoc.
  - rewrite Hn. fold (tx_data_of s). rewrite Hfs. unfold files_of. rewrite fmap_app. set_solver.
Qed.

Lemma tx_rel_nameless s c ws file text data :
  tx_rel s c ws -> first_is_nul file = true -> append_to (tx_data_of s) file text = Ok (Some data) ->
  tx_rel (s <| current_log_entry ::= fun e => e <| le_data := data |> |>) c ws.
Proof.
  intros [(act & rest & Htx) Hlen Hcl Hd Hfs] Hfile Ha.
  destruct (append_to_nameless _ _ _ _ _ _ Htx Hfile Ha) as (Htx' & Hlen' & Happ).
  pose proof (append_to_files _ _ _ _ _ _ Htx Ha) as Hn. cbn in Hn. rewrite Hfile, union_empty_r_L in Hn.
  split; unfold tx_data_of; cbn; try done.
  - by rewrite Hlen'.
  - intros f. by rewrite Happ, Hd.
  - by rewrite Hn.
Qed.

Lemma tx_rel_limit s c ws file text :
  tx_rel s c ws -> append_to (tx_data_of s) file text = Ok None ->
  (until_nul file ∉ files_of ws) /\ Z.of_nat (size (files_of ws)) = MAX_TRANSACTION_ENTRIES.
Proof.
  intros [(act & rest & Htx) Hlen _ _ Hfs] Ha.
  destruct (append_to_files _ _ _ _ _ _ Htx Ha) as [Hl Hn]. rewrite <- Hfs. split.
  - by rewrite elem_of_list_to_set.
  - rewrite size_list_to_set; [by rewrite Hl|]. rewrite (names_split _ _ _ Htx). apply Htx.
Qed.

Lemma append_sim clock c file text msg s x a s' :
  rel s x -> c <> -1 ->
  serve (Append clock c file text msg) s = Ok (a, s') ->
  simulates s x (Append clock c file text msg) a s'.
Proof.
  intros Hr Hc. cbn [serve]. intros (r & s1 & H & [= <- <-])%bind_ok.
  unfold handle_append_file in H. apply bind_ok in H as (p & s2 & (l & Hp & ->)%on_lock_ok & H).
  apply pause_ok in Hp as (Hh & Hf & Hp0 & Hp1).
  pose proof (rel_lock s x l Hr Hh Hf) as Hr2. destruct (Z.ltb_spec p 0).
  - destruct (answer_ok _ _ _ _ _ _ H) as [-> Er]. destruct r as [rc m]. cbn in Er. subst rc.
    exists (Late c), x. split; [|by split; [constructor|]].
    constructor. rewrite <- (rel_held s) by done. intros E. apply Hp0 in E. lia.
  - assert (owner x = Some c) as Ho by (apply (rel_held s); [done..|tauto || (apply Hp0; lia)]).
    apply bind_ok in H as (e & s2 & [= <- <-] & H). apply bind_ok in H as (res & s2 & Hl & H).
    unfold lift in Hl. destruct (append_to _ file text) as [o|] eqn:Ha; [|done]. injection Hl as <- <-.
    change (le_data (current_log_entry (s <| sv_lock := l |>))) with (tx_data_of s) in Ha.
    apply bind_ok in H as (b & s2 & Hans & H).
    apply bind_ok in H as (z & s3 & (l2 & Hr3 & ->)%on_lock_ok & [= -> <-]).
    apply reset_ok in Hr3 as [Hh3 Hf3].
    pose proof Hr as [Hsound Hs Hown]. rewrite Ho in Hown. destruct Hown as (_ & Hhold & Hflag & Htx).
    destruct o as [data|].
    + apply bind_ok in Hans as (? & s3 & [= _ <-] & Hans). destruct (answer_ok _ _ _ _ _ _ Hans) as [-> Er].
      destruct r as [rc m]. cbn in Er, Hh3, Hf3. subst rc.
      destruct (first_is_nul file) eqn:Hfile.
      { exists (Nameless c), x. split; [by constructor|]. split; [by constructor|]. split; cbn; [done|done|].
        rewrite Ho, Hh3, Hf3, Hh, Hf. split_and!; try done.
        pose proof (tx_rel_nameless _ _ _ _ _ _ Htx Hfile Ha) as []. by split. }
      exists (Written c (until_nul file) (until_nul text)), {| owner := owner x; session := session x;
        pending := pending x ++ [(until_nul file, until_nul text)] |}.
      split; [by constructor|]. split; [by constructor|]. split; cbn; [done|done|].
      rewrite Ho, Hh3, Hf3, Hh, Hf. split; [done|]. split; [done|]. split; [done|].
      pose proof (tx_rel_append _ _ _ _ _ _ Htx Hfile Ha) as []. by split.
    + destruct (answer_ok _ _ _ _ _ _ Hans) as [-> Er]. destruct r as [rc m].
      cbn in Er, Hh3, Hf3. subst rc.
      destruct (tx_rel_limit _ _ _ _ _ Htx Ha).
      exists (Limit c (until_nul file)), x. split; [by constructor|]. split; [by constructor|].
      by apply (rel_lock (s <| sv_lock := l |>)).
Qed.

(** The lock is given up: the service is closed. *)
Lemma rel_closed s x c l w e :
  rel s x -> owner x = Some c -> raft_sound w -> le_id e = session x ->
  holder_id l = -1 -> tmd_flag l = (compare_and_swap (tmd_flag (sv_lock s)) 1 0).2 ->
  rel {| sv_raft := w; sv_lock := l; current_log_entry := e |} (closed (session x)).
Proof.
  intros [_ _ Ho] E Hw He Hh Hf. rewrite E in Ho. destruct Ho as (_ & _ & Hfl & _).
  split; [done|done|]. cbn. split; [done|]. by rewrite Hf, Hfl.
Qed.

Lemma timer_sim clock s x a s' :
  rel s x -> serve (Timer clock) s = Ok (a, s') -> simulates s x (Timer clock) a s'.
Proof.
  intros Hr. cbn [serve]. intros ([] & s1 & (l & Hl & ->)%on_lock_ok & [= <- <-])%bind_ok.
  apply timer_thread_ok in Hl as [->|(Hne & Hh & Hf)].
  - rewrite lock_unchanged. eapply simulates_unchanged; [done..|]. by constructor.
  - pose proof Hr as [Hsound Hs Ho]. destruct (owner x) as [c|] eqn:E; [|by destruct Ho].
    exists Expired, (closed (session x)). split; [by apply (svc_expired x c)|]. split; [by constructor|].
    by apply (rel_closed s x c).
Qed.

Lemma takes_no_entry_test r :
  bool_decide (state r <> LEADER) || (log_count r =? start_log_index r + LOG_SIZE) = true -> takes_no_entry r.
Proof. intros [H%bool_decide_eq_true|H%Z.eqb_eq]%orb_true_iff; [by left|by right]. Qed.

(** [Raft_append_entry] took the entry, or left everything as it was. *)
Lemma append_entry_cases e w r w' :
  orderly w -> disk_ready w -> Raft_append_entry e w = Ok (r, w') ->
  (r = (-1, e) /\ w' = w /\ takes_no_entry (raft w)) \/
  (r = (0, stamp (raft w) e) /\ orderly w' /\ disk_ready w' /\
   current_term (raft w') = current_term (raft w) /\ log_count (raft w') = log_count (raft w) + 1 /\
   log_at (raft w') (log_count (raft w)) = Some (stamp (raft w) e) /\
   forall i, i <> log_count (raft w) -> log_at (raft w') i = log_at (raft w) i).
Proof.
  intros [Hwf Hl] Hd H. destruct (Z.lt_ge_cases (log_count (raft w)) INT_MAX) as [Hmax|Hmax].
  - pose proof (append_entry_run w e Hwf Hl Hd Hmax) as Hrun. cbn zeta in Hrun.
    destruct (_ || _) eqn:Ec; [rewrite Hrun in H; injection H as <- <-; left; split_and!; [done|done|by apply takes_no_entry_test]|].
    destruct Hrun as (w1 & Hrun & Hwf1 & Hn & _ & Hat & _ & Hl1 & _ & Hd1 & Ht1).
    rewrite Hrun in H. injection H as <- <-. right. split_and!; try done; [by rewrite Hat, decide_True|].
    intros i Hi. by rewrite Hat, decide_False.
  - unfold Raft_append_entry in H. rewrite run_bind, run_lock_acquire in H by done.
    unfold rself, gets in H. rewrite run_bind in H. cbn beta iota in H.
    cbn [raft upd state log_count start_log_index] in H. destruct (_ || _) eqn:Ec.
    + rewrite run_bind, run_lock_release, lock_unlock in H by done. injection H as <- <-.
      left. split_and!; [done|done|by apply takes_no_entry_test].
    + exfalso. rewrite run_bind in H. unfold int_of in H.
      assert (int_ok (log_count (raft w) + 1) = false) as E.
      { apply not_true_iff_false. rewrite int_ok_spec. lia. }
      by rewrite E in H.
Qed.

(** The first half of a release. *)
Lemma release_begin_ok clock c s x b s' :
  rel s x -> c <> -1 -> release_begin clock c s = Ok (b, s') ->
  (b = false /\ owner x <> Some c /\ rel s' x /\ sv_raft s' = sv_raft s) \/
  (b = true /\ owner x = Some c /\ rel s' (closed (session x)) /\
   (sv_raft s' = sv_raft s /\ takes_no_entry (raft (sv_raft s)) \/
    exists e, log_count (raft (sv_raft s')) = log_count (raft (sv_raft s)) + 1 /\
      log_at (raft (sv_raft s')) (log_count (raft (sv_raft s))) = Some e /\
      (forall i, i <> log_count (raft (sv_raft s)) -> log_at (raft (sv_raft s')) i = log_at (raft (sv_raft s)) i) /\
      holds_writes e (current_term (raft (sv_raft s))) c (session x) (pending x))).
Proof.
  intros Hr Hc. unfold release_begin. intros (p & s1 & (l & Hp & ->)%on_lock_ok & H)%bind_ok.
  apply pause_ok in Hp as (Hh & Hf & Hp0 & Hp1). apply bind_ok in H as ([] & s1 & Hm & H).
  apply bind_ok in H as (rc & s2 & (l2 & Hrel & ->)%on_lock_ok & [= <- <-]).
  apply tmd_release_cases in Hrel. case_decide as Hp2.
  - assert (owner x = Some c) as Ho by (apply (rel_held s); tauto).
    apply bind_ok in Hm as (e & s2 & [= <- <-] & Hm).
    apply bind_ok in Hm as (r & s2 & (w & Happ & ->)%on_raft_ok & Hm).
    apply bind_ok in Hm as (? & s3 & [= _ <-] & Hm).
    apply bind_ok in Hm as (? & s4 & (l3 & Hreset & ->)%on_lock_ok & [= <-]).
    apply reset_ok in Hreset as [Hh3 Hf3]. cbn in Hh3, Hf3, Hrel, Happ.
    destruct Hrel as [(-> & Hne & _)|(-> & _ & Hh4 & Hf4)]; [destruct Hne; rewrite Hh3, Hh; tauto|].
    rewrite Hf3, Hf in Hf4. right. split; [done|]. split; [done|].
    pose proof Hr as [(Hord & Hd & Hterm) Hs Hown]. rewrite Ho in Hown. destruct Hown as (_ & _ & _ & Htx).
    destruct (append_entry_cases _ _ _ _ Hord Hd Happ)
      as [(-> & -> & Hno)|(-> & Hord' & Hd' & Ht' & Hn' & Hat' & Hold)].
    + split; [by apply (rel_closed s x c)|by left].
    + split; [apply (rel_closed s x c); try done; change (raft_sound w); split_and!; congruence|].
      right. eexists. split; [exact Hn'|]. split; [exact Hat'|].
      split; [exact Hold|]. destruct Htx. by split.
  - injection Hm as <-. assert (p = -1) as -> by lia. cbn in Hrel.
    assert (holder_id (sv_lock s) <> c) as Hne by (rewrite <- Hp0; lia).
    destruct Hrel as [(-> & _ & Hh2 & Hf2)|(_ & E & _)]; [|congruence].
    left. split; [done|]. split; [by rewrite <- (rel_held s)|]. split; [|done].
    apply (rel_lock (s <| sv_lock := l |>)); [by apply rel_lock|done|done].
Qed.

Lemma poll_sim term id msg s x a s' :
  rel s x -> serve (Poll term id msg) s = Ok (a, s') -> simulates s x (Poll term id msg) a s'.
Proof.
  intros Hr H. pose proof Hr as [(Hord & _) _ _]. apply (release_poll_ok _ _ _ _ _ _ Hord) in H as [-> _].
  eapply simulates_unchanged; [done..|]. by constructor.
Qed.

Lemma release_sim clock c term id msg s x a s' :
  rel s x -> c <> -1 -> serve (Release clock c term id msg) s = Ok (a, s') ->
  simulates s x (Release clock c term id msg) a s'.
Proof.
  intros Hr Hc. cbn [serve]. unfold handle_lock_release.
  assert (forall s1 a s', rel s1 (closed (session x)) \/ rel s1 x -> release_wait term id msg [] s1 = Ok (a, s') -> s' = s1)
    as Hwait.
  { intros s1 b s2 Hr1 H. cbn [release_wait] in H. apply bind_ok in H as (o & s3 & H & H').
    apply release_poll_ok in H as [-> _]; [by destruct o; injection H' as _ <-|].
    by destruct Hr1 as [[(? & _) _ _]|[(? & _) _ _]]. }
  intros (t & s1 & (w & [= <- <-] & ->)%on_raft_ok & H)%bind_ok.
  assert (s <| sv_raft := sv_raft s |> = s) as Es by by destruct s. rewrite Es in H.
  case_decide as Ht.
  - apply bind_ok in H as (b & s1 & Hb & H).
    apply (release_begin_ok _ _ _ _ _ _ Hr Hc) in Hb as [(-> & Ho & Hr1 & Hw1)|(-> & Ho & Hr1 & Hlog)].
    + apply bind_ok in H as ([rc m] & s2 & Ha & [= <- <-]). apply answer_ok in Ha as [-> Er].
      cbn in Er. subst rc. exists (Late c), x. split; [by constructor|]. split; [by constructor|done].
    + apply Hwait in H as ->; [|by left]. destruct Hlog as [[Hsame Hno]|(e & Hn & Hat & Hold & He)].
      * exists (Dropped c), (closed (session x)). split; [by constructor|]. split; [by constructor|done].
      * exists (Submitted c (session x) (pending x)), (closed (session x)). split; [by constructor|].
        split; [|done]. rewrite <- Ht in He. by eapply m_submitted.
  - apply Hwait in H as ->; [|by right]. eapply simulates_unchanged; [done..|]. by constructor.
Qed.

Lemma serve_sim s x ev a s' :
  rel s x -> event_ok ev -> serve ev s = Ok (a, s') -> simulates s x ev a s'.
Proof.
  intros Hr Hok H. destruct ev as [clock c msg|clock c file text msg|clock c term id msg|term id msg|clock|f];
    cbn [event_ok] in Hok.
  - by eapply acquire_sim.
  - by eapply append_sim.
  - by eapply release_sim.
  - by eapply poll_sim.
  - by eapply timer_sim.
  - apply bind_ok in H as (? & s1 & [= _ <-] & [= <- <-]). exists Unchanged, x.
    split; [constructor|]. split; [constructor|]. destruct Hr as [Hw Hs Ho]. split; [by apply Hok|done|].
    cbn. destruct (owner x); [|done]. destruct Ho as (? & ? & ? & []). by split_and!.
Qed.

(** C11: Each handler call that returns - a write to the empty file name,
    which is accepted and forgotten, included -, each turn of the timer and
    all work of the raft threads that keeps the log well-formed and its lock
    free is a step of the abstract lock service (an owner and its pending
    writes), with the answer the service gives; a submitted transaction is the
    new last entry of the log, of the current term, with the writes of the
    session, behind an unchanged log; no other answer or expiry changes the
    raft state, and a transaction is dropped only by a server that does not
    lead or whose log is full. The clients' numbers are any but -1, the number
    that stands for no holder. *)
Theorem server_refines_service s x ev a s' :
  rel s x -> event_ok ev -> serve ev s = Ok (a, s') ->
  exists l x', svc_step x l x' /\ matches s s' ev a l /\ rel s' x'.
Proof. exact (serve_sim s x ev a s'). Qed.

(** Labels for the events of a run, each with its answer. *)
Fixpoint explains (s : server) (evs : list event) (l : list (option (Z * bytes))) (tr : list label)
    (s' : server) : Prop :=
  match evs, l, tr with
  | [], [], [] => s' = s
  | ev :: evs', a :: l', lb :: tr' =>
      exists s1, serve ev s = Ok (a, s1) /\ matches s s1 ev a lb /\ explains s1 evs' l' tr' s'
  | _, _, _ => False
  end.

Lemma svc_run_cons x l y tr z : svc_step x l y -> svc_run y tr z -> svc_run x (l :: tr) z.
Proof.
  intros Hs. induction 1 as [|tr z1 l1 z2 _ IH Hs1].
  - apply (svc_run_snoc x [] x); [constructor|done].
  - change (l :: tr ++ [l1]) with ((l :: tr) ++ [l1]). by eapply svc_run_snoc.
Qed.

Lemma serve_all_run evs s x l s' :
  rel s x -> Forall event_ok evs -> serve_all evs s = Ok (l, s') ->
  exists tr x', svc_run x tr x' /\ explains s evs l tr s' /\ rel s' x'.
Proof.
  intros Hr Hok. revert s x l Hr. induction Hok as [|ev evs Hev Hok IH]; intros s x l Hr H; cbn in H.
  - injection H as <- <-. exists [], x. split; [constructor|]. by split.
  - apply bind_ok in H as (a & s1 & Ha & H). apply bind_ok in H as (l1 & s2 & Hl & [= <- <-]).
    assert (simulates s x ev a s1) as (lb & y & Hs & Hm & Hr1) by by apply serve_sim.
    destruct (IH s1 y l1 Hr1 Hl) as (tr & z & Hrun & Hex & Hr2).
    exists (lb :: tr), z. split; [by eapply svc_run_cons|]. split; [|done]. cbn. by exists s1.
Qed.

(** A server that nobody has locked. *)
Record unlocked (s : server) : Prop := {
  ul_raft : raft_sound (sv_raft s);
  ul_holder : holder_id (sv_lock s) = -1;
  ul_flag : tmd_flag (sv_lock s) = 0
}.

