(* ===== verification/ServerRpc.v ===== *)
(** [server_rpc.c]: the requests of the clients.  A request runs on a thread of
    its own: [handle_packet] is given once as a whole and, cut where another
    thread may come in, as a transition system over the client table. *)
From S2P Require Import Prelude Libc Posix RaftTypes PacketFormat Spinlock TimedLock RaftStorage RaftUtils RaftFollower RaftLeader RaftCandidate Raft Server.

#[local] Open Scope string_scope.
#[local] Open Scope Z_scope.
#[local] Open Scope list_scope.

(** * The data of [server_rpc.h] *)

Inductive client_state := PROCESSING | WAITING.

#[export] Instance client_state_eq_dec : EqDecision client_state.
Proof. solve_decision. Defined.

Definition MAX_ID : Z := 1000.

(** [malloc] leaves [state] and [last_response] indeterminate: [None]. *)
Record client_process_data := {
  cp_id : Z;
  cp_state : option client_state;
  cp_vtime : Z;
  cp_last_response : option response_info;
  cp_lock : Z
}.

#[export] Instance client_process_data_eta : Eta client_process_data := fun c =>
  {| cp_id := cp_id c; cp_state := cp_state c; cp_vtime := cp_vtime c;
     cp_last_response := cp_last_response c; cp_lock := cp_lock c |}.

(** [server_rpc_conn_t]; the handlers are in [RpcHandlers], and [sent] are the
    datagrams the socket [sd] was given, oldest first. *)
Record server_rpc_conn := {
  sr_sd : Z;
  client_table : list (option client_process_data);
  client_table_lock : Z;
  sent : list (sockaddr_in * response_info)
}.

#[export] Instance server_rpc_conn_eta : Eta server_rpc_conn := fun r =>
  {| sr_sd := sr_sd r; client_table := client_table r;
     client_table_lock := client_table_lock r; sent := sent r |}.

(** The function pointers of the connection and [rpc->raft->state], over the
    state [St] they work on.  A handler is given [response.message] and answers
    [response.rc] and the message; [handle_lock_release] may still wait. *)
Class RpcHandlers (St : Type) := {
  h_role : St -> node_state;
  h_lock_acquire : Z -> bytes -> M St (Z * bytes);
  h_lock_release : Z -> Z -> Z -> bytes -> M St (option (Z * bytes));
  h_append_file : Z -> bytes -> bytes -> bytes -> M St (Z * bytes)
}.

(** What [main] of [server.c] installs; [clock] is the time of the call, and
    [others] what other threads do while a release waits. *)
Definition server_handlers (clock : Z) (others : list (world -> world)) : RpcHandlers server := {|
  h_role := fun s => state (raft (sv_raft s));
  h_lock_acquire := handle_lock_acquire clock;
  h_lock_release := fun c t i m => handle_lock_release clock c t i m others;
  h_append_file := handle_append_file clock
|}.

(** * Start-up *)

Definition Server_RPC_init (sd : Z) : server_rpc_conn :=
  {| sr_sd := sd; client_table := replicate (Z.to_nat MAX_ID) None;
     client_table_lock := spinlock_init; sent := [] |}.

(** * A request *)

(** [spinlock_acquire] as one thread sees it: [Blocked] while the word is set. *)
Definition spin_lock (w : Z) : outcome Z :=
  let (ok, w') := spinlock_acquire_try w in if (ok : bool) then Ok w' else Fault Blocked.

Definition send_packet_response (addr : sockaddr_in) (r : response_info) : M server_rpc_conn unit :=
  modify (fun c => c <| sent ::= fun l => l ++ [(addr, r)] |>).

(** The zeroed response with the request's [client_id] and [vtime]. *)
Definition response_to (p : packet_info) : response_info :=
  zero_response_info <| rs_client_id := pk_client_id p |> <| rs_vtime := pk_vtime p |>.

Definition respond (addr : sockaddr_in) (r : response_info) (rc : Z) (text : string)
    : M server_rpc_conn unit :=
  m ← lift (strcpy MESSAGE_SIZE (rs_message r) (to_bytes text));
  send_packet_response addr (r <| rs_rc := rc |> <| rs_message := m |>).

(** The answer of a server that does not lead. *)
Definition reject_request (role : node_state) (p : packet_info) (addr : sockaddr_in)
    : M server_rpc_conn unit :=
  respond addr (response_to p) (if decide (role = FOLLOWER) then E_FOLLOWER else E_ELECTION)
    ("this is not the leader server; address another one" +:+ newline).

Definition new_client (id : Z) : client_process_data :=
  {| cp_id := id; cp_state := None; cp_vtime := -1; cp_last_response := None;
     cp_lock := spinlock_init |}.

(** [rpc->client_table[id]]: the pointer is dereferenced. *)
Definition client_at (id : Z) : M server_rpc_conn client_process_data :=
  t ← gets client_table;
  o ← lift (arr_get t id);
  match (o : option client_process_data) with Some c => mret c | None => throw NullDeref end.
Definition set_client (id : Z) (c : client_process_data) : M server_rpc_conn unit :=
  t ← gets client_table;
  t' ← lift (arr_set t id (Some c));
  modify (fun r => r <| client_table := t' |>).

(** The section under [client_table_lock]. *)
Definition find_client (id : Z) : M server_rpc_conn unit :=
  l ← gets client_table_lock;
  l' ← lift (spin_lock l);
  modify (fun r => r <| client_table_lock := l' |>);;
  t ← gets client_table;
  o ← lift (arr_get t id);
  (match (o : option client_process_data) with
   | None => set_client id (new_client id)
   | Some _ => skip
   end);;
  modify (fun r => r <| client_table_lock ::= spinlock_release |>).

(** The first section under [client->lock]: [true] goes on to the handler. *)
Definition check_request (p : packet_info) (addr : sockaddr_in) : M server_rpc_conn bool :=
  c ← client_at (pk_client_id p);
  l ← lift (spin_lock (cp_lock c));
  let c := c <| cp_lock := l |> in
  if decide (cp_vtime c = pk_vtime p) then
    (match cp_state c with
     | None => throw Indeterminate
     | Some PROCESSING =>
         respond addr (response_to p) E_IN_PROGRESS "request from this client is already in progress"
     | Some WAITING =>
         match cp_last_response c with
         | Some r => send_packet_response addr r
         | None => throw Indeterminate
         end
     end);;
    set_client (pk_client_id p) (c <| cp_lock ::= spinlock_release |>);;
    mret false
  else
    set_client (pk_client_id p)
      (c <| cp_state := Some PROCESSING |> <| cp_vtime := pk_vtime p |> <| cp_lock ::= spinlock_release |>);;
    mret true.

(** The section under [client->lock] after the handler. *)
Definition finish_request (p : packet_info) (addr : sockaddr_in) (r : response_info)
    : M server_rpc_conn unit :=
  c ← client_at (pk_client_id p);
  l ← lift (spin_lock (cp_lock c));
  let c := c <| cp_lock := l |> <| cp_state := Some WAITING |> <| cp_last_response := Some r |> in
  send_packet_response addr r;;
  set_client (pk_client_id p) (c <| cp_lock ::= spinlock_release |>).

Definition fill (r : response_info) (a : Z * bytes) : response_info :=
  r <| rs_rc := a.1 |> <| rs_message := a.2 |>.

Section handle_packet.
Context {St : Type} `{RpcHandlers St}.

(** [switch(packet->operation)]; [None] while [handle_lock_release] waits. *)
Definition dispatch (p : packet_info) (r : response_info) : M St (option response_info) :=
  match pk_operation p with
  | CLIENT_INIT => m ← lift (strcpy MESSAGE_SIZE (rs_message r) (to_bytes "connected"));
                   mret (Some (r <| rs_message := m |>))
  | LOCK_ACQUIRE => a ← h_lock_acquire (pk_client_id p) (rs_message r); mret (Some (fill r a))
  | LOCK_RELEASE =>
      let (term, id) := get_token (pk_buffer p) in
      a ← h_lock_release (pk_client_id p) term id (rs_message r);
      mret (option_map (fill r) a)
  | APPEND_FILE =>
      a ← h_append_file (pk_client_id p) (pk_file_name p) (pk_buffer p) (rs_message r);
      mret (Some (fill r a))
  | CLIENT_CLOSE => m ← lift (strcpy MESSAGE_SIZE (rs_message r) (to_bytes "disconnected"));
                    mret (Some (r <| rs_message := m |>))
  end.

Definition on_srv {A} (m : M St A) : M (St * server_rpc_conn) A := fun '(s, c) =>
  match m s with Ok (a, s') => Ok (a, (s', c)) | Fault f => Fault f end.
Definition on_conn {A} (m : M server_rpc_conn A) : M (St * server_rpc_conn) A := fun '(s, c) =>
  match m c with Ok (a, c') => Ok (a, (s, c')) | Fault f => Fault f end.

(** The whole thread, alone.  [false]: its handler still waits. *)
Definition handle_packet (p : packet_info) (addr : sockaddr_in) : M (St * server_rpc_conn) bool :=
  role ← gets (fun s => h_role s.1);
  if decide (role <> LEADER) then on_conn (reject_request role p addr);; mret true
  else
    on_conn (find_client (pk_client_id p));;
    go ← on_conn (check_request p addr);
    if (go : bool) then
      r ← on_srv (dispatch p (response_to p));
      match (r : option response_info) with
      | Some r => on_conn (finish_request p addr r);; mret true
      | None => mret false
      end
    else mret true.
End handle_packet.

(** * The threads of the server *)

(** Where the thread of a request stands; [Done] has exited. *)
Inductive req_pc := Started | Found | Running | Returned (r : response_info) | Done.

#[export] Instance req_pc_eq_dec : EqDecision req_pc.
Proof. solve_decision. Defined.

Record req_thread := { rt_packet : packet_info; rt_addr : sockaddr_in; rt_pc : req_pc }.

#[export] Instance req_thread_eq_dec : EqDecision req_thread.
Proof. solve_decision. Defined.

#[export] Instance req_thread_eta : Eta req_thread := fun t =>
  {| rt_packet := rt_packet t; rt_addr := rt_addr t; rt_pc := rt_pc t |}.

(** The connection and the threads; [executed] are the requests (client and
    vtime) whose handler was called and [answers] the responses the handlers
    made, oldest first. *)
Record rpc_sys := {
  ss_conn : server_rpc_conn;
  ss_threads : list req_thread;
  executed : list (Z * Z);
  answers : list ((Z * Z) * response_info)
}.

#[export] Instance rpc_sys_eta : Eta rpc_sys := fun s =>
  {| ss_conn := ss_conn s; ss_threads := ss_threads s; executed := executed s; answers := answers s |}.

Definition rpc_start (sd : Z) : rpc_sys :=
  {| ss_conn := Server_RPC_init sd; ss_threads := []; executed := []; answers := [] |}.

Definition req_key (p : packet_info) : Z * Z := (pk_client_id p, pk_vtime p).

(** The next step of thread [i], given the role [rpc->raft->state] it reads when
    it starts and the answer of its handler when it has called it. *)
Definition req_step (role : node_state) (ans : Z * bytes) (i : nat) (s : rpc_sys) : option rpc_sys :=
  t ← ss_threads s !! i;
  let p := rt_packet t in
  let goto pc s := s <| ss_threads ::= fun l => <[i := t <| rt_pc := pc |>]> l |> in
  match rt_pc t with
  | Started =>
      if decide (role <> LEADER) then
        match reject_request role p (rt_addr t) (ss_conn s) with
        | Ok (_, c) => Some (goto Done (s <| ss_conn := c |>))
        | Fault _ => None
        end
      else
        match find_client (pk_client_id p) (ss_conn s) with
        | Ok (_, c) => Some (goto Found (s <| ss_conn := c |>))
        | Fault _ => None
        end
  | Found =>
      match check_request p (rt_addr t) (ss_conn s) with
      | Ok (true, c) =>
          Some (goto Running (s <| ss_conn := c |> <| executed ::= fun l => l ++ [req_key p] |>))
      | Ok (false, c) => Some (goto Done (s <| ss_conn := c |>))
      | Fault _ => None
      end
  | Running => Some (goto (Returned (fill (response_to p) ans)) s)
  | Returned r =>
      match finish_request p (rt_addr t) r (ss_conn s) with
      | Ok (_, c) => Some (goto Done (s <| ss_conn := c |> <| answers ::= fun l => l ++ [(req_key p, r)] |>))
      | Fault _ => None
      end
  | Done => None
  end.

(** [Server_RPC_listen]: a datagram starts a thread. *)
Definition rpc_listen (p : packet_info) (addr : sockaddr_in) (s : rpc_sys) : rpc_sys :=
  s <| ss_threads ::= fun l => l ++ [{| rt_packet := p; rt_addr := addr; rt_pc := Started |}] |>.

(** The runs in which every thread reaches its check ([Found]) in a state and
    with a packet that satisfy [G]. *)
Inductive rpc_reach (G : rpc_sys -> packet_info -> Prop) (sd : Z) : rpc_sys -> Prop :=
  | rpc_reach_start : rpc_reach G sd (rpc_start sd)
  | rpc_reach_listen p addr s : rpc_reach G sd s -> rpc_reach G sd (rpc_listen p addr s)
  | rpc_reach_step role ans i s s' :
      rpc_reach G sd s -> req_step role ans i s = Some s' ->
      (forall t, ss_threads s !! i = Some t -> rt_pc t = Found -> G s (rt_packet t)) ->
      rpc_reach G sd s'.

(** What the table knows of a client. *)
Definition table_vtime (s : rpc_sys) (id : Z) : option Z :=
  match arr_get (client_table (ss_conn s)) id with
  | Ok (Some c) => Some (cp_vtime c)
  | _ => None
  end.

Definition at_work (id : Z) (t : req_thread) : bool :=
  bool_decide (pk_client_id (rt_packet t) = id) &&
  match rt_pc t with Running | Returned _ => true | _ => false end.

(** The requests of a client are checked in the order of their vtimes. *)
Definition in_order (s : rpc_sys) (p : packet_info) : Prop :=
  exists v, table_vtime s (pk_client_id p) = Some v /\ v <= pk_vtime p.

(** A request is checked as a copy of the last one, or when no handler of its
    client runs. *)
Definition synchronous (s : rpc_sys) (p : packet_info) : Prop :=
  exists v, table_vtime s (pk_client_id p) = Some v /\
    (v = pk_vtime p \/ (v < pk_vtime p /\ count (at_work (pk_client_id p)) (ss_threads s) = 0)).

(** * Clients that wait *)

(** What a client knows of a request when it sends another one: a handler of
    this server answered it, or this server turned away every copy of it. *)
Definition request_answered (s : rpc_sys) (k : Z * Z) : Prop := k ∈ (answers s).*1.
Definition turned_away (s : rpc_sys) (k : Z * Z) : Prop :=
  (k ∉ executed s) /\ forall i t, ss_threads s !! i = Some t -> req_key (rt_packet t) = k -> rt_pc t = Done.

(** A datagram of a client that waits for the answer to a request before it
    sends the next one: whatever older request of the client has reached this
    server is over; a late copy of a request older than one that has reached
    this server is a copy of an answered one. *)
Definition waits (s : rpc_sys) (p : packet_info) : Prop :=
  forall i t, ss_threads s !! i = Some t -> pk_client_id (rt_packet t) = pk_client_id p ->
    (pk_vtime (rt_packet t) < pk_vtime p ->
       request_answered s (req_key (rt_packet t)) \/ turned_away s (req_key (rt_packet t))) /\
    (pk_vtime p < pk_vtime (rt_packet t) -> request_answered s (req_key p)).

(** The runs with such clients in which requests are checked in the order of
    their vtimes. *)
Inductive client_reach (sd : Z) : rpc_sys -> Prop :=
  | client_reach_start : client_reach sd (rpc_start sd)
  | client_reach_listen p addr s : client_reach sd s -> waits s p -> client_reach sd (rpc_listen p addr s)
  | client_reach_step role ans i s s' :
      client_reach sd s -> req_step role ans i s = Some s' ->
      (forall t, ss_threads s !! i = Some t -> rt_pc t = Found -> in_order s (rt_packet t)) ->
      client_reach sd s'.
