(* ===== verification/ServerRpcSpec.v ===== *)
(** What [server_rpc.c] promises: the effect of each section of
    [handle_packet], and the invariants of its threads. *)
From S2P Require Import Prelude Libc Posix RaftTypes PacketFormat Spinlock TimedLock RaftStorage RaftUtils RaftFollower RaftLeader RaftCandidate Raft Server ServerRpc.

#[local] Open Scope Z_scope.

(** * The client table *)

Definition client_of (c : server_rpc_conn) (id : Z) : option client_process_data :=
  match arr_get (client_table c) id with Ok (Some x) => Some x | _ => None end.

(** No thread is inside a section, and the table has its size. *)
Record conn_free (c : server_rpc_conn) : Prop := {
  cf_len : Z.of_nat (length (client_table c)) = MAX_ID;
  cf_table : client_table_lock c = 0;
  cf_client : forall id x, client_of c id = Some x -> cp_lock x = 0
}.

(** The table with the client [id] replaced; a datagram sent. *)
Definition store (id : Z) (x : client_process_data) (c : server_rpc_conn) : server_rpc_conn :=
  c <| client_table ::= <[Z.to_nat id := Some x]> |>.
Definition send (addr : sockaddr_in) (r : response_info) (c : server_rpc_conn) : server_rpc_conn :=
  c <| sent ::= fun l => l ++ [(addr, r)] |>.

Lemma client_of_bounds c id x : client_of c id = Some x -> 0 <= id < Z.of_nat (length (client_table c)).
Proof.
  unfold client_of. destruct (arr_get _ _) eqn:H; [|done]. intros _. by apply arr_get_bounds in H.
Qed.

Lemma spin_lock_ok w w' : spin_lock w = Ok w' <-> w = 0 /\ w' = 1.
Proof.
  unfold spin_lock, spinlock_acquire_try, compare_and_swap. case_decide; [|by split; [|intros [? _]]].
  split; [intros [= <-]|intros [_ ->]]; done.
Qed.

Lemma client_at_ok id c x c' :
  client_at id c = Ok (x, c') <-> client_of c id = Some x /\ c' = c.
Proof.
  unfold client_at, client_of. rewrite run_bind. unfold gets at 1. cbn beta iota. rewrite run_bind.
  unfold lift at 1. destruct (arr_get (client_table c) id) as [[y|]|]; cbn; split; try done; try (by intros [? _]).
  - by intros [= <- <-].
  - by intros [[= ->] ->].
Qed.

Lemma run_client_at id c x : client_of c id = Some x -> client_at id c = Ok (x, c).
Proof. intros H. by apply client_at_ok. Qed.

Lemma run_set_client id x c :
  0 <= id < Z.of_nat (length (client_table c)) -> set_client id x c = Ok (tt, store id x c).
Proof.
  intros Hb. unfold set_client. rewrite run_bind. unfold gets at 1. cbn beta iota. rewrite run_bind.
  unfold lift at 1, arr_set. apply in_bounds_spec in Hb. by rewrite Hb.
Qed.

Lemma client_of_store c id x id' :
  0 <= id < Z.of_nat (length (client_table c)) ->
  client_of (store id x c) id' = if decide (id' = id) then Some x else client_of c id'.
Proof.
  intros Hb. unfold client_of, store. cbn [client_table upd].
  assert (arr_set (client_table c) id (Some x) = Ok (<[Z.to_nat id := Some x]> (client_table c))) as Hs.
  { apply arr_set_ok. split; [by apply in_bounds_spec|done]. }
  case_decide as Hd.
  - subst. by rewrite (arr_get_set_eq _ _ _ _ Hs).
  - by rewrite (arr_get_set_ne _ _ id' _ _ Hs) by congruence.
Qed.

Lemma store_same c id x : client_of c id = Some x -> store id x c = c.
Proof.
  unfold client_of, store. destruct (arr_get _ _) as [[y|]|] eqn:H; try done. intros [= ->].
  apply arr_get_ok in H as [_ H]. destruct c as [sd t l sn]. cbn in *.
  transitivity {| sr_sd := sd; client_table := <[Z.to_nat id := Some x]> t; client_table_lock := l; sent := sn |};
    [done|]. f_equal. by apply list_insert_id.
Qed.

Lemma store_free c id x :
  conn_free c -> 0 <= id < MAX_ID -> cp_lock x = 0 -> conn_free (store id x c).
Proof.
  intros [Hl Ht Hc] Hid Hx. split; [cbn; by rewrite length_insert|done|].
  intros id' y Hy. rewrite client_of_store in Hy by lia. case_decide; [by injection Hy as <-|by eapply Hc].
Qed.

(** * The sections *)

Lemma run_lift {S A} (o : outcome A) a (s : S) : o = Ok a -> lift o s = Ok (a, s).
Proof. by intros ->. Qed.

Lemma run_lift_fault {S A} (o : outcome A) f (s : S) : o = Fault f -> lift o s = Fault f.
Proof. by intros ->. Qed.


Lemma run_respond addr r rc text c :
  (length (to_bytes text) < MESSAGE_SIZE)%nat ->
  exists m, respond addr r rc text c = Ok (tt, send addr (fill r (rc, m)) c).
Proof.
  intros Ht. unfold respond. rewrite run_bind.
  destruct (strcpy_fits MESSAGE_SIZE (rs_message r) (to_bytes text) Ht) as [m Hm].
  exists m. unfold lift. by rewrite Hm.
Qed.

Lemma run_find_client id c :
  conn_free c -> 0 <= id < MAX_ID ->
  find_client id c =
    Ok (tt, match client_of c id with Some _ => c | None => store id (new_client id) c end).
Proof.
  intros [Hl Ht Hc] Hid. destruct (arr_get_in_bounds (client_table c) id) as [o Ho].
  { apply in_bounds_spec; lia. }
  destruct c as [sd t l sn]. cbn in Ht. subst l. unfold find_client, client_of.
  cbn in Ho. rewrite run_bind. unfold gets at 1. cbn beta iota.
  rewrite run_bind, (run_lift (spin_lock 0) 1) by done. rewrite run_bind. unfold modify at 1. cbn beta iota.
  rewrite run_bind. unfold gets. cbn beta iota. rewrite run_bind.
  rewrite (run_lift _ o) by exact Ho. cbn [client_table]. rewrite Ho, run_bind.
  destruct o as [x|]; [done|]. rewrite run_set_client; [done|]. cbn in *. lia.
Qed.

(** A vtime the client has not just used goes on to the handler. *)
Lemma run_check_new p addr c x :
  client_of c (pk_client_id p) = Some x -> cp_lock x = 0 -> cp_vtime x <> pk_vtime p ->
  check_request p addr c =
    Ok (true, store (pk_client_id p) (x <| cp_state := Some PROCESSING |> <| cp_vtime := pk_vtime p |>) c).
Proof.
  intros Hc Hl Hv. unfold check_request. rewrite run_bind, (run_client_at _ _ _ Hc). rewrite run_bind.
  rewrite (run_lift (spin_lock (cp_lock x)) 1) by (by rewrite Hl).
  rewrite decide_False by done. rewrite run_bind, run_set_client by by eapply client_of_bounds.
  rewrite run_ret. destruct x. cbn in Hl. by subst.
Qed.

(** The last vtime of the client is answered from the table. *)
Lemma run_check_same p addr c x :
  client_of c (pk_client_id p) = Some x -> cp_lock x = 0 -> cp_vtime x = pk_vtime p ->
  match cp_state x, cp_last_response x with
  | Some PROCESSING, _ => exists m,
      check_request p addr c = Ok (false, send addr (fill (response_to p) (E_IN_PROGRESS, m)) c)
  | Some WAITING, Some r => check_request p addr c = Ok (false, send addr r c)
  | _, _ => check_request p addr c = Fault Indeterminate
  end.
Proof.
  intros Hc Hl Hv.
  assert (forall a r, store (pk_client_id p) (x <| cp_lock := 1 |> <| cp_lock ::= spinlock_release |>)
                   (send a r c) = send a r c) as Hset.
  { intros a r. apply store_same. destruct x. cbn in *. by subst. }
  destruct (run_respond addr (response_to p) E_IN_PROGRESS
    "request from this client is already in progress" c) as [m Hm]; [vm_compute; lia|].
  destruct (cp_state x) as [[]|] eqn:Hs; [|destruct (cp_last_response x) as [r|] eqn:Hr|]; [exists m|..];
    unfold check_request; rewrite run_bind, (run_client_at _ _ _ Hc), run_bind,
      (run_lift (spin_lock (cp_lock x)) 1) by (by rewrite Hl);
    rewrite decide_True by done; change (cp_state (x <| cp_lock := 1 |>)) with (cp_state x);
    change (cp_last_response (x <| cp_lock := 1 |>)) with (cp_last_response x);
    rewrite Hs, ?Hr, run_bind; try done.
  - rewrite Hm, run_bind, run_set_client by by apply (client_of_bounds c _ x). rewrite run_ret. f_equal. f_equal. apply Hset.
  - unfold send_packet_response, modify. rewrite run_bind, run_set_client by by apply (client_of_bounds c _ x).
    rewrite run_ret. f_equal. f_equal. apply Hset.
Qed.

Lemma run_finish p addr r c x :
  client_of c (pk_client_id p) = Some x -> cp_lock x = 0 ->
  finish_request p addr r c =
    Ok (tt, store (pk_client_id p) (x <| cp_state := Some WAITING |> <| cp_last_response := Some r |>)
              (send addr r c)).
Proof.
  intros Hc Hl. unfold finish_request. rewrite run_bind, (run_client_at _ _ _ Hc), run_bind.
  rewrite (run_lift (spin_lock (cp_lock x)) 1) by (by rewrite Hl). rewrite run_bind. unfold send_packet_response, modify. 
  rewrite run_set_client by by apply (client_of_bounds c _ x). destruct x. cbn in *. by subst.
Qed.

Lemma run_reject role p addr c :
  exists m, reject_request role p addr c =
    Ok (tt, send addr (fill (response_to p) (if decide (role = FOLLOWER) then E_FOLLOWER else E_ELECTION, m)) c).
Proof. unfold reject_request. apply run_respond. vm_compute. lia. Qed.

(** A handler's call writes the return code and the message, nothing else. *)
Lemma dispatch_fill {St} `{RpcHandlers St} p r s r' s' :
  dispatch p r s = Ok (Some r', s') -> exists a, r' = fill r a.
Proof.
  unfold dispatch. destruct (pk_operation p); try destruct (get_token _); intros Hd;
    apply bind_ok in Hd as (a & s1 & _ & Hd); injection Hd as Hd <-.
  - exists (rs_rc r, a). by rewrite <- Hd.
  - by exists a.
  - destruct a as [a|]; [|done]. injection Hd as <-. by exists a.
  - by exists a.
  - exists (rs_rc r, a). by rewrite <- Hd.
Qed.

(** A [client_id] outside the table is not checked for: the access is out of
    bounds. *)
Lemma find_client_out id c :
  conn_free c -> ~ 0 <= id < MAX_ID -> find_client id c = Fault OutOfBounds.
Proof.
  intros [Hl Ht Hc] Hid. unfold find_client. rewrite run_bind. unfold gets at 1. cbn beta iota.
  rewrite run_bind, (run_lift (spin_lock _) 1) by (by rewrite Ht). rewrite run_bind. unfold modify at 1.
  cbn beta iota. rewrite run_bind. unfold gets. cbn beta iota. rewrite run_bind.
  destruct (arr_get (client_table c) id) as [o|f] eqn:Ho.
  - apply arr_get_bounds in Ho. lia.
  - rewrite (run_lift_fault _ f) by exact Ho. f_equal. unfold arr_get in Ho. destruct (0 <=? id); [destruct (_ !! _)|]; congruence.
Qed.

(** * The invariant of the threads *)

Definition thread_ok (c : server_rpc_conn) (t : req_thread) : Prop :=
  match rt_pc t with
  | Started | Done => True
  | Found | Running => is_Some (client_of c (pk_client_id (rt_packet t)))
  | Returned r => is_Some (client_of c (pk_client_id (rt_packet t))) /\
      exists a, r = fill (response_to (rt_packet t)) a
  end.

Record rpc_inv (s : rpc_sys) : Prop := {
  ri_free : conn_free (ss_conn s);
  ri_thread : forall i t, ss_threads s !! i = Some t -> thread_ok (ss_conn s) t;
  ri_client : forall id x, client_of (ss_conn s) id = Some x ->
    (cp_state x = None -> cp_vtime x = -1) /\
    (cp_state x = Some WAITING -> is_Some (cp_last_response x))
}.

Definition goto (i : nat) (t : req_thread) (pc : req_pc) (c : server_rpc_conn)
    (ex : list (Z * Z)) (an : list ((Z * Z) * response_info)) (s : rpc_sys) : rpc_sys :=
  {| ss_conn := c; ss_threads := <[i := t <| rt_pc := pc |>]> (ss_threads s);
     executed := executed s ++ ex; answers := answers s ++ an |}.

(** The steps of a thread, by what they do to the table. *)
Inductive step_effect (s : rpc_sys) (i : nat) (t : req_thread) : rpc_sys -> Prop :=
  | eff_reject r : rt_pc t = Started ->
      step_effect s i t (goto i t Done (send (rt_addr t) r (ss_conn s)) [] [] s)
  | eff_find : rt_pc t = Started -> 0 <= pk_client_id (rt_packet t) < MAX_ID ->
      step_effect s i t (goto i t Found
        (match client_of (ss_conn s) (pk_client_id (rt_packet t)) with
         | Some _ => ss_conn s
         | None => store (pk_client_id (rt_packet t)) (new_client (pk_client_id (rt_packet t))) (ss_conn s)
         end) [] [] s)
  | eff_new x : rt_pc t = Found ->
      client_of (ss_conn s) (pk_client_id (rt_packet t)) = Some x ->
      cp_vtime x <> pk_vtime (rt_packet t) ->
      step_effect s i t (goto i t Running
        (store (pk_client_id (rt_packet t))
          (x <| cp_state := Some PROCESSING |> <| cp_vtime := pk_vtime (rt_packet t) |>) (ss_conn s))
        [req_key (rt_packet t)] [] s)
  | eff_same x r : rt_pc t = Found ->
      client_of (ss_conn s) (pk_client_id (rt_packet t)) = Some x ->
      cp_vtime x = pk_vtime (rt_packet t) ->
      (cp_state x = Some PROCESSING /\ (exists m, r = fill (response_to (rt_packet t)) (E_IN_PROGRESS, m)) \/
       cp_state x = Some WAITING /\ cp_last_response x = Some r) ->
      step_effect s i t (goto i t Done (send (rt_addr t) r (ss_conn s)) [] [] s)
  | eff_return a : rt_pc t = Running ->
      step_effect s i t (goto i t (Returned (fill (response_to (rt_packet t)) a)) (ss_conn s) [] [] s)
  | eff_finish x r : rt_pc t = Returned r ->
      client_of (ss_conn s) (pk_client_id (rt_packet t)) = Some x ->
      step_effect s i t (goto i t Done
        (store (pk_client_id (rt_packet t))
          (x <| cp_state := Some WAITING |> <| cp_last_response := Some r |>)
          (send (rt_addr t) r (ss_conn s)))
        [] [(req_key (rt_packet t), r)] s).

Lemma effect_eq s i t x s' : step_effect s i t x -> x = s' -> step_effect s i t s'.
Proof. by intros ? <-. Qed.

Ltac goto_eq s := unfold goto; rewrite ?app_nil_r; destruct s; reflexivity.

Lemma step_cases role ans i s s' :
  rpc_inv s -> req_step role ans i s = Some s' ->
  exists t, ss_threads s !! i = Some t /\ step_effect s i t s'.
Proof.
  intros [Hf Ht Hc] Hs. unfold req_step in Hs. destruct (ss_threads s !! i) as [t|] eqn:Hi; [|done].
  cbn [mbind option_bind] in Hs. exists t. split; [done|]. specialize (Ht i t Hi). unfold thread_ok in Ht.
  destruct (rt_pc t) as [| | |r|] eqn:Hpc; cbn in Hs.
  - case_decide.
    + destruct (run_reject role (rt_packet t) (rt_addr t) (ss_conn s)) as [m Hr]. rewrite Hr in Hs.
      injection Hs as <-. eapply effect_eq; [by apply eff_reject|goto_eq s].
    + destruct (decide (0 <= pk_client_id (rt_packet t) < MAX_ID)) as [Hb|Hb].
      * rewrite run_find_client in Hs by done. injection Hs as <-.
        eapply effect_eq; [by apply eff_find|goto_eq s].
      * by rewrite find_client_out in Hs.
  - destruct Ht as [x Hx]. destruct (decide (cp_vtime x = pk_vtime (rt_packet t))) as [Hv|Hv].
    + pose proof (run_check_same (rt_packet t) (rt_addr t) _ x Hx (cf_client _ Hf _ _ Hx) Hv) as H.
      destruct (cp_state x) as [[]|] eqn:Hst; [|destruct (cp_last_response x) as [r|] eqn:Hr|];
        [destruct H as [m H]|..]; rewrite H in Hs; try done; injection Hs as <-.
      * eapply effect_eq; [eapply eff_same; eauto|goto_eq s].
      * eapply effect_eq; [eapply eff_same; eauto|goto_eq s].
    + rewrite (run_check_new _ _ _ x) in Hs by (try done; by apply Hf in Hx). injection Hs as <-.
      eapply effect_eq; [by eapply eff_new|goto_eq s].
  - injection Hs as <-. eapply effect_eq; [by apply (eff_return s i t ans)|goto_eq s].
  - destruct Ht as [[x Hx] _]. rewrite (run_finish _ _ _ _ x) in Hs by (try done; by apply Hf in Hx).
    injection Hs as <-. eapply effect_eq; [by eapply eff_finish|goto_eq s].
  - done.
Qed.

Definition client_ok (x : client_process_data) : Prop :=
  (cp_state x = None -> cp_vtime x = -1) /\
  (cp_state x = Some WAITING -> is_Some (cp_last_response x)).

Lemma thread_ok_mono c c' t :
  (forall id, is_Some (client_of c id) -> is_Some (client_of c' id)) -> thread_ok c t -> thread_ok c' t.
Proof. unfold thread_ok. destruct (rt_pc t); firstorder. Qed.

Lemma inv_goto i t pc c ex an s :
  rpc_inv s -> ss_threads s !! i = Some t -> conn_free c ->
  (forall id, is_Some (client_of (ss_conn s) id) -> is_Some (client_of c id)) ->
  (forall id x, client_of c id = Some x -> client_ok x) ->
  thread_ok c (t <| rt_pc := pc |>) -> rpc_inv (goto i t pc c ex an s).
Proof.
  intros [Hf Ht Hc] Hi Hf' Hm Hc' Ht'. split; cbn; [done| |done].
  intros j u Hj. destruct (decide (i = j)) as [<-|Hne].
  - rewrite list_lookup_insert_eq in Hj by by eapply lookup_lt_Some. by injection Hj as <-.
  - rewrite list_lookup_insert_ne in Hj by done. eapply thread_ok_mono; eauto.
Qed.

(** Storing a well-formed client keeps the table. *)
Lemma store_ok s id y c :
  rpc_inv s -> 0 <= id < MAX_ID -> client_ok y -> cp_lock y = 0 ->
  client_of c = client_of (ss_conn s) -> conn_free c ->
  conn_free (store id y c) /\
  (forall id', is_Some (client_of (ss_conn s) id') -> is_Some (client_of (store id y c) id')) /\
  (forall id' x, client_of (store id y c) id' = Some x -> client_ok x) /\
  is_Some (client_of (store id y c) id).
Proof.
  intros [Hf Ht Hc] Hid Hy Hl Heq Hfc.
  assert (forall id', client_of (store id y c) id' =
    if decide (id' = id) then Some y else client_of (ss_conn s) id') as Hst.
  { intros id'. rewrite client_of_store by (rewrite (cf_len _ Hfc); lia). by rewrite Heq. }
  split; [by apply store_free|]. split; [|split].
  - intros id'. rewrite Hst. case_decide; eauto.
  - intros id' x. rewrite Hst. case_decide; [by intros [= <-]|apply Hc].
  - rewrite Hst, decide_True by done. eauto.
Qed.

Lemma client_of_range s id x : rpc_inv s -> client_of (ss_conn s) id = Some x -> 0 <= id < MAX_ID.
Proof. intros [Hf _ _] H%client_of_bounds. by rewrite <- (cf_len _ Hf). Qed.

Lemma rpc_inv_step s i t s' :
  rpc_inv s -> ss_threads s !! i = Some t -> step_effect s i t s' -> rpc_inv s'.
Proof.
  intros Hinv Hi He. pose proof Hinv as [Hf Ht Hc]. specialize (Ht i t Hi) as Hti. unfold thread_ok in Hti.
  destruct He as [r Hpc|Hpc Hb|x Hpc Hx Hv|x r Hpc Hx Hv Hr|a Hpc|x r Hpc Hx]; rewrite Hpc in Hti.
  - apply inv_goto; try done. by destruct Hf.
  - destruct (client_of (ss_conn s) _) as [x|] eqn:Hx.
    + apply inv_goto; eauto. cbn. by eexists.
    + destruct (store_ok s (pk_client_id (rt_packet t)) (new_client (pk_client_id (rt_packet t))) (ss_conn s))
        as (?&?&?&?); try done. by apply inv_goto.
  - destruct (store_ok s (pk_client_id (rt_packet t))
      (x <| cp_state := Some PROCESSING |> <| cp_vtime := pk_vtime (rt_packet t) |>) (ss_conn s))
      as (?&?&?&?); try done; [by eapply client_of_range|by apply (cf_client _ Hf _ _ Hx)|by apply inv_goto].
  - apply inv_goto; try done. by destruct Hf.
  - apply inv_goto; eauto. cbn. eauto.
  - destruct (store_ok s (pk_client_id (rt_packet t))
      (x <| cp_state := Some WAITING |> <| cp_last_response := Some r |>) (send (rt_addr t) r (ss_conn s)))
      as (?&?&?&?); try done; [by eapply client_of_range|by apply (cf_client _ Hf _ _ Hx)|by destruct Hf|by apply inv_goto].
Qed.

Lemma start_table id sd : client_of (Server_RPC_init sd) id = None.
Proof.
  unfold client_of, Server_RPC_init, arr_get. cbn [client_table]. destruct (0 <=? id); [|done].
  destruct (replicate _ _ !! _) as [o|] eqn:H; [|done]. apply lookup_replicate in H as [-> _]. done.
Qed.

Lemma rpc_inv_reach G sd s : rpc_reach G sd s -> rpc_inv s.
Proof.
  induction 1 as [|p addr s _ IH|role ans i s s' _ IH Hs _].
  - split; cbn; [split| |].
    + cbn. by rewrite length_replicate.
    + done.
    + intros id x. by rewrite start_table.
    + done.
    + intros id x. by rewrite start_table.
  - destruct IH as [Hf Ht Hc]. split; cbn; try done. intros i t [Hi|[_ Hi]]%lookup_app_Some.
    + by apply Ht in Hi.
    + apply list_lookup_singleton_Some in Hi as [_ <-]. done.
  - destruct (step_cases _ _ _ _ _ IH Hs) as (t & Hi & He). by eapply rpc_inv_step.
Qed.

(** * Theorems *)

(** C33: The thread of a request with a client number in the table (0 to 999,
    server_rpc.c:64 does not test it) and a vtime other than -1 (that of a new
    table entry) never waits for a lock word another thread left set and never
    leaves the defined behaviour: in every reachable state it can take its
    next step. *)
Theorem rpc_thread_progress G sd s i t role ans :
  rpc_reach G sd s -> ss_threads s !! i = Some t -> rt_pc t <> Done ->
  0 <= pk_client_id (rt_packet t) < MAX_ID -> pk_vtime (rt_packet t) <> -1 ->
  exists s', req_step role ans i s = Some s'.
Proof.
  intros Hr Hi Hd Hid Hv. destruct (rpc_inv_reach _ _ _ Hr) as [Hf Ht Hc].
  specialize (Ht i t Hi). unfold thread_ok in Ht. unfold req_step. rewrite Hi.
  cbn [mbind option_bind]. destruct (rt_pc t) as [| | |r|]; cbn; try done.
  - case_decide.
    + destruct (run_reject role (rt_packet t) (rt_addr t) (ss_conn s)) as [m ->]. eauto.
    + rewrite run_find_client by done. eauto.
  - destruct Ht as [x Hx]. pose proof (cf_client _ Hf _ _ Hx) as Hl.
    destruct (decide (cp_vtime x = pk_vtime (rt_packet t))) as [Hvx|Hvx].
    + pose proof (run_check_same (rt_packet t) (rt_addr t) _ x Hx Hl Hvx) as H.
      destruct (Hc _ _ Hx) as [Hn Hw]. destruct (cp_state x) as [[]|].
      * destruct H as [m ->]. eauto.
      * destruct (Hw eq_refl) as [r Hrr]. rewrite Hrr in H. rewrite H. eauto.
      * specialize (Hn eq_refl). congruence.
    + rewrite (run_check_new _ _ _ x) by done. eauto.
  - eauto.
  - destruct Ht as [[x Hx] _]. rewrite (run_finish _ _ _ _ x) by (try done; by apply Hf in Hx). eauto.
Qed.

Lemma table_vtime_of s id : table_vtime s id = cp_vtime <$> client_of (ss_conn s) id.
Proof. unfold table_vtime, client_of. by destruct (arr_get _ _) as [[]|]. Qed.

Definition once_inv (s : rpc_sys) : Prop :=
  NoDup (executed s) /\
  forall k, k ∈ executed s -> exists x, client_of (ss_conn s) k.1 = Some x /\ k.2 <= cp_vtime x.

(** A step that runs no handler and lets no vtime go down. *)
Lemma once_goto i t pc c an s :
  once_inv s ->
  (forall id x, client_of (ss_conn s) id = Some x ->
     exists y, client_of c id = Some y /\ cp_vtime x <= cp_vtime y) ->
  once_inv (goto i t pc c [] an s).
Proof.
  intros [Hn Hv] Hm. unfold goto, once_inv. cbn. rewrite app_nil_r. split; [done|].
  intros k Hk. destruct (Hv k Hk) as (x & Hx & Hle). destruct (Hm _ _ Hx) as (y & Hy & Hle').
  exists y. split; [done|lia].
Qed.

Lemma store_vtime s id y c :
  rpc_inv s -> client_of c = client_of (ss_conn s) -> conn_free c ->
  0 <= id < MAX_ID -> (forall x, client_of (ss_conn s) id = Some x -> cp_vtime x <= cp_vtime y) ->
  forall id' x, client_of (ss_conn s) id' = Some x ->
    exists z, client_of (store id y c) id' = Some z /\ cp_vtime x <= cp_vtime z.
Proof.
  intros Hinv Heq Hfc Hid Hy id' x Hx. rewrite client_of_store by (rewrite (cf_len _ Hfc); lia).
  rewrite Heq. case_decide as Hd; [subst|by exists x]. eauto.
Qed.

Lemma once_step s i t s' :
  rpc_inv s -> once_inv s -> ss_threads s !! i = Some t -> step_effect s i t s' ->
  (rt_pc t = Found -> in_order s (rt_packet t)) -> once_inv s'.
Proof.
  intros Hinv Ho Hi He Hg. pose proof Hinv as [Hf Ht Hc].
  destruct He as [r Hpc|Hpc Hb|x Hpc Hx Hv|x r Hpc Hx Hv Hr|a Hpc|x r Hpc Hx]; try (apply once_goto; [done|by intros ? y ?; exists y]).
  - destruct (client_of (ss_conn s) _) as [x|] eqn:Hx; apply once_goto; try done; [by intros ? y ?; exists y|].
    apply store_vtime; try done. by rewrite Hx.
  - pose proof (client_of_range _ _ _ Hinv Hx) as Hid. destruct Ho as [Hn Hle].
    destruct (Hg Hpc) as (v & Htv & Hvle). rewrite table_vtime_of, Hx in Htv. injection Htv as <-.
    assert (forall id' z, client_of (ss_conn s) id' = Some z -> exists y,
      client_of (store (pk_client_id (rt_packet t))
        (x <| cp_state := Some PROCESSING |> <| cp_vtime := pk_vtime (rt_packet t) |>) (ss_conn s)) id' = Some y /\
      cp_vtime z <= cp_vtime y) as Hst.
    { apply store_vtime; try done. intros z Hz. rewrite Hx in Hz. injection Hz as <-. done. }
    split; cbn.
    + apply list.NoDup_app. split_and!; [done| |apply NoDup_singleton].
      intros k Hk ->%list_elem_of_singleton. destruct (Hle _ Hk) as (z & Hz & Hzle). cbn in *.
      rewrite Hx in Hz. injection Hz as <-. lia.
    + intros k [Hk| ->%list_elem_of_singleton]%elem_of_app.
      * destruct (Hle _ Hk) as (z & Hz & Hzle). destruct (Hst _ _ Hz) as (y & Hy & ?).
        exists y. split; [done|lia].
      * cbn [fst snd req_key]. rewrite client_of_store, decide_True by (try done; rewrite (cf_len _ Hf); lia).
        by eexists.
  - apply once_goto; [done|]. apply store_vtime; try done; [by destruct Hf|by eapply client_of_range|].
    intros z Hz. rewrite Hx in Hz. by injection Hz as <-.
Qed.

Lemma once_reach sd s : rpc_reach in_order sd s -> once_inv s.
Proof.
  induction 1 as [|p addr s _ IH|role ans i s s' Hr IH Hs Hg].
  - split; [constructor|]. intros k Hk. by apply elem_of_nil in Hk.
  - done.
  - pose proof (rpc_inv_reach _ _ _ Hr) as Hinv.
    destruct (step_cases _ _ _ _ _ Hinv Hs) as (t & Hi & He). by eapply once_step; eauto.
Qed.

(** C30: When the requests of each client are checked in the order of their
    vtimes, no request is handled twice, however often it is sent and however
    the threads interleave. *)
Theorem rpc_at_most_once sd s : rpc_reach in_order sd s -> NoDup (executed s).
Proof. by intros [? _]%once_reach. Qed.

(** The run of [req_step] over a list of moves. *)
Definition play (l : list (node_state * (Z * bytes) * nat)) (s : rpc_sys) : option rpc_sys :=
  foldl (fun o m => s ← o; req_step m.1.1 m.1.2 m.2 s) (Some s) l.

Lemma play_reach sd l s s' :
  rpc_reach (fun _ _ => True) sd s -> play l s = Some s' -> rpc_reach (fun _ _ => True) sd s'.
Proof.
  unfold play. revert s. induction l as [|[[role ans] i] l IH]; intros s Hr; cbn; [by intros [= <-]|].
  destruct (req_step role ans i s) as [s1|] eqn:Hs.
  - apply IH. by eapply rpc_reach_step.
  - clear. intros H. exfalso. induction l as [|m l IH]; cbn in H; [done|]. by apply IH.
Qed.

Definition client_packet (id vtime : Z) (op : operation_type) : packet_info :=
  zero_packet <| pk_client_id := id |> <| pk_vtime := vtime |> <| pk_operation := op |>.

(** Without the order, a copy of an old request that arrives after a
    newer one is handled again, and handlers of one client run side by side.
    *)
Theorem rpc_reordered_twice :
  exists s, rpc_reach (fun _ _ => True) 0 s /\ executed s = [(7, 0); (7, 1); (7, 0)] /\
    count (at_work 7) (ss_threads s) = 3.
Proof.
  set (a := {| sin_port := 1; sin_addr := 1 |}).
  set (s0 := rpc_listen (client_packet 7 0 LOCK_ACQUIRE) a (rpc_listen (client_packet 7 1 APPEND_FILE) a
    (rpc_listen (client_packet 7 0 LOCK_ACQUIRE) a (rpc_start 0)))).
  assert (rpc_reach (fun _ _ => True) 0 s0) as H0 by (do 3 apply rpc_reach_listen; apply rpc_reach_start).
  destruct (play ((fun i => (LEADER, (0, []), i)) <$> [0; 0; 1; 1; 2; 2]%nat) s0) as [s|] eqn:Hp.
  - exists s. split; [by eapply play_reach|]. vm_compute in Hp. injection Hp as <-. by vm_compute.
  - by vm_compute in Hp.
Qed.

(** * Clients that wait for their answers *)

(** What the table says of a client [x] and what its threads do agree. *)
Record client_sync (s : rpc_sys) (id : Z) (x : client_process_data) : Prop := {
  cs_work : count (at_work id) (ss_threads s) = if decide (cp_state x = Some PROCESSING) then 1 else 0;
  cs_vtime : forall i t, ss_threads s !! i = Some t -> at_work id t = true ->
    pk_vtime (rt_packet t) = cp_vtime x;
  cs_last : forall r, cp_state x = Some WAITING -> cp_last_response x = Some r ->
    ((id, cp_vtime x), r) ∈ answers s /\ rs_client_id r = id /\ rs_vtime r = cp_vtime x
}.

Definition sync_inv (s : rpc_sys) : Prop :=
  forall id x, client_of (ss_conn s) id = Some x -> client_sync s id x.

Lemma no_client_no_work s id : rpc_inv s -> client_of (ss_conn s) id = None ->
  count (at_work id) (ss_threads s) = 0.
Proof.
  intros [_ Ht _] Hn. apply count_zero. intros i t Hi. specialize (Ht i t Hi).
  unfold thread_ok, at_work in *. case_bool_decide as Hd; [|done]. rewrite Hd, Hn in Ht.
  destruct (rt_pc t); try done. by destruct Ht as [[] _].
Qed.

(** A step whose thread works for [id] after it iff before leaves [id] in step. *)
Lemma sync_goto_same i t pc c ex an s id x :
  ss_threads s !! i = Some t -> client_sync s id x ->
  at_work id (t <| rt_pc := pc |>) = at_work id t -> client_sync (goto i t pc c ex an s) id x.
Proof.
  intros Hi [Hw Hv Hl] Hsame. split; cbn.
  - rewrite (count_insert _ _ _ t) by done. rewrite Hsame. lia.
  - intros j u Hj Hu. destruct (decide (i = j)) as [<-|Hne].
    + rewrite list_lookup_insert_eq in Hj by by eapply lookup_lt_Some. injection Hj as <-.
      rewrite Hsame in Hu. by apply (Hv i t).
    + rewrite list_lookup_insert_ne in Hj by done. by apply (Hv j u).
  - intros r Hs Hr. destruct (Hl r Hs Hr) as (Hin & ?). split; [set_solver|done].
Qed.

Lemma at_work_pc id t pc :
  at_work id (t <| rt_pc := pc |>) =
  bool_decide (pk_client_id (rt_packet t) = id) && match pc with Running | Returned _ => true | _ => false end.
Proof. by destruct t. Qed.

Lemma at_work_other id t pc :
  pk_client_id (rt_packet t) <> id -> at_work id (t <| rt_pc := pc |>) = at_work id t.
Proof. intros H. rewrite at_work_pc. unfold at_work. by rewrite bool_decide_false by done. Qed.

(** A step that stores [y] for the client of its thread. *)
Lemma sync_goto_store i t pc c ex an s y :
  rpc_inv s -> sync_inv s -> ss_threads s !! i = Some t -> conn_free c ->
  client_of c = client_of (ss_conn s) -> 0 <= pk_client_id (rt_packet t) < MAX_ID ->
  client_sync (goto i t pc (store (pk_client_id (rt_packet t)) y c) ex an s) (pk_client_id (rt_packet t)) y ->
  sync_inv (goto i t pc (store (pk_client_id (rt_packet t)) y c) ex an s).
Proof.
  intros Hinv Hs Hi Hf Heq Hid Hy id x. cbn [goto ss_conn].
  rewrite client_of_store by (rewrite (cf_len _ Hf); lia). rewrite Heq. case_decide as Hd.
  - intros [= <-]. by subst.
  - intros Hx. apply sync_goto_same; [done|by apply Hs|]. by apply at_work_other.
Qed.

Lemma sync_goto_keep i t pc c an s :
  sync_inv s -> ss_threads s !! i = Some t -> client_of c = client_of (ss_conn s) ->
  (forall id, at_work id (t <| rt_pc := pc |>) = at_work id t) -> sync_inv (goto i t pc c [] an s).
Proof.
  intros Hs Hi Heq Hw id x Hx. cbn in Hx. rewrite Heq in Hx. apply sync_goto_same; auto.
Qed.

Lemma at_work_running id t : at_work id t = true -> pk_client_id (rt_packet t) = id.
Proof. unfold at_work. by intros [H%bool_decide_eq_true _]%andb_true_iff. Qed.

Lemma sync_step s i t s' :
  rpc_inv s -> sync_inv s -> ss_threads s !! i = Some t -> step_effect s i t s' ->
  (rt_pc t = Found -> synchronous s (rt_packet t)) -> sync_inv s'.
Proof.
  intros Hinv Hs Hi He Hg. pose proof Hinv as [Hf Ht Hc]. specialize (Ht i t Hi) as Hti.
  unfold thread_ok in Hti. set (id := pk_client_id (rt_packet t)) in *.
  assert (forall pc, at_work id (t <| rt_pc := pc |>) =
    match pc with Running | Returned _ => true | _ => false end) as Hwpc.
  { intros pc. by rewrite at_work_pc, bool_decide_true. }
  assert (at_work id t = match rt_pc t with Running | Returned _ => true | _ => false end) as Hwt.
  { unfold at_work. by rewrite bool_decide_true. }
  destruct He as [r Hpc|Hpc Hb|x Hpc Hx Hv|x r Hpc Hx Hv Hr|a Hpc|x r Hpc Hx]; rewrite Hpc in Hti, Hwt.
  - apply sync_goto_keep; try done. intros id'. rewrite at_work_pc. unfold at_work. by rewrite Hpc.
  - destruct (client_of (ss_conn s) _) as [x|] eqn:Hx.
    + apply sync_goto_keep; try done. intros id'. rewrite at_work_pc. unfold at_work. by rewrite Hpc.
    + apply sync_goto_store; try done. fold id. split; cbn; try done.
      * rewrite (count_insert _ _ _ t) by done. rewrite Hwpc, Hwt.
        by rewrite (no_client_no_work s id Hinv Hx).
      * intros j u Hj Hu. exfalso. pose proof (no_client_no_work s id Hinv Hx) as Hz.
        rewrite count_zero in Hz. destruct (decide (i = j)) as [<-|Hne].
        -- rewrite list_lookup_insert_eq in Hj by by eapply lookup_lt_Some. injection Hj as <-.
           by rewrite Hwpc in Hu.
        -- rewrite list_lookup_insert_ne in Hj by done. by rewrite (Hz j u Hj) in Hu.
  - pose proof (client_of_range _ _ _ Hinv Hx) as Hid. destruct (Hg Hpc) as (v & Htv & Hcase).
    fold id in Htv, Hx, Hid. rewrite table_vtime_of, Hx in Htv. injection Htv as <-.
    destruct Hcase as [?|[Hlt Hz]]; [done|]. fold id in Hz.
    apply sync_goto_store; try done. fold id. split; cbn; try done.
    + rewrite (count_insert _ _ _ t) by done. by rewrite Hz, Hwpc, Hwt.
    + intros j u Hj Hu. rewrite count_zero in Hz. destruct (decide (i = j)) as [<-|Hne].
      * rewrite list_lookup_insert_eq in Hj by by eapply lookup_lt_Some. by injection Hj as <-.
      * rewrite list_lookup_insert_ne in Hj by done. by rewrite (Hz j u Hj) in Hu.
  - apply sync_goto_keep; try done. intros id'. rewrite at_work_pc. unfold at_work. by rewrite Hpc.
  - apply sync_goto_keep; try done. intros id'. rewrite at_work_pc. unfold at_work. by rewrite Hpc.
  - pose proof (client_of_range _ _ _ Hinv Hx) as Hid. destruct (Hs id x Hx) as [Hw Hvt Hl].
    assert (pk_vtime (rt_packet t) = cp_vtime x) as Hvx by by apply (Hvt i t).
    pose proof (count_pos _ _ _ _ Hi Hwt) as Hpos. destruct (decide (cp_state x = Some PROCESSING)) as [Hst|Hst]; [|lia].
    apply sync_goto_store; try done; [by destruct Hf|]. fold id. split; cbn.
    + rewrite (count_insert _ _ _ t) by done. by rewrite Hw, Hwpc, Hwt.
    + intros j u Hj Hu. destruct (decide (i = j)) as [<-|Hne].
      * rewrite list_lookup_insert_eq in Hj by by eapply lookup_lt_Some. injection Hj as <-. by rewrite Hwpc in Hu.
      * rewrite list_lookup_insert_ne in Hj by done. by apply (Hvt j u).
    + intros r' _ [= <-]. destruct Hti as [_ [a ->]]. cbn. rewrite Hvx. split; [|done].
      unfold req_key. fold id. rewrite Hvx. set_solver.
Qed.

Lemma sync_reach sd s : rpc_reach synchronous sd s -> rpc_inv s /\ sync_inv s.
Proof.
  induction 1 as [|p addr s Hr [Hinv IH]|role ans i s s' Hr [Hinv IH] Hs Hg].
  - split; [by eapply rpc_inv_reach, (rpc_reach_start synchronous)|]. intros id x. cbn. by rewrite start_table.
  - split; [by eapply rpc_inv_reach, rpc_reach_listen|]. intros id x Hx. destruct (IH id x Hx) as [Hw Hv Hl].
    set (t := {| rt_packet := p; rt_addr := addr; rt_pc := Started |}).
    assert (at_work id t = false) as Hwt by (unfold at_work; cbn; by rewrite andb_false_r).
    split; cbn; [| |done].
    + unfold count in *. rewrite List.filter_app. cbn. fold t. rewrite Hwt, app_nil_r. done.
    + intros i u [Hi|[_ Hi]]%lookup_app_Some Hu; [by apply (Hv i u)|].
      apply list_lookup_singleton_Some in Hi as [_ <-]. fold t in Hu. congruence.
  - destruct (step_cases _ _ _ _ _ Hinv Hs) as (t & Hi & He). split; [by eapply rpc_inv_step|].
    eapply sync_step; eauto.
Qed.

(** ** The requests of a client are over one after the other *)

Record wait_inv (s : rpc_sys) : Prop := {
  wi_older : forall i t j u, ss_threads s !! i = Some t -> ss_threads s !! j = Some u ->
    pk_client_id (rt_packet t) = pk_client_id (rt_packet u) ->
    pk_vtime (rt_packet t) < pk_vtime (rt_packet u) ->
    request_answered s (req_key (rt_packet t)) \/ turned_away s (req_key (rt_packet t));
  wi_answered : forall k, request_answered s k -> k ∈ executed s;
  wi_work : forall i t, ss_threads s !! i = Some t -> at_work (pk_client_id (rt_packet t)) t = true ->
    req_key (rt_packet t) ∈ executed s /\ ~ request_answered s (req_key (rt_packet t))
}.

(** A newer request is checked when no handler of its client runs. *)
Lemma wait_synchronous s i t :
  sync_inv s -> wait_inv s -> ss_threads s !! i = Some t -> in_order s (rt_packet t) -> synchronous s (rt_packet t).
Proof.
  intros Hs [Ho _ Hw] Hi (v & Htv & Hle). exists v. split; [done|].
  destruct (decide (v = pk_vtime (rt_packet t))) as [|Hne]; [by left|right]. split; [lia|].
  apply count_zero. intros j u Hj. destruct (at_work _ u) eqn:Hu; [|done]. exfalso.
  pose proof (at_work_running _ _ Hu) as Hid. rewrite table_vtime_of in Htv.
  destruct (client_of (ss_conn s) _) as [x|] eqn:Hx; [|done]. injection Htv as <-.
  pose proof (cs_vtime _ _ _ (Hs _ _ Hx) j u Hj Hu) as Hv. rewrite <- Hid in Hu.
  destruct (Hw j u Hj Hu) as [He Hna]. destruct (Ho j u i t Hj Hi Hid) as [?|[Hnx _]]; [lia|done|done].
Qed.

Lemma lookup_goto i t pc c ex an s j u :
  ss_threads s !! i = Some t -> ss_threads (goto i t pc c ex an s) !! j = Some u ->
  exists w, ss_threads s !! j = Some w /\ rt_packet u = rt_packet w /\
    rt_pc u = if decide (i = j) then pc else rt_pc w.
Proof.
  intros Hi. cbn. case_decide as Hd.
  - subst. rewrite list_lookup_insert_eq by by eapply lookup_lt_Some. intros [= <-]. by exists t.
  - rewrite list_lookup_insert_ne by done. intros Hj. by exists u.
Qed.

(** A step of a thread keeps the older requests over. *)
Lemma older_goto i t pc c ex an s :
  ss_threads s !! i = Some t -> rt_pc t <> Done -> (forall k, k ∈ ex -> k = req_key (rt_packet t)) ->
  wait_inv s -> let s' := goto i t pc c ex an s in
  forall k, request_answered s k \/ turned_away s k -> request_answered s' k \/ turned_away s' k.
Proof.
  intros Hi Hpc Hex [_ Ha _] s' k [Hk|[Hk Hd]].
  - left. unfold request_answered, s' in *. cbn. rewrite fmap_app. apply elem_of_app. by left.
  - right. split.
    + cbn. intros [?|Hin%Hex]%elem_of_app; [done|]. by rewrite (Hd i t Hi) in Hpc.
    + intros j u Hj Hu. destruct (lookup_goto _ _ _ _ _ _ _ _ _ Hi Hj) as (w & Hw & Hp & Hq).
      rewrite Hp in Hu. specialize (Hd j w Hw Hu). rewrite Hq. case_decide as Hij; [|done].
      subst. rewrite Hi in Hw. by injection Hw as <-.
Qed.

Lemma wait_goto i t pc c ex an s :
  ss_threads s !! i = Some t -> rt_pc t <> Done -> (forall k, k ∈ ex -> k = req_key (rt_packet t)) ->
  wait_inv s -> let s' := goto i t pc c ex an s in
  (forall k, k ∈ an.*1 -> k ∈ executed s) ->
  (forall j u, ss_threads s' !! j = Some u -> at_work (pk_client_id (rt_packet u)) u = true ->
    req_key (rt_packet u) ∈ executed s' /\ ~ request_answered s' (req_key (rt_packet u))) ->
  wait_inv s'.
Proof.
  intros Hi Hpc Hex Hw s' Han Hwork. pose proof Hw as [Ho Ha _]. split; [| |done].
  - intros j u k w Hj Hk Hid Hlt. apply older_goto; try done.
    destruct (lookup_goto _ _ _ _ _ _ _ _ _ Hi Hj) as (u' & Hu' & Hpu & _).
    destruct (lookup_goto _ _ _ _ _ _ _ _ _ Hi Hk) as (w' & Hw' & Hpw & _).
    rewrite Hpu, Hpw in *. by eapply Ho.
  - unfold request_answered, s'. cbn. intros k. rewrite fmap_app, !elem_of_app.
    intros [Hk|Hk]; left; auto.
Qed.

(** A step that starts no handler and answers nothing. *)
Lemma wait_goto_keep i t pc c s :
  ss_threads s !! i = Some t -> rt_pc t <> Done ->
  (at_work (pk_client_id (rt_packet t)) (t <| rt_pc := pc |>) = true -> at_work (pk_client_id (rt_packet t)) t = true) ->
  wait_inv s -> wait_inv (goto i t pc c [] [] s).
Proof.
  intros Hi Hpc Ht Hw. apply wait_goto; try done; [by intros k ?%elem_of_nil..|].
  intros j u Hj Hu. destruct (lookup_goto _ _ _ _ _ _ _ _ _ Hi Hj) as (w & Hjw & Hp & Hq).
  rewrite Hp. unfold request_answered. cbn. rewrite !app_nil_r. apply (wi_work _ Hw j w Hjw).
  unfold at_work in *. rewrite Hp, Hq in Hu. case_decide as Hij; [|done].
  subst. rewrite Hi in Hjw. injection Hjw as <-. by destruct t; apply Ht.
Qed.

Lemma wait_step s i t s' :
  once_inv s -> sync_inv s' -> wait_inv s -> ss_threads s !! i = Some t -> step_effect s i t s' ->
  (rt_pc t = Found -> in_order s (rt_packet t)) -> wait_inv s'.
Proof.
  intros Hon Hs' Hw Hi He Hg.
  assert (Hwpc : forall pc, at_work (pk_client_id (rt_packet t)) (t <| rt_pc := pc |>) =
    match pc with Running | Returned _ => true | _ => false end).
  { intros pc. by rewrite at_work_pc, bool_decide_true. }
  destruct He as [r Hpc|Hpc Hb|x Hpc Hx Hv|x r Hpc Hx Hv Hr|a Hpc|x r Hpc Hx].
  1,2,4: by apply wait_goto_keep; rewrite ?Hpc, ?Hwpc.
  - apply wait_goto; try done; [by rewrite Hpc|by intros k ->%list_elem_of_singleton|by intros k ?%elem_of_nil|].
    intros j u Hj Hu. destruct (lookup_goto _ _ _ _ _ _ _ _ _ Hi Hj) as (w & Hjw & Hp & Hq).
    rewrite Hp. unfold request_answered. cbn. rewrite app_nil_r, elem_of_app. case_decide as Hij.
    + subst. rewrite Hi in Hjw. injection Hjw as <-. split; [right; by apply list_elem_of_singleton|].
      intros Ha%(wi_answered _ Hw). destruct (proj2 Hon _ Ha) as (y & Hy & Hle). cbn in Hy, Hle.
      rewrite Hx in Hy. injection Hy as <-. destruct (Hg Hpc) as (v & Htv & Hvl).
      rewrite table_vtime_of, Hx in Htv. injection Htv as <-. lia.
    + destruct (wi_work _ Hw j w Hjw) as [? Hna]; [|by auto]. unfold at_work in *. by rewrite Hp, Hq in Hu.
  - apply wait_goto_keep; rewrite ?Hpc, ?Hwpc; try done. intros _. unfold at_work. by rewrite bool_decide_true, Hpc.
  - assert (at_work (pk_client_id (rt_packet t)) t = true) as Ht.
    { unfold at_work. by rewrite bool_decide_true, Hpc by done. }
    destruct (wi_work _ Hw i t Hi Ht) as [Hex Hna].
    apply wait_goto; try done; [by rewrite Hpc|by intros k ?%elem_of_nil|by intros k ->%list_elem_of_singleton|].
    intros j u Hj Hu. destruct (lookup_goto _ _ _ _ _ _ _ _ _ Hi Hj) as (w & Hjw & Hp & Hq).
    assert (pk_client_id (rt_packet u) <> pk_client_id (rt_packet t)) as Hne.
    { intros Hid. rewrite Hid in Hu. pose proof (count_pos _ _ _ _ Hj Hu) as Hc.
      match type of Hs' with sync_inv ?z => destruct (client_of (ss_conn z) (pk_client_id (rt_packet t))) as [y|] eqn:Hy end.
      - rewrite (cs_work _ _ _ (Hs' _ _ Hy)) in Hc. cbn [goto ss_conn] in Hy.
        rewrite client_of_store, decide_True in Hy by (try done; by eapply client_of_bounds).
        injection Hy as <-. rewrite decide_False in Hc by done. lia.
      - cbn [goto ss_conn] in Hy. by rewrite client_of_store, decide_True in Hy by (try done; by eapply client_of_bounds). }
    case_decide as Hij; [subst; rewrite Hi in Hjw; injection Hjw as <-; by rewrite Hp in Hne|].
    rewrite Hp in *. destruct (wi_work _ Hw j w Hjw) as [? Hna'].
    { unfold at_work in *. by rewrite Hp, Hq in Hu. }
    unfold request_answered in *. cbn. rewrite app_nil_r, fmap_app. split; [done|].
    intros [?|Hk%list_elem_of_singleton]%elem_of_app; [done|]. by injection Hk as ? _.
Qed.

Lemma wait_listen p addr s : wait_inv s -> waits s p -> wait_inv (rpc_listen p addr s).
Proof.
  intros [Ho Ha Hw] Hp. split; cbn.
  - assert (forall k k', request_answered s k \/ turned_away s k -> k' = k -> k' <> req_key p ->
      request_answered (rpc_listen p addr s) k' \/ turned_away (rpc_listen p addr s) k') as Hmono.
    { intros k k' [Hk|[Hk Hd]] -> Hne; [by left|]. right. split; [done|].
      intros i t [Hi|[_ Hi]]%lookup_app_Some Ht; [by apply (Hd i t)|].
      apply list_lookup_singleton_Some in Hi as [_ <-]. by cbn in Ht. }
    intros i t j u [Hi|[_ Hi]]%lookup_app_Some [Hj|[_ Hj]]%lookup_app_Some Hid Hlt.
    + destruct (decide (req_key (rt_packet t) = req_key p)) as [He|He]; [|by eapply Hmono; eauto].
      left. injection He as H1 H2. unfold req_key. rewrite H1, H2.
      apply (Hp j u Hj); [congruence|]. by rewrite <- H2.
    + apply list_lookup_singleton_Some in Hj as [_ <-]. cbn in Hid, Hlt.
      eapply Hmono; [by eapply Hp; eauto|done|]. unfold req_key. intros [=]. lia.
    + apply list_lookup_singleton_Some in Hi as [_ <-]. cbn in Hid, Hlt. left. cbn.
      by apply (Hp j u Hj).
    + apply list_lookup_singleton_Some in Hi as [_ <-], Hj as [_ <-]. lia.
  - exact Ha.
  - intros i t [Hi|[_ Hi]]%lookup_app_Some Ht; [by apply (Hw i t)|].
    apply list_lookup_singleton_Some in Hi as [_ <-]. unfold at_work in Ht. cbn in Ht.
    by rewrite andb_false_r in Ht.
Qed.

(** The clients that wait are synchronous. *)
Lemma client_reach_sync sd s :
  client_reach sd s -> rpc_reach in_order sd s /\ rpc_reach synchronous sd s /\ wait_inv s.
Proof.
  induction 1 as [|p addr s Hr (Ho & Hs & Hw) Hp|role ans i s s' Hr (Ho & Hs & Hw) Hstep Hg].
  - split_and!; [constructor..|]. split; cbn; done.
  - split_and!; [by constructor..|by apply wait_listen].
  - destruct (sync_reach _ _ Hs) as [Hinv Hsi].
    assert (rpc_reach synchronous sd s') as Hs'.
    { eapply rpc_reach_step; [done..|]. intros t Hi Hpc. eapply wait_synchronous; eauto. }
    destruct (step_cases _ _ _ _ _ Hinv Hstep) as (t & Hi & He). split_and!; [by econstructor|done|].
    eapply wait_step; eauto; [by eapply once_reach|by apply (sync_reach sd)].
Qed.

Lemma client_reach_inv sd s : client_reach sd s -> rpc_inv s /\ sync_inv s.
Proof. intros (_ & H & _)%client_reach_sync. by eapply sync_reach. Qed.

(** C31: A client has at most one handler running when it waits for its
    answers - it sends a request to the server when the server has answered
    its older ones or has turned away every copy of them, and a late copy of
    an older request is one of an answered request - and its requests are
    checked in the order of their vtimes, that is no older copy is checked
    after a newer request (server_rpc.c:84 compares vtimes for equality only;
    rpc_reordered_twice). *)
Theorem rpc_one_handler sd s id :
  client_reach sd s -> count (at_work id) (ss_threads s) <= 1.
Proof.
  intros [Hinv Hs]%client_reach_inv. destruct (client_of (ss_conn s) id) as [x|] eqn:Hx.
  - rewrite (cs_work _ _ _ (Hs id x Hx)). case_decide; lia.
  - rewrite no_client_no_work by done. lia.
Qed.

(** C32: For clients that wait for their answers and whose requests are
    checked in the order of their vtimes (no older copy is checked after a
    newer request), a copy of the last request runs no handler and is
    answered: with the answer the handler of this request gave, or with
    E_IN_PROGRESS while it runs. *)
Theorem rpc_duplicate_answered sd s role ans i t s' :
  client_reach sd s -> ss_threads s !! i = Some t -> rt_pc t = Found ->
  table_vtime s (pk_client_id (rt_packet t)) = Some (pk_vtime (rt_packet t)) ->
  req_step role ans i s = Some s' ->
  executed s' = executed s /\ exists r, sent (ss_conn s') = sent (ss_conn s) ++ [(rt_addr t, r)] /\
    rs_client_id r = pk_client_id (rt_packet t) /\ rs_vtime r = pk_vtime (rt_packet t) /\
    ((rs_rc r = E_IN_PROGRESS /\ count (at_work (pk_client_id (rt_packet t))) (ss_threads s) = 1) \/
     ((req_key (rt_packet t), r) ∈ answers s /\ count (at_work (pk_client_id (rt_packet t))) (ss_threads s) = 0)).
Proof.
  intros [Hinv Hs]%client_reach_inv Hi Hpc Htv Hstep.
  destruct (step_cases _ _ _ _ _ Hinv Hstep) as (t' & Hi' & He).
  rewrite Hi in Hi'. injection Hi' as <-. rewrite table_vtime_of in Htv.
  destruct He as [r Hpc'|Hpc' Hb|x Hpc' Hx Hv|x r Hpc' Hx Hv Hr|a Hpc'|x r Hpc' Hx]; try congruence.
  - rewrite Hx in Htv. injection Htv as Htv. congruence.
  - split; [cbn; by rewrite app_nil_r|]. exists r. split; [done|].
    destruct (Hs _ x Hx) as [Hw _ Hl]. destruct Hr as [[Hst [m ->]]|[Hst Hlr]]; rewrite Hst in Hw.
    + split_and!; try done. left. by rewrite Hw.
    + destruct (Hl r Hst Hlr) as (Hin & ? & ?). split_and!; try congruence. right.
      split; [|by rewrite Hw]. unfold req_key. by rewrite <- Hv.
Qed.

(** * A request alone *)

Section alone.
Context {St : Type} `{RpcHandlers St}.

(** A server that does not lead answers so, and changes nothing. *)
Theorem handle_packet_nonleader p addr (s : St) c :
  h_role s <> LEADER ->
  exists m, handle_packet p addr (s, c) = Ok (true, (s, send addr (fill (response_to p)
    (if decide (h_role s = FOLLOWER) then E_FOLLOWER else E_ELECTION, m)) c)).
Proof.
  intros Hr. unfold handle_packet. rewrite run_bind. unfold gets at 1. cbn beta iota.
  rewrite decide_True by done. destruct (run_reject (h_role s) p addr c) as [m Hm].
  exists m. rewrite run_bind. unfold on_conn. cbn [fst]. by rewrite Hm.
Qed.

(** A leader does not check the client's number. *)
Theorem handle_packet_out_of_table p addr (s : St) c :
  h_role s = LEADER -> conn_free c -> ~ 0 <= pk_client_id p < MAX_ID ->
  handle_packet p addr (s, c) = Fault OutOfBounds.
Proof.
  intros Hr Hf Hid. unfold handle_packet. rewrite run_bind. unfold gets at 1. cbn beta iota.
  cbn [fst]. rewrite decide_False by tauto. rewrite run_bind. unfold on_conn at 1.
  by rewrite find_client_out.
Qed.

(** What a leader's thread does up to its check. *)
Lemma run_handle_packet p addr (s : St) c :
  h_role s = LEADER -> conn_free c -> 0 <= pk_client_id p < MAX_ID ->
  let c1 := match client_of c (pk_client_id p) with
            | Some _ => c | None => store (pk_client_id p) (new_client (pk_client_id p)) c end in
  handle_packet p addr (s, c) =
    match check_request p addr c1 with
    | Ok (true, c2) =>
        (r ← on_srv (dispatch p (response_to p));
         match (r : option response_info) with
         | Some r => on_conn (finish_request p addr r);; mret true
         | None => mret false
         end) (s, c2)
    | Ok (false, c2) => Ok (true, (s, c2))
    | Fault f => Fault f
    end.
Proof.
  intros Hr Hf Hid c1. unfold handle_packet. rewrite run_bind. unfold gets at 1. cbn beta iota.
  cbn [fst]. rewrite decide_False by tauto. rewrite run_bind. unfold on_conn at 1.
  rewrite run_find_client by done. rewrite run_bind. unfold on_conn at 1. fold c1.
  by destruct (check_request p addr c1) as [[[] c2]|].
Qed.

(** A request and a copy of it: the handler runs once, and the copy gets
    the stored answer of the first. *)
Theorem handle_packet_repeat p a1 a2 (s s' : St) c r :
  h_role s = LEADER -> h_role s' = LEADER -> conn_free c -> 0 <= pk_client_id p < MAX_ID ->
  match client_of c (pk_client_id p) with Some x => cp_vtime x | None => -1 end <> pk_vtime p ->
  dispatch p (response_to p) s = Ok (Some r, s') ->
  exists c', handle_packet p a1 (s, c) = Ok (true, (s', c')) /\ sent c' = sent c ++ [(a1, r)] /\
    handle_packet p a2 (s', c') = Ok (true, (s', send a2 r c')).
Proof.
  intros Hr Hr' Hf Hid Hv Hd. set (id := pk_client_id p) in *. rewrite run_handle_packet by done.
  fold id. cbv zeta. set (c1 := match client_of c id with Some _ => c | None => _ end).
  assert (conn_free c1 /\ sent c1 = sent c /\ exists x, client_of c1 id = Some x /\ cp_vtime x <> pk_vtime p)
    as (Hf1 & Hs1 & x & Hx & Hxv).
  { subst c1. destruct (client_of c id) as [x|] eqn:Hx; [by eauto 6|].
    split_and!; [by apply store_free|done|]. exists (new_client id).
    rewrite client_of_store, decide_True by (try done; rewrite (cf_len _ Hf); lia). done. }
  pose proof (cf_client _ Hf1 _ _ Hx) as Hxl. clearbody c1.
  rewrite (run_check_new _ _ _ x) by done. fold id.
  set (x1 := x <| cp_state := Some PROCESSING |> <| cp_vtime := pk_vtime p |>).
  assert (client_of (store id x1 c1) id = Some x1) as Hx1.
  { rewrite client_of_store, decide_True by (try done; rewrite (cf_len _ Hf1); lia). done. }
  rewrite run_bind. unfold on_srv at 1. rewrite Hd. rewrite run_bind. unfold on_conn at 1.
  rewrite (run_finish _ _ _ _ x1) by done. fold id. rewrite run_ret.
  set (x2 := x1 <| cp_state := Some WAITING |> <| cp_last_response := Some r |>).
  set (c2 := store id x2 (send a1 r (store id x1 c1))). exists c2. split; [done|].
  split; [cbn; by rewrite Hs1|].
  assert (conn_free (send a1 r (store id x1 c1))) as Hf2.
  { pose proof (store_free c1 id x1 Hf1 Hid Hxl) as []. by split. }
  assert (client_of c2 id = Some x2) as Hx2.
  { unfold c2. rewrite client_of_store, decide_True by (try done; rewrite (cf_len _ Hf2); lia). done. }
  rewrite run_handle_packet by (try done; by apply store_free). fold id. cbv zeta. rewrite Hx2.
  pose proof (run_check_same p a2 c2 x2 Hx2 Hxl eq_refl) as Hsame. cbn [cp_state cp_last_response] in Hsame.
  change (cp_state x2) with (Some WAITING) in Hsame. change (cp_last_response x2) with (Some r) in Hsame.
  by rewrite Hsame.
Qed.
End alone.
