(* ===== verification/Udp.v ===== *)
(** [udp.c]: opening and closing sockets, addresses, the receive timeout, and
    datagrams with simulated loss.  What the system calls answer is given to
    each function; the descriptors a process holds are its state. *)
From S2P Require Import Prelude Libc RaftTypes.

(** * Addresses *)

Definition INADDR_ANY : Z := 0.

(** [htons] on a little-endian machine: the [int] argument is cut to 16 bits
    and its bytes are swapped. *)
Definition htons (port : Z) : Z :=
  let p := port mod 65536 in p mod 256 * 256 + p / 256.
Definition ntohs (p : Z) : Z := htons p.

Definition zero_sockaddr : sockaddr_in := {| sin_port := 0; sin_addr := 0 |}.

(** [gethostbyname] answers the first address of a name, or NULL.  The address
    family is constant and not kept. *)
Definition UDP_FillSockAddr (gethostbyname : bytes -> option Z) (hostname : option bytes) (port : Z) :
    Z * sockaddr_in :=
  match hostname with
  | None => (0, zero_sockaddr)
  | Some name =>
      let addr := {| sin_port := htons port; sin_addr := 0 |} in
      match gethostbyname name with
      | None => (-1, addr)
      | Some h_addr => (0, {| sin_port := sin_port addr; sin_addr := h_addr |})
      end
  end.

(** * The receive timeout *)

Record timeval := { tv_sec : Z; tv_usec : Z }.

(** The [struct timeval] of [UDP_SetReceiveTimeout]. *)
Definition timeout_timeval (timeout : Z) : timeval :=
  {| tv_sec := Z.quot timeout 1000; tv_usec := Z.rem timeout 1000 * 1000 |}.

(** The kernel refuses a [tv_usec] outside a second. *)
Definition timeval_ok (t : timeval) : bool := (0 <=? tv_usec t) && (tv_usec t <? 1000000).

(** * Sockets *)

(** An open socket: the address it is bound to, its receive timeout. *)
Record socket := { bound : option sockaddr_in; rcvtimeo : option timeval }.

#[export] Instance socket_eta : Eta socket := fun s => {| bound := bound s; rcvtimeo := rcvtimeo s |}.

(** The sockets of a process by descriptor. *)
Abbreviation sockets := (gmap Z socket).

Definition UDP_Close (fd close : Z) (s : sockets) : Z * sockets :=
  (close, if close =? 0 then delete fd s else s).

(** [socket_rc] and [bind_rc] are the answers of [socket] and [bind]; the
    [close] after a failed [bind] succeeds. *)
Definition UDP_Open (socket_rc bind_rc port : Z) (s : sockets) : Z * sockets :=
  let fd := socket_rc in
  if fd =? -1 then (0, s)
  else
    let s := <[fd := {| bound := None; rcvtimeo := None |}]> s in
    let my_addr := {| sin_port := htons port; sin_addr := INADDR_ANY |} in
    if bind_rc =? -1 then (-1, (UDP_Close fd 0 s).2)
    else (fd, alter (fun x => x <| bound := Some my_addr |>) fd s).

Definition UDP_SetReceiveTimeout (setsockopt fd timeout : Z) (s : sockets) : Z * sockets :=
  let tv := timeout_timeval timeout in
  if setsockopt <? 0 then (-1, s)
  else (0, alter (fun x => x <| rcvtimeo := Some tv |>) fd s).

(** * Datagrams *)

(** The globals [packet_loss] and [fail_prob]. *)
Record udp_globals := { packet_loss : Z; fail_prob : Z }.

Definition udp_start : udp_globals := {| packet_loss := 0; fail_prob := 0 |}.

Definition UDP_SimulatePacketLoss (fp : Z) (g : udp_globals) : udp_globals :=
  {| packet_loss := 1; fail_prob := fp |}.

(** [UDP_Write] of [n] bytes: [rand] is what [rand()] answers (it is not called
    when no loss is simulated) and [sendto] what the system call answers.  The
    answer, and whether the datagram was given to the system. *)
Definition UDP_Write (g : udp_globals) (rand n sendto : Z) : Z * bool :=
  if negb (packet_loss g =? 0) && (Z.rem rand 100 <? fail_prob g) then (n, false)
  else (sendto, true).

(** [UDP_Read] into a buffer of [n] bytes: [recvfrom] is the datagram that came
    with its sender, or none on a timeout or an error; what does not fit is
    cut off and what it does not fill stays. *)
Definition UDP_Read (recvfrom : option (sockaddr_in * bytes)) (addr : sockaddr_in) (buffer : bytes) (n : nat) :
    Z * sockaddr_in * bytes :=
  match recvfrom with
  | None => (-1, addr, buffer)
  | Some (from, data) =>
      let got := take n data in
      (Z.of_nat (length got), from, got ++ drop (length got) buffer)
  end.

(** * Properties *)

(** A port that fits 16 bits comes back from the network order. *)
Lemma ntohs_htons port : ntohs (htons port) = port mod 65536.
Proof.
  unfold ntohs, htons. pose proof (Z.mod_pos_bound port 65536 ltac:(lia)). set (p := port mod 65536) in *.
  Z.div_mod_to_equations. lia.
Qed.

Lemma timeout_time timeout :
  tv_sec (timeout_timeval timeout) * 1000000 + tv_usec (timeout_timeval timeout) = timeout * 1000.
Proof. cbn. pose proof (Z.quot_rem' timeout 1000). lia. Qed.

Lemma timeout_ok timeout : timeval_ok (timeout_timeval timeout) = true <-> Z.rem timeout 1000 >= 0.
Proof.
  unfold timeval_ok. cbn. pose proof (Z.rem_bound_abs timeout 1000 ltac:(lia)). lia.
Qed.

(** Opening a socket on a port and setting its timeout: every outcome of the
    system calls.  A failed [bind] leaves no descriptor behind, and closing the
    socket gives back the descriptors there were.  When [socket] fails the
    answer is 0, which is no error to the callers. *)
Lemma UDP_Open_outcomes fd bind_rc port timeout s :
  s !! fd = None -> 0 <= timeout ->
  let '(rc, s') := UDP_Open fd bind_rc port s in
  if fd =? -1 then rc = 0 /\ s' = s
  else if bind_rc =? -1 then rc = -1 /\ s' = s
  else rc = fd /\
    let '(rc2, s2) := UDP_SetReceiveTimeout 0 rc timeout s' in
    rc2 = 0 /\ (exists tv, s2 = <[fd := {| bound := Some {| sin_port := htons port; sin_addr := INADDR_ANY |};
                                          rcvtimeo := Some tv |}]> s /\
               timeval_ok tv = true /\ tv_sec tv * 1000000 + tv_usec tv = timeout * 1000) /\
    UDP_Close fd 0 s2 = (0, s).
Proof.
  intros Hf Ht. unfold UDP_Open. destruct (fd =? -1); [done|]. destruct (bind_rc =? -1).
  - split; [done|]. cbn. by rewrite delete_insert_id.
  - cbn. split; [done|]. split; [done|]. rewrite !alter_insert_eq. cbn. split.
    + exists (timeout_timeval timeout). split; [done|]. split; [|apply timeout_time].
      apply timeout_ok. apply Z.le_ge. by apply Z.rem_nonneg.
    + unfold UDP_Close. cbn. by rewrite delete_insert_id.
Qed.

Lemma no_loss rand n sendto : UDP_Write udp_start rand n sendto = (sendto, true).
Proof. reflexivity. Qed.

(** How many of the first [k] values of [rand() % 100] lose the datagram. *)
Definition lost_below (g : udp_globals) (n sendto k : Z) : Z :=
  count (fun r => negb (UDP_Write g r n sendto).2) (seqZ 0 k).

Lemma lost_below_all fp g n sendto k :
  0 <= k <= 100 ->
  lost_below (UDP_SimulatePacketLoss fp g) n sendto k = Z.max 0 (Z.min fp k).
Proof.
  intros [Hk Hk2]. revert Hk2. pattern k. apply natlike_ind; [|clear k Hk; intros k Hk IH H|done].
  - intros _. change (0 = Z.max 0 (Z.min fp 0)). lia.
  - unfold lost_below in *. replace (Z.succ k) with (k + 1) in * by lia. rewrite seqZ_app by lia.
    rewrite count_app, IH by lia. change (seqZ (0 + k) 1) with [k]. rewrite count_cons. unfold UDP_Write.
    cbn [packet_loss UDP_SimulatePacketLoss fail_prob]. rewrite Z.rem_small by lia. change (negb (1 =? 0)) with true. cbn [andb].
    change (count _ []) with 0. destruct (Z.ltb_spec k fp); cbn [negb snd Z.b2z]; lia.
Qed.

(** [fail_prob] of every hundred values of [rand()] lose the datagram, which is
    then reported as sent. *)
Lemma loss_rate fp g n sendto :
  0 <= fp <= 100 -> lost_below (UDP_SimulatePacketLoss fp g) n sendto 100 = fp.
Proof. intros H. rewrite lost_below_all by lia. lia. Qed.

(** What is read: a prefix of the datagram that fits, before the old contents. *)
Lemma UDP_Read_ok from data addr buffer n :
  (length data <= n)%nat -> (length buffer = n)%nat ->
  exists rest, UDP_Read (Some (from, data)) addr buffer n = (Z.of_nat (length data), from, data ++ rest) /\
    length (data ++ rest) = n.
Proof.
  intros Hd Hb. unfold UDP_Read. rewrite take_ge by done. exists (drop (length data) buffer).
  split; [done|]. rewrite length_app, length_drop. lia.
Qed.
