(* ===== verification/ClientRpc.v ===== *)
(** [client_rpc.c]: the calls of a client.  The datagrams a call receives are
    given in advance, as the results of its [UDP_Read]s; a call that waits for a
    read beyond them is [Blocked]. *)
From S2P Require Import Prelude Libc Posix RaftTypes PacketFormat.

#[local] Open Scope Z_scope.
#[local] Open Scope list_scope.

Definition RPC_READ_TIEMOUT : Z := 100.
Definition RPC_RETRY_LIMIT : Z := 10.

(** [rpc_conn_t]. *)
Record rpc_conn := {
  rc_sd : Z;
  recv_addr : sockaddr_in;
  rc_client_id : Z;
  rc_vtime : Z;
  raft_config : raft_configuration;
  current_leader_index : Z;
  current_transaction : bytes
}.

#[export] Instance rpc_conn_eta : Eta rpc_conn := fun c =>
  {| rc_sd := rc_sd c; recv_addr := recv_addr c; rc_client_id := rc_client_id c;
     rc_vtime := rc_vtime c; raft_config := raft_config c;
     current_leader_index := current_leader_index c; current_transaction := current_transaction c |}.

(** The answer of [recvfrom]: a datagram, with what the response holds after it;
    [ETIMEDOUT] or [EAGAIN]; or another error. *)
Inductive read_result :=
  | Received (n : Z) (from : sockaddr_in) (r : response_info)
  | TimedOut
  | Failed.

(** The client: its connection, the reads to come, and the datagrams it sent. *)
Record client := {
  cl_rpc : rpc_conn;
  cl_reads : list read_result;
  cl_sent : list (sockaddr_in * packet_info)
}.

#[export] Instance client_eta : Eta client := fun c =>
  {| cl_rpc := cl_rpc c; cl_reads := cl_reads c; cl_sent := cl_sent c |}.

(** * send_packet *)

(** [&rpc->raft_config.servers[rpc->current_leader_index].client_socket]. *)
Definition leader_socket : M client sockaddr_in :=
  c ← gets cl_rpc;
  s ← lift (arr_get (raft_config c) (current_leader_index c));
  mret (client_socket s).

Definition client_write (p : packet_info) : M client unit :=
  a ← leader_socket;
  modify (fun c => c <| cl_sent ::= fun l => l ++ [(a, p)] |>).

(** [(rpc->current_leader_index + 1) % N_SERVERS]. *)
Definition next_server : M client unit :=
  c ← gets cl_rpc;
  i ← int_of (current_leader_index c + 1);
  modify (fun c => c <| cl_rpc ::= fun r => r <| current_leader_index := Z.rem i N_SERVERS |> |>).

(** [response->rc == E_IN_PROGRESS || response->vtime < packet->vtime]. *)
Definition keep_reading (p : packet_info) (r : response_info) : bool :=
  (rs_rc r =? E_IN_PROGRESS) || (rs_vtime r <? pk_vtime p).

(** [while(1)], from the result of the last read; [cl_reads] is set to the
    reads that are left when the loop ends. *)
Fixpoint send_loop (p : packet_info) (n_attempts : Z) (response : response_info)
    (reads : list read_result) : M client (Z * response_info) :=
  match reads with
  | [] => throw Blocked
  | TimedOut :: reads' =>
      if RPC_RETRY_LIMIT <=? n_attempts then
        next_server;; client_write p;; send_loop p 1 response reads'
      else client_write p;; send_loop p (n_attempts + 1) response reads'
  | Failed :: reads' => modify (fun c => c <| cl_reads := reads' |>);; mret (-1, response)
  | Received n from r :: reads' =>
      modify (fun c => c <| cl_rpc ::= fun r => r <| recv_addr := from |> |>);;
      if keep_reading p r then send_loop p 0 r reads'
      else if (rs_rc r =? E_FOLLOWER) || (rs_rc r =? E_ELECTION) then
        (if rs_rc r =? E_FOLLOWER then next_server else skip);;
        client_write p;; send_loop p 0 r reads'
      else modify (fun c => c <| cl_reads := reads' |>);; mret (n, r)
  end.

(** The packet with the vtime and the number of the client; the [atomic_int]
    wraps around. *)
Definition stamp_packet (packet : packet_info) : M client packet_info :=
  c ← gets cl_rpc;
  modify (fun c => c <| cl_rpc ::= fun r => r <| rc_vtime ::= fun v => int_wrap (v + 1) |> |>);;
  mret (packet <| pk_vtime := rc_vtime c |> <| pk_client_id := rc_client_id c |>).

(** [wrc] is what the first [UDP_Write] answers. *)
Definition send_packet (wrc : Z) (packet : packet_info) : M client (Z * response_info) :=
  p ← stamp_packet packet;
  client_write p;;
  if wrc <? 0 then throw Exited
  else
    reads ← gets cl_reads;
    send_loop p 1 zero_response_info reads.

(** * The calls *)

Definition request (op : operation_type) : packet_info := zero_packet <| pk_operation := op |>.

(** [sd] is what [UDP_Open] answers; the other fields of [rpc] stay. *)
Definition RPC_init (wrc id sd : Z) (config : raft_configuration) : M client unit :=
  modify (fun c => c <| cl_rpc ::= fun r =>
    r <| rc_sd := sd |> <| rc_vtime := 0 |> <| rc_client_id := id |> <| raft_config := config |>
      <| current_leader_index := 0 |> |>);;
  a ← send_packet wrc (request CLIENT_INIT);
  if ((a : Z * response_info).1 <? 0) || (rs_rc a.2 <? 0) then throw Exited else skip.

(** [saved] is the image of [rpc_conn_t] in the file, when it opens. *)
Definition RPC_restore (saved : option rpc_conn) (id sd : Z) : M client unit :=
  match saved with
  | None => throw NullDeref
  | Some r =>
      modify (fun c => c <| cl_rpc := r <| rc_sd := sd |> |>);;
      if decide (rc_client_id r = id) then skip else throw AssertFailed
  end.

Definition RPC_acquire_lock (wrc : Z) : M client Z :=
  a ← send_packet wrc (request LOCK_ACQUIRE);
  if ((a : Z * response_info).1 <? 0) || (rs_rc a.2 <? 0) then mret (rs_rc a.2)
  else
    modify (fun c => c <| cl_rpc ::= fun r =>
      r <| current_transaction ::= fun t => copy_token t (rs_message a.2) |> |>);;
    mret 0.

Definition RPC_release_lock (wrc : Z) : M client Z :=
  c ← gets cl_rpc;
  a ← send_packet wrc ((request LOCK_RELEASE) <| pk_buffer ::= fun b => copy_token b (current_transaction c) |>);
  if ((a : Z * response_info).1 <? 0) || ((rs_rc a.2 <? 0) && negb (rs_rc a.2 =? E_LOCK_EXP)) then
    mret (if a.1 <? 0 then a.1 else rs_rc a.2)
  else mret 0.

(** [file_name] is a string of any length; [buffer] points to [cap] bytes. *)
Definition RPC_append_file (wrc : Z) (file_name : bytes) (buffer : bytes) (cap : nat) : M client Z :=
  f ← lift (strcpy FILENAME_SIZE [] file_name);
  b ← lift (if (BUFFER_SIZE <=? cap)%nat then Ok (take BUFFER_SIZE buffer) else Fault OutOfBounds);
  a ← send_packet wrc ((request APPEND_FILE) <| pk_file_name := f |> <| pk_buffer := b |>);
  mret (rs_rc (a : Z * response_info).2).

Definition RPC_close (wrc : Z) : M client unit :=
  _ ← send_packet wrc (request CLIENT_CLOSE); skip.
