(* ===== verification/ClientRpcSpec.v ===== *)
(** What [client_rpc.c] promises. *)
From S2P Require Import Prelude Libc Posix RaftTypes PacketFormat ClientRpc.

#[local] Open Scope Z_scope.
#[local] Open Scope list_scope.

(** * The loop *)

Definition config_ok (c : client) : Prop :=
  Z.of_nat (length (raft_config (cl_rpc c))) = N_SERVERS /\
  0 <= current_leader_index (cl_rpc c) < N_SERVERS.

(** The socket of the server [i] of the configuration. *)
Definition socket_of (config : raft_configuration) (i : Z) : sockaddr_in :=
  match arr_get config i with Ok s => client_socket s | Fault _ => {| sin_port := 0; sin_addr := 0 |} end.

Definition wrote (a : sockaddr_in) (p : packet_info) (c : client) : client :=
  c <| cl_sent ::= fun l => l ++ [(a, p)] |>.
Definition lead (i : Z) (c : client) : client :=
  c <| cl_rpc ::= fun r => r <| current_leader_index := i |> |>.

Lemma run_write p c : config_ok c ->
  client_write p c =
    Ok (tt, wrote (socket_of (raft_config (cl_rpc c)) (current_leader_index (cl_rpc c))) p c).
Proof.
  intros [Hl Hi]. unfold client_write, leader_socket, socket_of.
  destruct (arr_get_in_bounds (raft_config (cl_rpc c)) (current_leader_index (cl_rpc c))) as [s Hs].
  { apply in_bounds_spec. lia. }
  rewrite run_bind. rewrite run_bind. unfold gets. cbn beta iota. rewrite run_bind. unfold lift. by rewrite Hs.
Qed.

Lemma run_next c : config_ok c ->
  next_server c = Ok (tt, lead ((current_leader_index (cl_rpc c) + 1) mod N_SERVERS) c) /\
  config_ok (lead ((current_leader_index (cl_rpc c) + 1) mod N_SERVERS) c).
Proof.
  intros [Hl Hi]. unfold N_SERVERS in *. split.
  - unfold next_server. rewrite run_bind. unfold gets. cbn beta iota.
    rewrite run_bind, run_int_of by (apply int_ok_spec; unfold INT_MIN, INT_MAX; lia).
    unfold modify, lead, N_SERVERS. by rewrite (Z.rem_mod_nonneg (current_leader_index (cl_rpc c) + 1) 5) by lia.
  - split; [done|]. by apply (Z.mod_pos_bound _ 5).
Qed.

(** The reads that end a call, and those it goes on after. *)
Definition acceptable (p : packet_info) (r : response_info) : bool :=
  negb (keep_reading p r) && negb (rs_rc r =? E_FOLLOWER) && negb (rs_rc r =? E_ELECTION).
Definition goes_on (p : packet_info) (x : read_result) : bool :=
  match x with Received _ _ r => negb (acceptable p r) | TimedOut => true | Failed => false end.

(** What the loop keeps: the reads and the configuration are not touched, the
    same packet is sent to servers of the configuration. *)
Record loop_kept (p : packet_info) (c c' : client) : Prop := {
  lk_config : raft_config (cl_rpc c') = raft_config (cl_rpc c);
  lk_vtime : rc_vtime (cl_rpc c') = rc_vtime (cl_rpc c);
  lk_id : rc_client_id (cl_rpc c') = rc_client_id (cl_rpc c);
  lk_transaction : current_transaction (cl_rpc c') = current_transaction (cl_rpc c);
  lk_index : 0 <= current_leader_index (cl_rpc c') < N_SERVERS;
  lk_sent : exists l, cl_sent c' = cl_sent c ++ l /\
    Forall (fun x => x.2 = p /\ exists i, 0 <= i < N_SERVERS /\
      x.1 = socket_of (raft_config (cl_rpc c)) i) l
}.

Lemma loop_kept_refl p c : config_ok c -> loop_kept p c c.
Proof. intros [_ Hi]. split; try done. exists []. by rewrite app_nil_r. Qed.

Lemma loop_kept_trans p c1 c2 c3 : loop_kept p c1 c2 -> loop_kept p c2 c3 -> loop_kept p c1 c3.
Proof.
  intros [A1 A2 A3 At A4 (l & A5 & A6)] [B1 B2 B3 Bt B4 (l' & B5 & B6)]. split; try congruence.
  exists (l ++ l'). rewrite B5, A5, app_assoc. split; [done|]. apply Forall_app. split; [done|].
  by rewrite <- A1.
Qed.

Lemma loop_kept_config p c c' : config_ok c -> loop_kept p c c' -> config_ok c'.
Proof. intros [Hl _] [A _ _ _ B _]. split; [by rewrite A|done]. Qed.

Lemma kept_write p c : config_ok c ->
  loop_kept p c (wrote (socket_of (raft_config (cl_rpc c)) (current_leader_index (cl_rpc c))) p c).
Proof.
  intros [_ Hi]. split; try done. eexists. split; [done|]. repeat constructor. eauto.
Qed.

Lemma kept_lead p i c : 0 <= i < N_SERVERS -> loop_kept p c (lead i c).
Proof. intros Hi. split; try done. exists []. by rewrite app_nil_r. Qed.

Definition saw (from : sockaddr_in) (c : client) : client :=
  c <| cl_rpc ::= fun r => r <| recv_addr := from |> |>.

Lemma kept_saw p from c : config_ok c -> loop_kept p c (saw from c).
Proof. intros [_ Hi]. split; try done. exists []. by rewrite app_nil_r. Qed.

(** One turn after a read the loop goes on with. *)
Lemma loop_turn p n resp x reads c :
  config_ok c -> goes_on p x = true ->
  exists n' resp' c', send_loop p n resp (x :: reads) c = send_loop p n' resp' reads c' /\ loop_kept p c c'.
Proof.
  intros Hc Hx. destruct x as [m from r| |]; cbn [goes_on] in Hx; [| |done].
  - cbn [send_loop]. rewrite run_bind. unfold modify at 1. cbn beta iota. fold (saw from c).
    pose proof (kept_saw p from c Hc) as Hs. pose proof (loop_kept_config _ _ _ Hc Hs) as Hcs.
    unfold acceptable in Hx. destruct (keep_reading p r); [by eauto|]. cbn in Hx.
    assert ((rs_rc r =? E_FOLLOWER) || (rs_rc r =? E_ELECTION) = true) as -> by
      (destruct (rs_rc r =? E_FOLLOWER), (rs_rc r =? E_ELECTION); done).
    destruct (rs_rc r =? E_FOLLOWER); rewrite run_bind.
    + destruct (run_next _ Hcs) as [-> Hcn]. rewrite run_bind, run_write by done.
      eexists _, _, _. split; [reflexivity|]. eapply loop_kept_trans; [done|].
      eapply loop_kept_trans; [|by apply kept_write]. apply kept_lead. by destruct Hcn.
    + unfold skip. cbn beta iota. rewrite run_bind, run_write by done.
      eexists _, _, _. split; [reflexivity|]. eapply loop_kept_trans; [done|]. by apply kept_write.
  - cbn [send_loop]. destruct (RPC_RETRY_LIMIT <=? n).
    + rewrite run_bind. destruct (run_next _ Hc) as [-> Hcn]. rewrite run_bind, run_write by done.
      eexists _, _, _. split; [reflexivity|]. eapply loop_kept_trans; [|by apply kept_write].
      apply kept_lead. by destruct Hcn.
    + rewrite run_bind, run_write by done. eexists _, _, _. split; [reflexivity|]. by apply kept_write.
Qed.

Lemma loop_turns p n resp pre reads c :
  config_ok c -> Forall (fun x => goes_on p x = true) pre ->
  exists n' resp' c', send_loop p n resp (pre ++ reads) c = send_loop p n' resp' reads c' /\ loop_kept p c c'.
Proof.
  intros Hc Hpre. revert n resp c Hc. induction Hpre as [|x pre Hx _ IH]; intros n resp c Hc.
  - exists n, resp, c. split; [done|by apply loop_kept_refl].
  - destruct (loop_turn p n resp x (pre ++ reads) c Hc Hx) as (n1 & r1 & c1 & E & Hk).
    destruct (IH n1 r1 c1) as (n2 & r2 & c2 & E2 & Hk2); [by eapply loop_kept_config|].
    exists n2, r2, c2. split; [cbn [app]; by rewrite E|]. by eapply loop_kept_trans.
Qed.

(** The loop ends with the first read that it does not go on after. *)
Lemma loop_ends p n resp pre m from r reads c :
  config_ok c -> Forall (fun x => goes_on p x = true) pre -> acceptable p r = true ->
  exists c', send_loop p n resp (pre ++ Received m from r :: reads) c = Ok ((m, r), c') /\
    loop_kept p c c' /\ cl_reads c' = reads.
Proof.
  intros Hc Hpre Hr. destruct (loop_turns p n resp pre (Received m from r :: reads) c Hc Hpre)
    as (n1 & r1 & c1 & -> & Hk). pose proof (loop_kept_config _ _ _ Hc Hk) as Hc1.
  cbn [send_loop]. rewrite run_bind. unfold modify at 1. cbn beta iota.
  unfold acceptable in Hr. destruct (keep_reading p r); [done|]. cbn in Hr.
  destruct (rs_rc r =? E_FOLLOWER); [done|]. destruct (rs_rc r =? E_ELECTION); [done|]. cbn [orb].
  eexists. split; [reflexivity|]. split; [|done]. eapply loop_kept_trans; [done|].
  destruct (kept_saw p from c1 Hc1) as []. by split.
Qed.

(** * A request *)

Definition stamped (c : client) (packet : packet_info) : packet_info :=
  packet <| pk_vtime := rc_vtime (cl_rpc c) |> <| pk_client_id := rc_client_id (cl_rpc c) |>.
Definition ticked (c : client) : client :=
  c <| cl_rpc ::= fun r => r <| rc_vtime ::= fun v => int_wrap (v + 1) |> |>.
Definition first_socket (c : client) : sockaddr_in :=
  socket_of (raft_config (cl_rpc c)) (current_leader_index (cl_rpc c)).

Lemma run_send_packet wrc packet c :
  config_ok c -> 0 <= wrc ->
  send_packet wrc packet c =
    send_loop (stamped c packet) 1 zero_response_info (cl_reads c)
      (wrote (first_socket c) (stamped c packet) (ticked c)).
Proof.
  intros Hc Hw. unfold send_packet. rewrite run_bind. unfold stamp_packet. rewrite run_bind.
  unfold gets at 1. cbn beta iota. rewrite run_bind. unfold modify at 1. cbn beta iota.
  rewrite run_ret. fold (stamped c packet) (ticked c). rewrite run_bind.
  rewrite (run_write _ (ticked c)) by (destruct Hc; by split).
  assert ((wrc <? 0) = false) as -> by lia. done.
Qed.

(** C34: A request returns with the first acceptable answer whatever is lost,
    late, refused or in progress before it; every copy sent is the same packet
    and goes to a server of the configuration. *)
Theorem send_packet_returns wrc packet c pre m from r rest :
  config_ok c -> 0 <= wrc -> cl_reads c = pre ++ Received m from r :: rest ->
  Forall (fun x => goes_on (stamped c packet) x = true) pre -> acceptable (stamped c packet) r = true ->
  exists c' l, send_packet wrc packet c = Ok ((m, r), c') /\ cl_reads c' = rest /\
    config_ok c' /\ rc_client_id (cl_rpc c') = rc_client_id (cl_rpc c) /\
    rc_vtime (cl_rpc c') = int_wrap (rc_vtime (cl_rpc c) + 1) /\
    cl_sent c' = cl_sent c ++ (first_socket c, stamped c packet) :: l /\
    Forall (fun x => x.2 = stamped c packet /\ exists i, 0 <= i < N_SERVERS /\
      x.1 = socket_of (raft_config (cl_rpc c)) i) l.
Proof.
  intros Hc Hw Hrd Hpre Hr. rewrite run_send_packet, Hrd by done.
  set (c0 := wrote (first_socket c) (stamped c packet) (ticked c)).
  assert (config_ok c0) as Hc0 by (destruct Hc; by split).
  destruct (loop_ends (stamped c packet) 1 zero_response_info pre m from r rest c0 Hc0 Hpre Hr)
    as (c' & -> & Hk & Hrest). pose proof (loop_kept_config _ _ _ Hc0 Hk).
  destruct Hk as [_ Hv Hi _ _ (l & Hs & Hl)]. exists c', l. split_and!; try done.
  rewrite Hs. unfold c0. cbn. by rewrite <- app_assoc.
Qed.

(** The reads of a call that returned. *)
Lemma loop_result p reads n resp c rc r c' :
  config_ok c -> send_loop p n resp reads c = Ok ((rc, r), c') ->
  exists pre x, reads = pre ++ x :: cl_reads c' /\ Forall (fun x => goes_on p x = true) pre /\
    ((x = Failed /\ rc = -1) \/ exists from, x = Received rc from r /\ acceptable p r = true) /\
    loop_kept p c c'.
Proof.
  revert n resp c. induction reads as [|x reads IH]; intros n resp c Hc H; [done|].
  destruct (goes_on p x) eqn:Hx.
  - destruct (loop_turn p n resp x reads c Hc Hx) as (n' & r' & c1 & E & Hk). rewrite E in H.
    destruct (IH n' r' c1) as (pre & y & -> & Hpre & Hy & Hk'); [by eapply loop_kept_config|done|].
    exists (x :: pre), y. split_and!; [done|by constructor|done|by eapply loop_kept_trans].
  - exists [], x. destruct x as [m from r0| |]; cbn in Hx; [|done|].
    + apply negb_false_iff in Hx. destruct (loop_ends p n resp [] m from r0 reads c Hc) as (c2 & E & Hk & Hr); [done..|].
      cbn [app] in E. rewrite E in H. injection H as -> -> ->. rewrite Hr. split_and!; try done. eauto.
    + cbn [send_loop] in H. injection H as <- <- <-. split_and!; try done; [by left|].
      destruct (loop_kept_refl p c Hc) as []. by split.
Qed.

(** C35: A request that returned has the first acceptable answer - never one
    of an older request, of a server that does not lead, or of a handler that
    still runs - or the error of a read. *)
Theorem send_packet_accepts wrc packet c rc r c' :
  config_ok c -> send_packet wrc packet c = Ok ((rc, r), c') ->
  exists pre x, cl_reads c = pre ++ x :: cl_reads c' /\
    Forall (fun x => goes_on (stamped c packet) x = true) pre /\
    ((x = Failed /\ rc = -1) \/ exists from, x = Received rc from r /\
      rs_vtime r >= rc_vtime (cl_rpc c) /\
      rs_rc r <> E_IN_PROGRESS /\ rs_rc r <> E_FOLLOWER /\ rs_rc r <> E_ELECTION).
Proof.
  intros Hc H. destruct (Z.ltb_spec wrc 0) as [Hw|Hw].
  - unfold send_packet in H. apply bind_ok in H as (p & c1 & _ & H). apply bind_ok in H as (? & c2 & _ & H).
    assert ((wrc <? 0) = true) as E by lia. by rewrite E in H.
  - rewrite run_send_packet in H by done.
    assert (config_ok (wrote (first_socket c) (stamped c packet) (ticked c))) as Hc0 by (destruct Hc; by split).
    destruct (loop_result _ _ _ _ _ _ _ _ Hc0 H) as (pre & x & Hrd & Hpre & Hx & _).
    exists pre, x. split_and!; try done. destruct Hx as [?|(from & -> & Ha)]; [by left|right].
    exists from. split; [done|]. unfold acceptable, keep_reading in Ha. cbn in Ha.
    destruct (Z.eqb_spec (rs_rc r) E_IN_PROGRESS), (Z.eqb_spec (rs_rc r) E_FOLLOWER),
      (Z.eqb_spec (rs_rc r) E_ELECTION), (Z.ltb_spec (rs_vtime r) (rc_vtime (cl_rpc c))); try done. lia.
Qed.

(** * A server that does not answer *)

(** The state after [j] time-outs from a loop that started at server [i]. *)
Definition retry_index (i j : Z) : Z := (i + j `div` RPC_RETRY_LIMIT) mod N_SERVERS.

Lemma retry_step i j :
  0 <= j -> 0 <= i < N_SERVERS ->
  if RPC_RETRY_LIMIT <=? j mod RPC_RETRY_LIMIT + 1
  then (j + 1) mod RPC_RETRY_LIMIT = 0 /\ (retry_index i j + 1) mod N_SERVERS = retry_index i (j + 1)
  else (j + 1) mod RPC_RETRY_LIMIT = j mod RPC_RETRY_LIMIT + 1 /\ retry_index i j = retry_index i (j + 1).
Proof.
  unfold retry_index, RPC_RETRY_LIMIT, N_SERVERS. intros Hj Hi.
  destruct (Z.leb_spec 10 (j mod 10 + 1)).
  - assert ((j + 1) / 10 = j / 10 + 1) as -> by (Z.div_mod_to_equations; lia).
    rewrite Z.add_mod_idemp_l by lia. split; [Z.div_mod_to_equations; lia|]. f_equal. lia.
  - assert ((j + 1) / 10 = j / 10) as -> by (Z.div_mod_to_equations; lia).
    split; [Z.div_mod_to_equations; lia|done].
Qed.

Lemma loop_timeouts p k resp rest i j c :
  config_ok c -> 0 <= j -> 0 <= i < N_SERVERS ->
  current_leader_index (cl_rpc c) = retry_index i j ->
  exists c', send_loop p (j mod RPC_RETRY_LIMIT + 1) resp (replicate k TimedOut ++ rest) c =
      send_loop p ((j + Z.of_nat k) mod RPC_RETRY_LIMIT + 1) resp rest c' /\
    loop_kept p c c' /\ current_leader_index (cl_rpc c') = retry_index i (j + Z.of_nat k) /\
    cl_sent c' = cl_sent c ++
      ((fun t => (socket_of (raft_config (cl_rpc c)) (retry_index i t), p)) <$> seqZ (j + 1) (Z.of_nat k)).
Proof.
  intros Hc Hj Hi. revert j c Hc Hj. induction k as [|k IH]; intros j c Hc Hj Hidx.
  - exists c. rewrite Z.add_0_r, app_nil_r. split_and!; try done. by apply loop_kept_refl.
  - assert (exists c1, send_loop p (j mod RPC_RETRY_LIMIT + 1) resp (TimedOut :: replicate k TimedOut ++ rest) c =
      send_loop p ((j + 1) mod RPC_RETRY_LIMIT + 1) resp (replicate k TimedOut ++ rest) c1 /\ loop_kept p c c1 /\
      current_leader_index (cl_rpc c1) = retry_index i (j + 1) /\
      cl_sent c1 = cl_sent c ++ [(socket_of (raft_config (cl_rpc c)) (retry_index i (j + 1)), p)])
      as (c1 & E & Hk & Hidx1 & Hs1).
    { pose proof (retry_step i j Hj Hi) as Hst. cbn [send_loop].
      destruct (RPC_RETRY_LIMIT <=? j mod RPC_RETRY_LIMIT + 1); destruct Hst as [Hm Hn]; rewrite Hm.
      - destruct (run_next c Hc) as [Hr Hcn]. rewrite Hidx, Hn in Hr, Hcn. rewrite run_bind, Hr.
        rewrite run_bind, run_write by done. eexists. split; [reflexivity|]. split; [|done].
        eapply loop_kept_trans; [|by apply kept_write]. apply kept_lead. by destruct Hcn.
      - rewrite run_bind, run_write by done. eexists. split; [reflexivity|]. rewrite Hidx, Hn.
        split; [rewrite <- Hn, <- Hidx; by apply kept_write|].
        split; [|done]. by transitivity (retry_index i j). }
    destruct (IH (j + 1) c1) as (c2 & E2 & Hk2 & Hidx2 & Hs2); [by eapply loop_kept_config|lia|done|].
    exists c2. cbn [replicate app]. rewrite E, E2. replace (j + 1 + Z.of_nat k) with (j + Z.of_nat (S k)) in * by lia.
    split_and!; try done; [by eapply loop_kept_trans|].
    rewrite Hs2, Hs1, (lk_config _ _ _ Hk), <- app_assoc. f_equal.
    rewrite (seqZ_cons (j + 1) (Z.of_nat (S k))) by lia. cbn. f_equal. f_equal. f_equal; lia.
Qed.

(** A server that does not answer gets RPC_RETRY_LIMIT copies of the
    request; then the next server of the configuration is tried, in a circle.
    *)
Theorem send_packet_rotates wrc packet c k m from r rest :
  config_ok c -> 0 <= wrc -> cl_reads c = replicate k TimedOut ++ Received m from r :: rest ->
  acceptable (stamped c packet) r = true ->
  exists c', send_packet wrc packet c = Ok ((m, r), c') /\
    cl_sent c' = cl_sent c ++
      ((fun t => (socket_of (raft_config (cl_rpc c)) (retry_index (current_leader_index (cl_rpc c)) t),
                  stamped c packet)) <$> seqZ 0 (1 + Z.of_nat k)) /\
    current_leader_index (cl_rpc c') = retry_index (current_leader_index (cl_rpc c)) (Z.of_nat k).
Proof.
  intros Hc Hw Hrd Hr. rewrite run_send_packet, Hrd by done. set (p := stamped c packet) in *.
  set (i := current_leader_index (cl_rpc c)). assert (0 <= i < N_SERVERS) as Hi by by destruct Hc.
  assert (retry_index i 0 = i) as Hi0.
  { unfold retry_index, N_SERVERS in *. rewrite Z.div_0_l by done. rewrite Z.add_0_r. by apply Z.mod_small. }
  set (c0 := wrote (first_socket c) p (ticked c)).
  assert (config_ok c0) as Hc0 by (destruct Hc; by split).
  destruct (loop_timeouts p k zero_response_info (Received m from r :: rest) i 0 c0) as (c1 & E & Hk & Hidx & Hs);
    [done..|]. change (0 mod RPC_RETRY_LIMIT + 1) with 1 in E. rewrite E.
  cbn [send_loop]. rewrite run_bind. unfold modify at 1. cbn beta iota.
  unfold acceptable in Hr. destruct (keep_reading p r); [done|]. cbn in Hr.
  destruct (rs_rc r =? E_FOLLOWER); [done|]. destruct (rs_rc r =? E_ELECTION); [done|]. cbn [orb].
  eexists. split; [reflexivity|]. split; [|done]. cbn [cl_sent]. 
  etransitivity; [exact Hs|]. unfold c0. cbn [cl_sent]. rewrite (seqZ_cons 0) by lia.
  replace (Z.pred (1 + Z.of_nat k)) with (Z.of_nat k) by lia. cbn [fmap list_fmap]. rewrite Hi0.
  change (cl_sent _) with (cl_sent c ++ [(first_socket c, p)]) at 1. by rewrite <- app_assoc.
Qed.

(** * The calls *)

(** The datagrams of a request that returned. *)
Lemma send_packet_sent wrc packet c a c' :
  config_ok c -> send_packet wrc packet c = Ok (a, c') ->
  config_ok c' /\ exists l, cl_sent c' = cl_sent c ++ l /\ l <> [] /\ Forall (fun x => x.2 = stamped c packet) l.
Proof.
  intros Hc H. destruct (Z.ltb_spec wrc 0) as [Hw|Hw].
  - unfold send_packet in H. apply bind_ok in H as (p & c1 & _ & H). apply bind_ok in H as (? & c2 & _ & H).
    assert ((wrc <? 0) = true) as E by lia. by rewrite E in H.
  - rewrite run_send_packet in H by done.
    set (c0 := wrote _ _ _) in H. assert (config_ok c0) as Hc0 by (destruct Hc; by split).
    destruct a as [rc r]. destruct (loop_result _ _ _ _ _ _ _ _ Hc0 H) as (_ & _ & _ & _ & _ & Hk).
    split; [by eapply loop_kept_config|].
    destruct Hk as [_ _ _ _ _ (l & Hs & Hl)]. exists ((first_socket c, stamped c packet) :: l).
    split_and!; [|done|].
    + rewrite Hs. unfold c0. cbn. by rewrite <- app_assoc.
    + constructor; [done|]. eapply list.Forall_impl; [exact Hl|]. by intros x [? _].
Qed.

(** C36: The token a leader answered to an acquire is the one every copy of
    the following release carries. *)
Theorem rpc_token_roundtrip wrc wrc' c pre m from r rest term id msg :
  config_ok c -> 0 <= wrc -> 0 <= m -> cl_reads c = pre ++ Received m from r :: rest ->
  Forall (fun x => goes_on (stamped c (request LOCK_ACQUIRE)) x = true) pre ->
  acceptable (stamped c (request LOCK_ACQUIRE)) r = true -> rs_rc r = 0 ->
  rs_message r = put_token term id msg -> int_ok term = true -> int_ok id = true ->
  exists c1, RPC_acquire_lock wrc c = Ok (0, c1) /\
    forall res c2, RPC_release_lock wrc' c1 = Ok (res, c2) ->
      exists l, cl_sent c2 = cl_sent c1 ++ l /\ l <> [] /\
        Forall (fun x => pk_operation x.2 = LOCK_RELEASE /\ get_token (pk_buffer x.2) = (term, id)) l.
Proof.
  intros Hc Hw Hm Hrd Hpre Hr Hrc Hmsg Ht Hid.
  destruct (loop_ends (stamped c (request LOCK_ACQUIRE)) 1 zero_response_info pre m from r rest
    (wrote (first_socket c) (stamped c (request LOCK_ACQUIRE)) (ticked c))) as (c' & E & Hk & _);
    [by destruct Hc|done..|].
  unfold RPC_acquire_lock. rewrite run_bind, run_send_packet, Hrd, E by done. cbn [fst snd].
  assert ((m <? 0) || (rs_rc r <? 0) = false) as -> by (rewrite Hrc; lia).
  rewrite run_bind. unfold modify at 1. cbn beta iota. rewrite run_ret, Hmsg.
  eexists. split; [reflexivity|]. intros res c2 H. unfold RPC_release_lock in H.
  apply bind_ok in H as (x & c3 & [= <- <-] & H). apply bind_ok in H as (a & c3 & H & H').
  apply send_packet_sent in H as (_ & l & Hs & Hl & Hall).
  - exists l. assert (c2 = c3) as ->.
    { destruct (_ || _); [destruct (_ <? 0)|]; by injection H' as _ ->. }
    split_and!; [exact Hs|done|]. eapply list.Forall_impl; [exact Hall|]. intros y ->. split; [done|].
    change (get_token (copy_token [] (copy_token (current_transaction (cl_rpc c')) (put_token term id msg))) = (term, id)).
    by rewrite !copy_put_token, get_put_token.
  - assert (config_ok (wrote (first_socket c) (stamped c (request LOCK_ACQUIRE)) (ticked c))) as Hc0
      by (destruct Hc; by split).
    by destruct (loop_kept_config _ _ _ Hc0 Hk).
Qed.

(** [RPC_release_lock] reports success for [E_LOCK_EXP]: the transaction was
    never logged. *)
Theorem rpc_release_expired wrc c m from r rest :
  config_ok c -> 0 <= wrc -> 0 <= m -> cl_reads c = Received m from r :: rest ->
  rs_vtime r = rc_vtime (cl_rpc c) -> rs_rc r = E_LOCK_EXP ->
  exists c', RPC_release_lock wrc c = Ok (0, c').
Proof.
  intros Hc Hw Hm Hrd Hv Hrc. unfold RPC_release_lock. rewrite run_bind. unfold gets at 1. cbn beta iota.
  set (pk := _ <| pk_buffer ::= _ |>).
  destruct (loop_ends (stamped c pk) 1 zero_response_info [] m from r rest
    (wrote (first_socket c) (stamped c pk) (ticked c))) as (c' & E & _); [by destruct Hc|done| |].
  { unfold acceptable, keep_reading. rewrite Hrc. cbn. rewrite Hv, Z.ltb_irrefl. done. }
  rewrite run_bind, run_send_packet, Hrd by done. cbn [app] in E. rewrite E. cbn [fst snd].
  rewrite Hrc. assert ((m <? 0) = false) as -> by lia. eexists. reflexivity.
Qed.

(** A failed read leaves the zeroed response: [RPC_acquire_lock] reports success
    and there is no lock; [RPC_append_file] too. *)
Theorem rpc_failed_read_success wrc c rest file_name buffer cap :
  config_ok c -> 0 <= wrc -> cl_reads c = Failed :: rest ->
  (exists c', RPC_acquire_lock wrc c = Ok (0, c') /\
     current_transaction (cl_rpc c') = current_transaction (cl_rpc c)) /\
  ((length file_name < FILENAME_SIZE)%nat -> (BUFFER_SIZE <= cap)%nat ->
     exists c', RPC_append_file wrc file_name buffer cap c = Ok (0, c')).
Proof.
  intros Hc Hw Hrd. split.
  - unfold RPC_acquire_lock. rewrite run_bind, run_send_packet, Hrd by done. cbn [send_loop].
    eexists. split; reflexivity.
  - intros Hf Hb. unfold RPC_append_file. destruct (strcpy_fits FILENAME_SIZE [] file_name Hf) as [f Hf'].
    rewrite run_bind. unfold lift at 1. rewrite Hf'. rewrite run_bind. unfold lift at 1.
    apply Nat.leb_le in Hb. rewrite Hb. rewrite run_bind, run_send_packet, Hrd by done. cbn [send_loop].
    eexists. reflexivity.
Qed.
