(* ===== verification/TestClients.v ===== *)
(** [test_clients/*.c]: the client programs, as sequences of calls of
    [client_rpc.c].  [argv] is given as what the program makes of it: the
    configuration read from the file, when it opens, and the numbers. *)
From S2P Require Import Prelude Libc Posix RaftTypes RaftStorage RaftUtils PacketFormat ClientRpc.
From Stdlib Require Import Ascii.

#[local] Open Scope string_scope.
#[local] Open Scope Z_scope.
#[local] Open Scope list_scope.

(** A loop whose body may [return] from the function: it answers [true] then. *)
Fixpoint for_return {S A} (l : list A) (body : A -> M S bool) : M S bool :=
  match l with
  | [] => mret false
  | x :: l' => b ← body x; if (b : bool) then mret true else for_return l' body
  end.

Section clients.
(** What the first [UDP_Write] of the request with a given vtime answers, and
    the bytes of the memory [malloc] returns for [buffer]. *)
Context (wr : Z -> Z) (junk : bytes).

(** A call of the library at the current vtime. *)
Definition call {A} (f : Z -> M client A) : M client A :=
  c ← gets cl_rpc; f (wr (rc_vtime c)).

(** Every program starts by reading the configuration and [RPC_init]; [sd] is
    the socket. *)
Definition client_start (config : option raft_configuration) (id sd : Z) : M client unit :=
  match config with
  | None => throw NullDeref
  | Some config => RPC_init (wr 0) id sd config
  end.

(** [sprintf(msg, "... (id %i)\n", id)] into a block of [BUFFER_SIZE] bytes. *)
Definition client_message (kind : string) (id : Z) : string :=
  kind +:+ " message (id " +:+ itoa id +:+ ")" +:+ newline.

(** [buffer[0] = msg[j]]; the bytes behind stay what they are. *)
Definition char_buffer (c : ascii) : bytes := c :: tail junk.

(** [sprintf(filename, "file_%i", i)] into [char filename[7]], then the message
    character by character. *)
Definition write_message (msg : string) (i : Z) : M client unit :=
  filename ← lift (sprintf 7 (file_name i));
  for_ (to_bytes msg) (fun c =>
    _ ← call (fun w => RPC_append_file w (to_bytes filename) (char_buffer c) BUFFER_SIZE); skip).

(** The same, but the program returns when a write fails. *)
Definition write_message_checked (msg : string) (i : Z) : M client bool :=
  filename ← lift (sprintf 7 (file_name i));
  for_return (to_bytes msg) (fun c =>
    rc ← call (fun w => RPC_append_file w (to_bytes filename) (char_buffer c) BUFFER_SIZE);
    mret (rc <? 0)).

(** [client_normal.c]. *)
Definition client_normal (config : option raft_configuration) (id sd : Z) : M client Z :=
  client_start config id sd;;
  msg ← lift (sprintf BUFFER_SIZE (client_message "normal requests client" id));
  _ ← call RPC_acquire_lock;
  for_ (seqZ 0 10) (fun i => for_ (seqZ 0 20) (fun _ => write_message msg i));;
  _ ← call RPC_release_lock;
  call RPC_close;;
  _ ← call RPC_release_lock;
  mret 0.

(** [client_no_release.c]: it ends with the lock held. *)
Definition client_no_release (config : option raft_configuration) (id sd : Z) : M client Z :=
  client_start config id sd;;
  msg ← lift (sprintf BUFFER_SIZE (client_message "no release client" id));
  _ ← call RPC_acquire_lock;
  for_ (seqZ 0 20) (fun _ => for_ (seqZ 0 10) (write_message msg));;
  mret 0.

(** [client_mult_sessions.c]. *)
Definition client_mult_sessions (config : option raft_configuration) (id sd : Z) : M client Z :=
  client_start config id sd;;
  msg ← lift (sprintf BUFFER_SIZE (client_message "multiple sessions client" id));
  for_ (seqZ 0 20) (fun _ =>
    _ ← call RPC_acquire_lock;
    for_ (seqZ 0 10) (write_message msg);;
    _ ← call RPC_release_lock; skip);;
  call RPC_close;;
  mret 0.

(** [client_long_requests.c]; the two seconds of sleep after a file have no
    effect on the client. *)
Definition client_long_requests (config : option raft_configuration) (id sd : Z) : M client Z :=
  client_start config id sd;;
  msg ← lift (sprintf BUFFER_SIZE (client_message "long requests client" id));
  _ ← call RPC_acquire_lock;
  failed ← for_return (seqZ 0 10) (write_message_checked msg);
  if (failed : bool) then mret 0
  else
    _ ← call RPC_release_lock;
    call RPC_close;;
    mret 0.
End clients.
