(* ===== verification/TestClientsSpec.v ===== *)
(** The client programs make the requests one reads in them, whatever copies
    and late answers the network adds, and end. *)
From S2P Require Import Prelude Libc Posix RaftTypes RaftStorage StorageSpec RaftUtils PacketFormat ClientRpc ClientRpcSpec TestClients.
From Stdlib Require Import Ascii.

#[local] Open Scope string_scope.
#[local] Open Scope Z_scope.
#[local] Open Scope list_scope.

(** * Requests *)

(** A request a program makes: what its packet is before it is stamped, and
    the answers after which the program goes on. *)
Record request_spec := { rq_packet : packet_info -> Prop; rq_answer : response_info -> Prop }.

Definition stamp (id v : Z) (p : packet_info) : packet_info :=
  p <| pk_vtime := v |> <| pk_client_id := id |>.

(** From the vtime [v] the reads bring an acceptable answer to each request,
    after anything a call goes on with; then [rest] is left. *)
Fixpoint answered (v : Z) (rs : list request_spec) (reads rest : list read_result) : Prop :=
  match rs with
  | [] => reads = rest
  | q :: rs' => exists pre n from r reads',
      reads = pre ++ Received n from r :: reads' /\
      Forall (fun x => goes_on (stamp 0 v zero_packet) x = true) pre /\
      acceptable (stamp 0 v zero_packet) r = true /\ 0 <= n /\ rq_answer q r /\
      answered (v + 1) rs' reads' rest
  end.

(** The datagrams are, for each request in order, one or more copies of its
    packet. *)
Fixpoint sent_by (id v : Z) (rs : list request_spec) (sent : list (sockaddr_in * packet_info)) : Prop :=
  match rs with
  | [] => sent = []
  | q :: rs' => exists p copies sent',
      rq_packet q p /\ sent = copies ++ sent' /\ copies <> [] /\
      Forall (fun x => x.2 = stamp id v p) copies /\ sent_by id (v + 1) rs' sent'
  end.

Lemma answered_app v rs1 rs2 reads rest :
  answered v (rs1 ++ rs2) reads rest <->
  exists mid, answered v rs1 reads mid /\ answered (v + Z.of_nat (length rs1)) rs2 mid rest.
Proof.
  revert v reads. induction rs1 as [|q rs1 IH]; intros v reads; cbn [app answered length].
  - rewrite Z.add_0_r. split; [eauto|]. by intros (? & -> & ?).
  - replace (v + Z.of_nat (S (length rs1))) with (v + 1 + Z.of_nat (length rs1)) by lia. split.
    + intros (pre & n & from & r & reads' & ? & ? & ? & ? & ? & H). apply IH in H as (mid & ? & ?).
      exists mid. split; [|done]. by exists pre, n, from, r, reads'.
    + intros (mid & (pre & n & from & r & reads' & ? & ? & ? & ? & ? & H) & ?).
      exists pre, n, from, r, reads'. do 5 (split; [done|]). apply IH. eauto.
Qed.

Lemma sent_by_app_iff id v rs1 rs2 l :
  sent_by id v (rs1 ++ rs2) l <->
  exists l1 l2, l = l1 ++ l2 /\ sent_by id v rs1 l1 /\ sent_by id (v + Z.of_nat (length rs1)) rs2 l2.
Proof.
  revert v l. induction rs1 as [|q rs1 IH]; intros v l; cbn [app sent_by length].
  - rewrite Z.add_0_r. split; [by exists [], l|]. by intros (? & ? & -> & -> & ?).
  - replace (v + Z.of_nat (S (length rs1))) with (v + 1 + Z.of_nat (length rs1)) by lia. split.
    + intros (p & copies & l' & Hp & -> & Hne & Hall & (l1 & l2 & -> & Hl1 & Hl2)%IH).
      exists (copies ++ l1), l2. rewrite app_assoc. split_and!; [done| |done]. by exists p, copies, l1.
    + intros (l1' & l2 & -> & (p & copies & l1 & Hp & -> & Hne & Hall & Hl1) & Hl2).
      exists p, copies, (l1 ++ l2). rewrite <- app_assoc. split_and!; try done. apply IH. by exists l1, l2.
Qed.

Lemma sent_by_app id v rs1 rs2 l1 l2 :
  sent_by id v rs1 l1 -> sent_by id (v + Z.of_nat (length rs1)) rs2 l2 -> sent_by id v (rs1 ++ rs2) (l1 ++ l2).
Proof. intros. apply sent_by_app_iff. by exists l1, l2. Qed.

(** * Programs as lists of requests *)

(** The client [id] before its request of vtime [v]; [t] is the token of its
    transaction, where it is known. *)
Record ready (id v : Z) (t : option (Z * Z)) (c : client) : Prop := {
  rd_config : config_ok c;
  rd_id : rc_client_id (cl_rpc c) = id;
  rd_vtime : rc_vtime (cl_rpc c) = v;
  rd_low : 0 <= v;
  rd_token : forall k, t = Some k -> get_token (current_transaction (cl_rpc c)) = k
}.

Lemma ready_forget id v t c : ready id v t c -> ready id v None c.
Proof. intros []. by split. Qed.

(** [m] makes the requests [rs] and returns a value that satisfies [P]; the
    token is [t] before and [t'] after. *)
Definition makes {A} (id : Z) (t : option (Z * Z)) (m : M client A) (rs : list request_spec) (P : A -> Prop)
    (t' : option (Z * Z)) : Prop :=
  forall v c rest, ready id v t c -> v + Z.of_nat (length rs) <= INT_MAX -> answered v rs (cl_reads c) rest ->
  exists a c' l, m c = Ok (a, c') /\ P a /\ ready id (v + Z.of_nat (length rs)) t' c' /\ cl_reads c' = rest /\
    cl_sent c' = cl_sent c ++ l /\ sent_by id v rs l.

Lemma makes_weaken {A} id t (m : M client A) rs (P Q : A -> Prop) t' :
  makes id t m rs P t' -> (forall a, P a -> Q a) -> makes id t m rs Q t'.
Proof. intros H HPQ v c rest Hr Hv Ha. destruct (H v c rest Hr Hv Ha) as (a & c' & l & ? & ? & ?). eauto 10. Qed.

Lemma makes_forget {A} id t (m : M client A) rs P t' :
  makes id t m rs P t' -> makes id t m rs P None.
Proof.
  intros H v c rest Hr Hv Ha. destruct (H v c rest Hr Hv Ha) as (a & c' & l & ? & ? & Hr' & ?).
  apply ready_forget in Hr'. eauto 10.
Qed.

Lemma makes_any {A} id t (m : M client A) rs P t' :
  makes id None m rs P t' -> makes id t m rs P t'.
Proof. intros H v c rest Hr%ready_forget. by apply H. Qed.

Lemma makes_ret {A} id t (a : A) : makes id t (mret a) [] (fun x => x = a) t.
Proof.
  intros v c rest Hr _ Ha. cbn in Ha. exists a, c, []. rewrite app_nil_r. cbn [length Z.of_nat]. rewrite Z.add_0_r.
  by split_and!.
Qed.

Lemma makes_returns {A} id t (a : A) (P : A -> Prop) : P a -> makes id t (mret a) [] P t.
Proof. intros H. eapply makes_weaken; [apply makes_ret|]. by intros ? ->. Qed.

Lemma makes_bind {A B} id t (m : M client A) (k : A -> M client B) rs1 rs2 P Q t1 t2 :
  makes id t m rs1 P t1 -> (forall a, P a -> makes id t1 (k a) rs2 Q t2) -> makes id t (m ≫= k) (rs1 ++ rs2) Q t2.
Proof.
  intros Hm Hk v c rest Hr Hv Ha. rewrite length_app in *. apply answered_app in Ha as (mid & Ha1 & Ha2).
  destruct (Hm v c mid Hr) as (a & c1 & l1 & H1 & HP & Hr1 & Hm1 & Hs1 & Hl1); [lia|done|].
  destruct (Hk a HP (v + Z.of_nat (length rs1)) c1 rest Hr1) as (b & c2 & l2 & H2 & HQ & Hr2 & Hm2 & Hs2 & Hl2);
    [lia|by rewrite Hm1|].
  exists b, c2, (l1 ++ l2). split; [by rewrite run_bind, H1|]. split; [done|]. split; [|split; [done|split]].
  - replace (v + Z.of_nat (length rs1 + length rs2)) with (v + Z.of_nat (length rs1) + Z.of_nat (length rs2)) by lia.
    done.
  - by rewrite Hs2, Hs1, app_assoc.
  - by apply sent_by_app.
Qed.

Lemma makes_lift {A} id t (o : outcome A) a : o = Ok a -> makes id t (lift o) [] (fun x => x = a) t.
Proof. intros ->. apply makes_ret. Qed.

(** No request first, or none after. *)
Lemma makes_first {A B} id t (m : M client A) (k : A -> M client B) a rs Q t' :
  makes id t m [] (fun x => x = a) t -> makes id t (k a) rs Q t' -> makes id t (m ≫= k) rs Q t'.
Proof. intros Hm Hk. apply (makes_bind id t m k [] rs _ Q _ _ Hm). by intros ? ->. Qed.

Lemma makes_then {A B} id t (m : M client A) (k : A -> M client B) rs P Q t1 t2 :
  makes id t m rs P t1 -> (forall a, P a -> makes id t1 (k a) [] Q t2) -> makes id t (m ≫= k) rs Q t2.
Proof. intros Hm Hk. rewrite <- (app_nil_r rs). by eapply makes_bind. Qed.

Lemma makes_for {A} id t (l : list A) (body : A -> M client unit) (f : A -> list request_spec) :
  (forall x, x ∈ l -> makes id t (body x) (f x) (fun _ => True) t) ->
  makes id t (for_ l body) (flat_map f l) (fun _ => True) t.
Proof.
  induction l as [|x l IH]; intros H; cbn [for_ flat_map].
  - by apply makes_returns.
  - eapply makes_bind; [apply H; by left|]. intros _ _. apply IH. intros y Hy. apply H. by right.
Qed.

(** A loop that returns early never does. *)
Lemma makes_for_return {A} id t (l : list A) (body : A -> M client bool) (f : A -> list request_spec) :
  (forall x, x ∈ l -> makes id t (body x) (f x) (fun b => b = false) t) ->
  makes id t (for_return l body) (flat_map f l) (fun b => b = false) t.
Proof.
  induction l as [|x l IH]; intros H; cbn [for_return flat_map].
  - apply makes_ret.
  - eapply makes_bind; [apply H; by left|]. intros b ->. apply IH. intros y Hy. apply H. by right.
Qed.

(** The requests up to the [n]-th, which is taken from [rs']. *)
Definition until_nth {A} (n : nat) (rs rs' : list A) : list A := take n rs ++ take 1 (drop n rs').

Lemma until_nth_app {A} n (a b a' b' : list A) :
  length a' = length a -> until_nth n (a ++ b) (a' ++ b') =
  if (n <? length a)%nat then until_nth n a a' else a ++ until_nth (n - length a) b b'.
Proof.
  intros Hl. unfold until_nth. destruct (Nat.ltb_spec n (length a)).
  - rewrite take_app_le, drop_app_le by lia. f_equal. apply take_app_le. rewrite length_drop. lia.
  - rewrite take_app_ge, drop_app_ge by lia. by rewrite Hl, app_assoc.
Qed.

(** A loop that returns in the body that makes its [n]-th request. *)
Lemma makes_for_return_at {A} id t (l : list A) (body : A -> M client bool) (f f' : A -> list request_spec) :
  (forall x, length (f' x) = length (f x)) ->
  (forall x, x ∈ l -> makes id t (body x) (f x) (fun b => b = false) t) ->
  (forall x n, x ∈ l -> (n < length (f x))%nat -> makes id t (body x) (until_nth n (f x) (f' x)) (fun b => b = true) t) ->
  forall n, (n < length (flat_map f l))%nat ->
  makes id t (for_return l body) (until_nth n (flat_map f l) (flat_map f' l)) (fun b => b = true) t.
Proof.
  intros Hlen Hgo Hstop. induction l as [|x l IH]; cbn [for_return flat_map length]; intros n Hn; [lia|].
  rewrite until_nth_app by done. rewrite length_app in Hn. destruct (Nat.ltb_spec n (length (f x))).
  - eapply makes_then; [by apply Hstop; [left|]|]. intros b ->. apply makes_ret.
  - eapply makes_bind; [apply Hgo; by left|]. intros b ->. apply IH; [| |lia].
    + intros y Hy. apply Hgo. by right.
    + intros y k Hy. apply Hstop. by right.
Qed.

(** * The calls *)

Definition any_answer (r : response_info) : Prop := True.
Definition accepted (r : response_info) : Prop := 0 <= rs_rc r.
Definition refused (r : response_info) : Prop := rs_rc r < 0.

Definition plain_request (op : operation_type) (ans : response_info -> Prop) : request_spec :=
  {| rq_packet := eq (request op); rq_answer := ans |}.
(** An answer that gives the token [t]. *)
Definition grants (t : option (Z * Z)) (r : response_info) : Prop :=
  forall k, t = Some k -> 0 <= rs_rc r /\ get_token (rs_message r) = k.
Definition acquire_request (t : option (Z * Z)) : request_spec := plain_request LOCK_ACQUIRE (grants t).
Definition close_request : request_spec := plain_request CLIENT_CLOSE any_answer.
(** A release carries the token there is. *)
Definition release_request (t : option (Z * Z)) : request_spec :=
  {| rq_packet := fun p => exists b, p = (request LOCK_RELEASE) <| pk_buffer := b |> /\
       forall k, t = Some k -> get_token b = k;
     rq_answer := any_answer |}.
Definition append_packet (file : string) (text : bytes) : packet_info :=
  (request APPEND_FILE) <| pk_file_name := to_bytes file ++ [NUL] |> <| pk_buffer := take BUFFER_SIZE text |>.
Definition append_request (ans : response_info -> Prop) (file : string) (text : bytes) : request_spec :=
  {| rq_packet := eq (append_packet file text); rq_answer := ans |}.

Section calls.
Context (wr : Z -> Z) (Hwr : forall v, 0 <= wr v).

(** One request: the loop of [send_packet] ends with its answer. *)
Lemma send_ready id v t w (q : request_spec) packet c rest :
  0 <= w -> rq_packet q packet -> ready id v t c -> v + 1 <= INT_MAX -> answered v [q] (cl_reads c) rest ->
  exists n r c' l, send_packet w packet c = Ok ((n, r), c') /\ 0 <= n /\ rq_answer q r /\
    ready id (v + 1) t c' /\ cl_reads c' = rest /\ cl_sent c' = cl_sent c ++ l /\ sent_by id v [q] l.
Proof.
  intros Hw Hq [Hc Hi Hv Hlow Ht] Hmax (pre & n & from & r & reads & Hrd & Hpre & Hr & Hn & Hans & Hrest).
  cbn [answered] in Hrest. subst reads. rewrite run_send_packet, Hrd by done.
  set (p := stamped c packet). set (c0 := wrote (first_socket c) p (ticked c)).
  assert (config_ok c0) as Hc0 by (destruct Hc; by split).
  assert (p = stamp id v packet) as Hp by (unfold p, stamped, stamp; by rewrite Hi, Hv).
  assert (pk_vtime p = v) as Hpv by by rewrite Hp.
  destruct (loop_ends p 1 zero_response_info pre n from r rest c0 Hc0) as (c' & -> & Hk & Hreads).
  - eapply list.Forall_impl; [exact Hpre|]. intros [m a b| |]; cbn; [|done..]. unfold acceptable, keep_reading.
    by rewrite Hpv.
  - unfold acceptable, keep_reading in *. by rewrite Hpv.
  - pose proof (loop_kept_config _ _ _ Hc0 Hk) as Hc'. destruct Hk as [_ Hv' Hi' Ht' _ (l & Hs & Hl)].
    exists n, r, c', ((first_socket c, p) :: l). do 3 (split; [done|]). split; [split|split; [done|split]].
    + done.
    + by rewrite Hi'.
    + rewrite Hv'. unfold c0. cbn. rewrite Hv. apply int_wrap_id, int_ok_spec. unfold INT_MIN. lia.
    + lia.
    + by rewrite Ht'.
    + rewrite Hs. unfold c0. cbn. by rewrite <- app_assoc.
    + exists packet, ((first_socket c, p) :: l), []. rewrite app_nil_r. rewrite <- Hp.
      split_and!; try done. constructor; [done|]. eapply list.Forall_impl; [exact Hl|]. by intros x [? _].
Qed.

(** A call of the library that sends one request. *)
Lemma makes_call {A} id t (f : Z -> M client A) q (packet : client -> packet_info) k Q t' :
  (forall w c, f w c = (send_packet w (packet c) ≫= k) c) ->
  (forall v c, ready id v t c -> rq_packet q (packet c)) ->
  (forall n r, 0 <= n -> rq_answer q r -> makes id t (k (n, r)) [] Q t') ->
  makes id t (call wr f) [q] Q t'.
Proof.
  intros Hf Hq Hk v c rest Hr Hmax Ha. unfold call. rewrite run_bind. unfold gets at 1. cbn beta iota.
  destruct (send_ready id v t (wr (rc_vtime (cl_rpc c))) q (packet c) c rest) as (n & r & c1 & l & E & Hn & Hans & Hr1 & Hrd & Hs & Hl);
    eauto.
  rewrite Hf, run_bind, E. destruct (Hk n r Hn Hans (v + 1) c1 rest Hr1) as (a & c2 & l2 & E2 & HQ & Hr2 & Hrd2 & Hs2 & ->);
    [cbn in *; lia|done|].
  exists a, c2, l. rewrite app_nil_r in Hs2. cbn in Hr2. rewrite Z.add_0_r in Hr2.
  by rewrite Hs2.
Qed.

Lemma makes_acquire id t t' :
  makes id t (call wr RPC_acquire_lock) [acquire_request t'] (fun _ => True) t'.
Proof.
  apply makes_any. eapply (makes_call id _ _ _ (fun _ => request LOCK_ACQUIRE)); [reflexivity|done|].
  intros n r Hn Hans. cbn beta. cbn [fst snd]. cbn in Hans.
  intros v c rest Hr _ Ha. cbn [answered] in Ha. cbn [length Z.of_nat]. rewrite Z.add_0_r. unfold grants in Hans.
  destruct ((n <? 0) || (rs_rc r <? 0)) eqn:E.
  - eexists _, c, []. rewrite app_nil_r. split; [reflexivity|]. split_and!; try done.
    destruct Hr. split; try done. intros k Hk. destruct (Hans k Hk). lia.
  - eexists _, _, []. rewrite app_nil_r. split; [reflexivity|]. split_and!; try done.
    destruct Hr. split; try done. intros k Hk. cbn. rewrite get_copy_token. by apply Hans.
Qed.

Lemma makes_release id t : makes id t (call wr RPC_release_lock) [release_request t] (fun _ => True) t.
Proof.
  eapply (makes_call id _ _ _ (fun c => (request LOCK_RELEASE) <| pk_buffer ::= fun b => copy_token b (current_transaction (cl_rpc c)) |>));
    [reflexivity| |].
  - intros v c []. eexists. split; [reflexivity|]. intros k Hk. rewrite get_copy_token. auto.
  - intros n r Hn _. cbn beta. destruct (_ || _); by apply makes_returns.
Qed.

Lemma makes_close id t : makes id t (call wr RPC_close) [close_request] (fun _ => True) t.
Proof.
  eapply (makes_call id _ _ _ (fun _ => request CLIENT_CLOSE)); [reflexivity|done|].
  intros n r Hn _. by apply makes_returns.
Qed.

Lemma makes_append id t ans file text :
  (String.length file < FILENAME_SIZE)%nat ->
  makes id t (call wr (fun w => RPC_append_file w (to_bytes file) text BUFFER_SIZE)) [append_request ans file text]
    (fun rc => exists r, ans r /\ rc = rs_rc r) t.
Proof.
  intros Hf. eapply (makes_call id _ _ _ (fun _ => append_packet file text) (fun a => mret (rs_rc a.2))); [|done|].
  - intros w c. unfold RPC_append_file.
    assert (strcpy FILENAME_SIZE [] (to_bytes file) = Ok (to_bytes file ++ [NUL])) as E.
    { unfold strcpy. rewrite length_to_bytes, (proj2 (Nat.ltb_lt _ _)) by done. by rewrite drop_nil. }
    rewrite run_bind. unfold lift at 1. rewrite E. rewrite run_bind. unfold lift at 1. rewrite Nat.leb_refl. reflexivity.
  - intros n r Hn Ha. apply makes_returns. eauto.
Qed.

(** From any connection: [RPC_init] makes the first request. *)
Lemma program_runs {A} id t sd config (m : M client A) rs P c rest :
  Z.of_nat (length config) = N_SERVERS -> makes id None m rs P t ->
  1 + Z.of_nat (length rs) <= INT_MAX ->
  answered 0 (plain_request CLIENT_INIT accepted :: rs) (cl_reads c) rest ->
  exists a c' l, (client_start wr (Some config) id sd;; m) c = Ok (a, c') /\ P a /\ cl_reads c' = rest /\
    cl_sent c' = cl_sent c ++ l /\ sent_by id 0 (plain_request CLIENT_INIT accepted :: rs) l.
Proof.
  intros Hlen Hm Hmax Ha.
  apply (answered_app 0 [_] rs) in Ha as (mid & Ha0 & Ha). change (0 + Z.of_nat (length [_])) with 1 in Ha.
  rewrite run_bind. cbn [client_start]. unfold RPC_init. rewrite run_bind. unfold modify at 1. cbn beta iota.
  match goal with |- context [(send_packet _ _ ≫= _) ?c0] => set (c1 := c0) end.
  assert (ready id 0 None c1) as Hr by (split; [split; [done|]; done|done..]).
  destruct (send_ready id 0 None (wr 0) (plain_request CLIENT_INIT accepted) (request CLIENT_INIT) c1 mid (Hwr 0) eq_refl Hr ltac:(done) Ha0)
    as (n & r & c2 & l & E & Hn & Hans & Hr2 & Hrd & Hs & Hl).
  rewrite run_bind, E. cbn [fst snd]. cbn in Hans. unfold accepted in Hans.
  assert ((n <? 0) || (rs_rc r <? 0) = false) as -> by lia. unfold skip. cbn beta iota.
  destruct (Hm 1 c2 rest Hr2) as (a & c3 & l2 & E3 & HP & _ & Hrd3 & Hs3 & Hl3); [lia|by rewrite Hrd|].
  exists a, c3, (l ++ l2). split; [done|]. split; [done|]. split; [done|]. split.
  - rewrite Hs3, Hs. by rewrite <- app_assoc.
  - by apply (sent_by_app id 0 [_] rs).
Qed.
End calls.

(** * The programs *)

Section programs.
Context (wr : Z -> Z) (Hwr : forall v, 0 <= wr v) (junk : bytes).

(** The writes of one message to the file [i]. *)
Definition message_requests (ans : response_info -> Prop) (msg : string) (i : Z) : list request_spec :=
  (fun c => append_request ans (file_name i) (char_buffer junk c)) <$> to_bytes msg.

Lemma flat_map_singleton {A B} (f : A -> B) l : flat_map (fun x => [f x]) l = f <$> l.
Proof. induction l as [|x l IH]; [done|]. cbn. by rewrite IH. Qed.

Lemma file_name_fits i : 0 <= i < 10 -> sprintf 7 (file_name i) = Ok (file_name i).
Proof.
  intros Hi. assert (forallb (fun k => String.length (file_name k) <? 7)%nat (seqZ 0 10) = true) as H by (vm_compute; done).
  rewrite forallb_forall in H. specialize (H i). unfold sprintf. rewrite H; [done|].
  apply list_elem_of_In, elem_of_seqZ. lia.
Qed.

Lemma ten_name_short i : 0 <= i < 10 -> (String.length (file_name i) < FILENAME_SIZE)%nat.
Proof.
  intros Hi. pose proof (file_name_fits i Hi) as H. unfold sprintf in H.
  destruct (Nat.ltb_spec (String.length (file_name i)) 7); [|done]. unfold FILENAME_SIZE. lia.
Qed.

Lemma makes_message id t msg i :
  0 <= i < 10 -> makes id t (write_message wr junk msg i) (message_requests any_answer msg i) (fun _ => True) t.
Proof.
  intros Hi. unfold write_message, message_requests. rewrite <- flat_map_singleton.
  eapply makes_first; [by apply makes_lift, file_name_fits|]. apply makes_for. intros ch _.
  eapply makes_then; [by apply (makes_append wr Hwr), ten_name_short|intros rc _; by apply makes_returns].
Qed.

Lemma makes_message_checked id t msg i :
  0 <= i < 10 ->
  makes id t (write_message_checked wr junk msg i) (message_requests accepted msg i) (fun b => b = false) t.
Proof.
  intros Hi. unfold write_message_checked, message_requests. rewrite <- flat_map_singleton.
  eapply makes_first; [by apply makes_lift, file_name_fits|]. apply makes_for_return. intros ch _.
  eapply makes_then; [by apply (makes_append wr Hwr), ten_name_short|].
  intros rc (r & Hr & ->). apply makes_returns. unfold accepted in Hr. lia.
Qed.

Lemma makes_message_refused id t msg i n :
  0 <= i < 10 -> (n < length (message_requests accepted msg i))%nat ->
  makes id t (write_message_checked wr junk msg i)
    (until_nth n (message_requests accepted msg i) (message_requests refused msg i)) (fun b => b = true) t.
Proof.
  intros Hi. unfold write_message_checked, message_requests. rewrite <- !flat_map_singleton. intros Hn.
  eapply makes_first; [by apply makes_lift, file_name_fits|]. apply makes_for_return_at; [done|..|done].
  - intros ch _. eapply makes_then; [by apply (makes_append wr Hwr), ten_name_short|].
    intros rc (r & Hr & ->). apply makes_returns. unfold accepted in Hr. lia.
  - intros ch [|k] _ Hk; [|cbn in Hk; lia]. eapply makes_then; [by apply (makes_append wr Hwr), ten_name_short|].
    intros rc (r & Hr & ->). apply makes_returns. unfold refused in Hr. lia.
Qed.

(** The requests of each program, after the first; [t] is the token a server
    answers to the acquire, where it is known. *)
Definition normal_requests (t : option (Z * Z)) (id : Z) : list request_spec :=
  let msg := client_message "normal requests client" id in
  [acquire_request t] ++
  flat_map (fun i => flat_map (fun _ => message_requests any_answer msg i) (seqZ 0 20)) (seqZ 0 10) ++
  [release_request t; close_request; release_request t].

Definition no_release_requests (t : option (Z * Z)) (id : Z) : list request_spec :=
  let msg := client_message "no release client" id in
  [acquire_request t] ++
  flat_map (fun _ => flat_map (message_requests any_answer msg) (seqZ 0 10)) (seqZ 0 20).

(** The [k]-th session has the token [ts k]. *)
Definition mult_sessions_requests (ts : Z -> option (Z * Z)) (id : Z) : list request_spec :=
  let msg := client_message "multiple sessions client" id in
  flat_map (fun k =>
    [acquire_request (ts k)] ++ flat_map (message_requests any_answer msg) (seqZ 0 10) ++ [release_request (ts k)])
    (seqZ 0 20) ++
  [close_request].

(** The program ends at the first write that fails, the [n]-th one; [n] is not
    below the number of the writes when none fails. *)
Definition long_requests_requests (t : option (Z * Z)) (n : nat) (id : Z) : list request_spec :=
  let msg := client_message "long requests client" id in
  let good := flat_map (message_requests accepted msg) (seqZ 0 10) in
  [acquire_request t] ++
  if (n <? length good)%nat then until_nth n good (flat_map (message_requests refused msg) (seqZ 0 10))
  else good ++ [release_request t; close_request].

Definition test_clients (ts : Z -> option (Z * Z)) (n : nat) (id : Z) :
    list ((option raft_configuration -> Z -> Z -> M client Z) * list request_spec) :=
  [(client_normal wr junk, normal_requests (ts 0) id);
   (client_no_release wr junk, no_release_requests (ts 0) id);
   (client_mult_sessions wr junk, mult_sessions_requests ts id);
   (client_long_requests wr junk, long_requests_requests (ts 0) n id)].

Lemma length_flat_map_le {A B} (f : A -> list B) l n :
  (forall x, (length (f x) <= n)%nat) -> (length (flat_map f l) <= length l * n)%nat.
Proof. intros H. induction l as [|x l IH]; [done|]. cbn. rewrite length_app. specialize (H x). lia. Qed.

(** The message fits its block. *)
Lemma message_fits kind id :
  int_ok id = true -> 0 <= id -> (String.length kind < 100)%nat ->
  (String.length (client_message kind id) < 200)%nat /\
  sprintf BUFFER_SIZE (client_message kind id) = Ok (client_message kind id).
Proof.
  intros Hid H0 Hk. pose proof (length_itoa id Hid H0).
  assert (String.length (client_message kind id) < 200)%nat.
  { unfold client_message. rewrite !length_app_string. cbn. lia. }
  split; [done|]. unfold sprintf. rewrite (proj2 (Nat.ltb_lt _ _)); [done|]. unfold BUFFER_SIZE. lia.
Qed.

Lemma length_messages ans kind id :
  int_ok id = true -> 0 <= id -> (String.length kind < 100)%nat ->
  (length (flat_map (message_requests ans (client_message kind id)) (seqZ 0 10)) <= 2000)%nat.
Proof.
  intros Hid H0 Hk. destruct (message_fits kind id Hid H0 Hk) as [Hm _].
  etransitivity; [apply (length_flat_map_le _ _ 200)|change (length (seqZ 0 10)) with 10%nat; lia].
  intros i. unfold message_requests. rewrite length_fmap, length_to_bytes. lia.
Qed.

Lemma makes_normal id t msg :
  makes id None
    (_ ← call wr RPC_acquire_lock;
     for_ (seqZ 0 10) (fun i => for_ (seqZ 0 20) (fun _ => write_message wr junk msg i));;
     _ ← call wr RPC_release_lock;
     call wr RPC_close;;
     _ ← call wr RPC_release_lock;
     mret 0)
    ([acquire_request t] ++
     flat_map (fun i => flat_map (fun _ => message_requests any_answer msg i) (seqZ 0 20)) (seqZ 0 10) ++
     [release_request t; close_request; release_request t]) (fun rc => rc = 0) t.
Proof.
  eapply makes_bind; [by apply makes_acquire|intros _ _]. eapply makes_bind.
  { apply makes_for. intros i Hi%elem_of_seqZ. apply makes_for. intros _ _. apply makes_message. lia. }
  intros _ _. apply (makes_bind _ _ _ _ [_] [_; _] (fun _ => True) _ t); [by apply makes_release|intros _ _].
  apply (makes_bind _ _ _ _ [_] [_] (fun _ => True) _ t); [by apply makes_close|intros _ _].
  eapply makes_then; [by apply makes_release|intros _ _; by apply makes_returns].
Qed.

Lemma makes_no_release id t msg :
  makes id None
    (_ ← call wr RPC_acquire_lock;
     for_ (seqZ 0 20) (fun _ => for_ (seqZ 0 10) (write_message wr junk msg));;
     mret 0)
    ([acquire_request t] ++ flat_map (fun _ => flat_map (message_requests any_answer msg) (seqZ 0 10)) (seqZ 0 20))
    (fun rc => rc = 0) t.
Proof.
  eapply makes_bind; [by apply makes_acquire|intros _ _].
  eapply makes_then; [|intros _ _; by apply makes_returns].
  apply makes_for. intros _ _. apply makes_for. intros i Hi%elem_of_seqZ. apply makes_message. lia.
Qed.

Lemma makes_mult_sessions id ts msg :
  makes id None
    (for_ (seqZ 0 20) (fun _ =>
       _ ← call wr RPC_acquire_lock;
       for_ (seqZ 0 10) (write_message wr junk msg);;
       _ ← call wr RPC_release_lock; skip);;
     call wr RPC_close;;
     mret 0)
    (flat_map (fun k => [acquire_request (ts k)] ++ flat_map (message_requests any_answer msg) (seqZ 0 10) ++
        [release_request (ts k)]) (seqZ 0 20) ++ [close_request]) (fun rc => rc = 0) None.
Proof.
  eapply makes_bind.
  - apply makes_for. intros k _. eapply makes_forget, makes_bind; [by apply (makes_acquire wr Hwr _ _ (ts k))|intros _ _].
    eapply makes_bind.
    + apply makes_for. intros i Hi%elem_of_seqZ. apply makes_message. lia.
    + intros _ _. eapply makes_then; [by apply makes_release|intros _ _]. by apply makes_returns.
  - intros _ _. eapply makes_then; [by apply makes_close|intros _ _; by apply makes_returns].
Qed.

Lemma makes_long_requests id t n msg :
  makes id None
    (_ ← call wr RPC_acquire_lock;
     failed ← for_return (seqZ 0 10) (write_message_checked wr junk msg);
     if (failed : bool) then mret 0
     else
       _ ← call wr RPC_release_lock;
       call wr RPC_close;;
       mret 0)
    ([acquire_request t] ++
     if (n <? length (flat_map (message_requests accepted msg) (seqZ 0 10)))%nat
     then until_nth n (flat_map (message_requests accepted msg) (seqZ 0 10)) (flat_map (message_requests refused msg) (seqZ 0 10))
     else flat_map (message_requests accepted msg) (seqZ 0 10) ++ [release_request t; close_request])
    (fun rc => rc = 0) t.
Proof.
  eapply makes_bind; [by apply makes_acquire|intros _ _]. destruct (Nat.ltb_spec n (length (flat_map (message_requests accepted msg) (seqZ 0 10)))) as [Hn|_].
  - eapply (makes_then _ _ _ _ _ (fun b => b = true)); [|intros failed ->; by apply makes_returns].
    apply makes_for_return_at; [by intros i; unfold message_requests; rewrite !length_fmap|..|done].
    + intros i Hi%elem_of_seqZ. apply makes_message_checked. lia.
    + intros i k Hi%elem_of_seqZ. apply makes_message_refused. lia.
  - eapply makes_bind.
    { apply makes_for_return. intros i Hi%elem_of_seqZ. apply makes_message_checked. lia. }
    intros failed ->. apply (makes_bind _ _ _ _ [_] [_] (fun _ => True) _ t); [by apply makes_release|intros _ _].
    eapply makes_then; [by apply makes_close|intros _ _; by apply makes_returns].
Qed.

(** A program is its start, the formatting of the message and the calls. *)
Lemma client_program id t sd config kind (body : string -> M client Z) reqs c rest :
  Z.of_nat (length config) = N_SERVERS -> int_ok id = true -> 0 <= id -> (String.length kind < 100)%nat ->
  Z.of_nat (length reqs) <= 100000 ->
  makes id None (body (client_message kind id)) reqs (fun rc => rc = 0) t ->
  answered 0 (plain_request CLIENT_INIT accepted :: reqs) (cl_reads c) rest ->
  exists c' l,
    (client_start wr (Some config) id sd;; msg ← lift (sprintf BUFFER_SIZE (client_message kind id)); body msg) c = Ok (0, c') /\
    cl_reads c' = rest /\ cl_sent c' = cl_sent c ++ l /\
    sent_by id 0 (plain_request CLIENT_INIT accepted :: reqs) l.
Proof.
  intros Hc Hid H0 Hk Hlen Hm Ha. destruct (message_fits kind id Hid H0 Hk) as [_ Hmsg].
  destruct (program_runs wr Hwr id t sd config (msg ← lift (sprintf BUFFER_SIZE (client_message kind id)); body msg)
    reqs (fun rc => rc = 0) c rest Hc) as (a & c' & l & E & -> & ?); [|unfold INT_MAX; lia|done|].
  - eapply makes_first; [by apply makes_lift|exact Hm].
  - exists c', l. by split.
Qed.

Lemma test_clients_length ts n id prog reqs :
  int_ok id = true -> 0 <= id -> (prog, reqs) ∈ test_clients ts n id -> Z.of_nat (length reqs) <= 100000.
Proof.
  intros Hid H0 Hin.
  repeat (apply elem_of_cons in Hin as [E|Hin]; [injection E as _ ->|]); [..|by apply not_elem_of_nil in Hin];
    unfold normal_requests, no_release_requests, mult_sessions_requests, long_requests_requests; cbv zeta;
    rewrite ?length_app; cbn [length].
  - set (f := fun i : Z => _). assert (length (flat_map f (seqZ 0 10)) <= 10 * 4000)%nat; [|lia].
    apply length_flat_map_le. intros i. unfold f.
    etransitivity; [apply (length_flat_map_le _ _ 200)|change (length (seqZ 0 20)) with 20%nat; lia].
    intros _. unfold message_requests. rewrite length_fmap, length_to_bytes.
    destruct (message_fits "normal requests client" id Hid H0); [cbn; lia|lia].
  - match goal with |- context [flat_map ?f (seqZ 0 20)] =>
      assert (length (flat_map f (seqZ 0 20)) <= 20 * 2000)%nat; [apply (length_flat_map_le f)|lia] end.
    intros x. apply length_messages; [done..|cbn; lia].
  - match goal with |- context [flat_map ?f (seqZ 0 20)] =>
      assert (length (flat_map f (seqZ 0 20)) <= 20 * 2002)%nat; [apply (length_flat_map_le f)|lia] end.
    intros x. rewrite !length_app. cbn [length].
    pose proof (length_messages any_answer "multiple sessions client" id Hid H0 ltac:(cbn; lia)). lia.
  - pose proof (length_messages accepted "long requests client" id Hid H0 ltac:(cbn; lia)).
    destruct (Nat.ltb _ _); [|rewrite length_app; cbn; lia].
    unfold until_nth. rewrite length_app, !length_take. lia.
Qed.

Lemma client_normal_runs t id sd config c rest :
  Z.of_nat (length config) = N_SERVERS -> int_ok id = true -> 0 <= id ->
  answered 0 (plain_request CLIENT_INIT accepted :: normal_requests t id) (cl_reads c) rest ->
  exists c' l, client_normal wr junk (Some config) id sd c = Ok (0, c') /\ cl_reads c' = rest /\
    cl_sent c' = cl_sent c ++ l /\ sent_by id 0 (plain_request CLIENT_INIT accepted :: normal_requests t id) l.
Proof.
  intros Hc Hid H0 Ha.
  assert (Z.of_nat (length (normal_requests t id)) <= 100000) as Hlen
    by (eapply (test_clients_length (fun _ => t) 0); [done..|by left]).
  eapply client_program; [done..| |done|apply makes_normal|exact Ha]; cbn; lia.
Qed.

(** C37: Each of the four test clients, when every datagram can be written,
    the server accepts its connection and at last answers each request -
    whatever copies, late answers, refusals and time-outs come before each
    answer, and whatever the answer to an acquire, a write, a release or a
    close says - ends with 0 and has sent exactly the requests its text shows,
    in order, each in one or more copies of one packet; client_long_requests
    sends them up to the first write whose answer is negative, and all of them
    when there is none. *)
Theorem test_clients_run ts n prog reqs id sd config c rest :
  (prog, reqs) ∈ test_clients ts n id ->
  Z.of_nat (length config) = N_SERVERS -> int_ok id = true -> 0 <= id ->
  answered 0 (plain_request CLIENT_INIT accepted :: reqs) (cl_reads c) rest ->
  exists c' l, prog (Some config) id sd c = Ok (0, c') /\ cl_reads c' = rest /\
    cl_sent c' = cl_sent c ++ l /\ sent_by id 0 (plain_request CLIENT_INIT accepted :: reqs) l.
Proof.
  intros Hin Hc Hid H0 Ha. pose proof (test_clients_length _ _ _ _ _ Hid H0 Hin) as Hlen. revert Hlen Ha.
  repeat (apply elem_of_cons in Hin as [E|Hin]; [injection E as -> ->|]); [..|by apply not_elem_of_nil in Hin];
    intros Hlen Ha.
  - by apply (client_normal_runs (ts 0)).
  - eapply client_program; [done..| |done|apply makes_no_release|exact Ha]; cbn; lia.
  - eapply client_program; [done..| |done|apply makes_mult_sessions|exact Ha]; cbn; lia.
  - eapply client_program; [done..| |done|apply makes_long_requests|exact Ha]; cbn; lia.
Qed.
End programs.
