(* ===== verification/ClientSession.v ===== *)
(** A client and the leader: the datagrams of a session, with all their copies,
    given to [handle_packet] one after another, run each handler once, and the
    session becomes the next entry of the log, of which each file gets what the
    client wrote to it. *)
From S2P Require Import Prelude Libc Posix RaftTypes PacketFormat Spinlock TimedLock RaftStorage StorageSpec RaftUtils RaftFollower RaftLeader RaftCandidate Raft RaftView RaftLog Server ServerSpec LockService ServerRpc ServerRpcSpec SnapshotInstall ClientRpc ClientRpcSpec TestClients TestClientsSpec.
From Stdlib Require Import Ascii.

#[local] Open Scope string_scope.
#[local] Open Scope Z_scope.
#[local] Open Scope list_scope.

(** * Copies of requests *)

Section copies.
Context {St : Type} (handlers : Z -> RpcHandlers St).

(** The threads of the datagrams [l], one after another; the handlers of the
    request of vtime [v] are [handlers v], and [addr] is the client. *)
Definition handle_all (addr : sockaddr_in) (l : list (sockaddr_in * packet_info)) : M (St * server_rpc_conn) unit :=
  for_ l (fun x => _ ← @handle_packet St (handlers (pk_vtime x.2)) x.2 addr; skip).

Lemma handle_all_app addr l1 l2 x :
  handle_all addr (l1 ++ l2) x = (handle_all addr l1;; handle_all addr l2) x.
Proof.
  unfold handle_all. revert x. induction l1 as [|y l1 IH]; intros x; [done|]. cbn [app for_].
  rewrite !run_bind. destruct (handle_packet y.2 addr x) as [[b z]|]; [|done]. unfold skip at 1 3. cbn beta iota.
  rewrite IH. by rewrite run_bind.
Qed.

Lemma run_cons addr y l x :
  handle_all addr (y :: l) x =
    match @handle_packet St (handlers (pk_vtime y.2)) y.2 addr x with
    | Ok (_, z) => handle_all addr l z
    | Fault f => Fault f
    end.
Proof.
  unfold handle_all. cbn [for_]. rewrite !run_bind. by destruct (handle_packet y.2 addr x) as [[b z]|].
Qed.

(** The client [id] has made no request of vtime [v] yet. *)
Definition before (id v : Z) (c : server_rpc_conn) : Prop :=
  conn_free c /\ 0 <= id < MAX_ID /\ 0 <= v /\ forall x, client_of c id = Some x -> cp_vtime x < v.
(** Its last request is that of vtime [v]. *)
Definition after (id v : Z) (c : server_rpc_conn) : Prop :=
  conn_free c /\ 0 <= id < MAX_ID /\ exists x, client_of c id = Some x /\ cp_vtime x = v /\
    (cp_state x = Some PROCESSING \/ cp_state x = Some WAITING /\ is_Some (cp_last_response x)).

Lemma after_before id v c : 0 <= v -> after id v c -> before id (v + 1) c.
Proof.
  intros Hv (Hf & Hid & x & Hx & Hvx & _). split; [done|]. split; [done|]. split; [lia|]. intros y Hy.
  assert (y = x) as -> by congruence. lia.
Qed.

Lemma send_free addr r c : conn_free c -> conn_free (send addr r c).
Proof. intros []. by split. Qed.

(** The first copy runs the handler. *)
Lemma first_copy `{RpcHandlers St} id v p addr s s' c o :
  pk_client_id p = id -> pk_vtime p = v -> h_role s = LEADER -> before id v c ->
  dispatch p (response_to p) s = Ok (o, s') ->
  exists (b : bool) c', handle_packet p addr (s, c) = Ok (b, (s', c')) /\ after id v c'.
Proof.
  intros Hid Hv Hr (Hf & Hb & Hv0 & Hlt) Hd. rewrite run_handle_packet by (by rewrite ?Hid). rewrite Hid. cbv zeta.
  set (c1 := match client_of c id with Some _ => c | None => _ end).
  assert (conn_free c1 /\ exists x, client_of c1 id = Some x /\ cp_vtime x <> v) as (Hf1 & x & Hx & Hxv).
  { subst c1. destruct (client_of c id) as [x|] eqn:Hx; [split; [done|]; exists x; split; [done|]; specialize (Hlt x eq_refl); lia|].
    split; [by apply store_free|]. exists (new_client id).
    rewrite client_of_store, decide_True by (try done; rewrite (cf_len _ Hf); lia). split; [done|cbn; lia]. }
  pose proof (cf_client _ Hf1 _ _ Hx) as Hxl. clearbody c1.
  rewrite (run_check_new _ _ _ x) by (rewrite ?Hid, ?Hv; done). rewrite Hid, Hv.
  set (x1 := x <| cp_state := Some PROCESSING |> <| cp_vtime := v |>).
  assert (conn_free (store id x1 c1)) as Hf2 by by apply store_free.
  assert (client_of (store id x1 c1) id = Some x1) as Hx1.
  { rewrite client_of_store, decide_True by (try done; rewrite (cf_len _ Hf1); lia). done. }
  rewrite run_bind. unfold on_srv at 1. rewrite Hd. destruct o as [r|].
  - rewrite run_bind. unfold on_conn at 1. rewrite (run_finish _ _ _ _ x1) by (rewrite ?Hid; done). rewrite Hid, run_ret.
    assert (conn_free (send addr r (store id x1 c1))) as Hf3 by by apply send_free.
    eexists _, _. split; [reflexivity|]. split; [by apply store_free|]. split; [done|].
    eexists. split; [rewrite client_of_store, decide_True by (try done; rewrite (cf_len _ Hf3); lia); reflexivity|].
    split; [done|]. right. split; [done|by eexists].
  - rewrite run_ret. eexists _, _. split; [reflexivity|]. split; [done|]. split; [done|]. exists x1.
    split; [done|]. split; [done|by left].
Qed.

(** Another copy does not. *)
Lemma next_copy `{RpcHandlers St} id v p addr s c :
  pk_client_id p = id -> pk_vtime p = v -> h_role s = LEADER -> after id v c ->
  exists (b : bool) c', handle_packet p addr (s, c) = Ok (b, (s, c')) /\ after id v c'.
Proof.
  intros Hid Hv Hr (Hf & Hb & x & Hx & Hxv & Hst). rewrite run_handle_packet by (by rewrite ?Hid). rewrite Hid. cbv zeta.
  rewrite Hx. pose proof (cf_client _ Hf _ _ Hx) as Hxl. rewrite <- Hid in Hx.
  pose proof (run_check_same p addr c x Hx Hxl ltac:(congruence)) as Hc. rewrite Hid in Hx.
  assert (forall r, after id v (send addr r c)) as Ha.
  { intros r. split; [by apply send_free|]. split; [done|]. by exists x. }
  destruct Hst as [Hst|[Hst [r Hlr]]]; rewrite Hst in Hc.
  - destruct Hc as [m ->]. eauto.
  - rewrite Hlr in Hc. rewrite Hc. eauto.
Qed.

Lemma more_copies id v p addr s c l :
  pk_client_id p = id -> pk_vtime p = v -> @h_role _ (handlers v) s = LEADER -> after id v c ->
  Forall (fun x => x.2 = p) l ->
  exists c', handle_all addr l (s, c) = Ok (tt, (s, c')) /\ after id v c'.
Proof.
  intros Hid Hv Hr Ha Hl. revert c Ha. induction Hl as [|y l Hy _ IH]; intros c Ha; [by eexists|].
  rewrite run_cons, Hy, Hv. destruct (next_copy (H := handlers v) id v p addr s c Hid Hv Hr Ha) as (b & c1 & -> & Ha1).
  by apply IH.
Qed.

(** The handlers take the requests [rs] of the client [id] from [s] to [s']. *)
Fixpoint handles (id v : Z) (rs : list request_spec) (s s' : St) : Prop :=
  match rs with
  | [] => s' = s
  | q :: rs' => exists s1, @h_role _ (handlers v) s1 = LEADER /\
      (forall p, rq_packet q p -> let p := stamp id v p in
         exists o, @dispatch _ (handlers v) p (response_to p) s = Ok (o, s1)) /\
      handles id (v + 1) rs' s1 s'
  end.

Lemma handles_app id v rs1 rs2 s s' :
  handles id v (rs1 ++ rs2) s s' <->
  exists s1, handles id v rs1 s s1 /\ handles id (v + Z.of_nat (length rs1)) rs2 s1 s'.
Proof.
  revert v s. induction rs1 as [|q rs1 IH]; intros v s; cbn [app handles length].
  - rewrite Z.add_0_r. split; [eauto|]. by intros (? & -> & ?).
  - replace (v + Z.of_nat (S (length rs1))) with (v + 1 + Z.of_nat (length rs1)) by lia. split.
    + intros (s1 & Hr & Hd & H). apply IH in H as (s2 & ? & ?). eauto 10.
    + intros (s2 & (s1 & Hr & Hd & H) & ?). exists s1. split; [done|]. split; [done|]. apply IH. eauto.
Qed.

Lemma handle_requests addr id v rs s s' c l :
  (forall w, @h_role _ (handlers w) s = LEADER) -> (forall w t, @h_role _ (handlers w) t = @h_role _ (handlers v) t) ->
  before id v c -> handles id v rs s s' -> sent_by id v rs l ->
  exists c', handle_all addr l (s, c) = Ok (tt, (s', c')) /\ before id (v + Z.of_nat (length rs)) c'.
Proof.
  intros Hr Hrole. set (w0 := v) in Hrole. clearbody w0. revert v s c l Hr.
  induction rs as [|q rs IH]; intros v s c l Hr Hb; cbn [handles sent_by length].
  - intros -> ->. rewrite Z.add_0_r. by exists c.
  - intros (s1 & Hr1 & Hd & Hh) (p & copies & l' & Hp & -> & Hne & Hall & Hs).
    destruct (Hd p Hp) as [o Ho]. cbv zeta in Ho. set (p1 := stamp id v p) in *.
    destruct copies as [|y copies]; [done|]. apply list.Forall_cons in Hall as [Hy Hall].
    cbn [app]. rewrite run_cons, Hy. change (pk_vtime p1) with v.
    destruct (first_copy (H := handlers v) id v p1 addr s s1 c o) as (b & c1 & -> & Ha1); [done..|].
    rewrite handle_all_app, run_bind.
    destruct (more_copies id v p1 addr s1 c1 copies) as (c2 & -> & Ha2); [done..|].
    destruct (IH (v + 1) s1 c2 l') as (c3 & -> & Hb3); [|apply after_before; [apply Hb|done]|done..|].
    + intros w. by rewrite Hrole, <- (Hrole v).
    + exists c3. split; [done|]. by replace (v + Z.of_nat (S (length rs))) with (v + 1 + Z.of_nat (length rs)) by lia.
Qed.
End copies.

(** * The array of a transaction *)

(** A write with room in the array and in the file's text finds it. *)
Lemma append_to_total act rest data file text :
  tx_split act rest data -> arrays_ok data -> first_is_nul file = false ->
  terminated FILENAME_SIZE file = true -> terminated BUFFER_SIZE text = true ->
  (length (applied (until_nul file) data) + length (until_nul text) < BUFFER_SIZE)%nat ->
  until_nul file ∈ names data \/ (length (names data) < length data)%nat ->
  exists data', append_to data file text = Ok (Some data') /\ arrays_ok data'.
Proof.
  intros Hsp Hok Hfile Hf Ht Hlen Hroom.
  pose proof (append_to_bound act rest data file text Hsp Hok Hfile Hf Ht) as Hb. cbn zeta in Hb.
  destruct (append_to data file text) as [[data'|]|f] eqn:H.
  - exists data'. by destruct Hb.
  - apply (append_to_files act rest) in H as [??]; [|done]. destruct Hroom; [done|lia].
  - destruct Hb. lia.
Qed.

(** * A session at the server *)

Section session.
Context (clk : Z -> Z) (c : Z) (Hc : 0 <= c).

(** The client [c] holds the lock since the server was in the raft state [w],
    has the transaction [k] and has made the writes [ws]. *)
Record in_session (w : world) (k : Z) (ws : list (bytes * bytes)) (s : server) : Prop := {
  is_raft : sv_raft s = w;
  is_id : le_id (current_log_entry s) = k;
  is_holder : holder_id (sv_lock s) = c;
  is_flag : tmd_flag (sv_lock s) = 1;
  is_tx : tx_rel s c ws;
  is_arrays : arrays_ok (tx_data_of s)
}.

Lemma acquire_total clock s :
  unlocked s -> int_ok (le_id (current_log_entry s) + 1) = true ->
  exists m s', handle_lock_acquire clock c [] s = Ok ((0, m), s') /\
    get_token m = (current_term (raft (sv_raft s)), le_id (current_log_entry s) + 1) /\
    in_session (sv_raft s) (le_id (current_log_entry s) + 1) [] s'.
Proof.
  intros [Hw Hh Hf] Hid.
  destruct (lock_acquire_token clock c [] s) as (m & s' & Hrun & Htok & Hid' & Hcl & Hh' & Hok & _ & Hd & Hr);
    [done|lia|done|apply Hw|].
  exists m, s'. split; [done|]. split; [done|].
  assert (rel s (closed (le_id (current_log_entry s)))) as Hrel by by split.
  destruct (acquire_sim clock c [] s _ (Some (0, m)) s' Hrel ltac:(lia)) as (l & x & Hst & Hm & Hrel').
  { cbn [serve]. by rewrite run_bind, Hrun. }
  destruct Hrel' as [_ Hs' Ho]. inversion Hst; subst; inversion Hm; subst; try done. cbn [owner] in Ho.
  destruct Ho as (_ & _ & Hfl & Htx). split; try done.
  unfold arrays_ok. rewrite Hd. cbn. by repeat constructor.
Qed.

Lemma append_total clock w k ws s file text :
  in_session w k ws s -> first_is_nul file = false ->
  terminated FILENAME_SIZE file = true -> terminated BUFFER_SIZE text = true ->
  (length (content (until_nul file) ws) + length (until_nul text) < BUFFER_SIZE)%nat ->
  Z.of_nat (size (files_of (ws ++ [(until_nul file, until_nul text)]))) <= MAX_TRANSACTION_ENTRIES ->
  exists m s', handle_append_file clock c file text [] s = Ok ((0, m), s') /\
    in_session w k (ws ++ [(until_nul file, until_nul text)]) s'.
Proof.
  intros [Hr Hid Hh Hfl Htx Harr] Hfile Hf Ht Hlen Hsize. unfold handle_append_file.
  destruct (run_pause_owner c (sv_lock s) Hh) as (l1 & Hp & Hh1).
  pose proof (pause_ok _ _ _ _ Hp) as (_ & Hfl1 & _).
  rewrite run_bind, (run_on_lock _ _ _ _ Hp). cbn [Z.ltb Z.compare]. rewrite run_bind. unfold gets at 1. cbn beta iota.
  set (s1 := s <| sv_lock := l1 |>). change (le_data (current_log_entry s1)) with (tx_data_of s).
  pose proof Htx as [(act & rest & Hsp) Htl Hcl Hdata Hfs].
  destruct (append_to_total act rest (tx_data_of s) file text Hsp Harr Hfile Hf Ht) as (data & Ha & Harr').
  { by rewrite Hdata. }
  { rewrite <- (elem_of_list_to_set (C := gset bytes)), Hfs. destruct (decide (until_nul file ∈ files_of ws)); [by left|right].
    assert (size (files_of ws) = length (names (tx_data_of s))) as <-.
    { rewrite <- Hfs. apply size_list_to_set. rewrite (names_split _ _ _ Hsp). apply Hsp. }
    revert Hsize. unfold files_of in *. rewrite fmap_app, list_to_set_app_L. cbn [fmap list_fmap fst list_to_set].
    rewrite (right_id_L ∅ (∪) {[until_nul file]}), size_union by (by apply disjoint_singleton_r). rewrite size_singleton. lia. }
  rewrite run_bind, (run_lift _ _ _ Ha). rewrite run_bind. rewrite run_bind. unfold modify at 1. cbn beta iota.
  match goal with |- context [answer 0 "success" [] ?x] => set (s2 := x) end.
  destruct (answer_total 0 "success" [] s2) as [m Hm]; [vm_compute; lia|]. rewrite Hm.
  destruct (run_reset_owner clock c l1 Hh1) as (l2 & Hrs & Hh2). pose proof (reset_ok _ _ _ _ _ Hrs) as [_ Hfl2].
  rewrite run_bind, (run_on_lock _ _ l2 s2) by exact Hrs. rewrite run_ret. eexists _, _. split; [reflexivity|].
  pose proof (tx_rel_append s c ws file text data Htx Hfile Ha) as Htx'.
  split; try done.
  - cbn. congruence.
  - by destruct Htx'.
Qed.

Lemma role_append_entry e : rframes state (Raft_append_entry e).
Proof. unfold Raft_append_entry, raft_lock_acquire, raft_lock_release, log_store. frames. Qed.

Lemma role_is_entry_committed t i : rframes state (Raft_is_entry_committed t i).
Proof.
  assert (forall l, rframes state (find_entry t i l)) as Hf.
  { intros l. induction l as [|j l IH]; cbn [find_entry]; unfold raft_lock_release; frames. }
  unfold Raft_is_entry_committed, raft_lock_acquire, raft_lock_release. frames.
Qed.

Lemma release_poll_total term id s :
  orderly (sv_raft s) -> exists o, release_poll term id [] s = Ok (o, s).
Proof.
  intros [Hwf Hl]. destruct (is_entry_committed_ok term id (sv_raft s) Hwf Hl) as (r & Hrun & _).
  unfold release_poll. rewrite run_bind, (run_on_raft _ _ _ _ Hrun).
  assert (s <| sv_raft := sv_raft s |> = s) as -> by by destruct s.
  destruct (r =? 0); [by eexists|].
  destruct (r =? 1); rewrite run_bind;
    [destruct (answer_total 0 "lock released" [] s) as [m ->]|destruct (answer_total E_LOST "transaction lost" [] s) as [m ->]];
    try (vm_compute; lia); rewrite run_ret; by eexists.
Qed.

(** The leader has room for an entry. *)
Record ready_leader (w : world) : Prop := {
  rl_sound : raft_sound w;
  rl_leader : state (raft w) = LEADER;
  rl_room : log_count (raft w) <> start_log_index (raft w) + LOG_SIZE;
  rl_max : log_count (raft w) < INT_MAX
}.

(** [s] has put the session into the log of [w]. *)
Definition logged (w : world) (k : Z) (ws : list (bytes * bytes)) (s : server) : Prop :=
  unlocked s /\ state (raft (sv_raft s)) = LEADER /\
  log_count (raft (sv_raft s)) = log_count (raft w) + 1 /\
  exists e, log_at (raft (sv_raft s)) (log_count (raft w)) = Some e /\
    holds_writes e (current_term (raft w)) c k ws.

Lemma release_begin_total clock w k ws s :
  in_session w k ws s -> ready_leader w ->
  exists s', release_begin clock c s = Ok (true, s') /\ logged w k ws s'.
Proof.
  intros [Hr Hid Hh Hfl Htx Harr] [Hsound Hlead Hroom Hmax]. subst w.
  pose proof Hsound as (Hord & Hd & Hterm). pose proof Hord as [Hwf Hl].
  destruct (run_pause_owner c (sv_lock s) Hh) as (l1 & Hp & Hh1).
  destruct (run_reset_owner clock c l1 Hh1) as (l2 & Hrs & Hh2).
  destruct (run_release_owner c l2 Hh2) as (l3 & Hrl & _).
  pose proof (append_entry_run (sv_raft s) (current_log_entry s) Hwf Hl Hd Hmax) as Hrun. cbn zeta in Hrun.
  rewrite bool_decide_eq_false_2, (proj2 (Z.eqb_neq _ _) Hroom) in Hrun by tauto. cbn [orb] in Hrun.
  destruct Hrun as (w' & Hrun & _ & Hn & _).
  assert (exists s', release_begin clock c s = Ok (true, s') /\ sv_raft s' = w') as (s' & Hb & Hw').
  { unfold release_begin. rewrite run_bind, (run_on_lock _ _ _ _ Hp), decide_True by done.
    rewrite !run_bind. unfold gets. cbn beta iota. rewrite run_bind.
    erewrite (run_on_raft (Raft_append_entry _) _ w'); [|exact Hrun]. cbn beta iota.
    rewrite run_bind. unfold modify at 1. cbn beta iota. rewrite run_bind.
    rewrite (run_on_lock _ _ l2) by exact Hrs. cbn beta iota. unfold skip at 1. cbn beta iota. rewrite run_bind.
    rewrite (run_on_lock _ _ l3) by exact Hrl. cbn beta iota. rewrite run_ret. by eexists. }
  exists s'. split; [done|].
  assert (rel s {| owner := Some c; session := k; pending := ws |}) as Hrel by (split; [done|done|]; cbn; split_and!; [lia|done..]).
  assert (c <> -1) as Hc1 by lia.
  destruct (release_begin_ok clock c s _ true s' Hrel Hc1 Hb) as [(? & _)|(_ & _ & [Hrw _ [Hh' Hf']] & Hlog)]; [done|].
  split; [by split|]. rewrite Hw' in *. split; [apply role_append_entry in Hrun; congruence|]. split; [done|].
  destruct Hlog as [[E _]|(e & _ & He & _ & Hw)]; [rewrite E in Hn; lia|]. by exists e.
Qed.

Lemma release_total clock w k ws s :
  in_session w k ws s -> ready_leader w ->
  exists o s', handle_lock_release clock c (current_term (raft w)) k [] [] s = Ok (o, s') /\ logged w k ws s'.
Proof.
  intros Hs Hw. destruct (release_begin_total clock w k ws s Hs Hw) as (s' & Hb & Hlog).
  unfold handle_lock_release. rewrite run_bind.
  assert (on_raft (rget current_term) s = Ok (current_term (raft w), s)) as ->
    by (destruct Hs as [<- _ _ _ _ _]; by destruct s).
  cbn beta iota. rewrite decide_True, run_bind, Hb by done. cbn [release_wait]. rewrite run_bind.
  destruct (release_poll_total (current_term (raft w)) k s') as [o ->].
  { destruct Hlog as [[(? & _) _ _] _]. done. }
  destruct o as [a|]; eexists _, s'; split; try reflexivity; done.
Qed.

(** ** The requests of a session *)

(** The writes as the server keeps them. *)
Definition kept (ws : list (string * bytes)) : list (bytes * bytes) :=
  (fun x => (to_bytes x.1, until_nul x.2)) <$> ws.

(** The texts fit the buffers and the files the array. *)
Record fits (ws : list (string * bytes)) : Prop := {
  ft_file : forall f t, (f, t) ∈ ws -> no_nul (to_bytes f) /\ f <> "" /\ (String.length f < FILENAME_SIZE)%nat;
  ft_text : forall f t, (f, t) ∈ ws -> (length (until_nul t) < BUFFER_SIZE)%nat;
  ft_content : forall f, (length (content f (kept ws)) < BUFFER_SIZE)%nat;
  ft_files : Z.of_nat (size (files_of (kept ws))) <= MAX_TRANSACTION_ENTRIES
}.

Lemma content_app f ws1 ws2 : content f (ws1 ++ ws2) = content f ws1 ++ content f ws2.
Proof. apply flat_map_app. Qed.

Lemma kept_app ws1 ws2 : kept (ws1 ++ ws2) = kept ws1 ++ kept ws2.
Proof. apply fmap_app. Qed.

Lemma fits_prefix ws1 ws2 : fits (ws1 ++ ws2) -> fits ws1.
Proof.
  intros [H1 H2 H3 H4]. split.
  - intros f t Hin. eapply H1. apply elem_of_app. by left.
  - intros f t Hin. eapply H2. apply elem_of_app. by left.
  - intros f. specialize (H3 f). rewrite kept_app, content_app, length_app in H3. lia.
  - etransitivity; [|exact H4]. apply inj_le, subseteq_size. unfold files_of. rewrite kept_app, fmap_app, list_to_set_app.
    apply union_subseteq_l.
Qed.

(** The requests of a session that writes [ws] and gets the token [t]. *)
Definition session_requests (t : Z * Z) (ws : list (string * bytes)) : list request_spec :=
  [acquire_request (Some t)] ++ ((fun x => append_request any_answer x.1 x.2) <$> ws) ++ [release_request (Some t)].

Definition handlers_at (v : Z) : RpcHandlers server := server_handlers (clk v) [].

Lemma handles_acquire v s :
  unlocked s -> state (raft (sv_raft s)) = LEADER -> int_ok (le_id (current_log_entry s) + 1) = true ->
  exists s', handles handlers_at c v [acquire_request (Some (current_term (raft (sv_raft s)), le_id (current_log_entry s) + 1))] s s' /\
    in_session (sv_raft s) (le_id (current_log_entry s) + 1) [] s'.
Proof.
  intros Hs Hl Hid. destruct (acquire_total (clk v) s Hs Hid) as (m & s' & Hrun & _ & Hin).
  exists s'. split; [|done]. exists s'. split; [change (state (raft (sv_raft s')) = LEADER); by rewrite (is_raft _ _ _ _ Hin)|].
  split; [|done]. intros p <- q. unfold dispatch. change (pk_operation q) with LOCK_ACQUIRE. cbv iota.
  change (h_lock_acquire (pk_client_id q) (rs_message (response_to q))) with (handle_lock_acquire (clk v) c []).
  rewrite run_bind, Hrun. by eexists.
Qed.

Lemma handles_writes w k ws0 ws v s :
  in_session w k (kept ws0) s -> state (raft w) = LEADER -> fits (ws0 ++ ws) ->
  exists s', handles handlers_at c v ((fun x => append_request any_answer x.1 x.2) <$> ws) s s' /\
    in_session w k (kept (ws0 ++ ws)) s'.
Proof.
  intros Hs Hl. revert ws0 v s Hs. induction ws as [|[f t] ws IH]; intros ws0 v s Hs Hfit.
  - rewrite app_nil_r. by exists s.
  - rewrite cons_middle, app_assoc in Hfit. pose proof (fits_prefix _ _ Hfit) as Hfit1.
    destruct Hfit1 as [Hf Ht Hcont Hfiles].
    destruct (Hf f t) as (Hnul & Hne & Hlen); [apply elem_of_app; right; by left|].
    assert (until_nul (to_bytes f ++ [NUL]) = to_bytes f) as Ef by by apply until_nul_app_nul.
    assert (kept (ws0 ++ [(f, t)]) = kept ws0 ++ [(to_bytes f, until_nul t)]) as Ek by by rewrite kept_app.
    set (text := take BUFFER_SIZE t).
    assert (until_nul text = until_nul t) as Et.
    { apply until_nul_take, Nat.lt_le_incl. eapply Ht. apply elem_of_app. right. by left. }
    destruct (append_total (clk v) w k (kept ws0) s (to_bytes f ++ [NUL]) text Hs) as (m & s1 & Hrun & Hs1).
    + apply first_is_nul_until. rewrite Ef. intros E. apply Hne. by rewrite <- (of_to_bytes f), E.
    + unfold terminated. rewrite Ef, length_to_bytes. by apply Nat.ltb_lt.
    + unfold terminated. rewrite Et. apply Nat.ltb_lt. eapply Ht. apply elem_of_app. right. by left.
    + rewrite Ef, Et. specialize (Hcont (to_bytes f)). rewrite Ek, content_app, length_app in Hcont. cbn in Hcont.
      rewrite decide_True, app_nil_r in Hcont by done. lia.
    + by rewrite Ef, Et, <- Ek.
    + rewrite Ef, Et, <- Ek in Hs1. destruct (IH (ws0 ++ [(f, t)]) (v + 1) s1 Hs1 Hfit) as (s' & Hh & Hs').
      exists s'. split; [|by rewrite cons_middle, app_assoc]. cbn [fmap list_fmap]. exists s1.
      split; [change (state (raft (sv_raft s1)) = LEADER); by rewrite (is_raft _ _ _ _ Hs1)|]. split; [|done].
      intros p <- q. unfold dispatch. change (pk_operation q) with APPEND_FILE. cbv iota.
      change (h_append_file _ _ _ _) with (handle_append_file (clk v) c (to_bytes f ++ [NUL]) text []).
      rewrite run_bind, Hrun. by eexists.
Qed.

Lemma handles_release v w k ws s :
  in_session w k ws s -> ready_leader w ->
  exists s', handles handlers_at c v [release_request (Some (current_term (raft w), k))] s s' /\ logged w k ws s'.
Proof.
  intros Hs Hw. destruct (release_total (clk v) w k ws s Hs Hw) as (o & s' & Hrun & Hlog).
  exists s'. split; [|done]. exists s'. split; [apply Hlog|]. split; [|done].
  intros p (b & -> & Hb) q. unfold dispatch. change (pk_operation q) with LOCK_RELEASE. cbv iota.
  change (pk_buffer q) with b. rewrite (Hb _ eq_refl).
  change (h_lock_release _ _ _ _) with (handle_lock_release (clk v) c (current_term (raft w)) k [] []).
  rewrite run_bind, Hrun. by eexists.
Qed.

(** The datagrams of a session - each request in any number of copies, in
    order - run at the leader: the session is the next entry of the log. *)
Theorem client_session_logged addr v s conn ws got :
  let w := sv_raft s in let t := (current_term (raft w), le_id (current_log_entry s) + 1) in
  unlocked s -> ready_leader w -> int_ok (le_id (current_log_entry s) + 1) = true ->
  before c v conn -> fits ws -> sent_by c v (session_requests t ws) got ->
  exists s' conn', handle_all handlers_at addr got (s, conn) = Ok (tt, (s', conn')) /\ logged w t.2 (kept ws) s'.
Proof.
  intros w t Hs Hw Hid Hb Hfit Hgot. destruct (handles_acquire v s Hs (rl_leader _ Hw) Hid) as (s1 & H1 & Hs1).
  destruct (handles_writes w t.2 [] ws (v + 1) s1 Hs1 (rl_leader _ Hw) Hfit) as (s2 & H2 & Hs2).
  destruct (handles_release (v + 1 + Z.of_nat (length ws)) w t.2 (kept ws) s2 Hs2 Hw) as (s3 & H3 & Hlog).
  destruct (handle_requests handlers_at addr c v (session_requests t ws) s s3 conn got) as (conn' & Hrun & _); try done.
  - intros u. exact (rl_leader _ Hw).
  - apply handles_app. exists s1. split; [exact H1|]. apply handles_app. exists s2. rewrite length_fmap. split; [exact H2|exact H3].
  - by exists s3, conn'.
Qed.
End session.

(** * The program of [client_normal.c] *)

Section normal.
Context (junk : bytes).

(** Its writes, in order. *)
Definition message_writes (msg : string) (i : Z) : list (string * bytes) :=
  (fun ch => (file_name i, char_buffer junk ch)) <$> to_bytes msg.
Definition normal_writes (msg : string) : list (string * bytes) :=
  flat_map (fun i => flat_map (fun _ => message_writes msg i) (seqZ 0 20)) (seqZ 0 10).

Lemma fmap_flat_map {A B C} (f : B -> C) (g : A -> list B) l :
  f <$> flat_map g l = flat_map (fun x => f <$> g x) l.
Proof. induction l as [|x l IH]; [done|]. cbn. by rewrite fmap_app, IH. Qed.

Lemma flat_map_ext {A B} (f g : A -> list B) l : (forall x, x ∈ l -> f x = g x) -> flat_map f l = flat_map g l.
Proof.
  intros H. induction l as [|x l IH]; [done|]. cbn. rewrite H by by left. f_equal. apply IH. intros y Hy. apply H. by right.
Qed.

Lemma content_flat_map {A} f (g : A -> list (bytes * bytes)) l :
  content f (flat_map g l) = flat_map (fun x => content f (g x)) l.
Proof. induction l as [|x l IH]; [done|]. cbn [flat_map]. by rewrite content_app, IH. Qed.

Lemma normal_session t id :
  normal_requests junk (Some t) id =
  session_requests t (normal_writes (client_message "normal requests client" id)) ++
    [close_request; release_request (Some t)].
Proof.
  unfold normal_requests, session_requests, normal_writes. cbv zeta.
  rewrite fmap_flat_map, <- !app_assoc. f_equal. f_equal. apply flat_map_ext. intros i _.
  rewrite fmap_flat_map. apply flat_map_ext. intros k _. unfold message_requests, message_writes.
  by rewrite <- list_fmap_compose.
Qed.

(** [file_i] gets the message twenty times. *)
Lemma message_content msg i f :
  until_nul (tail junk) = [] -> no_nul (to_bytes msg) ->
  content f (kept (message_writes msg i)) = if decide (to_bytes (file_name i) = f) then to_bytes msg else [].
Proof.
  intros Hj. unfold message_writes, kept. rewrite <- list_fmap_compose. unfold content, no_nul.
  generalize (to_bytes msg) as l. induction l as [|ch l IH]; intros Hm; cbn; [by destruct (decide _)|].
  apply not_elem_of_cons in Hm as [Hch Hl]. rewrite IH by done. rewrite (decide_False (P := ch = NUL)) by congruence. rewrite Hj.
  by destruct (decide _).
Qed.

Lemma flat_map_nil {A B} (l : list A) : flat_map (fun _ => @nil B) l = [].
Proof. by induction l. Qed.

Lemma flat_map_const {A B} (x : list B) (l : list A) : flat_map (fun _ => x) l = flat_map id (replicate (length l) x).
Proof. induction l as [|y l IH]; [done|]. cbn. by rewrite IH. Qed.

Lemma kept_flat_map {A} (g : A -> list (string * bytes)) l : kept (flat_map g l) = flat_map (fun x => kept (g x)) l.
Proof. apply fmap_flat_map. Qed.

(** The files [client_normal] writes to, and what it writes to [f]. *)
Definition ten_files : list bytes := (fun i => to_bytes (file_name i)) <$> seqZ 0 10.
Definition normal_content (msg : string) (f : bytes) : bytes :=
  if decide (f ∈ ten_files) then flat_map id (replicate 20 (to_bytes msg)) else [].

Lemma ten_files_nodup : NoDup ten_files.
Proof. apply (bool_decide_unpack _). vm_compute. exact I. Qed.

Lemma flat_map_pick {A} (n : A -> bytes) (f x : bytes) (l : list A) :
  NoDup (n <$> l) ->
  flat_map (fun i => if decide (n i = f) then x else []) l = if decide (f ∈ n <$> l) then x else [].
Proof.
  induction l as [|i l IH]; [done|]. cbn [fmap list_fmap flat_map]. intros [Hi Hl]%list.NoDup_cons. rewrite IH by done.
  destruct (decide (n i = f)) as [<-|Hne].
  - rewrite decide_False, app_nil_r, decide_True by (done || by left). done.
  - cbn [app]. destruct (decide (f ∈ n <$> l)); [by rewrite decide_True by by right|].
    rewrite decide_False; [done|]. intros [|]%elem_of_cons; [by destruct Hne|done].
Qed.

Lemma normal_writes_content msg f :
  until_nul (tail junk) = [] -> no_nul (to_bytes msg) ->
  content f (kept (normal_writes msg)) = normal_content msg f.
Proof.
  intros Hj Hm. unfold normal_writes, normal_content. rewrite kept_flat_map, content_flat_map.
  etransitivity; [|apply (flat_map_pick (fun i => to_bytes (file_name i)) f _ (seqZ 0 10)); apply ten_files_nodup].
  apply flat_map_ext. intros i _. rewrite kept_flat_map, content_flat_map.
  transitivity (flat_map (fun _ : Z => if decide (to_bytes (file_name i) = f) then to_bytes msg else []) (seqZ 0 20)).
  - apply flat_map_ext. intros k _. by apply message_content.
  - destruct (decide _); [by rewrite flat_map_const|by rewrite flat_map_nil].
Qed.

Lemma normal_writes_in msg f t :
  (f, t) ∈ normal_writes msg -> exists i ch, 0 <= i < 10 /\ f = file_name i /\ t = char_buffer junk ch.
Proof.
  unfold normal_writes. rewrite list_elem_of_In, in_flat_map. intros (i & Hi & H).
  apply in_flat_map in H as (k & _ & H). apply list_elem_of_In in H. apply list_elem_of_In, elem_of_seqZ in Hi.
  apply list_elem_of_fmap in H as (ch & [= -> ->] & _). exists i, ch. split_and!; [lia..|done|done].
Qed.

Lemma ten_files_in i : 0 <= i < 10 -> to_bytes (file_name i) ∈ ten_files.
Proof. intros Hi. apply list_elem_of_fmap. exists i. split; [done|]. apply elem_of_seqZ. lia. Qed.

(** The twenty messages and the ten files fit a transaction. *)
Lemma normal_fits msg :
  until_nul (tail junk) = [] -> no_nul (to_bytes msg) -> (String.length msg <= 51)%nat -> fits (normal_writes msg).
Proof.
  intros Hj Hm Hlen. split.
  - intros f t (i & ch & Hi & -> & ->)%normal_writes_in.
    assert (forallb (fun f => negb (existsb (fun c => bool_decide (c = NUL)) f) && negb (bool_decide (f = []))) ten_files = true)
      as H by (vm_compute; done).
    rewrite forallb_forall in H. specialize (H _ (proj1 (list_elem_of_In _ _) (ten_files_in i Hi))).
    apply andb_true_iff in H as [H1 H2]. split; [|split].
    + intros Hin. apply negb_true_iff in H1. apply not_true_iff_false in H1. apply H1, existsb_exists. exists NUL.
      split; [by apply list_elem_of_In|by apply bool_decide_eq_true].
    + intros E. rewrite E in H2. done.
    + by apply ten_name_short.
  - intros f t (i & ch & Hi & -> & ->)%normal_writes_in. unfold char_buffer. cbn. case_decide; [cbn; unfold BUFFER_SIZE; lia|].
    rewrite Hj. cbn. unfold BUFFER_SIZE. lia.
  - intros f. rewrite normal_writes_content by done. unfold normal_content, BUFFER_SIZE. case_decide; [|cbn; lia].
    cbn [replicate flat_map id]. rewrite !length_app, length_to_bytes. cbn [length]. lia.
  - unfold files_of. transitivity (Z.of_nat (length ten_files)); [|by vm_compute].
    apply inj_le. rewrite <- (size_list_to_set (C := gset bytes) ten_files) by apply ten_files_nodup.
    apply subseteq_size. intros f. rewrite !elem_of_list_to_set. intros (x & -> & Hx)%list_elem_of_fmap.
    apply list_elem_of_fmap in Hx as ([f t] & -> & (i & ch & Hi & -> & ->)%normal_writes_in). by apply ten_files_in.
Qed.
End normal.

(** * From the client to the log *)

(** The message of a client that the table has room for. *)
Lemma normal_message id : 0 <= id < MAX_ID ->
  no_nul (to_bytes (client_message "normal requests client" id)) /\
  (String.length (client_message "normal requests client" id) <= 51)%nat.
Proof.
  intros Hid.
  assert (forallb (fun id => let m := client_message "normal requests client" id in
    bool_decide (NUL ∉ to_bytes m) && (String.length m <=? 51)%nat) (seqZ 0 MAX_ID) = true) as H by (vm_compute; done).
  rewrite forallb_forall in H. specialize (H id). cbv zeta in H.
  apply andb_true_iff in H as [H1%bool_decide_eq_true H2%Nat.leb_le]; [done|].
  apply list_elem_of_In, elem_of_seqZ. lia.
Qed.

Lemma handles_init clk c v s :
  state (raft (sv_raft s)) = LEADER ->
  handles (handlers_at clk) c v [plain_request CLIENT_INIT accepted] s s.
Proof.
  intros Hl. exists s. split; [done|]. split; [|done]. intros p <- q. unfold dispatch.
  change (pk_operation q) with CLIENT_INIT. cbv iota. rewrite run_bind.
  destruct (strcpy_fits MESSAGE_SIZE (rs_message (response_to q)) (to_bytes "connected")) as [m Hm]; [vm_compute; lia|].
  rewrite (run_lift _ _ _ Hm), run_ret. by eexists.
Qed.

(** C12: client_normal.c, with a number of the client table that the leader
    has not seen, against a leader that nobody has locked and whose log has
    room for an entry, when the block malloc returns for the one character of
    a write has a NUL behind it (client_normal.c:20 does not write one; other
    text there would be appended too): when every datagram can be written and
    each request is at last answered, the first and the acquire with success,
    after any time-outs, refusals and late answers, the program ends with 0,
    and its datagrams up to the release, run by handle_packet with all their
    copies, call each handler once and put one entry into the log, which
    appends the client's message twenty times to each of its ten files. *)
Theorem normal_client_logged wr clk junk config id sd cl rest addr s conn :
  let w := sv_raft s in let t := (current_term (raft w), le_id (current_log_entry s) + 1) in
  let msg := client_message "normal requests client" id in
  (forall v, 0 <= wr v) -> Z.of_nat (length config) = N_SERVERS -> 0 <= id < MAX_ID -> until_nul (tail junk) = [] ->
  answered 0 (plain_request CLIENT_INIT accepted :: normal_requests junk (Some t) id) (cl_reads cl) rest ->
  unlocked s -> ready_leader w -> int_ok (le_id (current_log_entry s) + 1) = true ->
  conn_free conn -> client_of conn id = None ->
  exists cl' l1 l2 s' conn' e,
    client_normal wr junk (Some config) id sd cl = Ok (0, cl') /\ cl_sent cl' = cl_sent cl ++ l1 ++ l2 /\
    handle_all (handlers_at clk) addr l1 (s, conn) = Ok (tt, (s', conn')) /\
    log_count (raft (sv_raft s')) = log_count (raft w) + 1 /\
    log_at (raft (sv_raft s')) (log_count (raft w)) = Some e /\ le_client e = id /\
    forall f, applied f (le_data e) = normal_content msg f.
Proof.
  intros w t msg Hwr Hcfg Hid Hj Ha Hs Hw Hint Hf Hnew.
  destruct (client_normal_runs wr Hwr junk (Some t) id sd config cl rest Hcfg) as (cl' & l & Hrun & _ & Hsent & Hl);
    [apply int_ok_spec; unfold INT_MIN, INT_MAX, MAX_ID in *; lia|lia|done|].
  destruct (normal_message id Hid) as [Hnul Hlen].
  rewrite normal_session, app_comm_cons in Hl. apply sent_by_app_iff in Hl as (l1 & l2 & -> & Hl1 & _).
  change (plain_request CLIENT_INIT accepted :: ?rs) with ([plain_request CLIENT_INIT accepted] ++ rs) in Hl1.
  pose proof Hl1 as (l0 & l1' & -> & Hl0 & Hl1')%sent_by_app_iff.
  destruct (handle_requests (handlers_at clk) addr id 0
    [plain_request CLIENT_INIT accepted] s s conn l0 (fun _ => rl_leader _ Hw) (fun _ _ => eq_refl))
    as (conn1 & Hr0 & Hb1); [|by apply handles_init, Hw|exact Hl0|].
  { split; [done|]. split; [done|]. split; [lia|]. intros x Hx. congruence. }
  destruct (client_session_logged clk id ltac:(lia) addr _ s conn1
    (normal_writes junk msg) l1' Hs Hw Hint Hb1) as (s' & conn' & Hr1 & (_ & _ & Hn & e & He & Hwrites));
    [by apply normal_fits|exact Hl1'|].
  exists cl', (l0 ++ l1'), l2, s', conn', e. split; [done|]. split; [done|]. split.
  - rewrite handle_all_app, run_bind, Hr0. exact Hr1.
  - split; [done|]. split; [done|]. split; [apply Hwrites|]. intros f.
    rewrite (hw_data _ _ _ _ _ Hwrites). by apply normal_writes_content.
Qed.
