(* ===== verification/ElectionSpec.v ===== *)
(** The abstract election protocol: what the raft module promises about terms,
    votes and leaders, without logs, files or packets.  [Cluster.v] shows that
    the servers refine it.

    A node keeps its term, its vote, its role and its count of votes, what its
    disk holds of the first two, and the terms of the snapshot transfers its
    leader threads still have under way. *)
From S2P Require Import Prelude RaftTypes.

Record anode := {
  a_term : Z;
  a_vote : Z;
  a_role : node_state;
  a_count : Z;
  a_img : option (Z * Z);
  a_pend : list Z
}.

Inductive msg :=
  | MVote (cand src t : Z)
  | MLead (src t : Z)
  | MResp (dst t success : Z).

#[export] Instance msg_eq_dec : EqDecision msg.
Proof. solve_decision. Defined.

Record asys := { anodes : gmap Z anode; amsgs : list msg }.

(** A node is past the candidacy of term [t]: it will not count votes of [t]. *)
Definition past (t : Z) (a : anode) : Prop :=
  t < a_term a \/ (t = a_term a /\ a_role a <> CANDIDATE).

(** A term higher than the node's turns it into a follower of that term. *)
Definition bump (t : Z) (a : anode) : anode :=
  if a_term a <? t
  then {| a_term := t; a_vote := -1; a_role := FOLLOWER; a_count := 0;
          a_img := a_img a; a_pend := a_pend a |}
  else a.

(** The disk of [a'] holds its term and vote, or [a'] kept those of [a] and
    the disk too. *)
Definition durable (a a' : anode) : Prop :=
  a_img a' = Some (a_term a', a_vote a') \/
  (a_img a' = a_img a /\ a_term a' = a_term a /\ a_vote a' = a_vote a).

(** The volatile and persistent fields of [a'] but for its disk. *)
Definition same_view (a b : anode) : Prop :=
  a_term a = a_term b /\ a_vote a = a_vote b /\ a_role a = a_role b /\ a_count a = a_count b.

(** The transfers under way may end, or new ones start that the node may answer for. *)
Definition pend_ok (a a' : anode) : Prop :=
  forall t, t ∈ a_pend a' -> t ∈ a_pend a \/ past t a'.

(** One atomic step of the node [n]: the message it consumes, if any, and those
    it sends. *)
Inductive nstep (n : Z) : anode -> option msg -> anode -> list msg -> Prop :=
  | nstep_quiet a a' inm outs :
      same_view a' a -> durable a a' -> pend_ok a a' ->
      (forall m, m ∈ outs -> exists t, m = MLead n t /\ (past t a' \/ t ∈ a_pend a)) ->
      nstep n a inm a' outs
  | nstep_candidate a a' outs :
      a_term a' = a_term a + 1 -> a_vote a' = n -> a_role a' = CANDIDATE -> a_count a' = 1 ->
      durable a a' -> a_pend a' = a_pend a ->
      (forall m, m ∈ outs -> m = MVote n n (a_term a')) ->
      nstep n a None a' outs
  | nstep_vote_refuse a a' cand src t s :
      same_view a' (bump t a) -> durable a a' -> a_pend a' = a_pend a -> s <= 0 ->
      nstep n a (Some (MVote cand src t)) a' [MResp src (a_term a') s]
  | nstep_vote_grant a a' cand src t :
      a_term (bump t a) = t -> a_vote (bump t a) = -1 ->
      a_term a' = t -> a_vote a' = cand -> a_role a' = a_role (bump t a) ->
      a_count a' = a_count (bump t a) -> durable a a' -> a_pend a' = a_pend a ->
      nstep n a (Some (MVote cand src t)) a' [MResp src t 1]
  | nstep_lead_refuse a a' src t :
      same_view a' (bump t a) -> durable a a' -> a_pend a' = a_pend a ->
      nstep n a (Some (MLead src t)) a' [MResp src (a_term a') 0]
  | nstep_lead_accept a a' src t :
      a_term (bump t a) = t -> a_term a' = t -> a_vote a' = a_vote (bump t a) ->
      a_role a' = FOLLOWER \/ same_view a' (bump t a) ->
      durable a a' -> a_pend a' = a_pend a ->
      nstep n a (Some (MLead src t)) a' [MResp src t 1]
  | nstep_resp_newer a a' t s :
      a_term a < t -> same_view a' (bump t a) -> durable a a' -> a_pend a' = a_pend a ->
      nstep n a (Some (MResp n t s)) a' []
  | nstep_resp_count a a' s :
      0 < s -> a_role a = CANDIDATE ->
      a_term a' = a_term a -> a_vote a' = a_vote a -> a_count a' = a_count a + 1 ->
      (a_role a' = CANDIDATE \/ (a_role a' = LEADER /\ N_SERVERS < a_count a' * 2)) ->
      durable a a' -> a_pend a' = a_pend a ->
      nstep n a (Some (MResp n (a_term a) s)) a' []
  | nstep_restart a a' t v :
      a_img a = Some (t, v) -> a_img a' = Some (t, v) ->
      a_term a' = t -> a_vote a' = v -> a_role a' = FOLLOWER -> a_pend a' = [] ->
      nstep n a None a' [].

(** A step of the system: a node moves, taking its message off the network, or
    a message is lost. *)
Inductive astep : asys -> asys -> Prop :=
  | astep_node s s' n a inm a' outs rest :
      anodes s !! n = Some a ->
      amsgs s ≡ₚ option_list inm ++ rest ->
      nstep n a inm a' outs ->
      anodes s' = <[n := a']> (anodes s) ->
      amsgs s' ≡ₚ outs ++ rest ->
      astep s s'
  | astep_drop s s' m :
      anodes s' = anodes s -> amsgs s ≡ₚ m :: amsgs s' -> astep s s'.

(** * Counting votes *)

(** The votes cast so far: voter and term to candidate. *)
Abbreviation votes := (gmap (Z * Z) Z).

Section counting.
Implicit Types (H : votes) (ids : list Z).

Definition voters ids H (c t : Z) : list Z := filter (fun n => H !! (n, t) = Some c) ids.
Definition nvotes ids H c t : Z := Z.of_nat (length (voters ids H c t)).

Lemma nvotes_cons n ids H c t :
  nvotes (n :: ids) H c t = (if decide (H !! (n, t) = Some c) then 1 else 0) + nvotes ids H c t.
Proof. unfold nvotes, voters. rewrite filter_cons. case_decide; cbn [length]; lia. Qed.

Lemma nvotes_fresh_other ids H n t c c' t' :
  H !! (n, t) = None -> nvotes ids H c' t' <= nvotes ids (<[(n, t) := c]> H) c' t'.
Proof.
  intros Hn. induction ids as [|m l IH]; [done|]. rewrite !nvotes_cons.
  destruct (decide (H !! (m, t') = Some c')) as [E|E].
  - rewrite decide_True; [lia|]. rewrite lookup_insert_ne; congruence.
  - case_decide; lia.
Qed.

Lemma nvotes_notin ids H n t c c' t' :
  n ∉ ids -> nvotes ids (<[(n, t) := c]> H) c' t' = nvotes ids H c' t'.
Proof.
  intros Hn. induction ids as [|m l IH]; [done|]. rewrite !nvotes_cons.
  rewrite lookup_insert_ne by set_solver. rewrite IH; set_solver.
Qed.

Lemma nvotes_fresh ids H n t c :
  NoDup ids -> n ∈ ids -> H !! (n, t) = None ->
  nvotes ids (<[(n, t) := c]> H) c t = nvotes ids H c t + 1.
Proof.
  intros Hd Hin Hn. induction ids as [|m l IH]; [by apply not_elem_of_nil in Hin|].
  apply list.NoDup_cons in Hd as [Hm Hl]. rewrite !nvotes_cons.
  destruct (decide (m = n)) as [->|Hne].
  - rewrite lookup_insert_eq, decide_True, decide_False by congruence.
    rewrite nvotes_notin by done. lia.
  - rewrite lookup_insert_ne by congruence.
    apply elem_of_cons in Hin as [->|Hin]; [done|]. rewrite (IH Hl Hin). lia.
Qed.

Lemma nvotes_mono ids H H' c t : H ⊆ H' -> nvotes ids H c t <= nvotes ids H' c t.
Proof.
  intros Hs. induction ids as [|m l IH]; [done|]. rewrite !nvotes_cons.
  destruct (decide (H !! (m, t) = Some c)) as [E|E]; [|case_decide; lia].
  rewrite decide_True by (by eapply lookup_weaken). lia.
Qed.

(** Two candidates share no voter. *)
Lemma nvotes_disjoint ids H c1 c2 t :
  c1 <> c2 -> nvotes ids H c1 t + nvotes ids H c2 t <= Z.of_nat (length ids).
Proof.
  intros Hne. induction ids as [|m l IH]; [unfold nvotes, voters; cbn; lia|]. rewrite !nvotes_cons.
  cbn [length]. case_decide; case_decide; try lia. congruence.
Qed.
End counting.

(** The votes for [c] at term [t] that are on their way. *)
Definition is_grant (c t : Z) (m : msg) : Prop :=
  match m with MResp d t' s => d = c /\ t' = t /\ 0 < s | _ => False end.
#[export] Instance is_grant_dec c t m : Decision (is_grant c t m).
Proof. destruct m; simpl; apply _. Defined.

Definition grants (c t : Z) (l : list msg) : Z := Z.of_nat (length (filter (is_grant c t) l)).

Lemma grants_app c t l1 l2 : grants c t (l1 ++ l2) = grants c t l1 + grants c t l2.
Proof. unfold grants. rewrite list.filter_app, length_app. lia. Qed.

Lemma grants_perm c t l1 l2 : l1 ≡ₚ l2 -> grants c t l1 = grants c t l2.
Proof. intros Hp. unfold grants. by rewrite Hp. Qed.

Lemma grants_cons c t m l :
  grants c t (m :: l) = (if decide (is_grant c t m) then 1 else 0) + grants c t l.
Proof. unfold grants. rewrite filter_cons. case_decide; cbn [length]; lia. Qed.

Lemma grants_nil c t : grants c t [] = 0.
Proof. done. Qed.

Lemma grants_nonneg c t l : 0 <= grants c t l.
Proof. unfold grants. lia. Qed.

Lemma grants_none c t l : (forall m, m ∈ l -> ~ is_grant c t m) -> grants c t l = 0.
Proof.
  intros Hn. unfold grants. induction l as [|m l IH]; [done|].
  rewrite filter_cons, decide_False by (apply Hn; set_solver). apply IH. set_solver.
Qed.

(** * The invariant *)

Section safety.
(** The servers of the configuration. *)
Context (ids : list Z) (ids_nodup : NoDup ids) (ids_pos : -1 ∉ ids).
Context (ids_length : Z.of_nat (length ids) = N_SERVERS).

(** A vote that was cast is remembered by its voter. *)
Definition remembers (a : anode) (t c : Z) : Prop :=
  t < a_term a \/ (t = a_term a /\ a_vote a = c).

Definition msg_ok (ns : gmap Z anode) (m : msg) : Prop :=
  match m with
  | MVote cand src t => cand = src /\ exists a, ns !! src = Some a /\ t <= a_term a
  | MLead src t => exists a, ns !! src = Some a /\ past t a
  | MResp dst t s => 0 < s -> exists a, ns !! dst = Some a /\ t <= a_term a
  end.

Definition node_ok (H : votes) (ms : list msg) (n : Z) (a : anode) : Prop :=
  (forall t v, a_img a = Some (t, v) -> t = a_term a /\ v = a_vote a) /\
  (forall t, t ∈ a_pend a -> past t a) /\
  (a_role a = CANDIDATE -> a_count a + grants n (a_term a) ms <= nvotes ids H n (a_term a)) /\
  (a_role a = LEADER -> N_SERVERS < 2 * nvotes ids H n (a_term a)).

Record inv (H : votes) (s : asys) : Prop := {
  inv_dom : forall n, n ∈ ids <-> is_Some (anodes s !! n);
  inv_votes : forall n t c, H !! (n, t) = Some c ->
    c <> -1 /\ exists a, anodes s !! n = Some a /\ remembers a t c;
  inv_nodes : forall n a, anodes s !! n = Some a -> node_ok H (amsgs s) n a;
  inv_msgs : forall m, m ∈ amsgs s -> msg_ok (anodes s) m
}.

(** Nothing a step does makes a node forget: terms grow, and candidacies of
    past terms stay past. *)
Definition grows (a a' : anode) : Prop :=
  a_term a <= a_term a' /\
  (a_term a = a_term a' -> a_role a <> CANDIDATE -> a_role a' <> CANDIDATE) /\
  (a_term a = a_term a' -> a_vote a <> -1 -> a_vote a' = a_vote a).

Lemma grows_past a a' t : grows a a' -> past t a -> past t a'.
Proof. unfold grows, past. intros (? & Hr & _) [?|[-> ?]]; [lia|]. 
  destruct (decide (a_term a = a_term a')); [right; auto|left; lia]. Qed.

Lemma grows_remembers a a' t c : c <> -1 -> grows a a' -> remembers a t c -> remembers a' t c.
Proof.
  unfold grows, remembers. intros Hc (? & _ & Hv) [?|[-> Ha]]; [lia|].
  destruct (decide (a_term a = a_term a')); [|lia]. right. split; [done|].
  rewrite Hv; congruence.
Qed.

Lemma grows_msg_ok ns n a a' m :
  ns !! n = Some a -> grows a a' -> msg_ok ns m -> msg_ok (<[n := a']> ns) m.
Proof.
  intros Hn Hg.
  assert (forall k b, ns !! k = Some b -> exists b', <[n := a']> ns !! k = Some b' /\ grows b b') as Hk.
  { intros k b Hb. destruct (decide (n = k)) as [<-|].
    - exists a'. rewrite lookup_insert_eq. simplify_eq. done.
    - exists b. rewrite lookup_insert_ne by done. unfold grows. done. }
  destruct m; cbn.
  - intros (-> & b & Hb & ?). destruct (Hk _ _ Hb) as (b' & ? & (? & _)).
    split; [done|]. exists b'. split; [done|lia].
  - intros (b & Hb & ?). destruct (Hk _ _ Hb) as (b' & ? & ?).
    exists b'. eauto using grows_past.
  - intros Hs ?. destruct Hs as (b & Hb & ?); [done|].
    destruct (Hk _ _ Hb) as (b' & ? & (? & _)). exists b'. split; [done|lia].
Qed.

(** At most one vote is added to the history, cast by the node that moves. *)
Definition vote_ext (H H' : votes) (n : Z) (a' : anode) : Prop :=
  H' = H \/ exists t c, H !! (n, t) = None /\ H' = <[(n, t) := c]> H /\ c <> -1 /\
                        remembers a' t c.

Lemma vote_ext_mono H H' n a' c t :
  vote_ext H H' n a' -> nvotes ids H c t <= nvotes ids H' c t.
Proof. intros [->|(t' & c' & Hn & -> & _)]; [done|]. by apply nvotes_fresh_other. Qed.

Lemma inv_update H H' s s' n a inm a' outs rest :
  inv H s -> anodes s !! n = Some a -> amsgs s ≡ₚ option_list inm ++ rest ->
  grows a a' -> vote_ext H H' n a' ->
  node_ok H' (outs ++ rest) n a' ->
  (forall m, m ∈ outs -> msg_ok (<[n := a']> (anodes s)) m) ->
  (forall k b, k <> n -> anodes s !! k = Some b -> a_role b = CANDIDATE ->
    grants k (a_term b) outs + nvotes ids H k (a_term b) <= nvotes ids H' k (a_term b)) ->
  anodes s' = <[n := a']> (anodes s) -> amsgs s' ≡ₚ outs ++ rest ->
  inv H' s'.
Proof.
  intros [Hdom Hv Hn Hm] Ha Hp Hg Hx Hok Hout Hother Hs' Hp'.
  split; rewrite ?Hs'.
  - intros k. rewrite Hdom. destruct (decide (n = k)) as [<-|].
    + rewrite lookup_insert_eq, Ha. split; eauto.
    + by rewrite lookup_insert_ne.
  - assert (forall k t c, H !! (k, t) = Some c -> c <> -1 /\
      exists b, <[n := a']> (anodes s) !! k = Some b /\ remembers b t c) as Hold.
    { intros k t c Hk. destruct (Hv _ _ _ Hk) as (? & b & Hb & ?). split; [done|].
      destruct (decide (n = k)) as [<-|].
      - exists a'. rewrite lookup_insert_eq. simplify_eq. eauto using grows_remembers.
      - exists b. by rewrite lookup_insert_ne. }
    destruct Hx as [->|(t & c & _ & -> & ? & ?)]; [done|].
    intros k t' c' [([= <- <-] & <-)|(_ & Hk)]%lookup_insert_Some; [|by apply Hold].
    split; [done|]. exists a'. by rewrite lookup_insert_eq.
  - intros k b [[<- <-]|[Hne Hb]]%lookup_insert_Some.
    + destruct Hok as (? & ? & Hc & ?). split_and!; try done.
      intros Hr. rewrite (grants_perm _ _ _ _ Hp'). by apply Hc.
    + destruct (Hn _ _ Hb) as (? & ? & Hc & Hl). split_and!; try done.
      * intros Hr. specialize (Hc Hr). specialize (Hother k b ltac:(done) Hb Hr).
        rewrite (grants_perm _ _ _ _ Hp), grants_app in Hc.
        rewrite (grants_perm _ _ _ _ Hp'), grants_app.
        pose proof (grants_nonneg k (a_term b) (option_list inm)). lia.
      * intros Hr. specialize (Hl Hr).
        pose proof (vote_ext_mono _ _ _ _ k (a_term b) Hx). lia.
  - intros m. rewrite Hp', elem_of_app. intros [?|Hrest]; [by apply Hout|].
    eapply grows_msg_ok; [done..|]. apply Hm. rewrite Hp. set_solver.
Qed.

(** ** Each step keeps it *)

Lemma durable_img a a' :
  durable a a' ->
  (forall t v, a_img a = Some (t, v) -> t = a_term a /\ v = a_vote a) ->
  (forall t v, a_img a' = Some (t, v) -> t = a_term a' /\ v = a_vote a').
Proof.
  intros [Hi|(Hi & Ht & Hv)] Ha t v; rewrite Hi; [by intros [= <- <-]|].
  rewrite Ht, Hv. apply Ha.
Qed.

Lemma bump_cases t a :
  (a_term a < t /\ a_term (bump t a) = t /\ a_role (bump t a) = FOLLOWER) \/
  (t <= a_term a /\ bump t a = a).
Proof. unfold bump. destruct (Z.ltb_spec (a_term a) t); auto. Qed.

Lemma grows_same_view a a' t : same_view a' (bump t a) -> grows a a'.
Proof.
  intros (Ht & Hv & Hr & _). unfold grows. rewrite Ht, Hv, Hr.
  destruct (bump_cases t a) as [(? & -> & ->)|(? & ->)]; [|done].
  split; [lia|]. split; [done|]. lia.
Qed.

Lemma grows_view a a' : same_view a' a -> grows a a'.
Proof. intros (Ht & Hv & Hr & _). unfold grows. by rewrite Ht, Hv, Hr. Qed.

Lemma pend_past a a' :
  grows a a' -> (forall t, t ∈ a_pend a -> past t a) -> a_pend a' = a_pend a ->
  forall t, t ∈ a_pend a' -> past t a'.
Proof. intros Hg Hp -> t Ht. eauto using grows_past. Qed.

(** The situation before a step of [n]. *)
Section step.
Context (H : votes) (s : asys) (n : Z) (a a' : anode) (inm : option msg) (outs rest : list msg).
Context (Hinv : inv H s) (Ha : anodes s !! n = Some a)
        (Hp : amsgs s ≡ₚ option_list inm ++ rest).

Lemma step_node_ok : node_ok H (option_list inm ++ rest) n a.
Proof.
  destruct (inv_nodes _ _ Hinv _ _ Ha) as (? & ? & Hc & ?). split_and!; try done.
  by rewrite (grants_perm _ _ _ _ (symmetry Hp)).
Qed.

Lemma step_in_ok m : inm = Some m -> msg_ok (anodes s) m.
Proof. intros ->. apply (inv_msgs _ _ Hinv). rewrite Hp. set_solver. Qed.

Lemma step_id : n <> -1.
Proof. intros ->. apply ids_pos, (inv_dom _ _ Hinv). eauto. Qed.

(** A node that could still vote in [t] has no vote of [t] in the history. *)
Lemma step_fresh t : a_term (bump t a) = t -> a_vote (bump t a) = -1 -> H !! (n, t) = None.
Proof.
  intros Ht Hv. destruct (H !! (n, t)) as [c|] eqn:E; [|done]. exfalso.
  destruct (inv_votes _ _ Hinv _ _ _ E) as (Hc & b & Hb & Hr). simplify_eq.
  destruct (bump_cases t a) as [(? & _)|(? & Hbump)]; [unfold remembers in Hr; lia|].
  rewrite Hbump in Ht, Hv. destruct Hr as [?|[_ ?]]; [lia|congruence].
Qed.

(** Nor has a node voted in a term it has not reached. *)
Lemma step_fresh_next t : a_term a < t -> H !! (n, t) = None.
Proof.
  intros Hlt. destruct (H !! (n, t)) as [c|] eqn:E; [|done]. exfalso.
  destruct (inv_votes _ _ Hinv _ _ _ E) as (_ & b & Hb & Hre). simplify_eq.
  unfold remembers in Hre. lia.
Qed.

(** A step that casts no vote. *)
Lemma inv_update_same s' :
  grows a a' -> durable a a' ->
  (forall t, t ∈ a_pend a' -> past t a') ->
  (forall m, m ∈ outs -> msg_ok (<[n := a']> (anodes s)) m) ->
  (forall k b, anodes s !! k = Some b -> a_role b = CANDIDATE ->
     grants k (a_term b) outs = 0) ->
  (a_role a' = CANDIDATE -> a_count a' + grants n (a_term a') rest <= nvotes ids H n (a_term a')
     /\ grants n (a_term a') outs = 0) ->
  (a_role a' = LEADER -> N_SERVERS < 2 * nvotes ids H n (a_term a')) ->
  anodes s' = <[n := a']> (anodes s) -> amsgs s' ≡ₚ outs ++ rest -> inv H s'.
Proof.
  intros Hg Hd Hpe Hout Hother Hc Hl Hs' Hp'.
  pose proof step_node_ok as (Hi & _).
  eapply inv_update; eauto; [by left| |].
  - split_and!; try done.
    + eapply durable_img; eauto.
    + intros Hr. destruct (Hc Hr) as [? Ho]. rewrite grants_app, Ho. lia.
  - intros k b _ Hb Hr. by rewrite (Hother k b Hb Hr).
Qed.

Lemma inv_quiet s' :
  same_view a' a -> durable a a' -> pend_ok a a' ->
  (forall m, m ∈ outs -> exists t, m = MLead n t /\ (past t a' \/ t ∈ a_pend a)) ->
  anodes s' = <[n := a']> (anodes s) -> amsgs s' ≡ₚ outs ++ rest -> inv H s'.
Proof.
  intros Hv Hd Hpe Hout. pose proof step_node_ok as (Hi & Hpa & Hc & Hl).
  pose proof (grows_view _ _ Hv) as Hg. destruct Hv as (Ht & _ & Hr & Hn).
  assert (forall k t, grants k t outs = 0) as Hno.
  { intros k t. apply grants_none. intros m (? & -> & _)%Hout []. }
  apply inv_update_same; try done.
  - intros t [?|?]%Hpe; [|done]. eauto using grows_past.
  - intros m (t & -> & Hm)%Hout. exists a'. rewrite lookup_insert_eq. split; [done|].
    destruct Hm; [done|]. eauto using grows_past.
  - rewrite Ht, Hr, Hn. intros Hcand. specialize (Hc Hcand). rewrite grants_app in Hc.
    pose proof (grants_nonneg n (a_term a) (option_list inm)).
    rewrite Hno. lia.
  - rewrite Ht, Hr. apply Hl.
Qed.

(** A step that ends in the view [bump t a] and sends no grant. *)
Lemma inv_bump s' t :
  same_view a' (bump t a) -> durable a a' -> a_pend a' = a_pend a ->
  (forall m, m ∈ outs -> exists d t' s, m = MResp d t' s /\ s <= 0) ->
  anodes s' = <[n := a']> (anodes s) -> amsgs s' ≡ₚ outs ++ rest -> inv H s'.
Proof.
  intros Hv Hd Hpe Hout. pose proof step_node_ok as (Hi & Hpa & Hc & Hl).
  pose proof (grows_same_view _ _ _ Hv) as Hg. destruct Hv as (Ht & _ & Hr & Hn).
  assert (forall k t, grants k t outs = 0) as Hno.
  { intros k u. apply grants_none. intros m (? & ? & s0 & -> & ?)%Hout. cbn. lia. }
  apply inv_update_same; try done.
  - by eapply pend_past.
  - intros m (? & ? & s0 & -> & ?)%Hout. cbn. lia.
  - rewrite Ht, Hr, Hn. destruct (bump_cases t a) as [(_ & _ & ->)|(_ & ->)]; [by intros [=]|].
    intros Hcand. specialize (Hc Hcand). rewrite grants_app in Hc.
    pose proof (grants_nonneg n (a_term a) (option_list inm)). rewrite Hno. lia.
  - rewrite Ht, Hr. destruct (bump_cases t a) as [(_ & _ & ->)|(_ & ->)]; [by intros [=]|exact Hl].
Qed.

Lemma inv_grant s' cand src t :
  inm = Some (MVote cand src t) -> outs = [MResp src t 1] ->
  a_term (bump t a) = t -> a_vote (bump t a) = -1 ->
  a_term a' = t -> a_vote a' = cand -> a_role a' = a_role (bump t a) ->
  a_count a' = a_count (bump t a) -> durable a a' -> a_pend a' = a_pend a ->
  anodes s' = <[n := a']> (anodes s) -> amsgs s' ≡ₚ outs ++ rest ->
  inv (<[(n, t) := cand]> H) s'.
Proof.
  intros Hin -> Hbt Hbv Ht Hv Hr Hn Hd Hpe Hs' Hp'.
  pose proof step_node_ok as (Hi & Hpa & Hc & Hl).
  destruct (step_in_ok _ Hin) as (-> & b & Hb & Hle).
  pose proof (step_fresh t Hbt Hbv) as Hfresh.
  assert (src ∈ ids) as Hsrc by (apply (inv_dom _ _ Hinv); eauto).
  assert (n ∈ ids) as Hnid by (apply (inv_dom _ _ Hinv); eauto).
  assert (src <> -1) as Hpos by (intros ->; done).
  assert (grows a a') as Hg.
  { unfold grows. rewrite Ht, Hv, Hr.
    destruct (bump_cases t a) as [(? & _ & ->)|(? & Hba)]; [split; [lia|]; split; [done|lia]|].
    rewrite Hba in *. split; [lia|]. split; [done|congruence]. }
  assert (forall k u, grants k u [MResp src t 1] + nvotes ids H k u
                      <= nvotes ids (<[(n, t) := src]> H) k u) as Hcount.
  { intros k u. rewrite grants_cons, grants_nil.
    case_decide as Hgr.
    - destruct Hgr as (-> & -> & _). rewrite nvotes_fresh by done. lia.
    - pose proof (nvotes_fresh_other ids H n t src k u Hfresh). lia. }
  apply (inv_update H _ s s' n a inm a' [MResp src t 1] rest); try done.
  - right. exists t, src. unfold remembers. rewrite Ht, Hv. auto 7.
  - split_and!.
    + by eapply durable_img.
    + by eapply pend_past.
    + rewrite Hr, Hn, Ht. destruct (bump_cases t a) as [(_ & _ & ->)|(_ & Hba)]; [by intros [=]|].
      rewrite Hba in Hbt |- *. intros Hcand. specialize (Hc Hcand).
      rewrite Hbt in Hc. specialize (Hcount n t). rewrite grants_app in Hc |- *.
      pose proof (grants_nonneg n t (option_list inm)). lia.
    + rewrite Hr, Ht. destruct (bump_cases t a) as [(_ & _ & ->)|(_ & Hba)]; [by intros [=]|].
      rewrite Hba in Hbt |- *. intros Hlead. specialize (Hl Hlead). rewrite Hbt in Hl.
      pose proof (nvotes_fresh_other ids H n t src n t Hfresh). lia.
  - intros m ->%list_elem_of_singleton. eapply grows_msg_ok; try done. cbn. eauto.
Qed.

Lemma inv_lead_accept s' src t :
  inm = Some (MLead src t) -> outs = [MResp src t 1] ->
  a_term (bump t a) = t -> a_term a' = t -> a_vote a' = a_vote (bump t a) ->
  a_role a' = FOLLOWER \/ same_view a' (bump t a) ->
  durable a a' -> a_pend a' = a_pend a ->
  anodes s' = <[n := a']> (anodes s) -> amsgs s' ≡ₚ outs ++ rest -> inv H s'.
Proof.
  intros Hin Houts Hbt Ht Hv Hr Hd Hpe Hs' Hp'.
  pose proof step_node_ok as (Hi & Hpa & Hc & Hl).
  destruct (step_in_ok _ Hin) as (b & Hb & Hpast).
  assert (grows a a') as Hg.
  { destruct Hr as [Hr|Hr]; [|by eapply grows_same_view]. unfold grows. rewrite Ht, Hv, Hr.
    destruct (bump_cases t a) as [(? & _ & _)|(? & Hba)]; [split; [lia|]; split; [done|lia]|].
    rewrite Hba in *. split; [lia|]. split; done. }
  assert (forall k c, anodes s !! k = Some c -> a_role c = CANDIDATE ->
            grants k (a_term c) [MResp src t 1] = 0) as Hno.
  { intros k c Hk Hcand. apply grants_none. intros m ->%list_elem_of_singleton.
    cbn. intros (-> & -> & _). simplify_eq. destruct Hpast as [?|[_ ?]]; [lia|done]. }
  apply inv_update_same; try done; rewrite ?Houts; try done.
  - by eapply pend_past.
  - intros m ->%list_elem_of_singleton. eapply grows_msg_ok; try done. cbn. intros _.
    exists b. split; [done|]. destruct Hpast; lia.
  - intros Hcand. destruct Hr as [Hr|(Ht' & _ & Hr & Hn)]; [congruence|].
    destruct (bump_cases t a) as [(_ & _ & Hf)|(_ & Hba)]; [congruence|].
    rewrite Hba in *. rewrite Ht', Hn. rewrite Hr in Hcand. split; [|by apply Hno].
    specialize (Hc Hcand). rewrite grants_app in Hc.
    pose proof (grants_nonneg n (a_term a) (option_list inm)). lia.
  - intros Hlead. destruct Hr as [Hr|(Ht' & _ & Hr & Hn)]; [congruence|].
    destruct (bump_cases t a) as [(_ & _ & Hf)|(_ & Hba)]; [congruence|].
    rewrite Hba in *. rewrite Ht'. apply Hl. congruence.
Qed.

Lemma inv_count s' u :
  inm = Some (MResp n (a_term a) u) -> outs = [] ->
  0 < u -> a_role a = CANDIDATE ->
  a_term a' = a_term a -> a_vote a' = a_vote a -> a_count a' = a_count a + 1 ->
  (a_role a' = CANDIDATE \/ (a_role a' = LEADER /\ N_SERVERS < a_count a' * 2)) ->
  durable a a' -> a_pend a' = a_pend a ->
  anodes s' = <[n := a']> (anodes s) -> amsgs s' ≡ₚ outs ++ rest -> inv H s'.
Proof.
  intros Hin Houts Hu Hr Ht Hv Hn Hr' Hd Hpe Hs' Hp'.
  pose proof step_node_ok as (Hi & Hpa & Hc & Hl). specialize (Hc Hr).
  rewrite grants_app in Hc. rewrite Hin in Hc.
  change (option_list (Some (MResp n (a_term a) u))) with [MResp n (a_term a) u] in Hc.
  rewrite grants_cons, grants_nil, decide_True in Hc by done.
  assert (grows a a') as Hg by (unfold grows; rewrite Ht, Hv; split; [lia|by split]).
  pose proof (grants_nonneg n (a_term a) rest).
  apply inv_update_same; try done; rewrite ?Houts; try done.
  - by eapply pend_past.
  - intros m Hm. set_solver.
  - intros Hcand. rewrite Ht, Hn. split; [lia|done].
  - intros Hlead. rewrite Ht. destruct Hr' as [?|[_ ?]]; [congruence|]. lia.
Qed.

Lemma inv_candidate s' :
  inm = None ->
  a_term a' = a_term a + 1 -> a_vote a' = n -> a_role a' = CANDIDATE -> a_count a' = 1 ->
  durable a a' -> a_pend a' = a_pend a ->
  (forall m, m ∈ outs -> m = MVote n n (a_term a')) ->
  anodes s' = <[n := a']> (anodes s) -> amsgs s' ≡ₚ outs ++ rest ->
  inv (<[(n, a_term a') := n]> H) s'.
Proof.
  intros Hin Ht Hv Hr Hn Hd Hpe Hout Hs' Hp'. pose proof Hp as Hq. rewrite Hin in Hq.
  pose proof step_node_ok as (Hi & Hpa & Hc & Hl). pose proof step_id as Hpos.
  assert (n ∈ ids) as Hnid by (apply (inv_dom _ _ Hinv); eauto).
  pose proof (step_fresh_next (a_term a') ltac:(lia)) as Hfresh.
  assert (grows a a') as Hg by (unfold grows; lia).
  assert (forall k t, grants k t outs = 0) as Hno.
  { intros k t. apply grants_none. intros m ->%Hout []. }
  apply (inv_update H _ s s' n a None a' outs rest); try done.
  - right. exists (a_term a'), n. unfold remembers. rewrite Hv. auto 7.
  - split_and!.
    + by eapply durable_img.
    + by eapply pend_past.
    + intros _. rewrite Hn, nvotes_fresh, grants_app, Hno by done.
      rewrite (grants_none _ _ rest); [unfold nvotes; lia|].
      intros m Hm Hgr. destruct m; try done. destruct Hgr as (-> & -> & ?).
      destruct (inv_msgs _ _ Hinv (MResp n (a_term a') success)) as (b & Hb & ?); try done.
      * rewrite Hq. set_solver.
      * simplify_eq. lia.
    + congruence.
  - intros m ->%Hout. cbn. split; [done|]. exists a'. rewrite lookup_insert_eq.
    split; [done|lia].
  - intros k b _ Hb Hcand. rewrite Hno.
    pose proof (nvotes_fresh_other ids H n (a_term a') n k (a_term b) Hfresh). lia.
Qed.
End step.

(** Every step of a node whose disk is current makes it grow. *)
Lemma nstep_grows n a inm a' outs :
  (forall t v, a_img a = Some (t, v) -> t = a_term a /\ v = a_vote a) ->
  nstep n a inm a' outs -> grows a a'.
Proof.
  intros Hi Hs. revert Hi. destruct Hs as [a0 a1 ? ? Hv _ _ _|a0 a1 ? Ht _ _ _ _ _ _|a0 a1 ? ? t ? Hv _ _ _|a0 a1 c ? t Hbt Hbv Ht Hv Hr _ _ _
    |a0 a1 ? t Hv _ _|a0 a1 ? t Hbt Ht Hv Hr _ _|a0 a1 t ? _ Hv _ _|a0 a1 ? _ Hr Ht Hv _ _ _ _|a0 a1 t v Him _ Ht Hv Hr _];
    intros Hi.
  - by apply grows_view.
  - unfold grows. lia.
  - by eapply grows_same_view.
  - unfold grows. rewrite Ht, Hv, Hr.
    destruct (bump_cases t a0) as [(? & _ & ->)|(? & Hba)]; [split; [lia|]; split; [done|lia]|].
    rewrite Hba in *. split; [lia|]. split; [done|congruence].
  - by eapply grows_same_view.
  - destruct Hr as [Hr|Hr]; [|by eapply grows_same_view]. unfold grows. rewrite Ht, Hv, Hr.
    destruct (bump_cases t a0) as [(? & _ & _)|(? & Hba)]; [split; [lia|]; split; [done|lia]|].
    rewrite Hba in *. split; [lia|]. split; done.
  - by eapply grows_same_view.
  - unfold grows. rewrite Ht, Hv, Hr. split; [lia|by split].
  - destruct (Hi _ _ Him) as [-> ->]. unfold grows. rewrite Ht, Hv, Hr. split; [lia|by split].
Qed.

(** A node becomes the leader by counting a vote only. *)
Lemma bump_leader a b t :
  same_view b (bump t a) -> a_role b = LEADER -> a_role a = LEADER /\ a_term b = a_term a.
Proof. intros (-> & _ & -> & _). destruct (bump_cases t a) as [(_ & _ & ->)|(_ & ->)]; done. Qed.

Lemma nstep_leader n a inm a' outs :
  nstep n a inm a' outs -> a_role a' = LEADER ->
  (a_role a = LEADER /\ a_term a' = a_term a) \/ exists t u, inm = Some (MResp n t u).
Proof.
  destruct 1 as [? ? ? ? (Ht & _ & Hr & _)|? ? ? _ _ Hr|? ? ? ? ? ? Hv|a0 ? ? ? t Hbt _ Ht _ Hr
    |? ? ? ? Hv|? ? ? ? _ _ _ Hr|? ? ? ? _ Hv|? ? ? _ _|? ? ? ? _ _ _ _ Hr]; intros Hl; eauto using bump_leader.
  - left. split; congruence.
  - congruence.
  - left. destruct (bump_cases t a0) as [(_ & _ & Hf)|(_ & Hb)]; rewrite ?Hb in *; split; congruence.
  - destruct Hr as [Hr|Hr]; [congruence|eauto using bump_leader].
  - congruence.
Qed.

(** The votes a step of [n] casts, and its candidacy. *)
Inductive cast (H : votes) (n : Z) (a : anode) (inm : option msg) (a' : anode) : votes -> Prop :=
  | cast_none :
      (a_role a' = CANDIDATE -> a_role a = CANDIDATE /\ a_term a' = a_term a) -> cast H n a inm a' H
  | cast_self :
      a_role a' = CANDIDATE -> a_term a < a_term a' -> cast H n a inm a' (<[(n, a_term a') := n]> H)
  | cast_grant src :
      inm = Some (MVote (a_vote a') src (a_term a')) -> a_vote (bump (a_term a') a) = -1 ->
      (a_role a' = CANDIDATE -> a_role a = CANDIDATE /\ a_term a' = a_term a) ->
      cast H n a inm a' (<[(n, a_term a') := a_vote a']> H).

Lemma bump_candidate a b t :
  a_term b = a_term (bump t a) -> a_role b = a_role (bump t a) -> a_role b = CANDIDATE ->
  a_role a = CANDIDATE /\ a_term b = a_term a.
Proof. intros -> -> Hc. destruct (bump_cases t a) as [(_ & _ & E)|(_ & E)]; rewrite E in *; done. Qed.

(** The history of votes only grows. *)
Lemma nstep_inv H s s' n a inm a' outs rest :
  inv H s -> anodes s !! n = Some a -> amsgs s ≡ₚ option_list inm ++ rest ->
  nstep n a inm a' outs ->
  anodes s' = <[n := a']> (anodes s) -> amsgs s' ≡ₚ outs ++ rest ->
  exists H', H ⊆ H' /\ inv H' s' /\ cast H n a inm a' H'.
Proof.
  intros Hinv Ha Hp Hstep. revert Ha Hp. destruct Hstep as [a a' inm outs Hv|a a' outs Ht Hvn Hr
    |a a' c src t s0 Hv|a a' c src t Hbt Hbv Ht Hvc Hr|a a' src t Hv|a a' src t Hbt Ht Hv Hr|a a' t s0 Hlt Hv
    |a a' s0 Hs0 Hr|a a' t v Hi Hi' Ht Hv Hr]; intros Ha Hp Hs' Hp'.
  - exists H. split; [done|]. split; [by eapply inv_quiet|]. apply cast_none.
    destruct Hv as (-> & _ & -> & _). done.
  - exists (<[(n, a_term a') := n]> H). split; [|split; [by eapply inv_candidate|apply cast_self; [done|lia]]].
    apply insert_subseteq. eapply step_fresh_next; [done..|]. lia.
  - exists H. split; [done|]. split.
    + eapply inv_bump; try done. intros m ->%list_elem_of_singleton. eauto.
    + apply cast_none. destruct Hv as (? & _ & ? & _). by eapply bump_candidate.
  - exists (<[(n, t) := c]> H). split; [|split; [by eapply inv_grant|]].
    + apply insert_subseteq. by eapply step_fresh.
    + replace (<[(n, t) := c]> H) with (<[(n, a_term a') := a_vote a']> H) by (by rewrite Ht, Hvc).
      apply (cast_grant _ _ _ _ _ src); [by rewrite Ht, Hvc|by rewrite Ht|].
      apply (bump_candidate _ _ t); congruence.
  - exists H. split; [done|]. split.
    + eapply inv_bump; try done. intros m ->%list_elem_of_singleton. do 3 eexists. split; [done|]. lia.
    + apply cast_none. destruct Hv as (? & _ & ? & _). by eapply bump_candidate.
  - exists H. split; [done|]. split; [by eapply inv_lead_accept|]. apply cast_none.
    destruct Hr as [Hr|(? & _ & ? & _)]; [congruence|by eapply bump_candidate].
  - exists H. split; [done|]. split.
    + eapply inv_bump; try done. intros m Hm. by apply not_elem_of_nil in Hm.
    + apply cast_none. destruct Hv as (? & _ & ? & _). by eapply bump_candidate.
  - exists H. split; [done|]. split; [by eapply inv_count|]. by apply cast_none.
  - exists H. split; [done|]. split; [|apply cast_none; congruence].
    destruct (inv_nodes _ _ Hinv _ _ Ha) as (Himg & _). destruct (Himg _ _ Hi) as [Et Ev].
    assert (grows a a') as Hg by (unfold grows; split; [lia|]; split; congruence).
    eapply inv_update_same; try done.
    + left. congruence.
    + match goal with E : a_pend a' = [] |- _ => rewrite E end.
      intros t' Hin. by apply not_elem_of_nil in Hin.
    + intros m Hm. by apply not_elem_of_nil in Hm.
    + intros k b _ _. apply grants_nil.
    + congruence.
    + congruence.
Qed.

(** Losing a message. *)
Lemma inv_drop H s s' m : inv H s -> anodes s' = anodes s -> amsgs s ≡ₚ m :: amsgs s' -> inv H s'.
Proof.
  intros [Hd Hv Hn Hm] Hs' Hp. split; rewrite ?Hs'; try done.
  - intros n a Ha. destruct (Hn _ _ Ha) as (? & ? & Hc & ?). split_and!; try done.
    intros Hr. specialize (Hc Hr).
    rewrite (grants_perm _ _ _ _ Hp), grants_cons in Hc.
    case_decide; lia.
  - intros x Hx. apply Hm. rewrite Hp. set_solver.
Qed.

Lemma astep_inv H s s' : inv H s -> astep s s' -> exists H', H ⊆ H' /\ inv H' s'.
Proof.
  intros Hinv Hstep. inversion Hstep as [? ? n a inm a' outs rest Ha Hp Hn Hs' Hp'|? ? m Hs' Hp]; subst.
  - destruct (nstep_inv _ _ _ _ _ _ _ _ _ Hinv Ha Hp Hn Hs' Hp') as (H' & ? & ? & _). eauto.
  - exists H. split; [done|]. by eapply inv_drop.
Qed.

(** No step makes a node go back to an earlier term, or change its vote in it. *)
Lemma astep_grows H s s' n a a' :
  inv H s -> astep s s' -> anodes s !! n = Some a -> anodes s' !! n = Some a' -> grows a a'.
Proof.
  intros Hinv Hstep Ha Ha'. inversion Hstep as [? ? k b inm b' outs rest Hb Hp Hn Hs' Hp'|? ? m Hs' Hp]; subst.
  - rewrite Hs' in Ha'. destruct (decide (k = n)) as [->|Hne].
    + rewrite lookup_insert_eq in Ha'. injection Ha' as <-. rewrite Ha in Hb. injection Hb as <-.
      eapply nstep_grows; [|done]. by destruct (inv_nodes _ _ Hinv _ _ Ha) as (Hi & _).
    + rewrite lookup_insert_ne in Ha' by done. simplify_eq. unfold grows. done.
  - rewrite Hs' in Ha'. simplify_eq. unfold grows. done.
Qed.

(** Two leaders of one term are the same server. *)
Lemma inv_one_leader H s n1 n2 a1 a2 :
  inv H s -> anodes s !! n1 = Some a1 -> anodes s !! n2 = Some a2 ->
  a_role a1 = LEADER -> a_role a2 = LEADER -> a_term a1 = a_term a2 -> n1 = n2.
Proof.
  intros Hinv H1 H2 Hr1 Hr2 Ht. destruct (decide (n1 = n2)) as [|Hne]; [done|exfalso].
  destruct (inv_nodes _ _ Hinv _ _ H1) as (_ & _ & _ & Hl1).
  destruct (inv_nodes _ _ Hinv _ _ H2) as (_ & _ & _ & Hl2).
  specialize (Hl1 Hr1). specialize (Hl2 Hr2). rewrite Ht in Hl1.
  pose proof (nvotes_disjoint ids H n1 n2 (a_term a2) Hne). lia.
Qed.

(** The nodes before any election. *)
Definition fresh_node (a : anode) : Prop :=
  a_role a = FOLLOWER /\ a_pend a = [] /\
  forall t v, a_img a = Some (t, v) -> t = a_term a /\ v = a_vote a.

Lemma inv_init s :
  (forall n, n ∈ ids <-> is_Some (anodes s !! n)) ->
  (forall n a, anodes s !! n = Some a -> fresh_node a) -> amsgs s = [] -> inv ∅ s.
Proof.
  intros Hd Hn Hm. split; [done| | |].
  - intros n t c E. by rewrite lookup_empty in E.
  - intros n a Ha. destruct (Hn _ _ Ha) as (Hr & Hp & Hi). unfold node_ok.
    rewrite Hr, Hp. split_and!; try done. intros t E. by apply not_elem_of_nil in E.
  - intros m E. rewrite Hm in E. set_solver.
Qed.
End safety.
