(* ===== verification/LogSpec.v ===== *)
(** The abstract replication protocol: what the raft module promises about the
    logs of the servers, on top of the election protocol ([ElectionSpec]).  A
    node has the log in its memory and the log in its state file; the messages
    are the append requests that carry an entry.  The entries are compared
    without the count of replicas the leader keeps in its own copy. *)
From S2P Require Import Prelude RaftTypes ElectionSpec.

Abbreviation log := (list raft_log_entry).

(** An entry without its count of replicas. *)
Definition ekey (e : raft_log_entry) : raft_log_entry := e <| le_n_servers_replicated := 0 |>.

Record lnode := { lg : log; im : option log }.

Record lmsg := { lm_term : Z; lm_prev : Z; lm_prev_term : Z; lm_entry : raft_log_entry }.

(** The term at an index, -1 where there is no entry. *)
Definition lterm (l : log) (i : Z) : Z :=
  if i <? 0 then -1 else match l !! Z.to_nat i with Some e => le_term e | None => -1 end.

(** The position of the entry a message carries. *)
Definition lm_pos (m : lmsg) : nat := Z.to_nat (lm_prev m + 1).

(** A leader with the log [l] may send [m]. *)
Definition carries (l : log) (m : lmsg) : Prop :=
  -1 <= lm_prev m /\ l !! lm_pos m = Some (lm_entry m) /\ lterm l (lm_prev m) = lm_prev_term m.

(** A node with the log [l] may store the entry of [m], and what it makes of
    the log. *)
Definition accepts (l : log) (m : lmsg) : Prop :=
  -1 <= lm_prev m < Z.of_nat (length l) /\ lterm l (lm_prev m) = lm_prev_term m.
Definition stored (l : log) (m : lmsg) : log :=
  if decide (le_term <$> l !! lm_pos m = Some (le_term (lm_entry m)))
  then <[lm_pos m := lm_entry m]> l else take (lm_pos m) l ++ [lm_entry m].

(** The state file keeps its log or holds that of the memory. *)
Definition log_durable (x x' : lnode) : Prop := im x' = im x \/ im x' = Some (lg x').

(** One step of a node, whose election part moves from [a] to [a']. *)
Inductive lstep (a : anode) (x : lnode) (a' : anode) (x' : lnode) : option lmsg -> list lmsg -> Prop :=
  | lstep_keep outs :
      lg x' = lg x -> log_durable x x' ->
      (a_role a' = LEADER -> a_role a = LEADER /\ a_term a' = a_term a) ->
      (forall m, m ∈ outs -> a_role a = LEADER /\ lm_term m = a_term a /\ carries (lg x) m) ->
      lstep a x a' x' None outs
  | lstep_store m :
      accepts (lg x) m -> lg x' = stored (lg x) m -> log_durable x x' -> a_role a' <> LEADER ->
      lm_term m <= a_term a' ->
      lstep a x a' x' (Some m) []
  | lstep_lead e :
      a_role a = CANDIDATE -> a_role a' = LEADER -> a_term a' = a_term a -> le_term e = a_term a ->
      lg x' = lg x ++ [e] -> log_durable x x' ->
      lstep a x a' x' None []
  | lstep_push e :
      a_role a = LEADER -> a_role a' = LEADER -> a_term a' = a_term a -> le_term e = a_term a ->
      lg x' = lg x ++ [e] -> log_durable x x' ->
      lstep a x a' x' None []
  | lstep_restart :
      im x = Some (lg x') -> log_durable x x' -> a_role a' = FOLLOWER ->
      lstep a x a' x' None [].

(** * The logs of the leaders *)

(** What the leader of each term has put in its log so far. *)
Abbreviation leader_logs := (gmap Z log).

(** Every entry of [l] was received from the leader of its term, together with
    all that precedes it. *)
Definition gmatch (G : leader_logs) (l : log) : Prop :=
  forall i e, l !! i = Some e -> exists L, G !! le_term e = Some L /\ take (S i) L = take (S i) l.

Definition extends (G G' : leader_logs) : Prop :=
  forall t L, G !! t = Some L -> exists L', G' !! t = Some L' /\ L `prefix_of` L'.

#[export] Instance extends_preorder : PreOrder extends.
Proof.
  split.
  - intros G t L HL. by exists L.
  - intros G1 G2 G3 H12 H23 t L HL. destruct (H12 t L HL) as (L2 & H2 & ?).
    destruct (H23 t L2 H2) as (L3 & H3 & ?). exists L3. split; [done|]. by etrans.
Qed.

Lemma extends_insert G t L : (forall L0, G !! t = Some L0 -> L0 `prefix_of` L) -> extends G (<[t := L]> G).
Proof.
  intros Hp u L0 Hu. destruct (decide (t = u)) as [<-|].
  - exists L. rewrite lookup_insert_eq. auto.
  - exists L0. by rewrite lookup_insert_ne.
Qed.

(** * Lists *)

Lemma take_prefix {A} (l1 l2 : list A) n : l1 `prefix_of` l2 -> (n <= length l1)%nat -> take n l2 = take n l1.
Proof. intros [k ->] Hn. by rewrite take_app_le. Qed.

Lemma lookup_take_eq {A} (l1 l2 : list A) n i :
  take n l1 = take n l2 -> (i < n)%nat -> l1 !! i = l2 !! i.
Proof. intros E Hi. rewrite <- (lookup_take_lt l1 n), <- (lookup_take_lt l2 n) by done. by rewrite E. Qed.

Lemma take_eq_le {A} (l1 l2 : list A) n k : take n l1 = take n l2 -> (k <= n)%nat -> take k l1 = take k l2.
Proof. intros E Hk. apply (f_equal (take k)) in E. by rewrite !take_take, !Nat.min_l in E. Qed.

Lemma take_eq_length {A} (l1 l2 : list A) n i x :
  take (S i) l1 = take (S i) l2 -> l2 !! i = Some x -> (n <= i)%nat -> (n < length l1)%nat.
Proof.
  intros E Hx Hn. apply (f_equal length) in E. rewrite !length_take in E.
  apply lookup_lt_Some in Hx. lia.
Qed.

Lemma lterm_at l i : 0 <= i -> lterm l i = match l !! Z.to_nat i with Some e => le_term e | None => -1 end.
Proof. intros Hi. unfold lterm. by rewrite (proj2 (Z.ltb_ge _ _)) by lia. Qed.

Lemma lterm_neg l i : i < 0 -> lterm l i = -1.
Proof. intros Hi. unfold lterm. by rewrite (proj2 (Z.ltb_lt _ _)). Qed.

Lemma carries_prefix l l' m : l `prefix_of` l' -> carries l m -> carries l' m.
Proof.
  intros Hp (Hlow & He & Ht). split; [done|]. split; [by eapply prefix_lookup_Some|].
  destruct (decide (lm_prev m < 0)) as [Hneg|]; [by rewrite lterm_neg in * |].
  rewrite lterm_at in * by lia. rewrite <- Ht.
  destruct (l !! Z.to_nat (lm_prev m)) as [e|] eqn:E; [by rewrite (prefix_lookup_Some _ _ _ _ E Hp)|].
  apply lookup_lt_Some in He. apply lookup_ge_None in E. unfold lm_pos in He. lia.
Qed.

(** * Matching logs *)

Section gmatch.
Implicit Types (G : leader_logs) (l : log).

Lemma gmatch_extend G G' l : extends G G' -> gmatch G l -> gmatch G' l.
Proof.
  intros Hx Hm i e He. destruct (Hm i e He) as (L & HL & E).
  destruct (Hx _ _ HL) as (L' & HL' & Hp). exists L'. split; [done|].
  rewrite <- E. apply take_prefix; [done|]. by eapply take_eq_length.
Qed.

Lemma gmatch_take G l n : gmatch G l -> gmatch G (take n l).
Proof.
  intros Hm i e (He & Hi)%lookup_take_Some. destruct (Hm i e He) as (L & HL & E).
  exists L. split; [done|]. rewrite take_take, Nat.min_l by lia. done.
Qed.

Lemma gmatch_nil G : gmatch G [].
Proof. done. Qed.

(** The leader's own log grows by an entry of its term. *)
Lemma gmatch_snoc G l e :
  gmatch G l -> G !! le_term e = Some (l ++ [e]) -> gmatch G (l ++ [e]).
Proof.
  intros Hm HG i x Hx. destruct (decide (i = length l)) as [->|Hne].
  - rewrite list_lookup_middle in Hx by done. injection Hx as <-. eauto.
  - assert (i < length l)%nat as Hi.
    { apply lookup_lt_Some in Hx. rewrite length_app in Hx. cbn in Hx. lia. }
    rewrite lookup_app_l in Hx by done. destruct (Hm i x Hx) as (L & HL & E).
    exists L. split; [done|]. by rewrite take_app_le.
Qed.

(** Two matching logs with entries of one term at one index agree below it. *)
Lemma gmatch_agree G l1 l2 i e1 e2 :
  gmatch G l1 -> gmatch G l2 -> l1 !! i = Some e1 -> l2 !! i = Some e2 ->
  le_term e1 = le_term e2 -> take (S i) l1 = take (S i) l2.
Proof.
  intros H1 H2 E1 E2 Ht. destruct (H1 _ _ E1) as (L1 & HL1 & <-).
  destruct (H2 _ _ E2) as (L2 & HL2 & <-). rewrite Ht in HL1. by simplify_eq.
Qed.

(** Where the test of the append handler passes, the follower has all that
    the leader has before the entry. *)
Lemma prev_agree G l L m :
  gmatch G l -> gmatch G L -> -1 <= lm_prev m < Z.of_nat (length L) -> lterm L (lm_prev m) = lm_prev_term m ->
  accepts l m -> take (lm_pos m) l = take (lm_pos m) L.
Proof.
  intros Hl HL Hlow Ht ([_ Hup] & Ht'). unfold lm_pos in *.
  destruct (decide (lm_prev m = -1)) as [->|]; [done|].
  rewrite lterm_at in Ht, Ht' by lia.
  assert (Z.to_nat (lm_prev m + 1) = S (Z.to_nat (lm_prev m))) as Hpos by lia. rewrite Hpos in *.
  destruct (l !! Z.to_nat (lm_prev m)) as [e1|] eqn:E1; [|apply lookup_ge_None in E1; lia].
  destruct (L !! Z.to_nat (lm_prev m)) as [e2|] eqn:E2; [|apply lookup_ge_None in E2; lia].
  eapply (gmatch_agree G); try done. congruence.
Qed.

Lemma accept_agree G l L m :
  gmatch G l -> gmatch G L -> carries L m -> accepts l m -> take (lm_pos m) l = take (lm_pos m) L.
Proof.
  intros Hl HL (Hlow & He & Ht). apply (prev_agree G); try done.
  apply lookup_lt_Some in He. unfold lm_pos in He. lia.
Qed.

(** So storing it leaves the follower's log alone or makes it a part of the
    leader's. *)
Lemma stored_cases G l L m :
  gmatch G l -> gmatch G L -> carries L m -> accepts l m ->
  stored l m = l \/ stored l m = take (S (lm_pos m)) L.
Proof.
  intros Hl HL Hc Ha. pose proof (accept_agree _ _ _ _ Hl HL Hc Ha) as E.
  destruct Hc as (_ & He & _). unfold stored. case_decide as Ht.
  - left. apply fmap_Some in Ht as (e & Hx & Ht). apply list_insert_id.
    rewrite <- He. symmetry. eapply lookup_take_eq; [|apply Nat.lt_succ_diag_r].
    symmetry. by eapply (gmatch_agree G).
  - right. rewrite E. symmetry. by apply take_S_r.
Qed.

Lemma gmatch_stored G l L m :
  gmatch G l -> gmatch G L -> carries L m -> accepts l m -> gmatch G (stored l m).
Proof.
  intros Hl HL Hc Ha. destruct (stored_cases _ _ _ _ Hl HL Hc Ha) as [->| ->]; [done|].
  by apply gmatch_take.
Qed.
End gmatch.

(** * The terms in a log *)

Definition tsorted (l : log) : Prop :=
  forall i j e1 e2, (i <= j)%nat -> l !! i = Some e1 -> l !! j = Some e2 -> le_term e1 <= le_term e2.
Definition tbounded (t : Z) (l : log) : Prop := forall e, e ∈ l -> le_term e <= t.

Lemma tbounded_mono t t' l : t <= t' -> tbounded t l -> tbounded t' l.
Proof. intros Ht Hb e He. specialize (Hb e He). lia. Qed.

Lemma tbounded_take t l n : tbounded t l -> tbounded t (take n l).
Proof.
  intros Hb e [i (Hi & _)%lookup_take_Some]%list_elem_of_lookup. apply Hb.
  apply list_elem_of_lookup. eauto.
Qed.

Lemma tbounded_snoc t l e : tbounded t l -> le_term e <= t -> tbounded t (l ++ [e]).
Proof. intros Hb He x [?| ->%list_elem_of_singleton]%elem_of_app; auto. Qed.

Lemma tsorted_snoc l e : tsorted l -> tbounded (le_term e) l -> tsorted (l ++ [e]).
Proof.
  intros Hs Hb i j e1 e2 Hij H1 [H2|[_ H2]]%lookup_app_Some.
  - rewrite lookup_app_l in H1 by (apply lookup_lt_Some in H2; lia). by eapply (Hs i j).
  - apply list_lookup_singleton_Some in H2 as [_ <-].
    apply lookup_app_Some in H1 as [H1|[_ [_ <-]%list_lookup_singleton_Some]]; [|done].
    apply Hb, list_elem_of_lookup. eauto.
Qed.

(** A log that matches sorted logs is sorted. *)
Lemma gmatch_sorted G l :
  (forall t L, G !! t = Some L -> tsorted L) -> gmatch G l -> tsorted l.
Proof.
  intros HG Hm i j e1 e2 Hij H1 H2. destruct (Hm j e2 H2) as (L & HL & E).
  apply (HG _ _ HL i j); [done|..].
  - rewrite <- H1. eapply lookup_take_eq; [exact E|lia].
  - rewrite <- H2. eapply lookup_take_eq; [exact E|lia].
Qed.

(** * The invariant *)

Section safety.
Context (ids : list Z) (ids_nodup : NoDup ids) (ids_pos : -1 ∉ ids).
Context (ids_length : Z.of_nat (length ids) = N_SERVERS).

(** The node that led, or leads, in a term. *)
Definition elected (H : votes) (ns : gmap Z anode) (t : Z) : Prop :=
  exists n a, ns !! n = Some a /\ N_SERVERS < 2 * nvotes ids H n t /\ past t a.

(** The log of the leader of term [t]. *)
Definition leader_log_ok (H : votes) (G : leader_logs) (ns : gmap Z anode) (t : Z) (L : log) : Prop :=
  gmatch G L /\ elected H ns t /\ tsorted L /\ tbounded t L.

Record linv (H : votes) (G : leader_logs) (s : asys) (ls : gmap Z lnode) (ms : list lmsg) : Prop := {
  linv_logs : forall n x, ls !! n = Some x -> gmatch G (lg x) /\ forall l, im x = Some l -> gmatch G l;
  linv_lead : forall n a x, anodes s !! n = Some a -> ls !! n = Some x ->
    a_role a = LEADER -> G !! a_term a = Some (lg x);
  linv_msgs : forall m, m ∈ ms -> exists L, G !! lm_term m = Some L /\ carries L m;
  linv_terms : forall n a x, anodes s !! n = Some a -> ls !! n = Some x ->
    tbounded (a_term a) (lg x) /\ forall l, im x = Some l -> tbounded (a_term a) l;
  linv_ghost : forall t L, G !! t = Some L -> leader_log_ok H G (anodes s) t L
}.

Lemma elected_mono H H' ns n a a' t :
  H ⊆ H' -> ns !! n = Some a -> grows a a' -> elected H ns t -> elected H' (<[n := a']> ns) t.
Proof.
  intros Hs Hn Hg (k & b & Hk & Hv & Hp). exists k. pose proof (nvotes_mono ids H H' k t Hs).
  destruct (decide (n = k)) as [<-|].
  - exists a'. rewrite lookup_insert_eq. split; [done|]. split; [lia|]. simplify_eq. by eapply grows_past.
  - exists b. rewrite lookup_insert_ne by done. split; [done|]. split; [lia|done].
Qed.

(** A step adds to the log of the leader that makes it, or to none. *)
Definition grown (G : leader_logs) (a' : anode) (x' : lnode) (G' : leader_logs) : Prop :=
  G' = G \/ (a_role a' = LEADER /\ G' = <[a_term a' := lg x']> G).

(** The situation of a step of [n], which the election protocol allows. *)
Section step.
Context (H H' : votes) (G : leader_logs) (s s' : asys) (ls : gmap Z lnode) (ms : list lmsg).
Context (n : Z) (a a' : anode) (x x' : lnode).
Context (Hinv : linv H G s ls ms) (Hinv' : inv ids H' s').
Context (Hs : H ⊆ H') (Ha : anodes s !! n = Some a) (Hx : ls !! n = Some x).
Context (Hs' : anodes s' = <[n := a']> (anodes s)) (Hg : grows a a').

Lemma step_new : anodes s' !! n = Some a'.
Proof. by rewrite Hs', lookup_insert_eq. Qed.

(** The step ends in a log that matches the logs of the leaders, which have
    grown to [G']. *)
Lemma linv_step G' ms' :
  extends G G' -> gmatch G' (lg x') -> tbounded (a_term a') (lg x') -> log_durable x x' ->
  (a_role a' = LEADER -> G' !! a_term a' = Some (lg x')) ->
  (forall k b, k <> n -> anodes s !! k = Some b -> a_role b = LEADER -> G' !! a_term b = G !! a_term b) ->
  (forall m, m ∈ ms' -> m ∈ ms \/ exists L, G' !! lm_term m = Some L /\ carries L m) ->
  (forall t L, G' !! t = Some L -> G !! t = Some L \/ leader_log_ok H' G' (anodes s') t L) ->
  linv H' G' s' (<[n := x']> ls) ms'.
Proof.
  intros Hext Hm Hbd Hd Hl Hother Hout Hghost. split.
  - intros k y [[<- <-]|[_ Hk]]%lookup_insert_Some.
    + split; [done|]. intros l Hil. destruct (linv_logs _ _ _ _ _ Hinv n x Hx) as [_ Hi].
      destruct Hd as [E|E]; rewrite E in Hil.
      * eapply gmatch_extend; [done|]. by apply Hi.
      * by injection Hil as <-.
    + destruct (linv_logs _ _ _ _ _ Hinv k y Hk) as [Hk1 Hk2]. split; eauto using gmatch_extend.
  - rewrite Hs'. intros k b y [[<- <-]|[Hne Hb]]%lookup_insert_Some.
    + rewrite lookup_insert_eq. intros [= <-]. apply Hl.
    + rewrite lookup_insert_ne by done. intros Hy Hr. rewrite (Hother k b) by done.
      by eapply (linv_lead _ _ _ _ _ Hinv).
  - intros m [Hin|]%Hout; [|done]. destruct (linv_msgs _ _ _ _ _ Hinv m Hin) as (L & HL & Hc).
    destruct (Hext _ _ HL) as (L' & HL' & Hp). exists L'. split; [done|]. by eapply carries_prefix.
  - rewrite Hs'. intros k b y [[<- <-]|[Hne Hk]]%lookup_insert_Some.
    + rewrite lookup_insert_eq. intros [= <-]. split; [done|]. intros l Hil.
      destruct Hd as [E|E]; rewrite E in Hil; [|by injection Hil as <-].
      eapply tbounded_mono; [exact (proj1 Hg)|].
      by apply (proj2 (linv_terms _ _ _ _ _ Hinv n a x Ha Hx)).
    + rewrite lookup_insert_ne by done. by apply (linv_terms _ _ _ _ _ Hinv).
  - intros t L [HL|]%Hghost; [|done]. destruct (linv_ghost _ _ _ _ _ Hinv t L HL) as (Hmt & Hel & Hso).
    split; [by eapply gmatch_extend|]. split; [|done]. rewrite Hs'. by eapply elected_mono.
Qed.

(** A step that starts no leader's log and adds to none. *)
Lemma linv_same ms' :
  gmatch G (lg x') -> tbounded (a_term a') (lg x') -> log_durable x x' ->
  (a_role a' = LEADER -> G !! a_term a' = Some (lg x')) ->
  (forall m, m ∈ ms' -> m ∈ ms \/ exists L, G !! lm_term m = Some L /\ carries L m) ->
  linv H' G s' (<[n := x']> ls) ms'.
Proof.
  intros. apply linv_step; try done. intros t L. by left.
Qed.

(** No other node leads in the term of a leader. *)
Lemma step_other_term k b :
  a_role a' = LEADER -> k <> n -> anodes s !! k = Some b -> a_role b = LEADER -> a_term b <> a_term a'.
Proof.
  intros Hr Hne Hb Hrb Ht.
  assert (anodes s' !! k = Some b) as Hb' by (by rewrite Hs', lookup_insert_ne).
  apply Hne. eapply (inv_one_leader ids ids_length); [exact Hinv'|exact Hb'|exact step_new|done..].
Qed.

(** A node leads with one entry of its term added to its log. *)
Lemma linv_grow e :
  a_role a' = LEADER -> a_term a' = a_term a -> le_term e = a_term a' ->
  lg x' = lg x ++ [e] -> log_durable x x' ->
  (forall L, G !! a_term a' = Some L -> L = lg x) ->
  linv H' (<[a_term a' := lg x']> G) s' (<[n := x']> ls) ms.
Proof.
  intros Hr Hta Ht Hlg Hd Hold.
  assert (extends G (<[a_term a' := lg x']> G)) as Hext.
  { apply extends_insert. intros L0 ->%Hold. rewrite Hlg. by apply prefix_app_r. }
  set (G' := <[a_term a' := lg x']> G) in *.
  assert (gmatch G' (lg x')) as Hm.
  { rewrite Hlg. apply gmatch_snoc.
    - eapply gmatch_extend; [exact Hext|]. exact (proj1 (linv_logs _ _ _ _ _ Hinv n x Hx)).
    - subst G'. by rewrite Ht, lookup_insert_eq, Hlg. }
  assert (tbounded (a_term a') (lg x)) as Hbx.
  { rewrite Hta. exact (proj1 (linv_terms _ _ _ _ _ Hinv n a x Ha Hx)). }
  assert (tbounded (a_term a') (lg x')) as Hbn by (rewrite Hlg; apply tbounded_snoc; [done|lia]).
  assert (tsorted (lg x')) as Hso.
  { rewrite Hlg. apply tsorted_snoc; [|by rewrite Ht].
    apply (gmatch_sorted G); [|exact (proj1 (linv_logs _ _ _ _ _ Hinv n x Hx))].
    intros t L HL. by apply (linv_ghost _ _ _ _ _ Hinv t L HL). }
  apply linv_step; try done.
  - intros _. subst G'. by rewrite lookup_insert_eq.
  - intros k b Hne Hb Hrb. subst G'. rewrite lookup_insert_ne; [done|]. symmetry. by eapply step_other_term.
  - intros m. by left.
  - intros t L [[<- <-]|[_ HL]]%lookup_insert_Some; [right|by left]. split; [done|]. split; [|done].
    exists n, a'. split; [apply step_new|]. split.
    + destruct (inv_nodes _ _ _ Hinv' n a' step_new) as (_ & _ & _ & Hl). by apply Hl.
    + right. split; [done|congruence].
Qed.

(** A term that elects its leader has none yet. *)
Lemma step_first_leader :
  a_role a = CANDIDATE -> a_role a' = LEADER -> a_term a' = a_term a -> G !! a_term a' = None.
Proof.
  intros Hc Hr Ht. destruct (G !! a_term a') as [L|] eqn:E; [exfalso|done].
  destruct (linv_ghost _ _ _ _ _ Hinv _ _ E) as (_ & (k & b & Hb & Hv & Hp) & _).
  pose proof (nvotes_mono ids H H' k (a_term a') Hs).
  destruct (inv_nodes _ _ _ Hinv' n a' step_new) as (_ & _ & _ & Hl). specialize (Hl Hr).
  destruct (decide (k = n)) as [->|Hne].
  - simplify_eq. unfold past in Hp. rewrite Ht in Hp. destruct Hp as [?|[_ ?]]; [lia|done].
  - pose proof (nvotes_disjoint ids H' k n (a_term a') Hne). lia.
Qed.

Lemma linv_lstep inm outs ms' :
  (forall m, inm = Some m -> m ∈ ms) -> (forall m, m ∈ ms' -> m ∈ outs \/ m ∈ ms) ->
  lstep a x a' x' inm outs ->
  exists G', extends G G' /\ grown G a' x' G' /\ linv H' G' s' (<[n := x']> ls) ms'.
Proof.
  intros Hin Hms Hstep. destruct (linv_logs _ _ _ _ _ Hinv n x Hx) as [Hmx Hmi].
  destruct (linv_terms _ _ _ _ _ Hinv n a x Ha Hx) as [Hbx Hbi].
  pose proof (proj1 Hg) as Hle.
  assert (forall G', linv H' G' s' (<[n := x']> ls) ms -> outs = [] ->
            linv H' G' s' (<[n := x']> ls) ms') as Hfewer.
  { intros G' [? ? Hm ? ?] ->. split; try done. intros m [Hm0|]%Hms; [by apply not_elem_of_nil in Hm0|auto]. }
  destruct Hstep as [outs Hlg Hd Hrole Hout|m Hacc Hlg Hd Hrole Hmt|e Hc Hr Ht He Hlg Hd
    |e Hc Hr Ht He Hlg Hd|Him Hd Hr].
  - exists G. split; [reflexivity|]. split; [by left|].
    apply linv_same; rewrite ?Hlg; [done|exact (tbounded_mono _ _ _ Hle Hbx)|done|..].
    + intros [Hr Ht]%Hrole. rewrite Ht. by eapply (linv_lead _ _ _ _ _ Hinv).
    + intros m [Hm|]%Hms; [right|by left]. destruct (Hout m Hm) as (Hr & Ht & Hcar).
      exists (lg x). rewrite Ht. split; [|done]. by eapply (linv_lead _ _ _ _ _ Hinv).
  - exists G. split; [reflexivity|]. split; [by left|]. apply Hfewer; [|done].
    destruct (linv_msgs _ _ _ _ _ Hinv m (Hin m eq_refl)) as (L & HL & Hcar).
    destruct (linv_ghost _ _ _ _ _ Hinv _ _ HL) as (HmL & _ & _ & HbL).
    apply linv_same; [by rewrite Hlg; apply (gmatch_stored G (lg x) L m)| |done..|by left].
    rewrite Hlg. destruct (stored_cases G (lg x) L m) as [->| ->]; [done..|exact (tbounded_mono _ _ _ Hle Hbx)|].
    apply tbounded_take. exact (tbounded_mono _ _ _ Hmt HbL).
  - assert (G !! a_term a' = None) as Hnone by by apply step_first_leader.
    eexists. split; [|split; [by right|apply Hfewer; [|done]; apply (linv_grow e); try done; congruence]].
    apply extends_insert. congruence.
  - assert (G !! a_term a' = Some (lg x)) as Hsome by (rewrite Ht; by eapply (linv_lead _ _ _ _ _ Hinv)).
    eexists. split; [|split; [by right|apply Hfewer; [|done]; apply (linv_grow e); try done; congruence]].
    apply extends_insert. intros L0. rewrite Hsome, Hlg. intros [= <-]. by apply prefix_app_r.
  - exists G. split; [reflexivity|]. split; [by left|]. apply Hfewer; [|done]. apply linv_same; [by apply Hmi| |done|congruence|by left].
    apply (tbounded_mono _ _ _ Hle). by apply Hbi.
Qed.
End step.

(** Losing messages. *)
Lemma linv_drop H H' G s s' ls ms ms' :
  H ⊆ H' -> linv H G s ls ms -> anodes s' = anodes s -> (forall m, m ∈ ms' -> m ∈ ms) ->
  linv H' G s' ls ms'.
Proof.
  intros Hs [? ? ? ? Hg] Hs' Hms. split; rewrite ?Hs'; eauto.
  intros t L HL. destruct (Hg t L HL) as (? & (k & b & Hb & Hv & ?) & ?).
  pose proof (nvotes_mono ids H H' k t Hs). split; [done|]. split; [|done].
  exists k, b. split; [done|]. split; [lia|done].
Qed.

Lemma linv_init s ls :
  (forall n x, ls !! n = Some x -> lg x = [] /\ forall l, im x = Some l -> l = []) ->
  (forall n a, anodes s !! n = Some a -> fresh_node a) -> linv ∅ ∅ s ls [].
Proof.
  intros Hl Ha. split.
  - intros n x Hx. destruct (Hl n x Hx) as [-> Hi]. split; [apply gmatch_nil|].
    intros l ->%Hi. apply gmatch_nil.
  - intros n a x Hn _ Hr. destruct (Ha n a Hn) as (Hf & _). congruence.
  - intros m Hm. by apply not_elem_of_nil in Hm.
  - intros n a x _ Hx. destruct (Hl n x Hx) as [-> Hi].
    split; [|intros l ->%Hi]; intros e He; by apply not_elem_of_nil in He.
  - intros t L HL. by rewrite lookup_empty in HL.
Qed.

(** Two nodes whose logs have entries of one term at one index hold the same
    entries up to it. *)
Lemma linv_matching H G s ls ms n1 n2 x1 x2 i e1 e2 :
  linv H G s ls ms -> ls !! n1 = Some x1 -> ls !! n2 = Some x2 ->
  lg x1 !! i = Some e1 -> lg x2 !! i = Some e2 -> le_term e1 = le_term e2 ->
  take (S i) (lg x1) = take (S i) (lg x2).
Proof.
  intros Hinv H1 H2. apply gmatch_agree with (G := G).
  - exact (proj1 (linv_logs _ _ _ _ _ Hinv n1 x1 H1)).
  - exact (proj1 (linv_logs _ _ _ _ _ Hinv n2 x2 H2)).
Qed.
(** Every log is sorted by term. *)
Lemma linv_sorted H G s ls ms n x : linv H G s ls ms -> ls !! n = Some x -> tsorted (lg x).
Proof.
  intros Hinv Hx. apply (gmatch_sorted G); [|exact (proj1 (linv_logs _ _ _ _ _ Hinv n x Hx))].
  intros t L HL. by apply (linv_ghost _ _ _ _ _ Hinv t L HL).
Qed.
End safety.
