(* ===== verification/RaftRefine.v ===== *)
(** Every locked segment of the raft code is a step of the abstract election
    protocol ([ElectionSpec.nstep]). *)
From S2P Require Import Prelude Libc Posix RaftTypes RaftStorage RaftUtils RaftFollower RaftLeader RaftCandidate Raft RaftView ElectionSpec.

(** * Abstraction *)

(** The server that listens on an address; -1 for an unknown one. *)
Definition id_of (cfg : raft_configuration) (addr : sockaddr_in) : Z :=
  match list_find (fun s => raft_socket s = addr) cfg with
  | Some (_, s) => server_id s
  | None => -1
  end.

Definition abs_packet (cfg : raft_configuration) (src dst : sockaddr_in) (p : raft_packet) : msg :=
  match p with
  | VOTE v => MVote (vr_candidate_id v) (id_of cfg src) (vr_term v)
  | APPEND a => MLead (id_of cfg src) (ar_term a)
  | INSTALL_SNAPSHOT q => MLead (id_of cfg src) (ir_term q)
  | RESPONSE r => MResp (id_of cfg dst) (rp_term r) (rp_success r)
  end.

Definition anode_of (w : world) (pend : list Z) : anode :=
  {| a_term := current_term (raft w); a_vote := voted_for (raft w); a_role := state (raft w);
     a_count := nvoted (raft w); a_img := fst <$> img w; a_pend := pend |}.

(** [w] to [w'] is the step of server [n], at address [own], that consumes
    [inm] and whose datagrams are the protocol's messages. *)
Definition refines (n : Z) (own : sockaddr_in) (w : world) (pend : list Z) (inm : option msg)
    (w' : world) (pend' : list Z) : Prop :=
  stable w w' /\ img_kept w w' /\
  exists sent, out w' = out w ++ sent /\
    nstep n (anode_of w pend) inm (anode_of w' pend')
      ((fun '(dst, p) => abs_packet (config (raft w)) own dst p) <$> sent).

(** * Composing *)

Lemma stable_trans w1 w2 w3 : stable w1 w2 -> stable w2 w3 -> stable w1 w3.
Proof. unfold stable. intros (? & ? & ?) (? & ? & ?). split_and!; congruence. Qed.

Lemma stable_refl w : stable w w.
Proof. done. Qed.

Lemma img_kept_refl w : img_kept w w.
Proof. by left. Qed.

(** The disk after two steps, the second of which keeps what would be saved. *)
Lemma img_kept_trans w1 w2 w3 :
  img_kept w1 w2 -> img_kept w2 w3 -> saved (raft w3) = saved (raft w2) -> img_kept w1 w3.
Proof. unfold img_kept. intros [?|?] [?|?] E; rewrite ?E in *; intuition congruence. Qed.

Lemma img_saved w w' : img_kept w w' -> raft w' = raft w -> image w' = Some (raft w) ->
  img w' = Some (saved (raft w')).
Proof. unfold img. intros _ -> ->. done. Qed.

Lemma durable_saved w pend w' pend' :
  img w' = Some (saved (raft w')) -> durable (anode_of w pend) (anode_of w' pend').
Proof. intros E. left. cbn. by rewrite E. Qed.

Lemma durable_kept w pend w' pend' :
  img_kept w w' -> current_term (raft w') = current_term (raft w) ->
  voted_for (raft w') = voted_for (raft w) -> durable (anode_of w pend) (anode_of w' pend').
Proof.
  intros [E|E] Ht Hv; [|by apply durable_saved]. right. cbn. by rewrite E.
Qed.

(** A function that keeps the view and sends nothing. *)
Lemma refines_keeps {A} n own (m : M world A) w a w' pend inm :
  keeps (files_dir (raft w)) m -> m w = Ok (a, w') -> refines n own w pend inm w' pend.
Proof.
  intros Hk E. destruct (quiet_view _ _ (Hk _ _ _ eq_refl E)) as (Hs & Ht & Hv & Hr & Hn & Ho & Hi).
  split; [done|]. split; [done|]. exists []. rewrite Ho, app_nil_r. split; [done|].
  apply nstep_quiet.
  - done.
  - by apply durable_kept.
  - intros t Hin. by left.
  - intros m' Hm. by apply not_elem_of_nil in Hm.
Qed.

(** Nothing in view, no datagram and nothing on the disk changes. *)
Definition calm (w w' : world) : Prop :=
  eview (raft w') = eview (raft w) /\ out w' = out w /\ img w' = img w.

Lemma calm_view w w' :
  calm w w' -> stable w w' /\ current_term (raft w') = current_term (raft w) /\
    voted_for (raft w') = voted_for (raft w) /\ state (raft w') = state (raft w) /\
    nvoted (raft w') = nvoted (raft w) /\ out w' = out w /\ img w' = img w /\
    (forall pend, anode_of w' pend = anode_of w pend).
Proof.
  intros (E & O & I). unfold eview in E. injection E as Et Ev Es En ? ? ?.
  unfold stable, anode_of. rewrite Et, Ev, Es, En, I. split_and!; done.
Qed.

Lemma calm_rmod f w a w' : (forall r, eview (f r) = eview r) -> rmod f w = Ok (a, w') -> calm w w'.
Proof.
  intros Hf [= _ <-]. unfold calm, img, image. cbn. rewrite Hf. specialize (Hf (raft w)).
  unfold eview in Hf. replace (files_dir (f (raft w))) with (files_dir (raft w)) by congruence.
  done.
Qed.

Lemma acquire_calm w a w' : raft_lock_acquire w = Ok (a, w') -> calm w w'.
Proof.
  unfold raft_lock_acquire. intros (f & w1 & [= <- <-] & H)%bind_ok.
  case_decide; [|done]. eapply calm_rmod; [|exact H]. reflexivity.
Qed.

Lemma release_calm w a w' : raft_lock_release w = Ok (a, w') -> calm w w'.
Proof.
  unfold raft_lock_release. intros (f & w1 & [= <- <-] & H)%bind_ok.
  case_decide; [eapply calm_rmod; [|exact H]; reflexivity|]. by injection H as _ <-.
Qed.

(** Following a newer term: [w'] shows the view of [w] bumped to [t]. *)
Definition bumped (t : Z) (w w' : world) : Prop :=
  stable w w' /\ out w' = out w /\ img_kept w w' /\
  current_term (raft w') = Z.max t (current_term (raft w)) /\
  (forall pend, same_view (anode_of w' pend) (bump t (anode_of w pend))).

Lemma follow_ok `{CommitHandler} t w a w' :
  when (current_term (raft w) <? t) (Raft_convert_to_follower t) w = Ok (a, w') -> bumped t w w'.
Proof.
  unfold when, bumped, bump. cbn. destruct (Z.ltb_spec (current_term (raft w)) t).
  - intros (Hs & Ht & Hv & Hst & Hn & Ho & Hi)%convert_ok. unfold same_view. cbn.
    rewrite Ht, Hv, Hst, Hn. split_and!; done || lia.
  - intros [= _ <-]. split_and!; try done; lia || apply img_kept_refl.
Qed.

Lemma follow_save_ok `{CommitHandler} t w a w' :
  when (current_term (raft w) <? t) (Raft_convert_to_follower t;; Raft_save_state) w = Ok (a, w') ->
  bumped t w w' /\ forall pend, durable (anode_of w pend) (anode_of w' pend).
Proof.
  unfold when, bumped, bump. cbn. destruct (Z.ltb_spec (current_term (raft w)) t).
  - intros (b & w1 & (Hs & Ht & Hv & Hst & Hn & Ho & Hi)%convert_ok & (Hr & Ho' & _ & Himg)%save_ok)%bind_ok.
    assert (img w' = Some (saved (raft w'))) as Hd by (unfold img; by rewrite Himg, Hr).
    split; [|intros pend; by apply durable_saved].
    unfold same_view, stable in *. cbn. rewrite Hr, Ht, Hv, Hst, Hn.
    split_and!; try tauto; try lia; try congruence. by right.
  - intros [= _ <-]. split; [|by intros; right].
    split_and!; try done; lia || apply img_kept_refl.
Qed.

(** A handler that ends in [Raft_save_state], a reply and the release. *)
Lemma reply_ok w a w1 dst p b w2 c w' :
  Raft_save_state w = Ok (a, w1) -> UDP_send dst p w1 = Ok (b, w2) ->
  raft_lock_release w2 = Ok (c, w') ->
  stable w w' /\ img w' = Some (saved (raft w')) /\ out w' = out w ++ [(dst, p)] /\
  (forall pend, same_view (anode_of w' pend) (anode_of w pend)).
Proof.
  intros (Hr & Ho & _ & Hi)%save_ok [= _ <-] (Hs & Ht & Hv & Hst & Hn & Ho' & Hi' & _)%release_calm%calm_view.
  cbn in *. unfold stable, img, image, same_view in *. cbn in *. rewrite Hr in *.
  rewrite Hi', Hi, Ho', Ho. cbn. unfold saved. destruct Hs as (? & ? & ?).
  split_and!; congruence || done.
Qed.

(** * Requests *)

Lemma send_ok dst p w a w' :
  UDP_send dst p w = Ok (a, w') -> w' = w <| out ::= fun l => l ++ [(dst, p)] |>.
Proof. by intros [= _ <-]. Qed.

Lemma get_log_term_read i w t w' : Raft_get_log_term i w = Ok (t, w') -> w' = w.
Proof.
  unfold Raft_get_log_term. intros (r & ? & [= <- <-] & H)%bind_ok.
  case_match; [|by injection H]. apply bind_ok in H as (e & w1 & He & [= _ <-]).
  unfold lift in He. destruct (arr_get _ _); [|done]. by injection He.
Qed.

Section requests.
Context `{CH : CommitHandler} `{!CommitHandlerOk CH}.
Context (n : Z) (own : sockaddr_in).

Lemma bump_calm t w w1 pend : calm w w1 -> bump t (anode_of w1 pend) = bump t (anode_of w pend).
Proof. intros Hc. destruct (calm_view _ _ Hc) as (_ & _ & _ & _ & _ & _ & _ & ->). done. Qed.

(** Taking the lock and following the term of the request. *)
Lemma request_prefix t w w1 w2 a :
  raft_lock_acquire w = Ok (a, w1) -> bumped t w1 w2 -> bumped t w w2.
Proof.
  intros Hc%acquire_calm (Hs & Ho & Hi & Hm & Hv).
  pose proof (bump_calm t _ _ [] Hc) as _.
  destruct (calm_view _ _ Hc) as (Hs' & Ht & _ & _ & _ & Ho' & Hi' & Ha).
  split; [by eapply stable_trans|]. rewrite Ht in Hm. split; [congruence|].
  split; [unfold img_kept in *; by rewrite <- Hi'|]. split; [done|].
  intros pend. rewrite <- Ha. apply Hv.
Qed.

(** The vote itself: granted, or not. *)
Lemma vote_ok v w2 s w3 :
  (if (current_term (raft w2) =? vr_term v) && (voted_for (raft w2) =? -1) then
     last_log_term ← Raft_get_log_term (log_count (raft w2) - 1);
     s ← (if last_log_term <? vr_last_log_term v then
            rmod (fun r => r <| voted_for := vr_candidate_id v |>);; mret 1
          else if (vr_last_log_term v =? last_log_term) &&
                  (log_count (raft w2) - 1 <=? vr_last_log_index v) then
            rmod (fun r => r <| voted_for := vr_candidate_id v |>);; mret 1
          else mret (-1));
     Raft_save_state;;
     mret s
   else mret 0) w2 = Ok (s, w3) ->
  stable w2 w3 /\ out w3 = out w2 /\ current_term (raft w3) = current_term (raft w2) /\
  state (raft w3) = state (raft w2) /\ nvoted (raft w3) = nvoted (raft w2) /\
  (img w3 = Some (saved (raft w3)) \/ (img w3 = img w2 /\ voted_for (raft w3) = voted_for (raft w2))) /\
  ((s = 1 /\ current_term (raft w2) = vr_term v /\ voted_for (raft w2) = -1 /\
    voted_for (raft w3) = vr_candidate_id v) \/
   (s <= 0 /\ voted_for (raft w3) = voted_for (raft w2))).
Proof.
  destruct (_ && _) eqn:Hcan; [|intros [= <- <-]; unfold stable; split_and!; auto with lia].
  apply andb_true_iff in Hcan as [Hct%Z.eqb_eq Hvf%Z.eqb_eq].
  intros (t & ? & ->%get_log_term_read & H)%bind_ok.
  apply bind_ok in H as (s' & w & Hdec & H).
  apply bind_ok in H as (? & w4 & Hsave & [= <- <-]).
  destruct (save_ok _ _ _ Hsave) as (Hr & Ho & _ & Hi). unfold img, stable. rewrite Hi, Hr, Ho.
  assert ((s' = 1 /\ w = w2 <| raft ::= fun r => r <| voted_for := vr_candidate_id v |> |>) \/
          (s' = -1 /\ w = w2)) as [[-> ->]|[-> ->]].
  { destruct (_ <? _); [|destruct (_ && _)]; try (apply bind_ok in Hdec as (? & ? & [= _ <-] & Hdec));
      injection Hdec as <- <-; auto. }
  - cbn. split_and!; auto 6.
  - cbn. split_and!; auto. right. split; [lia|done].
Qed.

Theorem Raft_handle_vote_request_refines addr v w w' pend :
  Raft_handle_vote_request addr v w = Ok (tt, w') ->
  refines n own w pend
    (Some (MVote (vr_candidate_id v) (id_of (config (raft w)) addr) (vr_term v))) w' pend.
Proof.
  unfold Raft_handle_vote_request.
  intros (? & w1 & Hacq & H)%bind_ok. apply bind_ok in H as (? & ? & [= <- <-] & H).
  apply bind_ok in H as (? & w2 & Hf & H). apply follow_save_ok in Hf as [Hb Hdur].
  destruct (calm_view _ _ (acquire_calm _ _ _ Hacq)) as (_ & _ & _ & _ & _ & _ & Hi1 & Ha1).
  pose proof (request_prefix _ _ _ _ _ Hacq Hb) as (Hs & Ho & Hi & Hm & Hv).
  apply bind_ok in H as (r & ? & [= <- <-] & H).
  apply bind_ok in H as (success & w3 & Hvote & H).
  apply vote_ok in Hvote as (Hs3 & Ho3 & Ht3 & Hst3 & Hn3 & Hi3 & Hcase).
  apply bind_ok in H as (? & w4 & ->%send_ok & Hrel).
  apply release_calm, calm_view in Hrel as (Hs' & Ht' & Hv' & Hst' & Hn' & Ho' & Hi' & Ha').
  change (img (w3 <| out ::= _ |>)) with (img w3) in Hi'. cbn in Ho', Ht', Hv', Hst', Hn'.
  assert (saved (raft w') = saved (raft w3)) as Hsv.
  { destruct Hs' as (_ & Hc & _). unfold saved. cbn in Hc. congruence. }
  assert (durable (anode_of w pend) (anode_of w' pend)) as Hd.
  { rewrite <- Ha1. destruct Hi3 as [Hi3|[Hi3 Hv3]].
    - apply durable_saved. congruence.
    - specialize (Hdur pend). destruct Hdur as [Hdur|Hdur]; [left|right]; cbn in *;
        rewrite Hi', Hi3, Ht', Hv', Ht3, Hv3; done. }
  split; [eapply stable_trans; [|exact Hs']; by eapply stable_trans|]. split.
  { unfold img_kept in *. rewrite Hi', Hsv. destruct Hi3 as [Hi3|[-> Hv3]]; [by right|].
    destruct Hi as [->| ->]; [by left|right]. unfold saved.
    destruct Hs3 as (_ & Hc & _). congruence. }
  eexists [_]. rewrite Ho', Ho3, Ho. split; [done|]. cbn [fmap list_fmap abs_packet].
  specialize (Hv pend) as Hv2. destruct Hv2 as (Vt & Vv & Vr & Vn). cbn in Vt, Vv, Vr, Vn. cbn.
  destruct Hcase as [(-> & Hct & Hvf & Hcv)|(Hle & Hvf)].
  - rewrite Hct. apply nstep_vote_grant; cbn; try congruence.
  - replace (current_term (raft w2)) with (a_term (anode_of w' pend)) by (cbn; congruence).
    apply nstep_vote_refuse; try done. unfold same_view. cbn. split_and!; congruence.
Qed.

(** ** Append requests *)

Lemma append_refused_read a w b w' :
  append_refused a w = Ok (b, w') -> w' = w /\ (b = false -> current_term (raft w) <= ar_term a).
Proof.
  unfold append_refused, orM. intros (r & ? & [= <- <-] & H)%bind_ok.
  destruct (Z.ltb_spec (ar_term a) (current_term (raft w))).
  { injection H as <- <-. done. }
  case_match; [injection H as <- <-; done|].
  apply bind_ok in H as (t & ? & ->%get_log_term_read & [= _ <-]). done.
Qed.

(** Both accepting branches: a follower, and then nothing in view. *)
Lemma accept_ok (m : M world unit) w b w' :
  keeps (files_dir (raft w)) m ->
  (rmod (fun r => r <| state := FOLLOWER |>);; m) w = Ok (b, w') ->
  stable w w' /\ out w' = out w /\ current_term (raft w') = current_term (raft w) /\
  voted_for (raft w') = voted_for (raft w) /\ state (raft w') = FOLLOWER.
Proof.
  intros Hk (? & w1 & [= _ <-] & H)%bind_ok.
  apply Hk, quiet_view in H as (Hs & Ht & Hv & Hst & _ & Ho & _); [|done].
  unfold stable in *. cbn in *. tauto.
Qed.

Lemma keeps_append_heartbeat dir a :
  keeps dir (c ← rget commit_index;
             when (c <? ar_leader_commit a) (Raft_commit_update (ar_leader_commit a))).
Proof. keeps. Qed.

Lemma keeps_append_store dir a :
  keeps dir (index ← int_of (ar_prev_log_index a + 1);
    n ← rget log_count;
    conflict ← andM (index <? n)
                 (t ← Raft_get_log_term index;
                  mret (bool_decide (t <> le_term (ar_entry a))));
    (if (conflict : bool) then
       m ← int_of (index + 1); rmod (fun r => r <| log_count := m |>)
     else when (n =? index)
       (m ← int_of (n + 1); rmod (fun r => r <| log_count := m |>)));;
    r ← rself;
    log_store (Raft_get_log r index) (ar_entry a);;
    c ← rget commit_index;
    when (c <? ar_leader_commit a)
      (Raft_commit_update (if index <? ar_leader_commit a then index else ar_leader_commit a))).
Proof. keeps. Qed.

Theorem Raft_handle_append_request_refines addr a w w' pend :
  Raft_handle_append_request addr a w = Ok (tt, w') ->
  refines n own w pend (Some (MLead (id_of (config (raft w)) addr) (ar_term a))) w' pend.
Proof.
  unfold Raft_handle_append_request.
  intros (? & w1 & Hacq & H)%bind_ok. apply bind_ok in H as (? & ? & [= <- <-] & H).
  apply bind_ok in H as (? & w2 & Hb%follow_ok & H).
  pose proof (request_prefix _ _ _ _ _ Hacq Hb) as (Hs & Ho & _ & Hm & Hv).
  apply bind_ok in H as (r & ? & [= <- <-] & H).
  apply bind_ok in H as (b & ? & [-> Hb']%append_refused_read & H).
  apply bind_ok in H as (s & w3 & Hmid & H).
  apply bind_ok in H as (? & w4 & Hsave & H). apply bind_ok in H as (? & w5 & Hsend & Hrel).
  destruct (reply_ok _ _ _ _ _ _ _ _ _ Hsave Hsend Hrel) as (Hs' & Hi' & Ho' & Hv').
  destruct (Hv pend) as (Vt & Vv & Vr & Vn). destruct (Hv' pend) as (Wt & Wv & Wr & Wn). cbn in *.
  assert ((w3 = w2 /\ s = 0) \/
          (s = 1 /\ current_term (raft w2) <= ar_term a /\ stable w2 w3 /\ out w3 = out w2 /\
           current_term (raft w3) = current_term (raft w2) /\
           voted_for (raft w3) = voted_for (raft w2) /\ state (raft w3) = FOLLOWER)) as Hcase.
  { destruct b; [injection Hmid as <- <-; auto|right]. specialize (Hb' eq_refl).
    destruct (ar_entries_n a =? 0); apply bind_ok in Hmid as (? & ? & Hacc & [= <- <-]);
      (apply accept_ok in Hacc; [|apply keeps_append_heartbeat || apply keeps_append_store]);
      tauto. }
  assert (stable w2 w3 /\ out w3 = out w2) as [Hs3 Ho3].
  { destruct Hcase as [[-> _]|(_ & _ & ? & ? & _)]; done. }
  split; [eapply stable_trans; [|exact Hs']; by eapply stable_trans|]. split; [by right|].
  eexists [_]. rewrite Ho', Ho3, Ho. split; [done|]. cbn [fmap list_fmap abs_packet]. cbn.
  destruct Hcase as [[-> ->]|(-> & Hle & _ & _ & Ht & Hvf & Hst)].
  - rewrite <- Wt. apply (nstep_lead_refuse _ _ (anode_of w' pend)).
    + unfold same_view. cbn. split_and!; congruence.
    + by apply durable_saved.
    + done.
  - replace (current_term (raft w2)) with (ar_term a) by lia.
    apply nstep_lead_accept; try done; cbn; try congruence; try lia.
    + left. congruence.
    + by apply durable_saved.
Qed.

(** ** Snapshot packets *)

Lemma keeps_install_done dir q : keeps dir (install_done q).
Proof. unfold install_done. keeps. Qed.

Lemma keeps_install_chunk dir q : keeps dir (install_chunk q).
Proof. unfold install_chunk. keeps. Qed.

Lemma durable_step w w2 w' pend :
  durable (anode_of w pend) (anode_of w2 pend) -> img_kept w2 w' ->
  current_term (raft w') = current_term (raft w2) ->
  voted_for (raft w') = voted_for (raft w2) ->
  durable (anode_of w pend) (anode_of w' pend).
Proof.
  intros Hd [Hi|Hi] Ht Hv; [|by apply durable_saved].
  destruct Hd as [Hd|Hd]; [left|right]; cbn in *; rewrite Hi, Ht, Hv; done.
Qed.

Theorem Raft_handle_install_snapshot_request_refines addr q w w' pend :
  Raft_handle_install_snapshot_request addr q w = Ok (tt, w') ->
  refines n own w pend (Some (MLead (id_of (config (raft w)) addr) (ir_term q))) w' pend.
Proof.
  unfold Raft_handle_install_snapshot_request.
  intros (? & w1 & Hacq & H)%bind_ok. apply bind_ok in H as (? & ? & [= <- <-] & H).
  apply bind_ok in H as (? & w2 & Hf & H). apply follow_save_ok in Hf as [Hb Hdur].
  destruct (calm_view _ _ (acquire_calm _ _ _ Hacq)) as (_ & _ & _ & _ & _ & _ & _ & Ha1).
  pose proof (request_prefix _ _ _ _ _ Hacq Hb) as (Hs & Ho & Hi & Hm & Hv).
  specialize (Hdur pend). rewrite Ha1 in Hdur.
  apply bind_ok in H as (r & ? & [= <- <-] & H).
  apply bind_ok in H as (res & w3 & Hmid & H).
  apply bind_ok in H as (? & w4 & ->%send_ok & H).
  apply bind_ok in H as (? & w5 & Hrel & Hrem).
  assert (quiet w2 w3 /\ ((res.2 = 0) \/ (res.2 = 1 /\ current_term (raft w2) <= ir_term q)))
    as [Hq Hcase].
  { destruct (install_refused (raft w2) q) eqn:Href;
      [injection Hmid as <- <-; split; [reflexivity|by left]|].
    unfold install_refused in Href. apply orb_false_iff in Href as [[Hle _]%orb_false_iff _].
    destruct (negb _); apply bind_ok in Hmid as (? & ? & Hacc & [= <- <-]).
    - apply (keeps_install_done _ _ _ _ _ eq_refl) in Hacc. split; [done|right]. cbn. lia.
    - apply (keeps_install_chunk _ _ _ _ _ eq_refl) in Hacc. split; [done|right]. cbn. lia. }
  destruct (quiet_view _ _ Hq) as (Hs3 & Ht3 & Hv3 & Hst3 & Hn3 & Ho3 & Hi3).
  apply release_calm, calm_view in Hrel as (Hs5 & Ht5 & Hv5 & Hst5 & Hn5 & Ho5 & Hi5 & _).
  change (img (w3 <| out ::= _ |>)) with (img w3) in Hi5. unfold stable in Hs5. cbn in *.
  assert (keeps (files_dir (raft w5)) (if decide (res.1 <> 0) then Raft_remove_snapshot res.1 else skip))
    as Hk by keeps.
  destruct (quiet_view _ _ (Hk _ _ _ eq_refl Hrem)) as (Hs6 & Ht6 & Hv6 & Hst6 & Hn6 & Ho6 & Hi6).
  assert (img_kept w2 w') as Hi'.
  { assert (saved (raft w') = saved (raft w3)) as E.
    { unfold saved. destruct Hs6 as (_ & ? & _). destruct Hs5 as (_ & ? & _). congruence. }
    unfold img_kept in *. rewrite E in *. rewrite Hi5 in Hi6. destruct Hi6 as [->|?]; auto. }
  assert (stable w2 w') as Hs' by (unfold stable in *; intuition congruence).
  split; [by eapply stable_trans|]. split.
  { eapply img_kept_trans; [exact Hi|exact Hi'|]. unfold saved.
    destruct Hs' as (_ & ? & _). congruence. }
  eexists [_]. rewrite Ho6, Ho5, Ho3, Ho. split; [done|]. cbn [fmap list_fmap abs_packet]. cbn.
  assert (durable (anode_of w pend) (anode_of w' pend)) as Hd
    by (eapply durable_step; eauto; congruence).
  destruct (Hv pend) as (Vt & Vv & Vr & Vn). cbn in Vt, Vv, Vr, Vn.
  assert (same_view (anode_of w' pend) (bump (ir_term q) (anode_of w pend))) as Hsv.
  { unfold same_view. cbn. split_and!; congruence. }
  destruct Hcase as [->|[-> Hle]].
  - replace (current_term (raft w2)) with (a_term (anode_of w' pend)) by (cbn; congruence).
    by apply nstep_lead_refuse.
  - replace (current_term (raft w2)) with (ir_term q) by lia.
    apply nstep_lead_accept; try done; cbn; try congruence; try lia. by right.
Qed.

(** ** Responses *)

Lemma keeps_append_response dir p : keeps dir (Raft_handle_append_response p).
Proof. unfold Raft_handle_append_response, count_replica, idx_add, idx_set. keeps. Qed.

Lemma keeps_install_response dir p : keeps dir (Raft_handle_install_response p).
Proof. unfold Raft_handle_install_response, idx_add, idx_set. keeps. Qed.

(** One more command of a run that has kept the view since [w0]. *)
Lemma advance {B} (m : M world B) (k : B -> M world unit) w0 w a w' :
  quiet w0 w -> keeps (files_dir (raft w0)) m -> (m ≫= k) w = Ok (a, w') ->
  exists b w1, quiet w0 w1 /\ m w = Ok (b, w1) /\ k b w1 = Ok (a, w').
Proof.
  intros Hq Hm (b & w1 & H1 & H2)%bind_ok. exists b, w1. split; [|done].
  etrans; [exact Hq|]. eapply Hm; [|exact H1]. exact (vquiet_dir _ _ _ _ _ Hq).
Qed.

Lemma spawn_ok l n0 w a w' :
  for_ l (fun s => if decide (server_id s = n0) then skip
                   else pthread_create (Raft_leader_thread_start (server_id s) (raft_socket s))) w
    = Ok (a, w') ->
  raft w' = raft w /\ disk w' = disk w /\ out w' = out w.
Proof.
  revert w. induction l as [|s l IH]; intros w; [by intros [= _ <-]|]. cbn [for_].
  intros (? & w1 & H1 & (-> & -> & ->)%IH)%bind_ok. case_decide; by injection H1 as _ <-.
Qed.

(** Becoming the leader changes the role and nothing else in view, and the
    disk holds the state. *)
Lemma convert_to_leader_ok w a w' :
  Raft_convert_to_leader w = Ok (a, w') ->
  stable w w' /\ current_term (raft w') = current_term (raft w) /\
  voted_for (raft w') = voted_for (raft w) /\ nvoted (raft w') = nvoted (raft w) /\
  state (raft w') = LEADER /\ out w' = out w /\ img w' = Some (saved (raft w')).
Proof.
  unfold Raft_convert_to_leader. intros H.
  assert (quiet w w) as Hq by reflexivity.
  do 9 (apply (advance _ _ w) in H as (? & ? & ? & _ & H);
        [|assumption|unfold idx_set; keeps]).
  apply (advance _ _ w) in H as (? & w1 & Hq1 & Hsave & H); [|assumption|keeps].
  apply save_ok in Hsave as (Hr & _ & _ & Hi). rewrite <- Hr in Hi.
  destruct (quiet_view _ _ Hq1) as (Hs & Ht & Hv & _ & Hn & Ho & _).
  apply bind_ok in H as (? & w2 & [= _ <-] & H).
  apply bind_ok in H as (? & w3 & Hrel%release_calm%calm_view & H).
  destruct Hrel as (Hs3 & Ht3 & Hv3 & Hst3 & Hn3 & Ho3 & Hi3 & _).
  apply bind_ok in H as (? & ? & [= <- <-] & H). apply spawn_ok in H as (Er & Ed & Eo).
  assert (img w' = Some (saved (raft w1))) as Himg.
  { unfold img, image in *. rewrite Er, Ed. cbn in Hi3. rewrite Hi3. cbn. by rewrite Hi. }
  unfold stable, saved in *. rewrite Er, Eo. cbn in *.
  destruct Hs as (? & ? & ?), Hs3 as (? & ? & ?).
  split_and!; congruence.
Qed.

(** A run that keeps the view after the lock was taken. *)
Lemma refines_after_acquire {A} (m : M world A) w a w1 b w' pend inm :
  raft_lock_acquire w = Ok (a, w1) -> keeps (files_dir (raft w1)) m -> m w1 = Ok (b, w') ->
  refines n own w pend inm w' pend.
Proof.
  intros Hacq Hk Hm. apply (refines_keeps n own (raft_lock_acquire;; m) w b); [|].
  - apply keeps_bind; [apply keeps_lock_acquire|intros _].
    apply acquire_calm, calm_view in Hacq as ((_ & _ & Hd) & _). by rewrite <- Hd.
  - rewrite run_bind, Hacq. exact Hm.
Qed.

Lemma vote_response_ok p w b w' :
  Raft_handle_vote_response p w = Ok (b, w') ->
  stable w w' /\ current_term (raft w') = current_term (raft w) /\
  voted_for (raft w') = voted_for (raft w) /\ out w' = out w /\ img_kept w w' /\
  ((rp_success p <= 0 /\ quiet w w') \/
   (0 < rp_success p /\ nvoted (raft w') = nvoted (raft w) + 1 /\
    (state (raft w') = state (raft w) \/
     (state (raft w') = LEADER /\ N_SERVERS < nvoted (raft w') * 2)))).
Proof.
  unfold Raft_handle_vote_response. destruct (Z.leb_spec (rp_success p) 0).
  - intros H1. match type of H1 with ?m w = _ => assert (keeps (files_dir (raft w)) m) as Hk by keeps end.
    pose proof (Hk _ _ _ eq_refl H1) as Hq.
    destruct (quiet_view _ _ Hq) as (? & ? & ? & ? & ? & ? & ?). split_and!; auto.
  - intros (k & ? & [= <- <-] & H1)%bind_ok. apply bind_ok in H1 as (k' & w1 & Hk & H1).
    unfold int_of in Hk. destruct (int_ok _); [|done]. injection Hk as <- <-.
    apply bind_ok in H1 as (? & w2 & [= _ <-] & H1).
    destruct (Z.ltb_spec N_SERVERS ((nvoted (raft w) + 1) * 2)).
    + apply bind_ok in H1 as (? & w3 & Hl%convert_to_leader_ok & [= _ <-]).
      destruct Hl as (Hs & Ht & Hv & Hn & Hst & Ho & Hi). cbn in *.
      split_and!; try done; [by right|]. right. split_and!; [done..|]. right. split; [done|lia].
    + injection H1 as _ <-. cbn. split_and!; try done; [by left|]. right. auto.
Qed.

Lemma keeps_leader_response dir r p :
  keeps dir ((if decide (state r = LEADER) then
         request_id ← idx_get last_request_id (rp_id p);
         when (rp_request_id p =? request_id)
           (next ← idx_get next_index (rp_id p);
            if next <? start_log_index r then Raft_handle_install_response p
            else Raft_handle_append_response p)
       else skip);;
      raft_lock_release).
Proof. keeps; auto using keeps_append_response, keeps_install_response. Qed.

(** An answer of a newer term. *)
Lemma response_newer p w a w1 w' pend :
  raft_lock_acquire w = Ok (a, w1) -> current_term (raft w1) < rp_term p ->
  (Raft_convert_to_follower (rp_term p);; Raft_save_state;; raft_lock_release) w1 = Ok (tt, w') ->
  refines n own w pend (Some (MResp n (rp_term p) (rp_success p))) w' pend.
Proof.
  intros Hacq Hlt H.
  destruct (calm_view _ _ (acquire_calm _ _ _ Hacq)) as (Hs1 & Ht1 & Hv1 & Hst1 & Hn1 & Ho1 & Hi1 & Ha1).
  apply bind_ok in H as (? & w2 & Hc & H). apply bind_ok in H as ([] & w3 & Hsave & Hrel).
  assert (when (current_term (raft w1) <? rp_term p)
            (Raft_convert_to_follower (rp_term p);; Raft_save_state) w1 = Ok (tt, w3)) as Hf.
  { unfold when. destruct (Z.ltb_spec (current_term (raft w1)) (rp_term p)); [|lia].
    by rewrite run_bind, Hc. }
  apply follow_save_ok in Hf as [Hb Hdur]. specialize (Hdur pend). rewrite Ha1 in Hdur.
  pose proof (request_prefix _ _ _ _ _ Hacq Hb) as (Hs & Ho & Hi & Hm & Hv).
  apply release_calm, calm_view in Hrel as (Hs3 & Ht3 & Hv3 & Hst3 & Hn3 & Ho3 & Hi3 & Ha3).
  split; [by eapply stable_trans|]. split.
  { eapply img_kept_trans; [exact Hi|by left|]. unfold saved.
    destruct Hs3 as (_ & ? & _). congruence. }
  exists []. rewrite app_nil_r. split; [congruence|].
  apply nstep_resp_newer; cbn; rewrite ?Ha3; try done. lia.
Qed.

(** The answer of a voter. *)
Lemma response_vote p w w2 b w3 w' pend :
  quiet w w2 -> rp_term p = current_term (raft w) -> state (raft w) = CANDIDATE ->
  Raft_handle_vote_response p w2 = Ok (b, w3) -> calm w3 w' ->
  refines n own w pend (Some (MResp n (rp_term p) (rp_success p))) w' pend.
Proof.
  intros Hq Hterm Hcand Hvr%vote_response_ok Hcalm.
  destruct (quiet_view _ _ Hq) as (Hs2 & Ht2 & Hv2 & Hst2 & Hn2 & Ho2 & Hi2).
  destruct Hvr as (Hs3 & Ht3 & Hv3 & Ho3 & Hi3 & Hcase).
  destruct (calm_view _ _ Hcalm) as (Hs4 & Ht4 & Hv4 & Hst4 & Hn4 & Ho4 & Hi4 & Ha4).
  assert (stable w w') as Hs by (unfold stable in *; intuition congruence).
  assert (saved (raft w2) = saved (raft w3) /\ saved (raft w3) = saved (raft w')) as [Es Es'].
  { unfold saved. destruct Hs3 as (_ & ? & _). destruct Hs4 as (_ & ? & _). split; congruence. }
  assert (img_kept w w') as Hi.
  { eapply img_kept_trans; [exact Hi2| |congruence]. unfold img_kept in *.
    rewrite Hi4, <- Es'. done. }
  split; [done|]. split; [done|]. exists []. rewrite app_nil_r. split; [congruence|].
  assert (durable (anode_of w pend) (anode_of w' pend)) as Hd
    by (apply durable_kept; congruence || done).
  destruct Hcase as [[Hle0 Hq3]|(Hpos & Hn3 & Hst3)].
  - apply nstep_quiet.
    + destruct (quiet_view _ _ Hq3) as (_ & _ & _ & ? & ? & _ & _).
      unfold same_view. cbn. split_and!; congruence.
    + done.
    + intros t Hin. by left.
    + intros m' Hm. by apply not_elem_of_nil in Hm.
  - rewrite Hterm. change (current_term (raft w)) with (a_term (anode_of w pend)).
    apply nstep_resp_count; cbn; try done; try congruence.
Qed.

Theorem Raft_handle_response_refines p w w' pend :
  Raft_handle_response p w = Ok (tt, w') ->
  refines n own w pend (Some (MResp n (rp_term p) (rp_success p))) w' pend.
Proof.
  unfold Raft_handle_response. intros (? & w1 & Hacq & H)%bind_ok.
  destruct (calm_view _ _ (acquire_calm _ _ _ Hacq)) as (Hs1 & Ht1 & Hv1 & Hst1 & Hn1 & Ho1 & Hi1 & Ha1).
  apply bind_ok in H as (r & ? & [= <- <-] & H).
  destruct (Z.ltb_spec (rp_term p) (current_term (raft w1))) as [|Hge].
  { eapply refines_after_acquire; [exact Hacq| |exact H]. keeps. }
  destruct (Z.ltb_spec (current_term (raft w1)) (rp_term p)) as [Hlt|Hle].
  { by eapply response_newer. }
  apply bind_ok in H as (? & w2 & Hset & H).
  assert (keeps (files_dir (raft w1)) (idx_set last_request_response (rp_id p) (rp_success p)))
    as Hkset by (unfold idx_set; keeps).
  pose proof (Hkset _ _ _ eq_refl Hset) as Hq2.
  destruct (decide (state (raft w1) = CANDIDATE)) as [Hcand|Hcand].
  - apply bind_ok in H as (b & w3 & Hvr & H). eapply (response_vote p w w2 b w3); [|lia|congruence|exact Hvr|].
    + etrans; [|exact Hq2]. destruct (acquire_calm _ _ _ Hacq) as (? & ? & Hi0).
      unfold vquiet. split_and!; [done..|left; exact Hi0].
    + destruct b; [by injection H as <-|by apply release_calm in H].
  - eapply (refines_after_acquire (idx_set last_request_response (rp_id p) (rp_success p);; _));
      [exact Hacq| |].
    + apply keeps_bind; [exact Hkset|intros _; apply keeps_leader_response].
    + rewrite run_bind, Hset. exact H.
Qed.
End requests.

(** * Threads *)

(** [m], run where the view is that of [r0], keeps the view, sends packets in
    [P] only and answers in [Q]. *)
Definition talks {A} (r0 : raft_state) (P : raft_packet -> Prop) (Q : A -> Prop) (m : M world A) : Prop :=
  forall w a w', eview (raft w) = eview r0 -> m w = Ok (a, w') ->
    Q a /\ eview (raft w') = eview r0 /\ img_kept w w' /\
    exists sent, out w' = out w ++ sent /\ Forall (fun x => P x.2) sent.

Section talks.
Context (r0 : raft_state) (P : raft_packet -> Prop).

Lemma talks_bind {A B} (Q1 : A -> Prop) (Q2 : B -> Prop) (m : M world A) (k : A -> M world B) :
  talks r0 P Q1 m -> (forall a, Q1 a -> talks r0 P Q2 (k a)) -> talks r0 P Q2 (m ≫= k).
Proof.
  intros Hm Hk w b w' Hv (a & w1 & H1 & H2)%bind_ok.
  destruct (Hm _ _ _ Hv H1) as (Ha & Hv1 & Hi1 & s1 & Ho1 & Hs1).
  destruct (Hk a Ha _ _ _ Hv1 H2) as (Hb & Hv2 & Hi2 & s2 & Ho2 & Hs2).
  split; [done|]. split; [done|]. split.
  { eapply img_kept_trans; [exact Hi1|exact Hi2|]. unfold saved, eview in *. congruence. }
  exists (s1 ++ s2). rewrite Ho2, Ho1, app_assoc. split; [done|]. by apply Forall_app.
Qed.

Lemma talks_keeps {A} (m : M world A) : keeps (files_dir r0) m -> talks r0 P (fun _ => True) m.
Proof.
  intros Hk w a w' Hv Hm.
  assert (files_dir (raft w) = files_dir r0) as Hd by (unfold eview in Hv; congruence).
  destruct (Hk _ _ _ Hd Hm) as (Hv' & Ho & Hi). split; [done|]. split; [congruence|].
  split; [exact Hi|]. exists []. by rewrite Ho, app_nil_r.
Qed.

Lemma talks_step {A B} (Q : B -> Prop) (m : M world A) (k : A -> M world B) :
  keeps (files_dir r0) m -> (forall a, talks r0 P Q (k a)) -> talks r0 P Q (m ≫= k).
Proof. intros Hm Hk. eapply talks_bind; [by apply talks_keeps|]. intros a _. apply Hk. Qed.

Lemma talks_rself {B} (Q : B -> Prop) (k : raft_state -> M world B) :
  (forall r, eview r = eview r0 -> talks r0 P Q (k r)) -> talks r0 P Q (rself ≫= k).
Proof. intros Hk w b w' Hv (r & w1 & [= <- <-] & H2)%bind_ok. eapply Hk; eauto. Qed.

Lemma talks_ret {A} (Q : A -> Prop) (a : A) : Q a -> talks r0 P Q (mret a).
Proof.
  intros Ha w b w' Hv [= <- <-]. split_and!; auto using img_kept_refl.
  exists []. by rewrite app_nil_r.
Qed.

Lemma talks_throw {A} (Q : A -> Prop) f : talks r0 P Q (throw f).
Proof. done. Qed.

Lemma talks_send dst p : P p -> talks r0 P (fun _ => True) (UDP_send dst p).
Proof.
  intros Hp w b w' Hv [= _ <-]. split_and!; [done|exact Hv|by left|]. exists [(dst, p)]. auto.
Qed.

Lemma talks_for {A} (l : list A) body :
  (forall x, talks r0 P (fun _ => True) (body x)) -> talks r0 P (fun _ => True) (for_ l body).
Proof.
  intros Hb. induction l as [|x l IH]; [by apply talks_ret|].
  eapply talks_bind; [apply Hb|]. intros _ _. exact IH.
Qed.

(** A segment that talks is a quiet step, when what it says may be said. *)
Lemma refines_talks {A} n own (Q : A -> Prop) (m : M world A) w a w' pend pend' :
  r0 = raft w -> talks r0 P Q m -> m w = Ok (a, w') ->
  (forall dst p, P p -> exists t, abs_packet (config r0) own dst p = MLead n t /\
      (past t (anode_of w pend) \/ t ∈ pend)) ->
  (Q a -> forall t, t ∈ pend' -> t ∈ pend \/ past t (anode_of w pend)) ->
  refines n own w pend None w' pend'.
Proof.
  intros -> Ht Hm HP Hpend.
  destruct (Ht w a w' eq_refl Hm) as (HQ & Hv & Hi & sent & Ho & Hs).
  assert (forall t, past t (anode_of w pend) -> past t (anode_of w' pend')) as Hpast.
  { unfold past, eview in *. cbn. intros t Hp. by replace (current_term (raft w'))
      with (current_term (raft w)) by congruence; replace (state (raft w'))
      with (state (raft w)) by congruence. }
  assert (stable w w') as Hst by (unfold stable, eview in *; split_and!; congruence).
  split; [done|]. split; [done|]. exists sent. split; [done|]. apply nstep_quiet.
  - unfold same_view, eview in *. cbn. split_and!; congruence.
  - unfold eview in *. apply durable_kept; congruence || done.
  - intros t Hin. destruct (Hpend HQ t Hin); [by left|right; auto].
  - intros m' Hm'. apply list_elem_of_fmap in Hm' as ([dst p] & -> & Hin).
    rewrite list.Forall_forall in Hs. apply Hs in Hin. cbn in Hin.
    destruct (HP dst p Hin) as (t & -> & Hc). exists t. split; [done|].
    destruct Hc; auto.
Qed.
End talks.

(** ** The election thread *)

Section threads.
Context `{CH : CommitHandler} `{!CommitHandlerOk CH}.
Context (n : Z) (own : sockaddr_in).

Definition is_vote (t : Z) (p : raft_packet) : Prop :=
  match p with VOTE v => vr_term v = t /\ vr_candidate_id v = n | _ => False end.

Lemma talks_vote_requests r0 :
  raft_id r0 = n ->
  talks r0 (is_vote (current_term r0)) (fun _ : unit => True)
    (r ← rself;
     last_term ← Raft_get_log_term (log_count r - 1);
     for_ (config r) (fun s =>
       if decide (server_id s = raft_id r) then skip
       else UDP_send (raft_socket s) (VOTE {|
              vr_term := current_term r; vr_candidate_id := raft_id r;
              vr_last_log_index := log_count r - 1; vr_last_log_term := last_term |}));;
     raft_lock_release).
Proof.
  intros Hid. apply talks_rself. intros r Hr.
  apply talks_step; [keeps|intros lt]. eapply talks_bind; [|intros _ _; apply talks_keeps; keeps].
  apply talks_for. intros s. case_decide; [by apply talks_keeps, keeps_skip|].
  apply talks_send. cbn. unfold eview in Hr. split; congruence.
Qed.

Theorem Raft_start_election_refines w w' pend :
  raft_id (raft w) = n -> id_of (config (raft w)) own = n ->
  Raft_start_election w = Ok (tt, w') -> refines n own w pend None w' pend.
Proof.
  intros Hid Hown. unfold Raft_start_election.
  intros (t & ? & [= <- <-] & H)%bind_ok. apply bind_ok in H as (t' & w1 & Ht & H).
  unfold int_of in Ht. destruct (int_ok _); [|done]. injection Ht as <- <-.
  apply bind_ok in H as (? & w2 & [= _ <-] & H).
  apply bind_ok in H as (? & w3 & Hsave%save_ok & H).
  destruct Hsave as (Hr & Ho & _ & Hi). cbn in Hr, Ho, Hi.
  assert (raft_id (raft w3) = n) as Hid3 by (rewrite Hr; exact Hid).
  destruct (talks_vote_requests (raft w3) Hid3 w3 tt w' eq_refl H)
    as (_ & Hv & Hi' & sent & Ho' & Hs).
  assert (img w' = Some (saved (raft w'))) as Himg.
  { assert (saved (raft w') = saved (raft w3)) as E by (unfold saved, eview in *; congruence).
    rewrite E. unfold img_kept, img in *. rewrite Hi, <- Hr, E in Hi'. cbn in Hi'. tauto. }
  assert (stable w w') as Hst.
  { unfold stable. unfold eview in Hv. rewrite Hr in Hv. cbn in Hv. split_and!; congruence. }
  split; [done|]. split; [by right|]. exists sent. rewrite Ho', Ho. split; [done|].
  unfold eview in Hv. rewrite Hr in Hv. cbn in Hv.
  assert (current_term (raft w') = current_term (raft w) + 1) as Hct by congruence.
  apply nstep_candidate; cbn; try congruence.
  - by apply durable_saved.
  - intros m Hm. apply list_elem_of_fmap in Hm as ([dst p] & -> & Hin).
    rewrite list.Forall_forall in Hs. apply Hs in Hin. cbn in Hin.
    destruct p; try done. destruct Hin as [Hvt Hvc]. cbn. rewrite Hown, Hvt, Hvc, Hr. cbn.
    by rewrite Hct.
Qed.

Lemma keeps_poll_election dir a b : keeps dir (Raft_poll_election a b).
Proof. unfold Raft_poll_election. keeps. Qed.

(** ** The leader thread *)

(** The term of the transfer a leader thread has under way. *)
Definition pend_of (pc : leader_pc) : list Z :=
  match pc with Snapshot_send s => [ir_term (ss_packet s)] | _ => [] end.

Section leader_thread.
Context (r0 : raft_state) (pend : list Z).

(** A term the node may still speak for as a leader. *)
Definition ok_term (t : Z) : Prop :=
  (t = current_term r0 /\ state r0 <> CANDIDATE) \/ t ∈ pend.

Definition is_lead (p : raft_packet) : Prop :=
  match p with
  | APPEND a => ok_term (ar_term a)
  | INSTALL_SNAPSHOT q => ok_term (ir_term q)
  | _ => False
  end.

Definition ok_pc (pc : leader_pc) : Prop := forall t, t ∈ pend_of pc -> ok_term t.

Lemma ok_pc_nil pc : pend_of pc = [] -> ok_pc pc.
Proof. intros E t. rewrite E. by intros ?%not_elem_of_nil. Qed.

Lemma talks_release_ret pc : ok_pc pc -> talks r0 is_lead ok_pc (raft_lock_release;; mret pc).
Proof. intros H. apply talks_step; [keeps|]. intros _. by apply talks_ret. Qed.

Lemma talks_transmit addr s :
  ok_term (ir_term (ss_packet s)) -> talks r0 is_lead ok_pc (snapshot_transmit addr s).
Proof.
  intros Ht. unfold snapshot_transmit. eapply talks_bind; [by apply talks_send|].
  intros _ _. apply talks_release_ret. by intros t ->%list_elem_of_singleton.
Qed.

Lemma talks_next f addr s :
  ok_term (ir_term (ss_packet s)) -> talks r0 is_lead ok_pc (snapshot_next f addr s).
Proof.
  intros Ht. unfold snapshot_next. apply talks_step; [keeps|]. intros res.
  apply talks_step; [keeps|]. intros id. cbv zeta.
  destruct res as [[[it fname] chunk]|]; [|by apply talks_transmit].
  apply talks_step; [keeps|]. intros ind. by apply talks_transmit.
Qed.

Lemma talks_start u f addr :
  state r0 <> CANDIDATE -> talks r0 is_lead ok_pc (snapshot_start u f addr).
Proof.
  intros Hst. unfold snapshot_start. apply talks_step; [keeps|]. intros busy.
  case_decide; [by apply talks_release_ret, ok_pc_nil|].
  apply talks_step; [keeps|]. intros k. apply talks_step; [keeps|]. intros k'.
  apply talks_step; [keeps|]. intros _. apply talks_rself. intros r Hr.
  apply talks_next. left. cbn. unfold eview in Hr. split; [congruence|done].
Qed.

Lemma talks_return : talks r0 is_lead ok_pc snapshot_return.
Proof.
  unfold snapshot_return. do 3 (apply talks_step; [keeps|]; intros ?).
  by apply talks_release_ret, ok_pc_nil.
Qed.

Lemma talks_resume f addr s :
  ok_term (ir_term (ss_packet s)) -> talks r0 is_lead ok_pc (snapshot_resume f addr s).
Proof.
  intros Ht. unfold snapshot_resume. apply talks_step; [keeps|]. intros id.
  case_decide; [by apply talks_transmit|]. apply talks_step; [keeps|]. intros ans.
  case_decide; [apply talks_return|]. case_decide; [by apply talks_next|].
  unfold idx_set. do 4 (apply talks_step; [keeps|]; intros ?). apply talks_return.
Qed.

Lemma talks_append_request u f addr :
  state r0 <> CANDIDATE ->
  talks r0 is_lead (fun _ => True) (Raft_send_append_entry_request u f addr).
Proof.
  intros Hst. unfold Raft_send_append_entry_request. apply talks_rself. intros r Hr.
  do 5 (apply talks_step; [keeps|]; intros ?). apply talks_send. left. cbn.
  unfold eview in Hr. split; [congruence|done].
Qed.

Lemma talks_rget_state {B} (Q : B -> Prop) (k : node_state -> M world B) :
  talks r0 is_lead Q (k (state r0)) -> talks r0 is_lead Q (rget state ≫= k).
Proof.
  intros Hk w b w' Hv (st & w1 & [= <- <-] & H)%bind_ok. eapply Hk; [done|].
  unfold eview in Hv. replace (state r0) with (state (raft w)) by congruence. exact H.
Qed.

Lemma talks_leader_thread ue us f addr pc :
  (pc = Snapshot_wait -> state r0 <> CANDIDATE) -> (forall t, t ∈ pend_of pc -> t ∈ pend) ->
  talks r0 is_lead ok_pc (Raft_leader_thread ue us f addr pc).
Proof.
  intros Hw Hp. destruct pc; cbn [Raft_leader_thread].
  - apply talks_step; [keeps|]. intros _. apply talks_rget_state.
    case_decide as Hst; [by apply talks_release_ret, ok_pc_nil|].
    assert (state r0 <> CANDIDATE) by (destruct (state r0); congruence || tauto).
    apply talks_step; [keeps|]. intros next. apply talks_step; [keeps|]. intros start.
    destruct (next <? start); [by apply talks_start|].
    eapply talks_bind; [by apply talks_append_request|]. intros _ _.
    by apply talks_release_ret, ok_pc_nil.
  - apply talks_step; [keeps|]. intros _. apply talks_start. by apply Hw.
  - apply talks_step; [keeps|]. intros _. apply talks_resume. right. apply Hp. cbn.
    by apply list_elem_of_singleton.
  - by apply talks_ret, ok_pc_nil.
Qed.
End leader_thread.

(** A leader thread speaks for a term in which its node will not be a
    candidate again, provided a thread that has waited for a snapshot does not
    find the node a candidate. *)
Theorem Raft_leader_thread_refines ue us f addr pc w pc' w' pend pend' :
  id_of (config (raft w)) own = n ->
  (pc = Snapshot_wait -> state (raft w) <> CANDIDATE) ->
  (forall t, t ∈ pend_of pc -> t ∈ pend) ->
  (forall t, t ∈ pend' -> t ∈ pend \/ t ∈ pend_of pc') ->
  Raft_leader_thread ue us f addr pc w = Ok (pc', w') -> refines n own w pend None w' pend'.
Proof.
  intros Hown Hw Hp Hp' H.
  assert (forall t, ok_term (raft w) pend t -> past t (anode_of w pend) \/ t ∈ pend) as Hok.
  { unfold ok_term, past. cbn. intros t [[-> ?]|?]; auto. }
  eapply (refines_talks (raft w)); [done| |exact H| |].
  - by apply (talks_leader_thread (raft w) pend).
  - intros dst p. destruct p; cbn; rewrite ?Hown; try done; eauto.
  - intros HQ t [?|Hin]%Hp'; [by left|]. destruct (Hok t (HQ t Hin)); auto.
Qed.
End threads.

(** * Everything else *)

Section rest.
Context `{CH : CommitHandler} `{!CommitHandlerOk CH}.
Context (n : Z) (own : sockaddr_in).

Lemma keeps_find_entry dir t i l : keeps dir (find_entry t i l).
Proof. induction l as [|j l IH]; cbn [find_entry]; keeps. Qed.

Lemma keeps_is_entry_committed dir t i : keeps dir (Raft_is_entry_committed t i).
Proof. unfold Raft_is_entry_committed. keeps. apply keeps_find_entry. Qed.

Lemma keeps_append_entry dir e : keeps dir (Raft_append_entry e).
Proof. unfold Raft_append_entry. keeps. Qed.

Lemma keeps_snapshot_begin dir k : keeps dir (Raft_create_snapshot_begin k).
Proof. unfold Raft_create_snapshot_begin. keeps. Qed.

Lemma keeps_snapshot_entry dir k l : keeps dir (snapshot_entry k l).
Proof. induction l as [|d l IH]; cbn [snapshot_entry]; keeps. Qed.

Lemma keeps_snapshot_build dir k : keeps dir (Raft_create_snapshot_build k).
Proof. unfold Raft_create_snapshot_build. keeps. apply keeps_snapshot_entry. Qed.

Lemma keeps_snapshot_end dir k p : keeps dir (Raft_create_snapshot_end k p).
Proof. unfold Raft_create_snapshot_end, shift_log. keeps. Qed.

Lemma keeps_listen_timeout dir b : keeps dir (Raft_RPC_listen_timeout b).
Proof. unfold Raft_RPC_listen_timeout, Raft_convert_to_candidate. keeps. Qed.

(** A restarted server takes its term and vote from its disk. *)
Theorem Raft_server_restore_refines dir sd w w' pend :
  files_dir (raft w) = dir -> (forall s, img w = Some s -> s.2 = config (raft w)) ->
  Raft_server_restore dir (raft_id (raft w)) sd w = Ok (tt, w') ->
  refines n own w pend None w' [].
Proof.
  intros Hdir Hcfg. unfold Raft_server_restore, Raft_load_state.
  intros (? & w1 & Hload & H)%bind_ok.
  apply bind_ok in Hload as (? & ? & [-> ->]%path_buf_ok & Hload).
  apply bind_ok in Hload as (d & ? & [= <- <-] & Hload).
  unfold fopen_r in Hload. destruct (files (disk w) !! state_file dir) as [c|] eqn:Ec; [|done].
  destruct (f_image c) as [r|] eqn:Er; [|done]. injection Hload as _ <-.
  assert (image w = Some r) as Himg by (unfold image; by rewrite Hdir, Ec).
  apply bind_ok in H as (id' & ? & [= <- <-] & H).
  apply bind_ok in H as (? & w2 & Hassert & H). cbn in Hassert.
  case_decide as Hid; [|done]. injection Hassert as _ <-.
  apply bind_ok in H as (? & w2 & [= _ <-] & H).
  apply bind_ok in H as (prev & ? & [= <- <-] & H).
  apply bind_ok in H as (start & ? & [= <- <-] & H).
  apply bind_ok in H as (c0 & w3 & Hc0 & H).
  unfold int_of in Hc0. destruct (int_ok _); [|done]. injection Hc0 as <- <-.
  apply bind_ok in H as (? & w4 & [= _ Hw4] & H).
  assert (quiet w4 w') as Hq.
  { match type of H with ?m w4 = _ => assert (keeps dir m) as Hk by keeps end.
    apply (Hk w4 tt w'); [by subst w4|exact H]. }
  assert (img w4 = Some (saved r)) as Himg4.
  { unfold img, image in *. subst w4. cbn. rewrite Hdir in Himg. by rewrite Himg. }
  destruct (quiet_view _ _ Hq) as (Hs & Ht & Hv & Hst & Hn & Ho & Hi).
  assert (config r = config (raft w)) as Hc by (apply (Hcfg (saved r)); unfold img; by rewrite Himg).
  assert (saved (raft w') = saved r) as Esv.
  { unfold saved. destruct Hs as (_ & ? & _). subst w4. cbn in *. congruence. }
  assert (img w' = Some (saved r)) as Himg'.
  { unfold img_kept in Hi. rewrite Esv, Himg4 in Hi. tauto. }
  unfold stable in *. subst w4. cbn in *. destruct Hs as (? & ? & ?).
  split; [unfold stable; split_and!; congruence|]. split; [right; congruence|].
  exists []. rewrite app_nil_r. split; [done|].
  apply (nstep_restart _ _ _ (current_term r) (voted_for r)); cbn; try done.
  - unfold img. by rewrite Himg.
  - by rewrite Himg'.
Qed.

(** A server started without a backup. *)
Lemma Raft_server_init_fresh cfg dir id sd w w' :
  files (disk w) !! state_file dir = None -> out w = [] ->
  Raft_server_init cfg dir id sd w = Ok (tt, w') ->
  fresh_node (anode_of w' []) /\ raft_id (raft w') = id /\ config (raft w') = cfg /\
  files_dir (raft w') = dir /\ out w' = [] /\
  (forall s, img w' = Some s -> s.2 = cfg).
Proof.
  intros Hf Ho. unfold Raft_server_init. intros (? & w1 & [= _ Hw1] & H)%bind_ok.
  assert (quiet w1 w') as Hq.
  { match type of H with ?m w1 = _ => assert (keeps dir m) as Hk by keeps end.
    apply (Hk w1 tt w'); [by subst w1|exact H]. }
  destruct (quiet_view _ _ Hq) as ((? & ? & ?) & Ht & Hv & Hst & Hn & Ho' & Hi).
  assert (img w1 = None) as Himg by (unfold img, image; subst w1; cbn; by rewrite Hf).
  unfold fresh_node. unfold img_kept in Hi. rewrite Himg in Hi. subst w1. cbn in *.
  split_and!; try congruence.
  - destruct Hi as [->| ->]; [done|]. cbn. intros t v [= <- <-]. done.
  - destruct Hi as [->| ->]; [done|]. cbn. intros s [= <-]. cbn. congruence.
Qed.
End rest.
