(* ===== verification/LogRefine.v ===== *)
(** Every locked segment of the raft code is a step of the abstract replication
    protocol ([LogSpec.lstep]), on a server whose log has not been compacted. *)
From S2P Require Import Prelude Libc Posix RaftTypes RaftStorage RaftUtils RaftFollower RaftLeader RaftCandidate Raft RaftView StorageSpec RaftLog ElectionSpec LogSpec RaftRefine.

(** * Abstraction *)

(** The view of the log. *)
Definition logv (r : raft_state) := (ekey <$> raft_log r, start_log_index r, log_count r).
Definition dlogv (r : raft_state) := (logv r, files_dir r).

#[export] Instance dlogv_ok : ViewOk dlogv logv.
Proof. split; try done; unfold dlogv; intros r r' E; congruence. Qed.
#[export] Instance dlogv_commit : ViewCommit dlogv.
Proof. done. Qed.

(** The message in a packet that carries an entry. *)
Definition entry_of (p : raft_packet) : option lmsg :=
  match p with
  | APPEND a =>
      if ar_entries_n a =? 0 then None
      else Some {| lm_term := ar_term a; lm_prev := ar_prev_log_index a;
                   lm_prev_term := ar_prev_log_term a; lm_entry := ekey (ar_entry a) |}
  | _ => None
  end.
Definition entries (l : list (sockaddr_in * raft_packet)) : list lmsg :=
  omap (fun x => entry_of x.2) l.

Abbreviation lquiet := (vquiet dlogv logv entries).
Abbreviation lkeeps := (vkeeps dlogv logv entries).

Definition llog (r : raft_state) : log := take (Z.to_nat (log_count r)) (ekey <$> raft_log r).

(** The log starts at the first entry and lies in the array. *)
Definition lshape (r : raft_state) : Prop :=
  start_log_index r = 0 /\ 0 <= log_count r <= Z.of_nat (length (raft_log r)).
Definition wshape (w : world) : Prop := lshape (raft w) /\ forall r, image w = Some r -> lshape r.

Definition lnode_of (w : world) : lnode := {| lg := llog (raft w); im := llog <$> image w |}.

(** [w] to [w'] is a step of the replication protocol that may use [inm]. *)
Definition lrefines (w w' : world) (inm : option lmsg) : Prop :=
  wshape w' /\ exists inm' outs,
    (inm' = None \/ inm' = inm) /\ entries (out w') = entries (out w) ++ outs /\
    forall pend pend', lstep (anode_of w pend) (lnode_of w) (anode_of w' pend') (lnode_of w') inm' outs.

(** * The view and the log *)

Lemma logv_llog r r' : logv r' = logv r -> llog r' = llog r.
Proof. unfold logv, llog. by intros [= -> _ ->]. Qed.

Lemma logv_shape r r' : logv r' = logv r -> lshape r -> lshape r'.
Proof.
  unfold logv, lshape. intros [= H1 -> ->] Hs. apply (f_equal length) in H1.
  rewrite !length_fmap in H1. by rewrite H1.
Qed.

Lemma lview_logv r r' : lview r' = lview r -> logv r' = logv r.
Proof. unfold lview, logv. by intros [= -> -> -> _]. Qed.

Lemma entries_app l1 l2 : entries (l1 ++ l2) = entries l1 ++ entries l2.
Proof. apply omap_app. Qed.

Lemma entries_send l dst p : entry_of p = None -> entries (l ++ [(dst, p)]) = entries l.
Proof. intros E. rewrite entries_app. unfold entries at 2. cbn. rewrite E. apply app_nil_r. Qed.

(** The log by index. *)
Lemma llog_at r i : lshape r -> 0 <= i -> llog r !! Z.to_nat i = ekey <$> log_at r i.
Proof.
  intros [Hs Hc] Hi. unfold llog, log_at. rewrite Hs, Z.sub_0_r.
  destruct (_ && _) eqn:E.
  - rewrite lookup_take_lt by lia. apply list_lookup_fmap.
  - rewrite lookup_take_ge; [done|lia].
Qed.

Lemma llog_length r : lshape r -> Z.of_nat (length (llog r)) = log_count r.
Proof. intros [_ Hc]. unfold llog. rewrite length_take, length_fmap. lia. Qed.

Lemma llog_term r i : lshape r -> lterm (llog r) i = term_at r i.
Proof.
  intros Hs. unfold term_at. destruct (decide (i < 0)).
  - rewrite lterm_neg by done. unfold log_at. rewrite (proj1 Hs). by destruct (_ && _) eqn:E; [lia|].
  - rewrite lterm_at, llog_at by (done || lia). by destruct (log_at r i).
Qed.

(** States that agree on the log, in memory or on the disk. *)
Lemma logv_image (o1 o2 : option raft_state) :
  logv <$> o1 = logv <$> o2 ->
  llog <$> o1 = llog <$> o2 /\ ((forall r, o2 = Some r -> lshape r) -> forall r, o1 = Some r -> lshape r).
Proof.
  destruct o1 as [r1|], o2 as [r2|]; cbn; intros E; simplify_eq; [|done]. split.
  - f_equal. apply logv_llog. unfold logv. congruence.
  - intros H2 r [= <-]. eapply logv_shape; [|by apply H2]. unfold logv. congruence.
Qed.

(** A quiet run keeps the log, and the disk has the log it had or this one. *)
Lemma lquiet_log w w' : lquiet w w' -> wshape w ->
  wshape w' /\ log_durable (lnode_of w) (lnode_of w') /\ lg (lnode_of w') = lg (lnode_of w) /\
  entries (out w') = entries (out w).
Proof.
  intros (E & O & I) [Hs Hi]. assert (logv (raft w') = logv (raft w)) as El by (unfold dlogv in E; congruence).
  assert (lshape (raft w')) as Hs' by by eapply logv_shape.
  unfold wshape, log_durable. cbn. rewrite (logv_llog _ _ El).
  destruct I as [[Il Ish]%logv_image|[Il Ish]%(logv_image _ (Some _))]; rewrite Il.
  - split_and!; auto.
  - cbn. rewrite (logv_llog _ _ El). split_and!; auto.
    apply Ish. by intros r [= <-].
Qed.

(** * Segments that leave the log alone *)

(** The role of a leader, as [lstep_keep] asks for it. *)
Definition leads_on (r r' : raft_state) : Prop :=
  state r' = LEADER -> state r = LEADER /\ current_term r' = current_term r.

Lemma refines_leads n own w pend inm w' pend' :
  refines n own w pend inm w' pend' -> (forall d t u, inm <> Some (MResp d t u)) ->
  leads_on (raft w) (raft w').
Proof.
  intros (_ & _ & sent & _ & Hs) Hinm Hl.
  destruct (nstep_leader _ _ _ _ _ Hs Hl) as [?|(t & u & E)]; [done|by destruct (Hinm _ _ _ E)].
Qed.

Lemma lrefines_quiet w w' inm :
  wshape w -> lquiet w w' -> leads_on (raft w) (raft w') -> lrefines w w' inm.
Proof.
  intros Hw Hq Hl. destruct (lquiet_log _ _ Hq Hw) as (Hw' & Hd & Hlg & Ho).
  split; [done|]. exists None, []. rewrite app_nil_r. split_and!; [by left|done|].
  intros pend pend'. apply lstep_keep; [done..|]. intros m Hm. by apply not_elem_of_nil in Hm.
Qed.

Section segments.
Context `{CH : CommitHandler} `{!CommitHandlerOk CH}.

Lemma lkeeps_send dir dst p : entry_of p = None -> lkeeps dir (UDP_send dst p).
Proof. intros E. apply keeps_send. intros l. by apply entries_send. Qed.

Lemma lkeeps_convert dir t : lkeeps dir (Raft_convert_to_follower t).
Proof. unfold Raft_convert_to_follower. keeps. Qed.
#[local] Hint Resolve lkeeps_convert : keeps.

Lemma lkeeps_vote_request dir addr v : lkeeps dir (Raft_handle_vote_request addr v).
Proof. unfold Raft_handle_vote_request. keeps. by apply lkeeps_send. Qed.

Lemma lkeeps_start_election dir : lkeeps dir Raft_start_election.
Proof. unfold Raft_start_election. keeps. by apply lkeeps_send. Qed.

Lemma lkeeps_poll_election dir a b : lkeeps dir (Raft_poll_election a b).
Proof. unfold Raft_poll_election. keeps. Qed.

Lemma lkeeps_listen_timeout dir b : lkeeps dir (Raft_RPC_listen_timeout b).
Proof. unfold Raft_RPC_listen_timeout, Raft_convert_to_candidate. keeps. Qed.

Lemma lkeeps_find_entry dir t i l : lkeeps dir (find_entry t i l).
Proof. induction l as [|j l IH]; cbn [find_entry]; keeps. Qed.

Lemma lkeeps_is_entry_committed dir t i : lkeeps dir (Raft_is_entry_committed t i).
Proof. unfold Raft_is_entry_committed. keeps. apply lkeeps_find_entry. Qed.

Lemma lkeeps_snapshot_begin dir k : lkeeps dir (Raft_create_snapshot_begin k).
Proof. unfold Raft_create_snapshot_begin. keeps. Qed.

Lemma lkeeps_snapshot_entry dir k l : lkeeps dir (snapshot_entry k l).
Proof. induction l as [|d l IH]; cbn [snapshot_entry]; keeps. Qed.

Lemma lkeeps_snapshot_build dir k : lkeeps dir (Raft_create_snapshot_build k).
Proof. unfold Raft_create_snapshot_build. keeps. apply lkeeps_snapshot_entry. Qed.

Lemma lkeeps_transmit dir addr s : lkeeps dir (snapshot_transmit addr s).
Proof. unfold snapshot_transmit. keeps. by apply lkeeps_send. Qed.

Lemma lkeeps_next dir f addr s : lkeeps dir (snapshot_next f addr s).
Proof. unfold snapshot_next. keeps. all: apply lkeeps_transmit. Qed.

Lemma lkeeps_start dir u f addr : lkeeps dir (snapshot_start u f addr).
Proof. unfold snapshot_start. keeps. apply lkeeps_next. Qed.

Lemma lkeeps_return dir : lkeeps dir snapshot_return.
Proof. unfold snapshot_return. keeps. Qed.

Lemma lkeeps_resume dir f addr s : lkeeps dir (snapshot_resume f addr s).
Proof.
  unfold snapshot_resume, idx_set. keeps.
  all: auto using lkeeps_transmit, lkeeps_return, lkeeps_next.
Qed.

(** ** Storing an entry *)

Lemma take_insert_snoc {A} (l : list A) i x :
  (i < length l)%nat -> take (S i) (<[i := x]> l) = take i l ++ [x].
Proof.
  intros Hi. rewrite (take_S_r _ _ x) by by apply list_lookup_insert_eq.
  by rewrite take_insert_ge.
Qed.

(** The log after an entry was written at [index] and the count set. *)
Lemma llog_insert r r' e pos (n : Z) :
  logv r' = (ekey <$> <[pos := e]> (raft_log r), 0, n) -> (pos < length (raft_log r))%nat ->
  Z.of_nat pos < n <= Z.of_nat (length (raft_log r)) ->
  lshape r' /\ llog r' = <[pos := ekey e]> (take (Z.to_nat n) (ekey <$> raft_log r)).
Proof.
  unfold logv. intros [= E1 E2 E3] Hpos Hn. split.
  - unfold lshape. rewrite E2, E3. apply (f_equal length) in E1.
    rewrite !length_fmap, length_insert in E1. rewrite E1. lia.
  - unfold llog. rewrite E1, E3, list_fmap_insert. apply take_insert_lt. lia.
Qed.

Lemma stored_llog r r' a :
  lshape r -> refuses r a = false -> ar_entries_n a <> 0 -> append_in_log r a ->
  lview r' = appended r a ->
  exists m, entry_of (APPEND a) = Some m /\ lshape r' /\ accepts (llog r) m /\
            llog r' = stored (llog r) m.
Proof.
  intros Hs Href Hn Hin Hl. unfold append_in_log, appended, entry_of in *. specialize (Hin Href).
  rewrite Href in Hl. destruct (Z.eqb_spec (ar_entries_n a) 0); [done|].
  eexists. split; [reflexivity|]. pose proof Hs as [Hst [_ Hcap]]. rewrite Hst in *.
  unfold refuses in Href. apply orb_false_iff in Href as [[_ Hc]%orb_false_iff Hp].
  apply bool_decide_eq_false, dec_stable in Hp. apply Z.leb_gt in Hc.
  destruct Hin as [Hi Hlen]. set (index := ar_prev_log_index a + 1) in *.
  set (pos := Z.to_nat index). set (e := ar_entry a) in *.
  assert (logv r' = (ekey <$> <[pos := e]> (raft_log r), 0, store_count r index (le_term e))) as Ev.
  { unfold lview in Hl. rewrite Z.sub_0_r in Hl. unfold logv. injection Hl as -> -> -> _. done. }
  assert (le_term <$> llog r !! pos = Some (le_term e) <->
          index < log_count r /\ term_at r index = le_term e) as Hdec.
  { subst pos. rewrite llog_at by (done || lia). unfold term_at.
    destruct (log_at r index) as [e1|] eqn:E; cbn.
    - apply log_at_range in E. split; [intros [= ->]; split; [lia|done]|intros [_ ->]; done].
    - split; [done|]. intros [Hlt _]. unfold log_at in E. rewrite Hst, Z.sub_0_r in E.
      destruct (_ && _) eqn:Eb; [apply lookup_ge_None in E; lia|lia]. }
  assert (index < store_count r index (le_term e) <= Z.of_nat (length (raft_log r))) as Hcount.
  { split; [lia|]. unfold store_count. repeat case_match; lia. }
  destruct (llog_insert r r' e pos _ Ev) as [Hs' Hlog]; [lia..|]. split; [exact Hs'|]. split.
  { unfold accepts. cbn. rewrite llog_length, llog_term by done. split; [lia|done]. }
  rewrite Hlog. unfold stored, lm_pos. cbn [lm_prev lm_entry]. fold index pos.
  change (le_term (ekey e)) with (le_term e).
  case_decide as Hd; [apply Hdec in Hd as [Hlt Ht]|rewrite Hdec in Hd].
  - unfold llog. do 3 f_equal. unfold store_count. rewrite Ht, bool_decide_eq_false_2, andb_false_r by auto.
    destruct (Z.eqb_spec (log_count r) index); [lia|done].
  - assert (store_count r index (le_term e) = index + 1) as ->.
    { unfold store_count. destruct (Z.ltb_spec index (log_count r)); cbn.
      - rewrite bool_decide_eq_true_2 by tauto. done.
      - destruct (Z.eqb_spec (log_count r) index); lia. }
    replace (Z.to_nat (index + 1)) with (S pos) by lia.
    rewrite <- take_insert_lt by lia. rewrite take_insert_snoc by (rewrite length_fmap; lia).
    f_equal. unfold llog. rewrite take_take, Nat.min_l by lia. done.
Qed.

Theorem append_request_lrefines addr a w w' :
  wshape w -> Raft_handle_append_request addr a w = Ok (tt, w') ->
  lrefines w w' (entry_of (APPEND a)).
Proof.
  intros Hw H. pose proof (Raft_handle_append_request_refines 0 addr addr a w w' [] H) as Href.
  pose proof (refines_leads _ _ _ _ _ _ _ Href ltac:(done)) as Hlead.
  destruct Href as ((_ & _ & Hdir) & _).
  apply append_handler_ok in H as ([_ Hst] & Hl & Hin & Hct & Ho & r' & Hi & Hl').
  assert (entries (out w') = entries (out w)) as He by (rewrite Ho; by apply entries_send).
  destruct (refuses (raft w) a || (ar_entries_n a =? 0)) eqn:Hkeep.
  - assert (logv (raft w') = logv (raft w)) as Ev.
    { unfold appended in Hl. destruct (refuses (raft w) a); [by apply lview_logv|].
      cbn in Hkeep. rewrite Hkeep in Hl. unfold lview in Hl. unfold logv. by injection Hl as -> -> -> _. }
    apply lrefines_quiet; [done| |done]. split; [unfold dlogv; congruence|]. split; [done|].
    right. rewrite Hi. cbn. f_equal. apply lview_logv. congruence.
  - apply orb_false_iff in Hkeep as [Hk Hn%Z.eqb_neq].
    destruct (stored_llog _ _ _ (proj1 Hw) Hk Hn Hin Hl) as (m & Hm & Hs' & Hacc & Hlog).
    pose proof (lview_logv _ _ (eq_trans Hl' (eq_sym Hl))) as Ev.
    split.
    + split; [done|]. rewrite Hi. intros r [= <-]. by eapply logv_shape.
    + exists (Some m), []. rewrite app_nil_r. split_and!; [by right|done|].
      intros pend pend'. apply lstep_store; try done.
      * right. cbn. rewrite Hi. cbn. f_equal. by apply logv_llog.
      * cbn. rewrite (Hst Hk). done.
      * cbn in Hm. destruct (ar_entries_n a =? 0); [done|]. injection Hm as <-. cbn. lia.
Qed.

(** ** One more entry *)

(** [wm] is [w] with [e] appended to the log in memory. *)
Definition lpushed (w wm : world) (e : raft_log_entry) : Prop :=
  logv (raft wm) = (ekey <$> <[Z.to_nat (log_count (raft w)) := e]> (raft_log (raft w)), 0,
                    log_count (raft w) + 1) /\
  log_count (raft w) < Z.of_nat (length (raft_log (raft w))) /\
  disk wm = disk w /\ files_dir (raft wm) = files_dir (raft w) /\ out wm = out w.

(** The log after it. *)
Lemma llog_push r r' e :
  lshape r -> log_count r < Z.of_nat (length (raft_log r)) ->
  logv r' = (ekey <$> <[Z.to_nat (log_count r) := e]> (raft_log r), 0, log_count r + 1) ->
  lshape r' /\ llog r' = llog r ++ [ekey e].
Proof.
  intros [_ Hc] Hroom Ev. destruct (llog_insert _ _ _ _ _ Ev) as [Hs' Hlog]; [lia..|].
  split; [done|]. rewrite Hlog, <- take_insert_lt by lia.
  replace (Z.to_nat (log_count r + 1)) with (S (Z.to_nat (log_count r))) by lia.
  by rewrite take_insert_snoc by (rewrite length_fmap; lia).
Qed.

(** The rest of a segment that has pushed an entry. *)
Lemma lpushed_quiet w wm w' e :
  wshape w -> lpushed w wm e -> lquiet wm w' ->
  wshape w' /\ lg (lnode_of w') = lg (lnode_of w) ++ [ekey e] /\
  log_durable (lnode_of w) (lnode_of w') /\ entries (out w') = entries (out w).
Proof.
  intros [Hs Hi] (Ev & Hroom & Hd & Hdir & Ho) Hq.
  destruct (llog_push _ _ _ Hs Hroom Ev) as [Hsm Hlog].
  assert (image wm = image w) as Him by (unfold image; by rewrite Hd, Hdir).
  assert (wshape wm) as Hwm by (split; [exact Hsm|by rewrite Him]).
  destruct (lquiet_log _ _ Hq Hwm) as (Hw' & Hdur & Hlg & He).
  split_and!; [done| | |congruence].
  - by rewrite Hlg.
  - unfold log_durable in *. cbn in *. rewrite Him in Hdur. done.
Qed.

Lemma push_ok (w : world) n e u w' :
  wshape w -> n = log_count (raft w) ->
  let wr := w <| raft ::= fun r => r <| log_count := n + 1 |> |> in
  log_store (Raft_get_log (raft wr) n) e wr = Ok (u, w') ->
  lpushed w w' e /\ state (raft w') = state (raft w) /\ current_term (raft w') = current_term (raft w).
Proof.
  intros [[Hst _] _] -> wr H.
  apply (log_store_ok (w <| raft ::= fun r => r <| log_count := log_count (raft w) + 1 |> |>))
    in H as (_ & Hl & ->). cbn in Hl. rewrite Hst, Z.sub_0_r in Hl.
  unfold lpushed, logv, set_log. cbn. rewrite Hst, Z.sub_0_r. done.
Qed.

Theorem append_entry_lrefines e w a w' :
  wshape w -> Raft_append_entry e w = Ok (a, w') -> lrefines w w' None.
Proof.
  intros Hw H. pose proof (keeps_append_entry _ e _ _ _ eq_refl H) as Hq.
  destruct (quiet_view _ _ Hq) as (_ & Ht & _ & Hst & _).
  unfold Raft_append_entry in H. apply bind_ok in H as (? & w1 & Hacq & H).
  pose proof (keeps_lock_acquire dlogv logv entries _ _ _ _ eq_refl Hacq) as Hq1.
  apply lock_acquire_ok in Hacq as [_ ->]. apply bind_ok in H as (r & w2 & [= <- <-] & H).
  set (w1 := w <| raft ::= _ |>) in *. destruct (_ || _) eqn:Hcond.
  - apply lrefines_quiet; [done| |by intros ?; rewrite <- Hst, Ht].
    etrans; [exact Hq1|]. match type of H with ?m _ = _ => assert (lkeeps (files_dir (raft w1)) m) as Hk by keeps end.
    by eapply Hk.
  - apply orb_false_iff in Hcond as [Hlead _]. apply bool_decide_eq_false, dec_stable in Hlead.
    apply bind_ok in H as (n & w2 & (-> & -> & _)%int_of_ok & H).
    apply bind_ok in H as (? & w2 & [= _ <-] & H). apply bind_ok in H as (r & w2 & [= <- <-] & H).
    apply bind_ok in H as (? & w3 & Hp & H). cbn [raft upd log_count] in Hp.
    replace (log_count (raft w) + 1 - 1) with (log_count (raft w)) in Hp by lia.
    apply (push_ok w1 (log_count (raft w))) in Hp as (Hp & _); [|exact Hw|done].
    assert (lquiet w3 w') as Hq3.
    { match type of H with ?m _ = _ => assert (lkeeps (files_dir (raft w3)) m) as Hk by keeps end.
      by eapply Hk. }
    destruct (lpushed_quiet w w3 w' _ Hw Hp Hq3) as (Hw' & Hlg & Hd & Ho).
    split; [done|]. exists None, []. rewrite app_nil_r. split_and!; [by left|done|].
    intros pend pend'. cbn in Hlead.
    apply (lstep_push _ _ _ _ (ekey (stamp (raft w) e))); [done|cbn; congruence|done..].
Qed.

(** ** Becoming the leader *)

Lemma convert_to_leader_lrefines w u w' :
  wshape w -> state (raft w) = CANDIDATE -> Raft_convert_to_leader w = Ok (u, w') ->
  lrefines w w' None.
Proof.
  intros Hw Hcand H. pose proof H as (_ & Ht & _ & _ & Hlead & _)%convert_to_leader_ok.
  unfold Raft_convert_to_leader in H. apply bind_ok in H as (? & w1 & [= _ <-] & H).
  set (w1 := w <| raft ::= _ |>) in *.
  apply bind_ok in H as (n & w2 & [= <- <-] & H).
  apply bind_ok in H as (n' & w2 & (-> & -> & _)%int_of_ok & H).
  apply bind_ok in H as (? & w2 & [= _ <-] & H). apply bind_ok in H as (r & w2 & [= <- <-] & H).
  cbv zeta in H. set (w2 := w1 <| raft ::= _ |>) in *.
  match type of H with (log_deref (Raft_get_log ?r _) ≫= _) _ = _ => change r with (raft w2) in H end.
  replace (log_count (raft w2) - 1) with (log_count (raft w1)) in H by (cbn; lia).
  apply bind_ok in H as (e & w3 & (_ & ->)%log_deref_at & H).
  apply bind_ok in H as (? & w3 & Hp & H).
  apply (push_ok w1) in Hp as (Hp & _); [|exact Hw|done].
  assert (lquiet w3 w') as Hq.
  { match type of H with ?m _ = _ => assert (lkeeps (files_dir (raft w3)) m) as Hk by (unfold idx_set; keeps) end.
    by eapply Hk. }
  destruct (lpushed_quiet w w3 w' _ Hw Hp Hq) as (Hw' & Hlg & Hd & Ho).
  split; [done|]. exists None, []. rewrite app_nil_r. split_and!; [by left|done|].
  intros pend pend'. eapply lstep_lead; [exact Hcand|exact Hlead|exact Ht| |exact Hlg|done]. done.
Qed.

(** ** Answers *)

(** What a step of the replication protocol depends on. *)
Definition cview (w : world) :=
  (state (raft w), current_term (raft w), files_dir (raft w), logv (raft w), disk w, out w).

Lemma cview_parts w1 w :
  cview w1 = cview w -> state (raft w1) = state (raft w) /\
  current_term (raft w1) = current_term (raft w) /\ files_dir (raft w1) = files_dir (raft w) /\
  logv (raft w1) = logv (raft w) /\ image w1 = image w /\ out w1 = out w.
Proof.
  unfold cview. intros E. assert (files_dir (raft w1) = files_dir (raft w)) by congruence.
  assert (disk w1 = disk w) by congruence. split_and!; try congruence. unfold image. congruence.
Qed.

Lemma cview_lnode w1 w : cview w1 = cview w -> lnode_of w1 = lnode_of w.
Proof. intros (_ & _ & _ & El & Ei & _)%cview_parts. unfold lnode_of. by rewrite (logv_llog _ _ El), Ei. Qed.

Lemma wshape_after w w1 : cview w1 = cview w -> wshape w -> wshape w1.
Proof.
  intros (_ & _ & _ & El & Ei & _)%cview_parts [Hs Hi]. split; [by eapply logv_shape|by rewrite Ei].
Qed.

Lemma lrefines_cview w w1 w2 w' inm :
  cview w1 = cview w -> cview w' = cview w2 -> lrefines w1 w2 inm -> lrefines w w' inm.
Proof.
  intros E E' (Hw' & inm' & outs & Hin & Ho & Hstep). split; [by eapply wshape_after|].
  exists inm', outs. rewrite <- (cview_lnode _ _ E), (cview_lnode _ _ E').
  apply cview_parts in E as (Es & Et & _ & _ & _ & Eo).
  apply cview_parts in E' as (Es' & Et' & _ & _ & _ & Eo'). rewrite Eo', <- Eo. split_and!; [done..|].
  intros pend pend'. specialize (Hstep pend pend').
  destruct Hstep as [outs Hlg Hd Hr Hout|m Ha Hlg Hd Hr Hmt|e Hc Hr Ht Hl Hlg Hd
    |e Hc Hr Ht Hl Hlg Hd|Hi Hd Hr]; cbn in *; rewrite ?Es, ?Et, <- ?Es', <- ?Et' in *.
  - by apply lstep_keep.
  - by apply lstep_store.
  - by eapply lstep_lead.
  - by eapply lstep_push.
  - by apply lstep_restart.
Qed.

Lemma lrefines_after w w1 w' inm : cview w1 = cview w -> lrefines w1 w' inm -> lrefines w w' inm.
Proof. intros E H. by eapply lrefines_cview. Qed.

Lemma cframes_lock_release : frames cview raft_lock_release.
Proof. unfold raft_lock_release. frames. Qed.
Lemma cframes_lock_acquire : frames cview raft_lock_acquire.
Proof. unfold raft_lock_acquire. frames. Qed.
Lemma cframes_response i v : frames cview (idx_set last_request_response i v).
Proof. unfold idx_set. frames. Qed.

(** A segment that keeps the log, the role and the term. *)
Definition roleterm (w : world) := (state (raft w), current_term (raft w)).
Lemma lrefines_keeps {A} (m : M world A) w a w' inm :
  wshape w -> lkeeps (files_dir (raft w)) m -> frames roleterm m -> m w = Ok (a, w') ->
  lrefines w w' inm.
Proof.
  intros Hw Hk Hf H. apply lrefines_quiet; [done|by eapply Hk|].
  apply Hf in H. unfold roleterm in H. injection H as Es Et. intros Hl. by rewrite <- Es, Et.
Qed.

(** The count of replicas is not part of the log. *)
Lemma logv_set_replicas r n e k :
  log_at r n = Some e -> logv (set_log r n (e <| le_n_servers_replicated := k |>)) = logv r.
Proof.
  intros He. unfold logv, set_log. cbn. do 2 f_equal. rewrite list_fmap_insert. apply list_insert_id.
  rewrite list_lookup_fmap. unfold log_at in He. destruct (_ && _); [|done]. by rewrite He.
Qed.

Lemma lkeeps_count_replica dir n : lkeeps dir (count_replica n).
Proof.
  intros w k w' _ (e & He & -> & ->)%count_replica_ok.
  unfold vquiet, dlogv, image. cbn [raft upd out disk]. rewrite (logv_set_replicas _ _ _ _ He). auto.
Qed.
#[local] Hint Resolve lkeeps_count_replica : keeps.

Lemma lkeeps_append_response dir p : lkeeps dir (Raft_handle_append_response p).
Proof. unfold Raft_handle_append_response, idx_add, idx_set. keeps. Qed.

Lemma lkeeps_install_response dir p : lkeeps dir (Raft_handle_install_response p).
Proof. unfold Raft_handle_install_response, idx_add, idx_set. keeps. Qed.

Lemma rframes_append_response p : frames roleterm (Raft_handle_append_response p).
Proof.
  unfold Raft_handle_append_response, idx_add, idx_set, count_replica, log_store, Raft_commit_update.
  frames.
Qed.

Lemma rframes_install_response p : frames roleterm (Raft_handle_install_response p).
Proof. unfold Raft_handle_install_response, idx_add, idx_set. frames. Qed.

Lemma rframes_release : frames roleterm raft_lock_release.
Proof. unfold raft_lock_release. frames. Qed.

(** A vote that is counted, up to the release of the lock. *)
Lemma vote_response_lrefines p w w' :
  wshape w -> state (raft w) = CANDIDATE ->
  (done ← Raft_handle_vote_response p; if (done : bool) then skip else raft_lock_release) w
    = Ok (tt, w') ->
  lrefines w w' None.
Proof.
  intros Hw Hcand. unfold Raft_handle_vote_response. destruct (rp_success p <=? 0) eqn:Hs.
  { intros H. eapply lrefines_keeps; [done| | |exact H]; [keeps|frames; apply rframes_release]. }
  intros (b & w1 & H & Hend)%bind_ok.
  apply bind_ok in H as (n & w2 & [= <- <-] & H).
  apply bind_ok in H as (n' & w2 & (-> & -> & _)%int_of_ok & H).
  apply bind_ok in H as (? & w2 & [= _ <-] & H).
  set (w2 := w <| raft ::= _ |>) in *. apply (lrefines_after w w2); [done|].
  assert (wshape w2) as Hw2 by by apply (wshape_after w). destruct (_ <? _).
  - apply bind_ok in H as (? & w3 & H & [= <- <-]). injection Hend as <-.
    by eapply convert_to_leader_lrefines.
  - injection H as <- <-. eapply lrefines_keeps; [done| | |exact Hend]; [keeps|apply rframes_release].
Qed.

Theorem response_lrefines p w w' :
  wshape w -> Raft_handle_response p w = Ok (tt, w') -> lrefines w w' None.
Proof.
  intros Hw. unfold Raft_handle_response. intros (? & w1 & Hacq & H)%bind_ok.
  apply cframes_lock_acquire in Hacq. eapply lrefines_after; [exact Hacq|].
  assert (wshape w1) as Hw1 by by eapply wshape_after. clear Hacq.
  apply bind_ok in H as (r & ? & [= <- <-] & H).
  destruct (rp_term p <? _).
  { eapply lrefines_keeps; [done| | |exact H]; [keeps|apply rframes_release]. }
  destruct (_ <? rp_term p).
  { apply lrefines_quiet; [done| |].
    - match type of H with ?m _ = _ => assert (lkeeps (files_dir (raft w1)) m) as Hk by keeps end. by eapply Hk.
    - apply bind_ok in H as (? & w2 & (_ & _ & _ & Hst & _)%convert_ok & H).
      assert (roleterm w' = roleterm w2) as Er.
      { match type of H with ?m _ = _ => assert (frames roleterm m) as Hf; [|by apply Hf in H] end.
        frames. apply rframes_release. }
      unfold roleterm in Er. intros Hl. congruence. }
  apply bind_ok in H as (? & w2 & Hset & H). apply cframes_response in Hset.
  eapply lrefines_after; [exact Hset|]. assert (wshape w2) as Hw2 by by eapply wshape_after.
  apply cview_parts in Hset as (Hst & _). case_decide as Hcand.
  - eapply vote_response_lrefines; [done| |exact H]. congruence.
  - eapply lrefines_keeps; [done| | |exact H].
    + keeps; auto using lkeeps_append_response, lkeeps_install_response.
    + frames; auto using rframes_append_response, rframes_install_response, rframes_release.
Qed.

(** ** Threads *)

Lemma idx_get_ok f i w x w' : idx_get f i w = Ok (x, w') -> arr_get (f (raft w)) i = Ok x.
Proof.
  unfold idx_get. intros (l & w1 & [= <- <-] & H)%bind_ok. unfold lift in H.
  destruct (arr_get _ _); [by injection H as ->|done].
Qed.

Lemma idx_get_read f i w x w' : idx_get f i w = Ok (x, w') -> w' = w.
Proof. apply (frames_idx_get (fun w => w)). Qed.

(** What a leader sends. *)
Lemma append_request_sent u f addr w w' :
  Raft_send_append_entry_request u f addr w = Ok (tt, w') ->
  exists nx q b, arr_get (next_index (raft w)) f = Ok nx /\ arr_get (last_request_id (raft w)) f = Ok q /\
    w' = w <| out ::= fun l => l ++ [(addr, APPEND b)] |> /\
    ar_term b = current_term (raft w) /\ ar_prev_log_index b = nx - 1 /\
    ar_prev_log_term b = term_at (raft w) (nx - 1) /\ ar_leader_commit b = commit_index (raft w) /\
    ar_request_id b = q /\
    ((nx = log_count (raft w) /\ ar_entries_n b = 0) \/
     (ar_entries_n b = 1 /\ log_at (raft w) nx = Some (ar_entry b))).
Proof.
  unfold Raft_send_append_entry_request. intros (r & w1 & [= <- <-] & H)%bind_ok.
  apply bind_ok in H as (nx & w1 & Hn & H). pose proof (idx_get_read _ _ _ _ _ Hn) as ->.
  apply bind_ok in H as (prev & w1 & (-> & -> & _)%int_of_ok & H).
  apply bind_ok in H as (pt & w1 & [-> ->]%get_log_term_ok & H).
  apply bind_ok in H as (q & w1 & Hq & H). pose proof (idx_get_read _ _ _ _ _ Hq) as ->.
  apply bind_ok in H as (pl & w1 & Hpl & ->%send_ok).
  assert (w1 = w /\ ((nx = log_count (raft w) /\ pl.1 = 0) \/
                     (pl.1 = 1 /\ log_at (raft w) nx = Some pl.2))) as [-> Hcase].
  { destruct (Z.eqb_spec nx (log_count (raft w))); [injection Hpl as <- <-; auto|].
    apply bind_ok in Hpl as (e & w2 & [He ->]%log_deref_at & [= <- <-]). auto. }
  apply idx_get_ok in Hn. apply idx_get_ok in Hq.
  eexists nx, q, _. do 2 (split; [done|]). split; [reflexivity|]. cbn. split_and!; done.
Qed.

Lemma send_append_request_ok u f addr w w' :
  lshape (raft w) -> Raft_send_append_entry_request u f addr w = Ok (tt, w') ->
  exists p, w' = w <| out ::= fun l => l ++ [(addr, p)] |> /\
    forall m, entry_of p = Some m -> lm_term m = current_term (raft w) /\ carries (llog (raft w)) m.
Proof.
  intros Hs (nx & q & b & _ & _ & -> & Ht & Hp & Hpt & _ & _ & Hcase)%append_request_sent.
  eexists. split; [reflexivity|]. intros m. cbn. destruct (Z.eqb_spec (ar_entries_n b) 0); [done|].
  intros [= <-]. split; [done|]. destruct Hcase as [[_ ?]|[_ He]]; [done|].
  pose proof (log_at_range _ _ _ He) as Hr. rewrite (proj1 Hs) in Hr.
  unfold carries, lm_pos. cbn [lm_prev lm_entry lm_prev_term]. rewrite Hp, Hpt.
  split; [lia|]. split; [|by apply llog_term].
  replace (nx - 1 + 1) with nx by lia. rewrite llog_at by (done || lia). by rewrite He.
Qed.

Lemma send_append_lrefines u f addr w w' :
  wshape w -> state (raft w) = LEADER -> Raft_send_append_entry_request u f addr w = Ok (tt, w') ->
  lrefines w w' None.
Proof.
  intros Hw Hl (p & -> & Hp)%send_append_request_ok; [|exact (proj1 Hw)].
  split; [done|]. exists None, (entries [(addr, p)]). split_and!; [by left|apply entries_app|].
  intros pend pend'. apply lstep_keep; [done|by left|done|].
  intros m Hm. split; [done|]. apply Hp. unfold entries in Hm. cbn in Hm.
  destruct (entry_of p) as [m'|]; cbn in Hm; [|by apply not_elem_of_nil in Hm].
  by apply list_elem_of_singleton in Hm as ->.
Qed.

Lemma rframes_acquire : frames roleterm raft_lock_acquire.
Proof. unfold raft_lock_acquire. frames. Qed.

Lemma rframes_get_next it : frames roleterm (snapshot_it_get_next it).
Proof.
  assert (forall d l, frames roleterm (open_next d l)) as Hopen.
  { intros d l. induction l as [|i l IH]; cbn [open_next]; unfold path_buf; frames. }
  unfold snapshot_it_get_next. frames.
Qed.
#[local] Hint Resolve rframes_acquire rframes_release rframes_get_next : frames.

Lemma rframes_start u f addr : frames roleterm (snapshot_start u f addr).
Proof. unfold snapshot_start, snapshot_next, snapshot_transmit. frames. Qed.

Lemma rframes_resume f addr s : frames roleterm (snapshot_resume f addr s).
Proof.
  unfold snapshot_resume, snapshot_return, snapshot_next, snapshot_transmit, idx_set. frames.
Qed.

Lemma start_election_candidate w u w' :
  Raft_start_election w = Ok (u, w') -> state (raft w') = CANDIDATE.
Proof.
  unfold Raft_start_election. intros (t & ? & [= <- <-] & H)%bind_ok.
  apply bind_ok in H as (t' & w1 & (-> & -> & _)%int_of_ok & H).
  apply bind_ok in H as (? & w2 & [= _ Hw2] & H).
  match type of H with ?m _ = _ => assert (frames roleterm m) as Hf by frames end.
  apply Hf in H. unfold roleterm in H. subst w2. cbn in H. by injection H.
Qed.

Lemma leader_thread_lrefines ue us f addr pc w pc' w' :
  wshape w -> Raft_leader_thread ue us f addr pc w = Ok (pc', w') -> lrefines w w' None.
Proof.
  intros Hw. destruct pc; cbn [Raft_leader_thread].
  - intros (? & w1 & Hacq & H)%bind_ok. apply lock_acquire_ok in Hacq as [_ ->].
    set (w1 := w <| raft ::= _ |>) in *. apply (lrefines_after w w1); [done|].
    assert (wshape w1) as Hw1 by by apply (wshape_after w).
    apply bind_ok in H as (st & ? & [= <- <-] & H). case_decide as Hst.
    { eapply lrefines_keeps; [done| | |exact H]; [keeps|frames]. }
    apply bind_ok in H as (next & w2 & ->%idx_get_read & H).
    apply bind_ok in H as (start & ? & [= <- <-] & H). destruct (_ <? _).
    + eapply lrefines_keeps; [done| | |exact H]; [apply lkeeps_start|apply rframes_start].
    + apply bind_ok in H as ([] & w2 & Hs & H). apply bind_ok in H as ([] & w3 & Hrel & [= _ <-]).
      apply cframes_lock_release in Hrel. apply (lrefines_cview w1 w1 w2); [done|done|].
      by eapply send_append_lrefines.
  - intros H. eapply lrefines_keeps; [done| | |exact H]; [keeps; apply lkeeps_start|frames; apply rframes_start].
  - intros H. eapply lrefines_keeps; [done| | |exact H]; [keeps; apply lkeeps_resume|frames; apply rframes_resume].
  - intros H. eapply lrefines_keeps; [done| | |exact H]; [keeps|frames].
Qed.

(** ** Packets *)

Theorem dispatch_lrefines addr p w w' :
  wshape w -> (forall q, p <> INSTALL_SNAPSHOT q) -> Raft_dispatch addr p w = Ok (tt, w') ->
  lrefines w w' (entry_of p).
Proof.
  intros Hw Hp H. destruct p as [a|v|q|r]; cbn [Raft_dispatch] in H.
  - by eapply append_request_lrefines.
  - apply lrefines_quiet; [done|by eapply lkeeps_vote_request|].
    eapply (refines_leads 0 addr w [] _ w' []); [by apply Raft_handle_vote_request_refines|done].
  - by destruct (Hp q).
  - by eapply response_lrefines.
Qed.

(** ** Starting *)

Theorem restore_lrefines dir id sd w w' :
  files_dir (raft w) = dir -> wshape w -> Raft_server_restore dir id sd w = Ok (tt, w') ->
  lrefines w w' None.
Proof.
  intros Hdir [_ Hi]. unfold Raft_server_restore, Raft_load_state. intros (? & w1 & Hload & H)%bind_ok.
  apply bind_ok in Hload as (? & ? & [-> ->]%path_buf_ok & Hload).
  apply bind_ok in Hload as (d & ? & [= <- <-] & Hload).
  unfold fopen_r in Hload. destruct (files (disk w) !! state_file dir) as [c|] eqn:Ec; [|done].
  destruct (f_image c) as [r|] eqn:Er; [|done]. injection Hload as _ <-.
  assert (image w = Some r) as Himg by (unfold image; by rewrite Hdir, Ec).
  apply bind_ok in H as (id' & ? & [= <- <-] & H).
  apply bind_ok in H as (? & w2 & Hassert & H). cbn in Hassert.
  case_decide as Hid; [|done]. injection Hassert as _ <-.
  apply bind_ok in H as (? & w2 & [= _ <-] & H).
  apply bind_ok in H as (prev & ? & [= <- <-] & H).
  apply bind_ok in H as (start & ? & [= <- <-] & H).
  apply bind_ok in H as (c0 & w3 & (-> & -> & _)%int_of_ok & H).
  apply bind_ok in H as (? & w4 & [= _ Hw4] & H).
  assert (files_dir (raft w4) = dir) as Hd4 by by subst w4.
  assert (lquiet w4 w' /\ state (raft w') = FOLLOWER) as [Hq Hst].
  { match type of H with ?m _ = _ => assert (lkeeps dir m /\ keeps dir m) as [Hk Hk2] by (split; keeps) end.
    split; [by eapply Hk|]. pose proof (quiet_view _ _ (Hk2 _ _ _ Hd4 H)) as (_ & _ & _ & -> & _). by subst w4. }
  assert (image w4 = Some r) as Him4 by (rewrite <- Himg; unfold image; rewrite Hd4, Hdir; by subst w4).
  assert (logv (raft w4) = logv r) as El by by subst w4.
  assert (wshape w4) as Hw.
  { split; [eapply logv_shape; [exact El|by apply Hi]|]. rewrite Him4. intros r0 [= <-]. by apply Hi. }
  destruct (lquiet_log _ _ Hq Hw) as (Hw' & Hd & Hlg & Ho).
  assert (lg (lnode_of w') = llog r) as Hlog by (rewrite Hlg; cbn; by apply logv_llog).
  split; [done|]. exists None, []. rewrite app_nil_r. split_and!; [by left|rewrite Ho; by subst w4|].
  intros pend pend'. apply lstep_restart; [cbn; rewrite Himg; cbn; by rewrite <- Hlog| |done].
  unfold log_durable in *. cbn in *. by rewrite Himg, <- Him4.
Qed.

(** A server started without a backup. *)
Lemma init_shape cfg dir id sd w w' :
  files (disk w) !! state_file dir = None ->
  Raft_server_init cfg dir id sd w = Ok (tt, w') ->
  wshape w' /\ lg (lnode_of w') = [] /\ forall l, im (lnode_of w') = Some l -> l = [].
Proof.
  intros Hf. unfold Raft_server_init. intros (? & w1 & [= _ Hw1] & H)%bind_ok.
  assert (lquiet w1 w') as Hq.
  { match type of H with ?m _ = _ => assert (lkeeps dir m) as Hk by keeps end.
    apply (Hk w1 tt w'); [by subst w1|exact H]. }
  assert (image w1 = None) as Hi by (unfold image; subst w1; cbn; by rewrite Hf).
  assert (wshape w1) as Hw.
  { split; [subst w1; unfold lshape; cbn; lia|]. by rewrite Hi. }
  destruct (lquiet_log _ _ Hq Hw) as (Hw' & Hd & Hlg & _).
  assert (lg (lnode_of w') = []) as Hnil by (rewrite Hlg; by subst w1).
  split_and!; [done..|]. intros l Hl. destruct Hd as [E|E]; rewrite E in Hl.
  - cbn in Hl. by rewrite Hi in Hl.
  - rewrite Hnil in Hl. by injection Hl.
Qed.
End segments.
