(* ===== verification/Replication.v ===== *)
(** Replication goes forward: a leader thread and its follower in turn, when every
    datagram arrives before the next one is sent.  However far apart the two
    logs are, the leader finds the last entry they share and the follower
    receives the rest. *)
From S2P Require Import Prelude Libc Posix RaftTypes RaftStorage StorageSpec RaftUtils RaftFollower RaftLeader RaftCandidate Raft SnapshotInstall SnapshotTransfer RaftView RaftLog LogSpec LogRefine.

#[local] Open Scope Z_scope.
#[local] Open Scope list_scope.

(** The entry at an index, without its count of replicas. *)
Definition key_at (r : raft_state) (i : Z) : option raft_log_entry := ekey <$> log_at r i.

Lemma key_at_term r r' i : key_at r i = key_at r' i -> term_at r i = term_at r' i.
Proof.
  unfold key_at, term_at. destruct (log_at r i) as [e|], (log_at r' i) as [e'|]; try done.
  intros E. cbn in E. assert (ekey e = ekey e') as E' by congruence. by apply (f_equal le_term) in E'.
Qed.

Lemma key_at_some r r' i e : key_at r i = key_at r' i -> log_at r i = Some e -> is_Some (log_at r' i).
Proof. unfold key_at. intros E He. rewrite He in E. destruct (log_at r' i); [eauto|done]. Qed.

Section replication.
Context `{CH : CommitHandler} `{!CommitHandlerOk CH}.
(** The transactions on which the commit handler of either server returns. *)
Context (site : string -> Prop) (readable : list raft_transaction_entry -> Prop).
Context (Hreadable : forall dir data d, site dir -> readable data -> exists d', commit_handler dir data d = Ok d').

Definition clean (r : raft_state) : Prop := forall i e, log_at r i = Some e -> readable (le_data e).

Lemma clean_lview r c : lview c = lview r -> clean r -> clean c.
Proof. intros Hv Hc i e. rewrite (lview_log_at _ _ _ Hv). apply Hc. Qed.

Lemma clean_range r first n : clean r -> Forall (fun e => readable (le_data e)) (log_range r first n).
Proof.
  intros Hc. apply list.Forall_forall. intros e (i & _ & He)%list_elem_of_omap. by apply (Hc i).
Qed.

(** * Totality *)

Lemma commit_all_total dir l d :
  site dir -> Forall (fun e => readable (le_data e)) l -> exists d', commit_all dir l d = Ok d' /\ dirs d' = dirs d.
Proof.
  intros Hdir Hl. revert d. induction Hl as [|e l He Hl IH]; intros d; cbn; [by exists d|].
  case_decide; cbn; [apply IH|]. destruct (Hreadable dir (le_data e) d Hdir He) as [d1 E]. rewrite E. cbn.
  destruct (IH d1) as (d' & -> & Hd). exists d'. split; [done|]. rewrite Hd. by eapply commit_handler_dirs.
Qed.

Lemma commit_update_total c w :
  raft_wf (raft w) -> site (files_dir (raft w)) -> clean (raft w) -> log_count (raft w) <= INT_MAX -> c < log_count (raft w) ->
  exists d, Raft_commit_update c w = Ok (tt, w <| disk := d |> <| raft ::= fun r => r <| commit_index := c |> |>) /\
    dirs d = dirs (disk w).
Proof.
  intros Hwf Hsite Hcl Hmax Hc. destruct (Z.le_gt_cases (commit_index (raft w)) c) as [Hle|Hgt].
  - rewrite commit_update_run by (done || lia).
    destruct (commit_all_total (files_dir (raft w)) (log_range (raft w) (commit_index (raft w) + 1) (c - commit_index (raft w)))
      (disk w)) as (d & -> & Hd); [done|by apply clean_range|]. by exists d.
  - exists (disk w). split; [|done]. pose proof (wf_commit_low _ Hwf). pose proof (wf_start _ Hwf).
    pose proof (wf_commit_high _ Hwf).
    unfold Raft_commit_update. rewrite run_bind, run_rget.
    rewrite run_bind, run_int_of by (apply int_ok_spec; unfold INT_MIN; lia).
    rewrite run_bind. replace (seqZ _ _) with (@nil Z) by (symmetry; apply seqZ_nil; lia).
    cbn [for_]. unfold skip. rewrite run_rmod. by destruct w.
Qed.

(** What handling a request leaves alone. *)
Definition rest (r : raft_state) := (lock_flag r, files_dir r, install_snapshot_id r, raft_id r).

(** The answer to a request that names entry [index - 1]: room, nothing
    committed lost, and an entry that can be committed. *)
Definition storable (r : raft_state) (a : raft_append_request) : Prop :=
  let index := ar_prev_log_index a + 1 in
  0 <= index <= log_count r /\ index < LOG_SIZE /\
  commit_index r < store_count r index (le_term (ar_entry a)) /\ readable (le_data (ar_entry a)).

Lemma store_count_bounds r index t :
  index <= log_count r -> index < store_count r index t <= Z.max (index + 1) (log_count r).
Proof.
  intros Hi. unfold store_count. destruct (Z.ltb_spec index (log_count r)), (Z.eqb_spec (log_count r) index);
    cbn [andb]; try case_bool_decide; lia.
Qed.

(** The raft state after [append_store], but for the commit index. *)
Definition stored (r : raft_state) (a : raft_append_request) : raft_state :=
  let index := ar_prev_log_index a + 1 in
  set_log (r <| state := FOLLOWER |> <| log_count := store_count r index (le_term (ar_entry a)) |>)
    index (ar_entry a).

Lemma stored_wf r a : raft_wf r -> start_log_index r = 0 -> storable r a -> raft_wf (stored r a).
Proof.
  intros [? ? ? ? ?] H0 (Hi & Hsize & Hc & _). pose proof (store_count_bounds r (ar_prev_log_index a + 1)
    (le_term (ar_entry a)) ltac:(lia)). apply wf_set_log. constructor; cbn; lia.
Qed.

Lemma stored_clean r a : raft_wf r -> start_log_index r = 0 -> storable r a -> clean r -> clean (stored r a).
Proof.
  intros [Ha ? ? ? ?] H0 (Hi & Hsize & Hc & Hr) Hcl j e.
  pose proof (store_count_bounds r (ar_prev_log_index a + 1) (le_term (ar_entry a)) ltac:(lia)).
  unfold stored. unfold LOG_SIZE in *. rewrite log_at_set by (cbn; lia). case_decide; [by intros [= <-]|].
  intros He. pose proof (log_at_range _ _ _ He) as Hj. cbn in Hj. apply (Hcl j).
  rewrite <- He. symmetry.
  refine (log_at_count (r <| state := FOLLOWER |>) (store_count _ _ _) j _ _); [cbn|]; lia.
Qed.

Lemma append_store_total a w :
  raft_wf (raft w) -> site (files_dir (raft w)) -> clean (raft w) -> start_log_index (raft w) = 0 -> storable (raft w) a ->
  exists w', append_store a w = Ok (tt, w') /\ rest (raft w') = rest (raft w) /\
    dirs (disk w') = dirs (disk w).
Proof.
  intros Hwf Hsite Hcl H0 Hst. pose proof Hst as (Hi & Hsize & Hc & _). pose proof (stored_wf _ _ Hwf H0 Hst) as Hwf'.
  pose proof (stored_clean _ _ Hwf H0 Hst Hcl) as Hcl'.
  pose proof (store_count_bounds (raft w) (ar_prev_log_index a + 1) (le_term (ar_entry a)) ltac:(lia)) as Hn.
  pose proof (wf_room _ Hwf) as Hroom. unfold LOG_SIZE in *.
  unfold append_store. rewrite run_bind, run_rmod, run_bind,
    run_int_of by (apply int_ok_spec; unfold INT_MIN, INT_MAX; lia).
  set (index := ar_prev_log_index a + 1) in *. rewrite run_bind, run_rget, run_bind.
  set (w1 := w <| raft ::= fun r => r <| state := FOLLOWER |> |>).
  set (n := store_count (raft w) index (le_term (ar_entry a))) in *.
  assert (raft_wf (raft w1)) as Hwf1 by by destruct Hwf.
  set (w2 := w1 <| raft ::= fun r => r <| log_count := n |> |>).
  set (conflict := (index <? log_count (raft w)) && bool_decide (term_at (raft w) index <> le_term (ar_entry a))).
  assert (andM (index <? log_count (raft w1)) (t ← Raft_get_log_term index;
            mret (bool_decide (t <> le_term (ar_entry a)))) w1 = Ok (conflict, w1)) as ->.
  { unfold andM, conflict. change (log_count (raft w1)) with (log_count (raft w)).
    destruct (index <? _); [|done]. rewrite run_bind, get_log_term_total by done. done. }
  assert ((if conflict then m ← int_of (index + 1); rmod (fun r => r <| log_count := m |>)
           else when (log_count (raft w1) =? index)
             (m ← int_of (log_count (raft w1) + 1); rmod (fun r => r <| log_count := m |>))) w1 = Ok (tt, w2)) as E2.
  { unfold w2, n, store_count. fold conflict. change (log_count (raft w1)) with (log_count (raft w)).
    destruct conflict.
    - rewrite run_bind, run_int_of by (apply int_ok_spec; unfold INT_MIN, INT_MAX; lia). done.
    - destruct (log_count (raft w) =? index); cbn [when].
      + rewrite run_bind, run_int_of by (apply int_ok_spec; unfold INT_MIN, INT_MAX; lia). done.
      + unfold skip. by destruct w as [[]]. }
  rewrite run_bind, E2. unfold rself, gets. rewrite run_bind. cbn beta iota.
  assert (raft_wf (raft w2)) as Hwf2 by (destruct Hwf; constructor; unfold LOG_SIZE in *; unfold w2, w1; cbn; lia).
  rewrite run_bind, log_store_total by (done || (unfold w2, w1; cbn; lia)). rewrite run_bind, run_rget.
  set (w3 := w2 <| raft := set_log (raft w2) index (ar_entry a) |>).
  assert (raft_wf (raft w3)) as Hwf3 by exact Hwf'.
  destruct (commit_index (raft w3) <? ar_leader_commit a) eqn:Hlc; cbn [when].
  - destruct (commit_update_total (if index <? ar_leader_commit a then index else ar_leader_commit a) w3 Hwf3 Hsite Hcl')
      as (d & -> & Hd); [cbn; unfold INT_MAX; lia| |].
    { cbn. destruct (Z.ltb_spec index (ar_leader_commit a)); lia. }
    eexists. split; [reflexivity|]. split; [done|exact Hd].
  - by exists w3.
Qed.

Lemma append_heartbeat_total a w :
  raft_wf (raft w) -> site (files_dir (raft w)) -> clean (raft w) -> log_count (raft w) <= INT_MAX -> ar_leader_commit a < log_count (raft w) ->
  exists w', append_heartbeat a w = Ok (tt, w') /\ rest (raft w') = rest (raft w) /\
    dirs (disk w') = dirs (disk w).
Proof.
  intros Hwf Hsite Hcl Hmax Hlc. unfold append_heartbeat. rewrite run_bind, run_rmod, run_bind, run_rget.
  destruct (_ <? _); cbn [when]; [|by eexists].
  match goal with |- context [Raft_commit_update ?c ?w1] => destruct (commit_update_total c w1) as (d & -> & Hd) end;
    [by destruct Hwf|done|done|done|done|]. eexists. split; [reflexivity|]. split; [done|exact Hd].
Qed.

(** A request the follower can handle. *)
Definition handled (r : raft_state) (a : raft_append_request) : Prop :=
  refuses r a = false ->
  if ar_entries_n a =? 0 then ar_leader_commit a < log_count r else storable r a.

(** What the rounds need of the follower, apart from its log. *)
Record healthy (w : world) : Prop := {
  hl_lock : lock_flag (raft w) = 0;
  hl_wf : raft_wf (raft w);
  hl_start : start_log_index (raft w) = 0;
  hl_ready : disk_ready w;
  hl_install : install_snapshot_id (raft w) = -1;
  hl_site : site (files_dir (raft w));
  hl_clean : clean (raft w)
}.

Lemma append_request_total addr a w :
  healthy w -> handled (raft w) a ->
  exists w', Raft_handle_append_request addr a w = Ok (tt, w') /\ rest (raft w') = rest (raft w) /\
    disk_ready w'.
Proof.
  intros [Hl Hwf H0 [Hd1 Hd2 Hd3] Hinst Hsite Hcl] Hh. unfold Raft_handle_append_request.
  pose proof (wf_room _ Hwf) as Hroom. unfold LOG_SIZE in Hroom.
  rewrite run_bind, run_lock_acquire by done. rewrite run_bind, run_rget.
  set (w0 := w <| raft ::= fun r => r <| lock_flag := 1 |> |>).
  assert (exists w1, when (current_term (raft w0) <? ar_term a) (Raft_convert_to_follower (ar_term a)) w0 = Ok (tt, w1) /\
            disk w1 = disk w /\ rest (raft w1) = rest (raft w0)) as (w1 & E1 & Hdk & Hfd).
  { destruct (_ <? _); cbn [when]; [|by exists w0]. unfold Raft_convert_to_follower.
    rewrite run_bind, run_rmod, run_bind, run_rget. rewrite decide_False by (cbn; auto). by eexists. }
  pose proof (convert_when _ _ _ _ _ E1 eq_refl) as (Hlv & _ & Ht1 & _).
  change (lview (raft w0)) with (lview (raft w)) in Hlv.
  pose proof (refuses_bumped (raft w) (raft w1) a Hlv Ht1) as Href.
  pose proof (lview_wf _ _ Hlv Hwf) as Hwf1. pose proof (clean_lview _ _ Hlv Hcl) as Hcl1.
  rewrite run_bind, E1. unfold rself, gets. rewrite run_bind. cbn beta iota. rewrite run_bind.
  assert (append_refused a w1 = Ok (refuses (raft w) a, w1)) as ->.
  { rewrite <- Href. unfold append_refused, refuses, rself, gets, orM. rewrite run_bind. cbn beta iota.
    destruct (ar_term a <? _); [reflexivity|]. destruct (_ <=? ar_prev_log_index a); [reflexivity|].
    rewrite run_bind, get_log_term_total by done. done. }
  pose proof Hlv as Hlv'. unfold lview in Hlv'. injection Hlv' as EL ES EN EC.
  assert (site (files_dir (raft w1))) as Hsite1 by (unfold rest in Hfd; injection Hfd as _ -> _ _; done).
  assert (exists s w2, (if refuses (raft w) a then mret 0
      else if ar_entries_n a =? 0 then append_heartbeat a;; mret 1 else append_store a;; mret 1) w1 = Ok (s, w2) /\
      rest (raft w2) = rest (raft w1) /\ dirs (disk w2) = dirs (disk w1)) as (s & w2 & E2 & Hfd2 & Hdk2).
  { unfold handled in Hh. destruct (refuses (raft w) a); [by exists 0, w1|]. specialize (Hh eq_refl).
    destruct (ar_entries_n a =? 0).
    - destruct (append_heartbeat_total a w1) as (w2 & E & H1 & H2); [done|done|done|unfold INT_MAX; lia|by rewrite EN|].
      exists 1, w2. by rewrite run_bind, E.
    - destruct (append_store_total a w1) as (w2 & E & H1 & H2); [done|done|done|congruence| |].
      + unfold storable, store_count, term_at in *. by rewrite (lview_log_at _ _ _ Hlv), EN, EC.
      + exists 1, w2. by rewrite run_bind, E. }
  assert (rest (raft w2) = rest (raft w0)) as Hrest by congruence.
  unfold rest in Hrest. injection Hrest as Hl2 Hf2 Hi2 Hid2.
  assert (disk_ready w2) as Hr2 by (split; rewrite Hf2, ?Hdk2, ?Hdk; done).
  rewrite run_bind, E2, run_bind, save_state_total by done.
  unfold UDP_send, modify. rewrite run_bind. cbn beta iota. rewrite run_lock_release by done.
  eexists. split; [reflexivity|]. split.
  - unfold rest. cbn. by rewrite Hf2, Hi2, Hid2, Hl.
  - by destruct Hr2.
Qed.

(** A request handled: the follower stays healthy and its log is [appended]. *)
Lemma appended_wf r a c :
  raft_wf r -> start_log_index r = 0 -> handled r a -> lview c = appended r a -> raft_wf c.
Proof.
  intros Hwf H0 Hh E. unfold appended, handled in *. pose proof Hwf as [].
  destruct (refuses r a); [by apply (lview_wf r)|]. specialize (Hh eq_refl). destruct (ar_entries_n a =? 0).
  - apply (lview_wf (r <| commit_index := if commit_index r <? ar_leader_commit a
      then ar_leader_commit a else commit_index r |>)); [exact E|].
    destruct (Z.ltb_spec (commit_index r) (ar_leader_commit a)); constructor; cbn; lia.
  - apply (lview_wf ((stored r a) <| commit_index :=
      store_commit r (ar_prev_log_index a + 1) (ar_leader_commit a) |>)); [exact E|].
    pose proof (stored_wf r a Hwf H0 Hh) as []. pose proof Hh as (Hi & Hsz & Hc & _).
    pose proof (store_count_bounds r (ar_prev_log_index a + 1) (le_term (ar_entry a)) ltac:(lia)).
    cbn in *. unfold store_commit.
    destruct (Z.ltb_spec (commit_index r) (ar_leader_commit a));
      [destruct (Z.ltb_spec (ar_prev_log_index a + 1) (ar_leader_commit a))|]; constructor; cbn; lia.
Qed.

Lemma appended_clean r a c :
  raft_wf r -> start_log_index r = 0 -> handled r a -> clean r -> lview c = appended r a -> clean c.
Proof.
  intros Hwf H0 Hh Hcl E. unfold appended, handled in *.
  destruct (refuses r a); [by apply (clean_lview r)|]. specialize (Hh eq_refl). destruct (ar_entries_n a =? 0).
  - by apply (clean_lview (r <| commit_index := if commit_index r <? ar_leader_commit a
      then ar_leader_commit a else commit_index r |>)).
  - apply (clean_lview ((stored r a) <| commit_index :=
      store_commit r (ar_prev_log_index a + 1) (ar_leader_commit a) |>)); [exact E|].
    exact (stored_clean r a Hwf H0 Hh Hcl).
Qed.

Lemma appended_start r a c : lview c = appended r a -> start_log_index c = start_log_index r.
Proof. unfold appended, lview. destruct (refuses r a), (ar_entries_n a =? 0); by intros [= _ -> _ _]. Qed.

Lemma follower_round addr a w :
  healthy w -> handled (raft w) a ->
  exists w', Raft_handle_append_request addr a w = Ok (tt, w') /\ healthy w' /\
    lview (raft w') = appended (raft w) a /\ raft_id (raft w') = raft_id (raft w) /\
    current_term (raft w') = Z.max (current_term (raft w)) (ar_term a) /\
    last_packet w' = Some (RESPONSE {| rp_id := raft_id (raft w);
      rp_term := Z.max (current_term (raft w)) (ar_term a);
      rp_success := if refuses (raft w) a then 0 else 1; rp_request_id := ar_request_id a |}).
Proof.
  intros Hw Hh. destruct (append_request_total addr a w Hw Hh) as (w' & E & Hrest & Hr).
  exists w'. split; [done|]. destruct Hw as [Hl Hwf H0 _ Hinst Hsite Hcl].
  pose proof (append_handler_ok _ _ _ _ E) as (_ & Hlv & _ & Ht & Ho & _).
  unfold rest in Hrest. injection Hrest as Hl' Hf' Hi' Hid'.
  split; [|split; [done|split; [done|split; [done|]]]].
  - split; [congruence|by eapply appended_wf| |done|congruence|congruence|by eapply appended_clean].
    by rewrite (appended_start _ _ _ Hlv).
  - unfold last_packet. by rewrite Ho, list.last_snoc.
Qed.

(** * The leader *)

Section leader.
Context (term fid : Z) (laddr faddr : sockaddr_in).
Context (uninit_e : raft_log_entry) (uninit_s : raft_install_snapshot_request).

(** The leader thread of [fid] stands at entry [n]; from [lo] on no count of
    replicas is at its limit; [f] is the lock. *)
Record leading (f n rid lo : Z) (w : world) : Prop := {
  ld_lock : lock_flag (raft w) = f;
  ld_wf : raft_wf (raft w);
  ld_start : start_log_index (raft w) = 0;
  ld_ready : disk_ready w;
  ld_state : state (raft w) = LEADER;
  ld_term : current_term (raft w) = term;
  ld_next : arr_get (next_index (raft w)) fid = Ok n;
  ld_range : 0 <= n <= log_count (raft w);
  ld_match : exists m, arr_get (match_index (raft w)) fid = Ok m;
  ld_response : exists x, arr_get (last_request_response (raft w)) fid = Ok x;
  ld_request : arr_get (last_request_id (raft w)) fid = Ok rid;
  ld_counts : forall i e, lo <= i -> log_at (raft w) i = Some e -> 0 <= le_n_servers_replicated e < INT_MAX;
  ld_site : site (files_dir (raft w));
  ld_clean : clean (raft w)
}.

(** What it sends. *)
Definition request_for (r : raft_state) (n rid : Z) : raft_append_request := {|
  ar_term := current_term r; ar_leader_id := raft_id r;
  ar_prev_log_index := n - 1; ar_prev_log_term := term_at r (n - 1);
  ar_entry := default uninit_e (log_at r n);
  ar_entries_n := if n =? log_count r then 0 else 1;
  ar_leader_commit := commit_index r; ar_request_id := rid |}.

Lemma leading_answered f n rid lo addr p w : leading f n rid lo w -> leading 0 n rid lo (answered addr p w).
Proof. intros []. split; try done; [by destruct ld_wf0|by destruct ld_ready0]. Qed.

Lemma leader_sends n rid lo w :
  leading 0 n rid lo w ->
  exists w', Raft_leader_thread uninit_e uninit_s fid faddr Leader_loop w = Ok (Leader_loop, w') /\
    leading 0 n rid lo w' /\ lview (raft w') = lview (raft w) /\
    last_packet w' = Some (APPEND (request_for (raft w) n rid)).
Proof.
  intros Hl. pose proof Hl as [? Hwf H0 ? ? ? ? Hr ? ? ? ? ? ?]. pose proof (wf_room _ Hwf) as Hroom.
  unfold LOG_SIZE in Hroom.
  exists (answered faddr (APPEND (request_for (raft w) n rid)) w).
  split; [|split; [by eapply leading_answered|split; [done|apply last_packet_answered]]].
  cbn [Raft_leader_thread]. rewrite run_bind, run_lock_acquire by done.
  fold (acquired w). rewrite run_bind, run_rget, decide_False by auto.
  rewrite run_bind, (run_idx_get _ _ n), run_bind, run_rget by done.
  change (start_log_index (raft (acquired w))) with (start_log_index (raft w)).
  rewrite H0, (proj2 (Z.ltb_ge n 0)) by lia.
  assert (raft_wf (raft (acquired w))) as Hwf' by by destruct Hwf.
  unfold Raft_send_append_entry_request. rewrite !run_bind. unfold rself, gets. cbn beta iota.
  rewrite run_bind, (run_idx_get _ _ n), run_bind by done.
  rewrite run_int_of by (apply int_ok_spec; unfold INT_MIN, INT_MAX; lia).
  rewrite run_bind, get_log_term_total, run_bind, (run_idx_get _ _ rid) by done.
  change (term_at (raft (acquired w))) with (term_at (raft w)).
  rewrite run_bind.
  assert ((if n =? log_count (raft (acquired w)) then mret (0, uninit_e)
           else e ← log_deref (Raft_get_log (raft (acquired w)) n); mret (1, e)) (acquired w) =
          Ok ((if n =? log_count (raft w) then 0 else 1,
               if n =? log_count (raft w) then uninit_e else default uninit_e (log_at (raft w) n)), acquired w)) as ->.
  { change (log_count (raft (acquired w))) with (log_count (raft w)).
    destruct (Z.eqb_spec n (log_count (raft w))); [done|].
    destruct (log_at_some (raft w) n Hwf) as [e He]; [lia|].
    rewrite run_bind. rewrite (proj2 (log_deref_at (acquired w) n e (acquired w))) by done. by rewrite He. }
  unfold UDP_send, modify. cbn beta iota. rewrite run_bind, run_lock_release by done. rewrite run_ret.
  f_equal. f_equal. unfold answered, request_for. cbn.
  destruct (Z.eqb_spec n (log_count (raft w))) as [->|]; [|done].
  destruct (log_at (raft w) (log_count (raft w))) eqn:He; [|done]. apply log_at_range in He. lia.
Qed.

Lemma count_replica_total i e w :
  raft_wf (raft w) -> log_at (raft w) i = Some e -> 0 <= le_n_servers_replicated e < INT_MAX ->
  let k := le_n_servers_replicated e + 1 in
  count_replica i w = Ok (k, w <| raft := set_log (raft w) i (e <| le_n_servers_replicated := k |>) |>).
Proof.
  intros Hwf He Hk k. pose proof (log_at_range _ _ _ He). unfold count_replica, rself, gets. rewrite run_bind.
  cbn beta iota. rewrite run_bind, (proj2 (log_deref_at w i e w)) by done.
  rewrite run_bind, run_int_of by (apply int_ok_spec; unfold INT_MIN; lia).
  by rewrite run_bind, log_store_total by done.
Qed.

(** The entries stay, but for the counts, and the commit index does not go back. *)
Record keeps_log (w w' : world) : Prop := {
  kl_key : forall i, key_at (raft w') i = key_at (raft w) i;
  kl_count : log_count (raft w') = log_count (raft w);
  kl_commit : commit_index (raft w) <= commit_index (raft w')
}.

#[local] Instance keeps_log_preorder : PreOrder keeps_log.
Proof.
  split; [by split|]. intros w1 w2 w3 [K1 N1 C1] [K2 N2 C2]. split; [|congruence|lia].
  intros i. by rewrite K2.
Qed.

Lemma lview_keeps_log w w' : lview (raft w') = lview (raft w) -> keeps_log w w'.
Proof.
  intros Hv. split; [intros i; unfold key_at; by rewrite (lview_log_at _ _ _ Hv)|..];
    unfold lview in Hv; injection Hv as _ _ ? ?; lia.
Qed.

Lemma leading_weaken f n rid lo lo' w : leading f n rid lo w -> lo <= lo' -> leading f n rid lo' w.
Proof. intros [] Hlo. split; try done. intros i e Hi. apply ld_counts0. lia. Qed.

(** The entry is counted, and perhaps committed. *)
Lemma counted f n rid lo w r :
  leading f n rid lo w -> lo <= n < log_count (raft w) -> r = raft w ->
  exists w', (majority ← andM (commit_index r <? n)
       (t ← Raft_get_log_term n;
        andM (t =? current_term r) (k ← count_replica n; mret (N_SERVERS <? k * 2)));
     when majority (Raft_commit_update n)) w = Ok (tt, w') /\
    leading f n rid (n + 1) w' /\ keeps_log w w'.
Proof.
  intros Hl Hn ->. pose proof Hl as []. pose proof ld_wf0 as Hwf.
  pose proof (wf_room _ Hwf) as Hroom. unfold LOG_SIZE in Hroom.
  assert (leading f n rid (n + 1) w) as Hl1 by (by apply (leading_weaken f n rid lo); [|lia]).
  destruct (Z.ltb_spec (commit_index (raft w)) n) as [Hc|Hc]; cbn [andM]; [|by exists w].
  rewrite !run_bind. rewrite get_log_term_total by done.
  destruct (log_at_some (raft w) n Hwf) as [e He]; [lia|].
  destruct (term_at (raft w) n =? current_term (raft w)); cbn [andM]; [|by exists w].
  rewrite run_bind, (count_replica_total n e) by first [done | apply (ld_counts0 n); [lia|done]].
  set (e' := e <| le_n_servers_replicated := le_n_servers_replicated e + 1 |>).
  set (w1 := w <| raft := set_log (raft w) n e' |>).
  assert (forall i, log_at (raft w1) i = if decide (i = n) then Some e' else log_at (raft w) i) as Hat.
  { intros i. apply log_at_set; [lia|]. pose proof (wf_array _ Hwf). unfold LOG_SIZE in *. lia. }
  assert (clean (raft w1)) as Hcl.
  { intros i e1. rewrite Hat. case_decide; [|apply ld_clean0]. intros <-%(inj Some). exact (ld_clean0 n e He). }
  assert (leading f n rid (n + 1) w1) as Hl2.
  { split; try done; [by apply wf_set_log|by destruct ld_ready0|].
    intros i e1 Hi. rewrite Hat, decide_False by lia. apply ld_counts0. lia. }
  assert (keeps_log w w1) as Hk1.
  { split; [|done|done]. intros i. unfold key_at. rewrite Hat. case_decide as Ei; [|done]. by rewrite Ei, He. }
  rewrite run_ret. destruct (N_SERVERS <? _); cbn [when]; [|by exists w1].
  destruct (commit_update_total n w1) as (d & -> & Hd); [by apply wf_set_log|done|done|cbn; unfold INT_MAX; lia|cbn; lia|].
  eexists. split; [reflexivity|]. split; [|destruct Hk1; split; [done|done|cbn; lia]].
  destruct Hl2 as [? ? ? [? ? ?] ? ? ? ? ? ? ? ? ? ?]. split; try done.
  - destruct ld_wf1. cbn in *. constructor; cbn; try done; lia.
  - split; cbn; [done|by rewrite Hd|done].
Qed.

(** The updates of the leader's arrays. *)
Lemma leading_next f n rid lo d w :
  leading f n rid lo w -> 0 <= n + d <= log_count (raft w) ->
  exists w', idx_add next_index fid d w = Ok (tt, w') /\ leading f (n + d) rid lo w' /\
    lview (raft w') = lview (raft w).
Proof.
  intros [] Hd. pose proof (wf_room _ ld_wf0). unfold LOG_SIZE in *.
  unfold idx_add. rewrite run_bind, (run_idx_get _ _ n) by done.
  rewrite run_bind, run_int_of by (apply int_ok_spec; unfold INT_MIN, INT_MAX; lia).
  destruct (run_idx_set next_index fid (n + d) n w ld_next0) as (l & El & ->).
  eexists. split; [reflexivity|]. split; [|done].
  split; try done; [by destruct ld_wf0|by destruct ld_ready0|by eapply arr_get_set_eq].
Qed.

Lemma leading_match f n rid lo v w :
  leading f n rid lo w ->
  exists w', idx_set match_index fid v w = Ok (tt, w') /\ leading f n rid lo w' /\
    lview (raft w') = lview (raft w).
Proof.
  intros []. destruct ld_match0 as [m Hm].
  destruct (run_idx_set match_index fid v m w Hm) as (l & El & ->).
  eexists. split; [reflexivity|]. split; [|done].
  split; try done; [by destruct ld_wf0|by destruct ld_ready0|exists v; by eapply arr_get_set_eq].
Qed.

Lemma leading_answer f n rid lo v w :
  leading f n rid lo w ->
  exists w', idx_set last_request_response fid v w = Ok (tt, w') /\ leading f n rid lo w' /\
    lview (raft w') = lview (raft w).
Proof.
  intros []. destruct ld_response0 as [m Hm].
  destruct (run_idx_set last_request_response fid v m w Hm) as (l & El & ->).
  eexists. split; [reflexivity|]. split; [|done].
  split; try done; [by destruct ld_wf0|by destruct ld_ready0|exists v; by eapply arr_get_set_eq].
Qed.

Lemma leading_request f n rid lo w :
  leading f n rid lo w -> int_ok (rid + 1) = true ->
  exists w', (idx_add last_request_id fid 1;; Raft_save_state) w = Ok (tt, w') /\
    leading f n (rid + 1) lo w' /\ lview (raft w') = lview (raft w).
Proof.
  intros [] Hint. unfold idx_add. rewrite !run_bind, (run_idx_get _ _ rid) by done.
  rewrite run_bind, run_int_of by done.
  destruct (run_idx_set last_request_id fid (rid + 1) rid w ld_request0) as (l & El & ->).
  rewrite save_state_total by by destruct ld_ready0.
  eexists. split; [reflexivity|]. split; [|done].
  split; try done; [by destruct ld_wf0|by destruct ld_ready0|by eapply arr_get_set_eq].
Qed.

(** Where the leader goes on after the answer [s]. *)
Definition next_after (s n count : Z) : Z :=
  if s =? 0 then n - 1 else if n <? count then n + 1 else n.

Lemma append_response_total f n rid lo s w :
  leading f n rid lo w -> lo <= n -> int_ok (rid + 1) = true -> (s = 0 -> 0 < n) ->
  exists w', Raft_handle_append_response {| rp_id := fid; rp_term := term; rp_success := s;
                                            rp_request_id := rid |} w = Ok (tt, w') /\
    leading f (next_after s n (log_count (raft w))) (rid + 1)
      (if s =? 0 then lo else next_after s n (log_count (raft w))) w' /\
    keeps_log w w'.
Proof.
  intros Hl Hlo Hint Hs. unfold Raft_handle_append_response. cbn [rp_id rp_success].
  assert (exists w1, (if s =? 0 then idx_add next_index fid (-1)
     else n ← idx_get next_index fid; r ← rself;
       when (n <? log_count r)
         (majority ← andM (commit_index r <? n)
             (t ← Raft_get_log_term n;
              andM (t =? current_term r) (k ← count_replica n; mret (N_SERVERS <? k * 2)));
          when majority (Raft_commit_update n);;
          idx_set match_index fid n;;
          idx_add next_index fid 1)) w = Ok (tt, w1) /\
    leading f (next_after s n (log_count (raft w))) rid
      (if s =? 0 then lo else next_after s n (log_count (raft w))) w1 /\
    keeps_log w w1) as (w1 & E1 & Hl1 & Hk1).
  { pose proof (ld_range _ _ _ _ _ Hl). unfold next_after. destruct (Z.eqb_spec s 0) as [->|Hs0].
    - destruct (leading_next f n rid lo (-1) w Hl) as (w1 & E & Hl1 & Hv); [lia|]. exists w1.
      split; [exact E|]. split; [exact Hl1|by apply lview_keeps_log].
    - rewrite run_bind, (run_idx_get _ _ n) by apply Hl. unfold rself, gets. rewrite run_bind. cbn beta iota.
      destruct (Z.ltb_spec n (log_count (raft w))); cbn [when].
      + destruct (counted f n rid lo w (raft w) Hl) as (w1 & E1 & Hl1 & Hk1); [lia|done|].
        destruct (leading_match f n rid (n + 1) n w1 Hl1) as (w2 & E2 & Hl2 & Hv2).
        assert (keeps_log w w2) as Hk2 by (etrans; [exact Hk1|by apply lview_keeps_log]).
        destruct (leading_next f n rid (n + 1) 1 w2 Hl2) as (w3 & E3 & Hl3 & Hv3);
          [rewrite (kl_count _ _ Hk2); lia|].
        exists w3. split; [|split; [exact Hl3|etrans; [exact Hk2|by apply lview_keeps_log]]].
        rewrite run_bind in E1. rewrite run_bind. destruct (andM _ _ w) as [[b w0]|]; [|done].
        by rewrite run_bind, E1, run_bind, E2.
      + exists w. split; [done|]. split; [by eapply leading_weaken|done]. }
  destruct (leading_request _ _ _ _ _ Hl1 Hint) as (w2 & E2 & Hl2 & Hv2).
  exists w2. split; [by rewrite run_bind, E1|split; [exact Hl2|]].
  etrans; [exact Hk1|by apply lview_keeps_log].
Qed.

(** The answer to the request just sent. *)
Lemma leader_round n rid lo s w :
  leading 0 n rid lo w -> lo <= n -> int_ok (rid + 1) = true -> (s = 0 -> 0 < n) ->
  exists w', Raft_handle_response {| rp_id := fid; rp_term := term; rp_success := s;
                                     rp_request_id := rid |} w = Ok (tt, w') /\
    leading 0 (next_after s n (log_count (raft w))) (rid + 1)
      (if s =? 0 then lo else next_after s n (log_count (raft w))) w' /\
    keeps_log w w'.
Proof.
  intros Hl Hlo Hint Hs. unfold Raft_handle_response.
  rewrite run_bind, run_lock_acquire by apply Hl. fold (acquired w).
  assert (leading 1 n rid lo (acquired w)) as Hl0.
  { destruct Hl. split; try done; [by destruct ld_wf0|by destruct ld_ready0]. }
  unfold rself, gets. rewrite run_bind. cbn beta iota. cbn [rp_term rp_id rp_success rp_request_id].
  rewrite (ld_term _ _ _ _ _ Hl0), Z.ltb_irrefl, run_bind.
  destruct (leading_answer 1 n rid lo s _ Hl0) as (w1 & -> & Hl1 & Hv1).
  change (lview (raft (acquired w))) with (lview (raft w)) in Hv1.
  rewrite decide_False by by rewrite (ld_state _ _ _ _ _ Hl0).
  rewrite run_bind, decide_True by apply Hl0.
  rewrite run_bind, (run_idx_get _ _ rid) by apply Hl1. rewrite Z.eqb_refl. cbn [when].
  rewrite run_bind, (run_idx_get _ _ n) by apply Hl1.
  rewrite (ld_start _ _ _ _ _ Hl0), (proj2 (Z.ltb_ge n 0)) by apply Hl1.
  destruct (append_response_total 1 n rid lo s w1 Hl1 Hlo Hint Hs) as (w2 & -> & Hl2 & Hk2).
  apply lview_keeps_log in Hv1. rewrite (kl_count _ _ Hv1) in Hl2. rewrite run_lock_release by apply Hl2.
  eexists. split; [reflexivity|]. split.
  - destruct Hl2. split; try done; [by destruct ld_wf0|by destruct ld_ready0].
  - etrans; [exact Hv1|]. etrans; [exact Hk2|by apply lview_keeps_log].
Qed.

(** * The two logs *)

(** The logs agree below [n]. *)
Definition shared (n : Z) (rl rf : raft_state) : Prop := forall j, j < n -> key_at rl j = key_at rf j.

(** Two entries of one term at one index make everything up to them shared. *)
Definition matching (rl rf : raft_state) : Prop :=
  forall i k k', key_at rl i = Some k -> key_at rf i = Some k' -> le_term k = le_term k' -> shared (i + 1) rl rf.

(** The leader has what the follower has committed. *)
Definition complete (rl rf : raft_state) : Prop :=
  commit_index rf < log_count rl /\ shared (commit_index rf + 1) rl rf.

Lemma key_at_range r i k : raft_wf r -> key_at r i = Some k -> start_log_index r <= i < log_count r.
Proof. unfold key_at. intros _ H. destruct (log_at r i) eqn:E; [|done]. by apply log_at_range in E. Qed.

Lemma key_at_in r i : raft_wf r -> start_log_index r <= i < log_count r -> is_Some (key_at r i).
Proof. intros Hwf Hi. unfold key_at. destruct (log_at_some r i Hwf Hi) as [e ->]. by eexists. Qed.

Lemma key_at_below r i : start_log_index r = 0 -> i < 0 -> key_at r i = None.
Proof. intros H0 Hi. unfold key_at. destruct (log_at r i) eqn:E; [|done]. apply log_at_range in E. lia. Qed.

Lemma term_at_key r i k : key_at r i = Some k -> term_at r i = le_term k.
Proof. unfold key_at, term_at. destruct (log_at r i); [|done]. by intros [= <-]. Qed.

Lemma shared_zero rl rf : start_log_index rl = 0 -> start_log_index rf = 0 -> shared 0 rl rf.
Proof. intros Hl Hf j Hj. by rewrite !key_at_below. Qed.

(** Shared entries are in the follower's log. *)
Lemma shared_count n rl rf :
  raft_wf rl -> raft_wf rf -> start_log_index rl = 0 -> n <= log_count rl -> shared n rl rf -> n <= log_count rf.
Proof.
  intros Hl Hf H0 Hn Hs. destruct (Z.le_gt_cases n 0).
  - pose proof (wf_commit_low _ Hf). pose proof (wf_commit_high _ Hf). pose proof (wf_start _ Hf). lia.
  - destruct (key_at_in rl (n - 1) Hl) as [k Hk]; [lia|]. rewrite (Hs (n - 1)) in Hk by lia.
    apply key_at_range in Hk; [lia|done].
Qed.

(** The test of the follower finds out whether the logs are shared. *)
Lemma refuses_shared rl rf n rid :
  raft_wf rl -> raft_wf rf -> start_log_index rl = 0 -> start_log_index rf = 0 ->
  0 <= n <= log_count rl -> current_term rf <= current_term rl -> matching rl rf ->
  refuses rf (request_for rl n rid) = false <-> shared n rl rf.
Proof.
  intros Hl Hf Hl0 Hf0 Hn Ht Hm. unfold refuses, request_for. cbn.
  rewrite (proj2 (Z.ltb_ge _ _)) by lia. cbn [orb]. rewrite orb_false_iff, Z.leb_gt, bool_decide_eq_false. split.
  - intros [Hc Hterm%dec_stable]. destruct (decide (n = 0)) as [->|Hne]; [by apply shared_zero|].
    destruct (key_at_in rl (n - 1) Hl) as [k Hk]; [lia|].
    destruct (key_at_in rf (n - 1) Hf) as [k' Hk']; [lia|].
    replace n with (n - 1 + 1) by lia. apply (Hm _ _ _ Hk Hk').
    by rewrite <- (term_at_key _ _ _ Hk), <- (term_at_key _ _ _ Hk').
  - intros Hs. pose proof (shared_count n rl rf Hl Hf Hl0 ltac:(lia) Hs). split; [lia|].
    intros Hne. apply Hne. symmetry. apply key_at_term, Hs. lia.
Qed.

(** Such a request can be handled. *)
Lemma request_handled rl rf n rid :
  raft_wf rl -> raft_wf rf -> start_log_index rl = 0 -> start_log_index rf = 0 ->
  0 <= n <= log_count rl -> shared n rl rf -> complete rl rf -> clean rl -> handled rf (request_for rl n rid).
Proof.
  intros Hl Hf Hl0 Hf0 Hn Hs [Hc Hsc] Hcl _. pose proof (shared_count n rl rf Hl Hf Hl0 ltac:(lia) Hs) as Hnf.
  pose proof (wf_commit_high _ Hl). pose proof (wf_commit_high _ Hf). pose proof (wf_room _ Hl).
  unfold request_for. cbn. destruct (Z.eqb_spec n (log_count rl)) as [->|Hne]; cbn; [lia|].
  unfold storable. cbn. replace (n - 1 + 1) with n by lia. split; [lia|]. split; [lia|]. split; [|
    destruct (log_at_some rl n Hl) as [e He]; [lia|]; rewrite He; by apply (Hcl n)].
  unfold store_count. destruct (Z.ltb_spec n (log_count rf)); cbn [andb].
  - case_bool_decide as Hterm; [|destruct (log_count rf =? n); lia].
    destruct (Z.le_gt_cases (commit_index rf) n); [lia|]. exfalso. apply Hterm.
    destruct (key_at_in rl n Hl) as [k Hk]; [lia|]. unfold key_at in Hk.
    destruct (log_at rl n) as [e|] eqn:He; [|done]. cbn.
    transitivity (term_at rl n); [symmetry; apply key_at_term, Hsc; lia|]. unfold term_at. by rewrite He.
  - destruct (Z.eqb_spec (log_count rf) n); lia.
Qed.

(** The follower's log after it stored entry [n] of the leader. *)
Lemma stored_keys rl rf rf' n rid :
  raft_wf rl -> raft_wf rf -> start_log_index rl = 0 -> start_log_index rf = 0 ->
  0 <= n < log_count rl -> n <= log_count rf -> refuses rf (request_for rl n rid) = false ->
  lview rf' = appended rf (request_for rl n rid) ->
  (forall j, key_at rf' j = if decide (j = n) then key_at rl n
                            else if j <? log_count rf' then key_at rf j else None) /\
  (log_count rf' = log_count rf \/ log_count rf' = n + 1) /\
  (commit_index rf' = commit_index rf \/ commit_index rf' <= n) /\
  (n + 1 < log_count rf' -> term_at rf n = term_at rl n).
Proof.
  intros Hl Hf Hl0 Hf0 Hn Hnf Href Hv. destruct (log_at_some rl n Hl) as [e He]; [lia|].
  unfold appended in Hv. rewrite Href in Hv. unfold request_for in Hv. cbn in Hv.
  rewrite (proj2 (Z.eqb_neq n _)), He in Hv by lia. cbn in Hv.
  replace (n - 1 + 1) with n in Hv by lia.
  pose proof (store_count_bounds rf n (le_term e) ltac:(lia)) as Hb.
  pose proof (wf_array _ Hf) as Ha. pose proof (wf_room _ Hl) as Hroom. unfold LOG_SIZE in *.
  assert (log_count rf' = store_count rf n (le_term e) /\ commit_index rf' = store_commit rf n (commit_index rl))
    as [En Ec] by (by unfold lview in Hv; injection Hv).
  split; [|split; [|split]].
  - intros j. rewrite En. unfold key_at. rewrite (lview_log_at_set rf rf' n e _ _ j Hv) by lia.
    case_decide as Hj; [by rewrite He|]. destruct (Z.ltb_spec j (store_count rf n (le_term e))); [|done].
    by rewrite log_at_count by lia.
  - rewrite En. unfold store_count. destruct (_ && _); [auto|]. destruct (Z.eqb_spec (log_count rf) n); lia.
  - rewrite Ec. unfold store_commit. destruct (commit_index rf <? commit_index rl); [|auto].
    right. destruct (Z.ltb_spec n (commit_index rl)); lia.
  - rewrite En. unfold store_count. destruct (Z.ltb_spec n (log_count rf)); cbn [andb].
    + case_bool_decide as Ht; [lia|]. intros _. rewrite Ht.
      unfold term_at. by rewrite He.
    + destruct (Z.eqb_spec (log_count rf) n); lia.
Qed.

(** One more entry is shared, and the logs still match. *)
Lemma stored_shared rl rf rf' n rid :
  raft_wf rl -> raft_wf rf -> raft_wf rf' -> start_log_index rl = 0 -> start_log_index rf = 0 ->
  0 <= n < log_count rl -> shared n rl rf -> matching rl rf -> complete rl rf ->
  refuses rf (request_for rl n rid) = false -> lview rf' = appended rf (request_for rl n rid) ->
  shared (n + 1) rl rf' /\ matching rl rf' /\ complete rl rf'.
Proof.
  intros Hl Hf Hf' Hl0 Hf0 Hn Hs Hm [Hc Hsc] Href Hv.
  pose proof (shared_count n rl rf Hl Hf Hl0 ltac:(lia) Hs) as Hnf.
  destruct (stored_keys rl rf rf' n rid Hl Hf Hl0 Hf0 Hn Hnf Href Hv) as (Hk & Hcount & Hcommit & Hterm).
  pose proof (wf_commit_high _ Hf'). pose proof (wf_commit_high _ Hf).
  assert (forall j, shared j rl rf -> j <= log_count rf' -> shared j rl rf') as Hkeep.
  { intros j Hj Hle i Hi. rewrite Hk. case_decide as Ei; [by subst|].
    rewrite (proj2 (Z.ltb_lt i _)) by lia. by apply Hj. }
  assert (n < log_count rf') as Hn'.
  { destruct (key_at_in rl n Hl) as [k Hkn]; [lia|]. specialize (Hk n). rewrite decide_True in Hk by done.
    rewrite Hkn in Hk. apply key_at_range in Hk; [lia|done]. }
  assert (shared (n + 1) rl rf') as Hs1.
  { intros j Hj. rewrite Hk. case_decide as Ej; [by subst|].
    rewrite (proj2 (Z.ltb_lt j _)) by lia. apply Hs. lia. }
  split; [done|]. split.
  - intros i k k' Hki Hki' Ht. destruct (Z.le_gt_cases i n).
    + intros j Hj. apply Hs1. lia.
    + pose proof (key_at_range _ _ _ Hf' Hki') as Hri. rewrite Hk, decide_False in Hki' by lia.
      rewrite (proj2 (Z.ltb_lt i _)) in Hki' by lia. apply Hkeep; [by apply (Hm i k k')|lia].
  - split; [lia|]. destruct Hcommit as [Ec|Hle].
    + rewrite Ec in *. by apply Hkeep; [|lia].
    + intros j Hj. apply Hs1. lia.
Qed.

(** The two servers between two rounds. *)
Record paired (n rid lo : Z) (wl wf : world) : Prop := {
  pr_leader : leading 0 n rid lo wl;
  pr_follower : healthy wf;
  pr_id : raft_id (raft wf) = fid;
  pr_term : current_term (raft wf) <= term;
  pr_matching : matching (raft wl) (raft wf);
  pr_complete : complete (raft wl) (raft wf)
}.

(** A round: the leader thread sends, the follower answers, the leader takes the
    answer. *)
Definition exchange (wl wf : world) : outcome (world * world) :=
  match Raft_leader_thread uninit_e uninit_s fid faddr Leader_loop wl with
  | Ok (Leader_loop, wl1) =>
      match last_packet wl1 with
      | None => Fault Blocked
      | Some p =>
          match Raft_dispatch laddr p wf with
          | Fault f => Fault f
          | Ok (_, wf') =>
              match last_packet wf' with
              | None => Fault Blocked
              | Some a =>
                  match Raft_dispatch faddr a wl1 with
                  | Fault f => Fault f
                  | Ok (_, wl') => Ok (wl', wf')
                  end
              end
          end
      end
  | Ok (_, _) => Fault Blocked
  | Fault f => Fault f
  end.

Fixpoint exchanges (k : nat) (wl wf : world) : outcome (world * world) :=
  match k with
  | O => Ok (wl, wf)
  | S k' => r ← exchange wl wf; exchanges k' r.1 r.2
  end.

Lemma shared_keeps n wl wl' rf : keeps_log wl wl' -> shared n (raft wl) rf -> shared n (raft wl') rf.
Proof. intros Hk Hs j Hj. rewrite (kl_key _ _ Hk). by apply Hs. Qed.

Lemma paired_keeps n rid lo wl wl' wf rf :
  keeps_log wl wl' -> leading 0 n rid lo wl' -> healthy wf -> raft_id (raft wf) = fid ->
  current_term (raft wf) <= term -> rf = raft wf ->
  matching (raft wl) rf -> complete (raft wl) rf -> paired n rid lo wl' wf.
Proof.
  intros Hk Hl Hf Hid Ht -> Hm [Hc Hs]. split; try done.
  - intros i k k' Hi Hi' E. apply (shared_keeps _ wl); [done|]. apply (Hm i k k'); [|done..].
    by rewrite <- (kl_key _ _ Hk).
  - split; [by rewrite (kl_count _ _ Hk)|by apply (shared_keeps _ wl)].
Qed.

Lemma key_at_same r r' :
  raft_log r' = raft_log r -> start_log_index r' = start_log_index r -> log_count r' = log_count r ->
  forall i, key_at r' i = key_at r i.
Proof. intros E1 E2 E3 i. unfold key_at, log_at. by rewrite E1, E2, E3. Qed.

(** The follower's log is as it was. *)
Lemma follower_same rl rf rf' :
  (forall i, key_at rf' i = key_at rf i) -> matching rl rf ->
  (forall n, shared n rl rf -> shared n rl rf') /\ matching rl rf'.
Proof.
  intros Hk Hm. assert (forall n, shared n rl rf -> shared n rl rf') as Hs.
  { intros n Hn j Hj. rewrite Hk. by apply Hn. }
  split; [done|]. intros i k k' Hi Hi' E. apply Hs. rewrite Hk in Hi'. by apply (Hm i k k').
Qed.

(** The follower after a heartbeat it accepted. *)
Lemma heartbeat_complete n rl rf rf' a :
  raft_wf rl -> matching rl rf -> complete rl rf -> shared n rl rf -> n = log_count rl ->
  ar_entries_n a = 0 -> ar_leader_commit a = commit_index rl -> refuses rf a = false -> lview rf' = appended rf a ->
  matching rl rf' /\ complete rl rf' /\ shared n rl rf' /\ commit_index rl <= commit_index rf'.
Proof.
  intros Hwl Hm [Hc1 Hc2] Hs En Ea Ec Hr Hv. unfold appended in Hv. rewrite Hr, Ea in Hv. cbn [Z.eqb] in Hv.
  unfold lview in Hv. injection Hv as E1 E2 E3 E4. rewrite Ec in E4. pose proof (wf_commit_high _ Hwl) as Hch.
  destruct (follower_same _ _ _ (key_at_same _ _ E1 E2 E3) Hm) as [Hs' Hm'].
  split; [done|]. split; [|split; [by apply Hs'|]].
  - unfold complete. rewrite E4.
    destruct (Z.ltb_spec (commit_index rf) (commit_index rl)); split; try lia; [|by apply Hs'].
    intros j Hj. apply (Hs' n Hs). lia.
  - rewrite E4. destruct (Z.ltb_spec (commit_index rf) (commit_index rl)); lia.
Qed.

Lemma exchange_round n rid lo wl wf :
  paired n rid lo wl wf -> 0 <= lo <= n -> int_ok (rid + 1) = true ->
  let count := log_count (raft wl) in
  exists wl' wf', exchange wl wf = Ok (wl', wf') /\ keeps_log wl wl' /\
    ((0 < n /\ ~ shared n (raft wl) (raft wf) /\ paired (n - 1) (rid + 1) lo wl' wf') \/
     (n < count /\ shared n (raft wl) (raft wf) /\ paired (n + 1) (rid + 1) (n + 1) wl' wf' /\
      shared (n + 1) (raft wl') (raft wf')) \/
     (n = count /\ paired n (rid + 1) n wl' wf' /\ shared n (raft wl') (raft wf') /\
      commit_index (raft wl) <= commit_index (raft wf'))).
Proof.
  intros [Hl Hf Hid Ht Hm Hc] Hlo Hint count. subst count.
  pose proof (ld_wf _ _ _ _ _ Hl) as Hwl. pose proof (hl_wf _ Hf) as Hwf.
  pose proof (ld_start _ _ _ _ _ Hl) as H0. pose proof (hl_start _ Hf) as Hf0.
  pose proof (ld_range _ _ _ _ _ Hl) as Hn. pose proof (ld_term _ _ _ _ _ Hl) as Et.
  destruct (leader_sends _ _ _ _ Hl) as (wl1 & Esend & Hl1 & Hv1%lview_keeps_log & Hlast1).
  set (a := request_for (raft wl) n rid) in *.
  pose proof (refuses_shared (raft wl) (raft wf) n rid Hwl Hwf H0 Hf0 Hn ltac:(lia) Hm) as Href. fold a in Href.
  assert (handled (raft wf) a) as Hh.
  { intros Hr. apply request_handled; try done; [by apply Href|apply Hl]. }
  destruct (follower_round laddr a wf Hf Hh) as (wf' & Efol & Hf' & Hvf & Hid' & Ht' & Hlastf).
  change (ar_term a) with (current_term (raft wl)) in Ht', Hlastf.
  change (ar_request_id a) with rid in Hlastf.
  rewrite Et, Z.max_r in Ht', Hlastf by lia. rewrite Hid in Hlastf.
  set (sc := if refuses (raft wf) a then 0 else 1) in *.
  assert (sc = 0 -> 0 < n) as Hsc.
  { unfold sc. destruct (refuses (raft wf) a); [|done]. intros _.
    destruct (decide (n = 0)) as [->|]; [|lia]. exfalso. apply diff_true_false, Href. by apply shared_zero. }
  destruct (leader_round n rid lo sc wl1 Hl1 ltac:(lia) Hint Hsc) as (wl2 & Eres & Hl2 & Hk2).
  assert (keeps_log wl wl2) as Hk by (by etrans).
  exists wl2, wf'. split; [|split; [done|]].
  { unfold exchange. rewrite Esend, Hlast1. cbn [Raft_dispatch]. rewrite Efol, Hlastf.
    cbn [Raft_dispatch]. by rewrite Eres. }
  rewrite (kl_count _ _ Hv1) in Hl2. unfold next_after in Hl2. unfold sc in Hl2.
  pose proof (hl_wf _ Hf') as Hwf'. pose proof Hvf as Hvf0. unfold appended in Hvf.
  destruct (refuses (raft wf) a) eqn:Hr; cbn [Z.eqb] in Hl2.
  - left. split; [by apply Hsc|]. split; [intros Hs%Href; done|].
    unfold lview in Hvf. injection Hvf as E1 E2 E3 E4.
    destruct (follower_same _ _ _ (key_at_same _ _ E1 E2 E3) Hm) as [Hs' Hm'].
    eapply paired_keeps; [exact Hk|exact Hl2|done|congruence|lia|done|done|].
    destruct Hc as [Hc Hsc']. split; rewrite E4; auto.
  - assert (shared n (raft wl) (raft wf)) as Hs by by apply Href. right. clear Hsc.
    destruct (Z.ltb_spec n (log_count (raft wl))) as [Hlt|Hge].
    + left. split; [done|]. split; [done|].
      destruct (stored_shared (raft wl) (raft wf) (raft wf') n rid) as (Hs1 & Hm1 & Hc1);
        [done|done|done|done|done|lia|done|done|done|exact Hr|exact Hvf0|].
      split; [|by apply (shared_keeps _ wl)].
      eapply paired_keeps; [exact Hk|exact Hl2|done|congruence|lia|done|done|done].
    + assert (n = log_count (raft wl)) as En by lia. right. split; [done|].
      destruct (heartbeat_complete n (raft wl) (raft wf) (raft wf') a) as (Hm' & Hc' & Hs' & Hle);
        [done|done|done|done|done| |done|done|exact Hvf0|].
      { unfold a, request_for. cbn. by rewrite En, Z.eqb_refl. }
      split; [|split; [by apply (shared_keeps _ wl)|done]].
      by eapply paired_keeps; [exact Hk|exact Hl2|done|congruence|lia|done|done|].
Qed.

(** Rounds until the logs are shared: at most one for each entry below [n], and
    one for each entry of the leader. *)
Lemma exchanges_end k n rid lo wl wf :
  paired n rid lo wl wf -> 0 <= lo <= n -> 0 <= rid -> rid + Z.of_nat k <= INT_MAX ->
  (shared n (raft wl) (raft wf) /\ log_count (raft wl) - n + 1 <= Z.of_nat k \/
   lo = 0 /\ n + log_count (raft wl) + 1 <= Z.of_nat k) ->
  exists wl' wf' rid', exchanges k wl wf = Ok (wl', wf') /\ keeps_log wl wl' /\
    paired (log_count (raft wl)) rid' (log_count (raft wl)) wl' wf' /\
    shared (log_count (raft wl)) (raft wl') (raft wf') /\
    commit_index (raft wl) <= commit_index (raft wf').
Proof.
  revert n rid lo wl wf. induction k as [|k IH]; intros n rid lo wl wf Hp Hlo Hrid Hbound Hphase.
  - pose proof (ld_range _ _ _ _ _ (pr_leader _ _ _ _ _ Hp)). lia.
  - destruct (exchange_round n rid lo wl wf Hp Hlo) as (wl1 & wf1 & E & Hk & Hcase);
      [rewrite int_ok_spec; unfold INT_MIN; lia|].
    pose proof (ld_range _ _ _ _ _ (pr_leader _ _ _ _ _ Hp)) as Hr.
    pose proof (kl_count _ _ Hk) as Hn.
    cbn [exchanges]. rewrite E. cbn [mbind outcome_bind fst snd].
    assert (forall n1 lo1, paired n1 (rid + 1) lo1 wl1 wf1 -> 0 <= lo1 <= n1 ->
      (shared n1 (raft wl1) (raft wf1) /\ log_count (raft wl1) - n1 + 1 <= Z.of_nat k \/
       lo1 = 0 /\ n1 + log_count (raft wl1) + 1 <= Z.of_nat k) ->
      exists wl' wf' rid', exchanges k wl1 wf1 = Ok (wl', wf') /\ keeps_log wl wl' /\
        paired (log_count (raft wl)) rid' (log_count (raft wl)) wl' wf' /\
        shared (log_count (raft wl)) (raft wl') (raft wf') /\
        commit_index (raft wl) <= commit_index (raft wf')) as Hgo.
    { intros n1 lo1 Hp1 Hlo1 Hph1.
      destruct (IH n1 (rid + 1) lo1 wl1 wf1 Hp1 Hlo1) as (wl' & wf' & rid' & E' & Hk' & Hp' & Hs' & Hc');
        [lia|lia|done|]. rewrite Hn in Hp', Hs'. pose proof (kl_commit _ _ Hk).
      exists wl', wf', rid'. split; [done|]. split; [by etrans|]. split; [done|]. split; [done|lia]. }
    destruct Hcase as [(Hpos & Hns & Hp1)|[(Hlt & Hs & Hp1 & Hs1)|(-> & Hp1 & Hs1 & Hc1)]].
    + destruct Hphase as [[Hs _]|[-> Hb]]; [done|]. apply (Hgo _ _ Hp1); [lia|]. right. lia.
    + apply (Hgo _ _ Hp1); [lia|]. left. split; [done|]. lia.
    + destruct k as [|k]; [|apply (Hgo _ _ Hp1); [lia|left; split; [done|lia]]].
      exists wl1, wf1, (rid + 1). split_and!; done.
Qed.
End leader.

(** C16: When every datagram arrives before the next one is sent, next_index +
    count + 1 rounds of the leader thread and a follower of no later term
    bring every entry of the leader's log to the follower, whatever suffix the
    follower had; the leader's entries stay, its next_index for the follower
    becomes its count, and the follower's commit index catches up with the
    leader's. Neither log is compacted and the follower is not receiving a
    snapshot, the logs agree up to any index where their terms agree and up to
    the follower's commit index (log_matching and leader_completeness), the
    commit handler returns on the entries of both, and the counters stay below
    INT_MAX. *)
Theorem replication_converges uninit_e uninit_s fid laddr faddr wl wf n rid k
    (count := log_count (raft wl)) :
  leading (current_term (raft wl)) fid 0 n rid 0 wl -> healthy wf -> raft_id (raft wf) = fid ->
  current_term (raft wf) <= current_term (raft wl) ->
  matching (raft wl) (raft wf) -> complete (raft wl) (raft wf) ->
  0 <= rid -> rid + Z.of_nat k <= INT_MAX -> n + count + 1 <= Z.of_nat k ->
  exists wl' wf', exchanges fid laddr faddr uninit_e uninit_s k wl wf = Ok (wl', wf') /\
    (forall i, key_at (raft wl') i = key_at (raft wl) i) /\
    (forall i, i < count -> key_at (raft wf') i = key_at (raft wl) i) /\
    arr_get (next_index (raft wl')) fid = Ok count /\
    commit_index (raft wl) <= commit_index (raft wf').
Proof.
  intros Hl Hf Hid Ht Hm Hc Hrid Hb Hk.
  destruct (exchanges_end (current_term (raft wl)) fid laddr faddr uninit_e uninit_s k n rid 0 wl wf)
    as (wl' & wf' & rid' & E & Hkeep & Hp & Hs & Hci); [by split| |done|done|right; by split|].
  { pose proof (ld_range _ _ _ _ _ _ _ Hl). lia. }
  exists wl', wf'. split; [exact E|]. split; [apply Hkeep|]. split; [|split; [|exact Hci]].
  - intros i Hi. rewrite <- (kl_key _ _ Hkeep). symmetry. by apply Hs.
  - apply Hp.
Qed.
End replication.
