(* ===== verification/Cluster.v ===== *)
(** The cluster: the servers of a configuration, the threads of each, and the
    datagrams between them.  A step runs one locked segment of one thread, or
    loses or duplicates a datagram; [cstep] computes it. *)
From S2P Require Import Prelude Libc Posix RaftTypes RaftStorage RaftUtils RaftFollower RaftLeader RaftCandidate Raft RaftView ElectionSpec RaftRefine.

(** * Threads *)

(** A thread, at the point where it waits to run its next segment.  The first
    four follow a packet through the rest of [Raft_handle_packet]. *)
Inductive thread :=
  | T_after_packet
  | T_snapshot_begin (new_log_start : Z)
  | T_snapshot_build (new_log_start : Z)
  | T_snapshot_end (new_log_start prev_snap_id : Z)
  | T_election (pc : election_pc)
  | T_leader (follower_id : Z) (addr : sockaddr_in) (pc : leader_pc).

Definition start_thread (t : thread_start) : thread :=
  match t with
  | Raft_election_thread_start => T_election Elect_start
  | Raft_leader_thread_start f a => T_leader f a Leader_loop
  end.

(** What a segment may read besides the state: the clock, [rand], and the
    unset bytes of a packet on the stack. *)
Record inputs := {
  time_diff_msec : Z;
  timeout : Z;
  unset_entry : raft_log_entry;
  unset_install : raft_install_snapshot_request
}.

Section cluster.
Context `{CH : CommitHandler}.

Definition run_thread (i : inputs) (t : thread) : M world (option thread) :=
  match t with
  | T_after_packet =>
      r ← rself;
      mret (if snapshot_due r then Some (T_snapshot_begin (start_log_index r + SNAPSHOT_SIZE))
            else None)
  | T_snapshot_begin new =>
      go ← Raft_create_snapshot_begin new;
      mret (if (go : bool) then Some (T_snapshot_build new) else None)
  | T_snapshot_build new =>
      prev ← Raft_create_snapshot_build new; mret (Some (T_snapshot_end new prev))
  | T_snapshot_end new prev => Raft_create_snapshot_end new prev;; mret None
  | T_election pc =>
      pc' ← Raft_election_thread (time_diff_msec i) (timeout i) pc;
      mret (match pc' with Elect_exit => None | _ => Some (T_election pc') end)
  | T_leader f a pc =>
      pc' ← Raft_leader_thread (unset_entry i) (unset_install i) f a pc;
      mret (match pc' with Leader_exit => None | _ => Some (T_leader f a pc') end)
  end.

(** * The state of the cluster *)

Record node := { n_world : world; n_threads : list thread }.
Record dgram := { d_src : sockaddr_in; d_dst : sockaddr_in; d_pkt : raft_packet }.
Record cluster := { nodes : gmap Z node; net : list dgram }.

Inductive label :=
  | L_deliver (n : Z) (k : nat)
  | L_drop (k : nat)
  | L_duplicate (k : nat)
  | L_timeout (n : Z)
  | L_thread (n : Z) (k : nat) (i : inputs)
  | L_append (n : Z) (e : raft_log_entry)
  | L_committed (n : Z) (term id : Z)
  | L_restart (n sd : Z).

Context (cfg : raft_configuration).

Definition server_of (n : Z) : option raft_server_configuration :=
  snd <$> list_find (fun s => server_id s = n) cfg.

(** The node after a segment: its datagrams leave, its new threads join. *)
Definition settle (n : Z) (own : sockaddr_in) (w : world) (ts : list thread)
    (rest : list dgram) (c : cluster) : cluster :=
  {| nodes := <[n := {| n_world := w <| out := [] |> <| spawned := [] |>;
                        n_threads := ts ++ (start_thread <$> spawned w) |}]> (nodes c);
     net := rest ++ ((fun '(dst, p) => {| d_src := own; d_dst := dst; d_pkt := p |}) <$> out w) |}.

Definition run_on {A} (n : Z) (m : M world A) (ts : list thread -> A -> list thread)
    (rest : list dgram) (c : cluster) : option cluster :=
  match server_of n, nodes c !! n with
  | Some s, Some nd =>
      match m (n_world nd) with
      | Ok (a, w) => Some (settle n (raft_socket s) w (ts (n_threads nd) a) rest c)
      | Fault _ => None
      end
  | _, _ => None
  end.

(** A crash loses the memory and the threads; [Raft_server_restore] starts
    from the disk. *)
Definition cstep (c : cluster) (l : label) : option cluster :=
  match l with
  | L_deliver n k =>
      s ← server_of n; d ← net c !! k;
      if decide (d_dst d = raft_socket s) then
        run_on n (Raft_dispatch (d_src d) (d_pkt d)) (fun ts _ => ts ++ [T_after_packet])
          (delete k (net c)) c
      else None
  | L_drop k => _ ← net c !! k; Some {| nodes := nodes c; net := delete k (net c) |}
  | L_duplicate k => d ← net c !! k; Some {| nodes := nodes c; net := net c ++ [d] |}
  | L_timeout n => run_on n (Raft_RPC_listen_timeout true) (fun ts _ => ts) (net c) c
  | L_thread n k i =>
      nd ← nodes c !! n; t ← n_threads nd !! k;
      run_on n (run_thread i t)
        (fun ts t' => take k ts ++ option_list t' ++ drop (S k) ts) (net c) c
  | L_append n e => run_on n (Raft_append_entry e) (fun ts _ => ts) (net c) c
  | L_committed n term id => run_on n (Raft_is_entry_committed term id) (fun ts _ => ts) (net c) c
  | L_restart n sd =>
      s ← server_of n;
      run_on n (Raft_server_restore (file_directory s) n sd) (fun _ _ => []) (net c) c
  end.

(** Every server freshly initialised on a disk without files. *)
Definition init_disk (s : raft_server_configuration) : fs raft_state :=
  mkFs ∅ {[ file_directory s ]}.
Definition init_node (s : raft_server_configuration) : option node :=
  match Raft_server_init cfg (file_directory s) (server_id s) 0
          {| raft := zero_raft_state; disk := init_disk s; out := []; spawned := [] |} with
  | Ok (_, w) => Some {| n_world := w <| out := [] |> <| spawned := [] |>; n_threads := [] |}
  | Fault _ => None
  end.

Definition init_cluster (c : cluster) : Prop :=
  net c = [] /\
  (forall n, is_Some (nodes c !! n) <-> n ∈ server_id <$> cfg) /\
  (forall s, s ∈ cfg -> nodes c !! server_id s = init_node s).

(** The environment of the safety theorem: the network does not duplicate,
    and a leader thread that waited for a snapshot is not woken while its
    node is a candidate. *)
Definition benign (c : cluster) (l : label) : Prop :=
  match l with
  | L_duplicate _ => False
  | L_thread n k _ =>
      forall nd f a, nodes c !! n = Some nd -> n_threads nd !! k = Some (T_leader f a Snapshot_wait) ->
        state (raft (n_world nd)) <> CANDIDATE
  | _ => True
  end.

Inductive reachable : cluster -> Prop :=
  | reachable_init c : init_cluster c -> reachable c
  | reachable_step c l c' : reachable c -> benign c l -> cstep c l = Some c' -> reachable c'.
End cluster.

(** * Refinement of the election protocol *)

Definition thread_pend (t : thread) : list Z :=
  match t with T_leader _ _ pc => pend_of pc | _ => [] end.
Definition pends (ts : list thread) : list Z := flat_map thread_pend ts.

Definition abs_node (nd : node) : anode := anode_of (n_world nd) (pends (n_threads nd)).
Definition abs_dgram (cfg : raft_configuration) (d : dgram) : msg :=
  abs_packet cfg (d_src d) (d_dst d) (d_pkt d).
Definition abs_cluster (cfg : raft_configuration) (c : cluster) : asys :=
  {| anodes := abs_node <$> nodes c; amsgs := abs_dgram cfg <$> net c |}.

Definition is_leader_thread (t : thread) : bool :=
  match t with T_leader _ _ _ => true | _ => false end.
Definition is_election_start (t : thread) : bool :=
  match t with T_election Elect_start => true | _ => false end.

Definition zero_response : raft_response_packet :=
  {| rp_id := 0; rp_term := 0; rp_success := 0; rp_request_id := 0 |}.

(** A configuration file the servers can run with. *)
Record config_ok (cfg : raft_configuration) : Prop := {
  cfg_length : Z.of_nat (length cfg) = N_SERVERS;
  cfg_ids : NoDup (server_id <$> cfg);
  cfg_ids_pos : -1 ∉ server_id <$> cfg;
  cfg_sockets : NoDup (raft_socket <$> cfg)
}.

Section refinement.
Context `{CH : CommitHandler} `{!CommitHandlerOk CH}.
Context (cfg : raft_configuration) (Hcfg : config_ok cfg).

Lemma pends_app l1 l2 : pends (l1 ++ l2) = pends l1 ++ pends l2.
Proof. apply flat_map_app. Qed.

Lemma pends_started l : pends (start_thread <$> l) = [].
Proof. induction l as [|[] l IH]; [done|exact IH..]. Qed.

Lemma pends_split ts k t :
  ts !! k = Some t -> pends ts = pends (take k ts) ++ thread_pend t ++ pends (drop (S k) ts).
Proof.
  intros Hk. rewrite <- (take_drop_middle ts k t Hk) at 1. by rewrite pends_app.
Qed.

(** Replacing the [k]-th thread. *)
Lemma pends_replace ts k t t' :
  ts !! k = Some t ->
  forall u, (u ∈ pends (take k ts ++ option_list t' ++ drop (S k) ts) ->
             u ∈ pends ts \/ exists t1, t' = Some t1 /\ u ∈ thread_pend t1) /\
            (u ∈ thread_pend t -> u ∈ pends ts).
Proof.
  intros Hk u. rewrite (pends_split ts k t Hk), !pends_app, !elem_of_app. split; [|tauto].
  intros [?|[Hin|?]]; [tauto| |tauto]. destruct t' as [t1|]; cbn in Hin.
  - rewrite app_nil_r in Hin. eauto.
  - by apply not_elem_of_nil in Hin.
Qed.

Lemma pends_replace_eq ts k t t' :
  ts !! k = Some t -> thread_pend t = [] ->
  (forall t1, t' = Some t1 -> thread_pend t1 = []) ->
  pends (take k ts ++ option_list t' ++ drop (S k) ts) = pends ts.
Proof.
  intros Hk Ht Ht'. rewrite (pends_split ts k t Hk), !pends_app, Ht. f_equal.
  destruct t' as [t1|]; cbn; [|done]. by rewrite (Ht' t1 eq_refl).
Qed.

(** ** The servers of the configuration *)

Lemma server_of_some n s : server_of cfg n = Some s -> s ∈ cfg /\ server_id s = n.
Proof.
  unfold server_of. destruct (list_find _ cfg) as [[i s']|] eqn:E; [|done].
  intros [= <-]. apply list_find_Some in E as (Hi & Hid & _). split; [|done].
  by eapply list_elem_of_lookup_2.
Qed.

Lemma list_find_nodup {B} `{EqDecision B} (f : raft_server_configuration -> B) l s :
  NoDup (f <$> l) -> s ∈ l -> exists i, list_find (fun x => f x = f s) l = Some (i, s).
Proof.
  intros Hd Hin. destruct (list_find (fun x => f x = f s) l) as [[i s']|] eqn:E.
  - apply list_find_Some in E as (Hi & Hf & _). exists i. f_equal. f_equal.
    apply list_elem_of_lookup in Hin as [j Hj].
    assert (i = j) as ->.
    { apply (NoDup_lookup (f <$> l) i j (f s)); [done|..]; rewrite list_lookup_fmap.
      - rewrite Hi. cbn. by rewrite Hf.
      - by rewrite Hj. }
    congruence.
  - apply list_find_None in E. rewrite list.Forall_forall in E. by destruct (E s Hin).
Qed.

Lemma id_of_own n s : server_of cfg n = Some s -> id_of cfg (raft_socket s) = n.
Proof.
  intros [Hin Hid]%server_of_some.
  destruct (list_find_nodup raft_socket cfg s (cfg_sockets _ Hcfg) Hin) as [i Hi].
  unfold id_of. by rewrite Hi.
Qed.

Lemma server_of_id s : s ∈ cfg -> server_of cfg (server_id s) = Some s.
Proof.
  intros Hin. destruct (list_find_nodup server_id cfg s (cfg_ids _ Hcfg) Hin) as [i Hi].
  unfold server_of. by rewrite Hi.
Qed.

(** ** Well-formed clusters *)

Definition node_wf (n : Z) (nd : node) : Prop :=
  exists s, server_of cfg n = Some s /\ raft_id (raft (n_world nd)) = n /\
    config (raft (n_world nd)) = cfg /\ files_dir (raft (n_world nd)) = file_directory s /\
    out (n_world nd) = [] /\ forall sv, img (n_world nd) = Some sv -> sv.2 = cfg.

Definition cluster_wf (c : cluster) : Prop :=
  forall n nd, nodes c !! n = Some nd -> node_wf n nd.

Lemma node_wf_refines n own w pend inm w' pend' ts ts' :
  node_wf n {| n_world := w; n_threads := ts |} -> refines n own w pend inm w' pend' ->
  node_wf n {| n_world := w' <| out := [] |> <| spawned := [] |>; n_threads := ts' |}.
Proof.
  intros (s & Hs & Hid & Hc & Hd & _ & Hi) ((Hid' & Hc' & Hd') & Hi' & _). cbn in *.
  exists s. cbn. split_and!; try congruence.
  intros sv. change (img w' = Some sv -> sv.2 = cfg). unfold img_kept in Hi'.
  destruct Hi' as [-> | ->]; [apply Hi|]. intros [= <-]. cbn. congruence.
Qed.

(** The node after a segment. *)
Definition settled_node (w : world) (ts : list thread) : node :=
  {| n_world := w <| out := [] |> <| spawned := [] |>; n_threads := ts ++ (start_thread <$> spawned w) |}.

Lemma settle_nstep n s nd inm w' ts' rest c :
  cluster_wf c -> nodes c !! n = Some nd ->
  refines n (raft_socket s) (n_world nd) (pends (n_threads nd)) inm w' (pends ts') ->
  let s' := abs_cluster cfg (settle n (raft_socket s) w' ts' rest c) in
  exists outs, nstep n (abs_node nd) inm (abs_node (settled_node w' ts')) outs /\
    anodes s' = <[n := abs_node (settled_node w' ts')]> (anodes (abs_cluster cfg c)) /\
    amsgs s' ≡ₚ outs ++ (abs_dgram cfg <$> rest).
Proof.
  intros Hwf Hn (_ & _ & sent & Ho & Hstep) s'. pose proof (Hwf n nd Hn) as (s0 & _ & _ & Hc & _ & Hout & _).
  rewrite Hout in Ho. cbn in Ho. rewrite Hc in Hstep. eexists. split; [|split].
  - unfold abs_node at 2. cbn. rewrite pends_app, pends_started, app_nil_r. exact Hstep.
  - cbn. by rewrite fmap_insert.
  - cbn. rewrite fmap_app, Permutation_app_comm, Ho. f_equiv.
    rewrite <- list_fmap_compose. apply Permutation_refl'.
    apply list_fmap_ext. by intros _ [dst p] _.
Qed.

Lemma settle_step n s nd inm w' ts' rest c :
  cluster_wf c -> nodes c !! n = Some nd -> server_of cfg n = Some s ->
  refines n (raft_socket s) (n_world nd) (pends (n_threads nd)) inm w' (pends ts') ->
  abs_dgram cfg <$> net c ≡ₚ option_list inm ++ (abs_dgram cfg <$> rest) ->
  cluster_wf (settle n (raft_socket s) w' ts' rest c) /\
  astep (abs_cluster cfg c) (abs_cluster cfg (settle n (raft_socket s) w' ts' rest c)).
Proof.
  intros Hwf Hn Hs Href Hnet. split.
  - intros k nd'. cbn. intros [[<- <-]|[_ Hk]]%lookup_insert_Some; [|by apply Hwf].
    pose proof (Hwf n nd Hn). destruct nd. by eapply node_wf_refines.
  - destruct (settle_nstep n s nd inm w' ts' rest c Hwf Hn Href) as (outs & Hstep & Hanodes & Hmsgs).
    eapply astep_node with (n := n); [cbn; rewrite lookup_fmap, Hn; reflexivity|exact Hnet|exact Hstep|done..].
Qed.

(** A segment that keeps the view, on a node of the cluster. *)
Lemma run_on_keeps {A} n (m : M world A) ts rest c c' :
  cluster_wf c -> (forall dir, keeps dir m) ->
  (forall nd a, nodes c !! n = Some nd -> pends (ts (n_threads nd) a) = pends (n_threads nd)) ->
  rest = net c -> run_on cfg n m ts rest c = Some c' ->
  cluster_wf c' /\ astep (abs_cluster cfg c) (abs_cluster cfg c').
Proof.
  intros Hwf Hk Hts -> Hrun. unfold run_on in Hrun.
  destruct (server_of cfg n) as [s|] eqn:Hs; [|done].
  destruct (nodes c !! n) as [nd|] eqn:Hn; [|done].
  destruct (m (n_world nd)) as [[a w']|] eqn:Hm; [|done]. injection Hrun as <-.
  eapply settle_step with (inm := None); try done.
  rewrite (Hts nd a eq_refl). by eapply refines_keeps.
Qed.

(** ** Each step *)

Lemma dispatch_refines n own addr p w w' pend inm :
  (forall r, p = RESPONSE r -> inm = Some (MResp n (rp_term r) (rp_success r))) ->
  (forall r, p <> RESPONSE r -> inm = Some (abs_packet (config (raft w)) addr own p)) ->
  Raft_dispatch addr p w = Ok (tt, w') -> refines n own w pend inm w' pend.
Proof.
  intros Hr Hq H. destruct p; cbn [Raft_dispatch] in H.
  - rewrite (Hq zero_response); [|done]. by apply Raft_handle_append_request_refines.
  - rewrite (Hq zero_response); [|done]. by apply Raft_handle_vote_request_refines.
  - rewrite (Hq zero_response); [|done]. by apply Raft_handle_install_snapshot_request_refines.
  - rewrite (Hr r eq_refl). by apply Raft_handle_response_refines.
Qed.

Lemma deliver_step c n k c' :
  cluster_wf c -> cstep cfg c (L_deliver n k) = Some c' ->
  cluster_wf c' /\ astep (abs_cluster cfg c) (abs_cluster cfg c').
Proof.
  intros Hwf Hrun. cbn in Hrun. destruct (server_of cfg n) as [s|] eqn:Hs; [|done]. cbn in Hrun.
  destruct (net c !! k) as [d|] eqn:Hd; [|done]. cbn in Hrun. case_decide as Hdst; [|done].
  unfold run_on in Hrun. rewrite Hs in Hrun.
  destruct (nodes c !! n) as [nd|] eqn:Hn; [|done].
  destruct (Raft_dispatch _ _ _) as [[[] w']|] eqn:Hm; [|done]. injection Hrun as <-.
  destruct (Hwf n nd Hn) as (s' & _ & _ & Hc & _).
  eapply settle_step with (inm := Some (abs_dgram cfg d)); try done.
  - rewrite pends_app. cbn. rewrite app_nil_r.
    eapply dispatch_refines; [| |exact Hm].
    + intros r Hr. unfold abs_dgram. rewrite Hr. cbn. by rewrite Hdst, (id_of_own n s Hs).
    + intros r Hr. unfold abs_dgram. rewrite Hc, Hdst. done.
  - apply (fmap_Permutation (abs_dgram cfg)) with (x := net c) (y := d :: delete k (net c)).
    by apply delete_Permutation.
Qed.

Lemma keeps_run_thread dir i t :
  is_leader_thread t = false -> is_election_start t = false -> keeps dir (run_thread i t).
Proof.
  intros Hl He. destruct t as [| | | |[]|]; cbn [run_thread Raft_election_thread]; try done; keeps.
  all: auto using keeps_snapshot_begin, keeps_snapshot_build, keeps_snapshot_end, keeps_poll_election.
Qed.

Lemma run_thread_pend i t w t' w' :
  is_leader_thread t = false -> run_thread i t w = Ok (Some t', w') -> thread_pend t' = [].
Proof.
  intros Hl. destruct t as [| | | |pc|]; cbn [run_thread]; [| | | | |done];
    intros (a & w1 & _ & [= H _])%bind_ok; repeat case_match; by simplify_eq.
Qed.

Lemma thread_refines n s i t ts k w t' w' :
  server_of cfg n = Some s -> raft_id (raft w) = n -> config (raft w) = cfg ->
  ts !! k = Some t ->
  (forall f a, t = T_leader f a Snapshot_wait -> state (raft w) <> CANDIDATE) ->
  run_thread i t w = Ok (t', w') ->
  refines n (raft_socket s) w (pends ts) None w'
    (pends (take k ts ++ option_list t' ++ drop (S k) ts)).
Proof.
  intros Hs Hid Hc Hk Hw Hrun.
  assert (id_of (config (raft w)) (raft_socket s) = n) as Hown by (rewrite Hc; by apply id_of_own).
  destruct (is_leader_thread t) eqn:Hl.
  - destruct t as [| | | | |f a pc]; try done. cbn in Hrun. apply bind_ok in Hrun as (pc' & w1 & Hrun & [= <- <-]).
    eapply Raft_leader_thread_refines; [done| | | |exact Hrun].
    + intros ->. by eapply Hw.
    + intros u. apply (pends_replace ts k _ None Hk u).
    + intros u [?|(t1 & Ht1 & ?)]%(pends_replace ts k _ _ Hk); [by left|right].
      destruct pc'; by simplify_eq.
  - assert (forall t1, t' = Some t1 -> thread_pend t1 = []) as Hp'.
    { intros t1 ->. by eapply run_thread_pend. }
    assert (thread_pend t = []) as Hp by (by destruct t).
    rewrite (pends_replace_eq ts k t t' Hk Hp Hp').
    destruct (is_election_start t) eqn:He.
    + destruct t as [| | | |[]|]; try done. cbn in Hrun. apply bind_ok in Hrun as (pc' & w1 & Hrun & [= _ <-]).
      apply bind_ok in Hrun as ([] & w2 & Hrun & [= _ <-]).
      by apply Raft_start_election_refines.
    + eapply refines_keeps; [|exact Hrun]. by apply keeps_run_thread.
Qed.

Lemma cstep_refines c l c' :
  cluster_wf c -> benign c l -> cstep cfg c l = Some c' ->
  cluster_wf c' /\ astep (abs_cluster cfg c) (abs_cluster cfg c').
Proof.
  intros Hwf Hben Hrun. destruct l as [n k|k|k|n|n k i|n e|n t i|n sd].
  - by eapply deliver_step.
  - cbn in Hrun. destruct (net c !! k) as [d|] eqn:Hd; [|done]. injection Hrun as <-.
    split; [exact Hwf|]. apply astep_drop with (m := abs_dgram cfg d); [done|].
    apply (fmap_Permutation (abs_dgram cfg)) with (x := net c) (y := d :: delete k (net c)).
    by apply delete_Permutation.
  - done.
  - eapply run_on_keeps; [done| | | |exact Hrun]; [|done..]. intros dir. apply keeps_listen_timeout.
  - cbn in Hrun, Hben. destruct (nodes c !! n) as [nd|] eqn:Hn; [|done]. cbn in Hrun.
    destruct (n_threads nd !! k) as [t|] eqn:Hk; [|done]. cbn in Hrun.
    unfold run_on in Hrun. destruct (server_of cfg n) as [s|] eqn:Hs; [|done]. rewrite Hn in Hrun.
    destruct (run_thread i t (n_world nd)) as [[t' w']|] eqn:Hm; [|done]. injection Hrun as <-.
    destruct (Hwf n nd Hn) as (s' & _ & Hid & Hc & _).
    eapply settle_step with (inm := None); try done.
    eapply thread_refines; try done. intros f a ->. by eapply Hben.
  - eapply run_on_keeps; [done| | | |exact Hrun]; [|done..]. intros dir. apply keeps_append_entry.
  - eapply run_on_keeps; [done| | | |exact Hrun]; [|done..]. intros dir. apply keeps_is_entry_committed.
  - cbn in Hrun. destruct (server_of cfg n) as [s|] eqn:Hs; [|done]. cbn in Hrun.
    unfold run_on in Hrun. rewrite Hs in Hrun. destruct (nodes c !! n) as [nd|] eqn:Hn; [|done].
    destruct (Raft_server_restore _ _ _ _) as [[[] w']|] eqn:Hm; [|done]. injection Hrun as <-.
    destruct (Hwf n nd Hn) as (s' & Hs' & Hid & Hc & Hd & _ & Hi). rewrite Hs in Hs'.
    injection Hs' as <-. eapply settle_step with (inm := None); try done.
    eapply Raft_server_restore_refines; [exact Hd|by rewrite Hc|]. by rewrite Hid.
Qed.

(** ** Reachable clusters *)

Lemma init_node_fresh s nd :
  init_node cfg s = Some nd ->
  fresh_node (abs_node nd) /\ raft_id (raft (n_world nd)) = server_id s /\
  config (raft (n_world nd)) = cfg /\ files_dir (raft (n_world nd)) = file_directory s /\
  out (n_world nd) = [] /\ forall sv, img (n_world nd) = Some sv -> sv.2 = cfg.
Proof.
  unfold init_node. destruct (Raft_server_init _ _ _ _ _) as [[[] w]|] eqn:E; [|done].
  intros [= <-]. apply Raft_server_init_fresh in E as (Hf & ? & ? & ? & ? & ?); done.
Qed.

Lemma init_cluster_wf c : init_cluster cfg c -> cluster_wf c.
Proof.
  intros (_ & Hd & Hn) n nd Hnd.
  assert (n ∈ server_id <$> cfg) as Hin by (apply Hd; eauto).
  apply list_elem_of_fmap in Hin as (s & -> & Hs). rewrite (Hn s Hs) in Hnd.
  destruct (init_node_fresh _ _ Hnd) as (_ & ? & ? & ? & ? & ?).
  exists s. split_and!; try done. by apply server_of_id.
Qed.

Lemma init_cluster_inv c : init_cluster cfg c -> inv (server_id <$> cfg) ∅ (abs_cluster cfg c).
Proof.
  intros (Hnet & Hd & Hn). apply inv_init; cbn.
  - apply (cfg_ids _ Hcfg).
  - apply (cfg_ids_pos _ Hcfg).
  - rewrite length_fmap. apply (cfg_length _ Hcfg).
  - intros n. rewrite lookup_fmap, fmap_is_Some. symmetry. apply Hd.
  - intros n a Ha. rewrite lookup_fmap in Ha. apply fmap_Some in Ha as (nd & Hnd & ->).
    assert (n ∈ server_id <$> cfg) as Hin by (apply Hd; eauto).
    apply list_elem_of_fmap in Hin as (s & -> & Hs). rewrite (Hn s Hs) in Hnd.
    by apply (init_node_fresh _ _ Hnd).
  - by rewrite Hnet.
Qed.

Lemma cluster_inv_step s s' H :
  inv (server_id <$> cfg) H s -> astep s s' -> exists H', H ⊆ H' /\ inv (server_id <$> cfg) H' s'.
Proof.
  apply astep_inv; [apply (cfg_ids _ Hcfg)|apply (cfg_ids_pos _ Hcfg)|].
  rewrite length_fmap. apply (cfg_length _ Hcfg).
Qed.

Lemma reachable_inv c :
  reachable cfg c ->
  cluster_wf c /\ exists H, inv (server_id <$> cfg) H (abs_cluster cfg c).
Proof.
  induction 1 as [c Hc|c l c' _ [Hwf Hinv] Hben Hrun].
  - split; [by apply init_cluster_wf|]. exists ∅. by apply init_cluster_inv.
  - destruct (cstep_refines c l c' Hwf Hben Hrun) as [Hwf' Hstep]. split; [done|].
    destruct Hinv as [H Hinv].
    destruct (cluster_inv_step _ _ H Hinv Hstep) as (H' & _ & ?). by exists H'.
Qed.
End refinement.

(** C1: At most one server leads in a term, in every cluster that can be
    reached on a network that delays, reorders and loses packets but does not
    duplicate them, with timeouts, crashes and restarts from the state file,
    and when no leader thread that waits to send a snapshot is woken while its
    server is a candidate (raft_leader.c:11 does not look at the role again).
    With duplicated answers two servers can lead
    (duplicate_votes_two_leaders), and the answers to the snapshot packet that
    such a thread sends count as votes (snapshot_sent_by_candidate). *)
Theorem election_safety `{CH : CommitHandler} `{!CommitHandlerOk CH} cfg c n1 n2 nd1 nd2 :
  config_ok cfg -> reachable cfg c ->
  nodes c !! n1 = Some nd1 -> nodes c !! n2 = Some nd2 ->
  state (raft (n_world nd1)) = LEADER -> state (raft (n_world nd2)) = LEADER ->
  current_term (raft (n_world nd1)) = current_term (raft (n_world nd2)) ->
  n1 = n2.
Proof.
  intros Hcfg Hr H1 H2 Hl1 Hl2 Ht. destruct (reachable_inv cfg Hcfg c Hr) as [_ [H Hinv]].
  eapply (inv_one_leader (server_id <$> cfg)) with (a1 := abs_node nd1) (a2 := abs_node nd2);
    [|exact Hinv|cbn; rewrite lookup_fmap, ?H1, ?H2; reflexivity..|done|done|done].
  rewrite length_fmap. apply (cfg_length _ Hcfg).
Qed.

(** C5: In a cluster reached in the environment of election_safety, every
    segment of code a server runs, every delivery, loss and restart is, seen
    through the votes and terms, a step (or a stutter) of the abstract
    election protocol; the two steps left out are the duplication of a packet,
    and the segment in which a leader thread that waited to send a snapshot
    wakes up while its server is a candidate (raft_leader.c:11), which is no
    step of the protocol. *)
Theorem cluster_refines_election `{CH : CommitHandler} `{!CommitHandlerOk CH} cfg c l c' :
  config_ok cfg -> reachable cfg c -> benign c l -> cstep cfg c l = Some c' ->
  astep (abs_cluster cfg c) (abs_cluster cfg c').
Proof.
  intros Hcfg Hr Hb Hs. destruct (reachable_inv cfg Hcfg c Hr) as [Hwf _].
  by destruct (cstep_refines cfg Hcfg c l c' Hwf Hb Hs).
Qed.

(** C6: No step, a crash and restart included, takes a server back to an
    earlier term or changes the vote it cast in its term, and the state file
    holds the term and the vote of the memory; in the environment of
    election_safety (no packet is duplicated, and no leader thread that waits
    to send a snapshot is woken while its server is a candidate). *)
Theorem vote_stable `{CH : CommitHandler} `{!CommitHandlerOk CH} cfg c l c' n nd nd' :
  config_ok cfg -> reachable cfg c -> benign c l -> cstep cfg c l = Some c' ->
  nodes c !! n = Some nd -> nodes c' !! n = Some nd' ->
  let r := raft (n_world nd) in let r' := raft (n_world nd') in
  current_term r <= current_term r' /\
  (current_term r = current_term r' -> voted_for r <> -1 -> voted_for r' = voted_for r) /\
  (current_term r = current_term r' -> state r <> CANDIDATE -> state r' <> CANDIDATE) /\
  (forall sv, image (n_world nd) = Some sv -> current_term sv = current_term r /\ voted_for sv = voted_for r).
Proof.
  intros Hcfg Hr Hb Hs Hn Hn'. destruct (reachable_inv cfg Hcfg c Hr) as (Hwf & H & Hinv).
  destruct (cstep_refines cfg Hcfg c l c' Hwf Hb Hs) as [_ Hstep].
  assert (anodes (abs_cluster cfg c) !! n = Some (abs_node nd)) as Ha by (cbn; by rewrite lookup_fmap, Hn).
  assert (anodes (abs_cluster cfg c') !! n = Some (abs_node nd')) as Ha' by (cbn; by rewrite lookup_fmap, Hn').
  destruct (astep_grows _ _ _ _ _ _ _ Hinv Hstep Ha Ha') as (Ht & Hc & Hv). split_and!; try done.
  intros sv Hsv. destruct (inv_nodes _ _ _ Hinv n _ Ha) as (Hi & _).
  apply (Hi (current_term sv) (voted_for sv)). cbn. unfold img. by rewrite Hsv.
Qed.
