(* ===== verification/LogMatching.v ===== *)
(** The logs of the cluster: its runs without snapshots refine the replication
    protocol, so the logs match and the log of a leader only grows. *)
From S2P Require Import Prelude Libc Posix RaftTypes RaftStorage RaftUtils RaftFollower RaftLeader RaftCandidate Raft RaftView StorageSpec RaftLog ElectionSpec LogSpec RaftRefine LogRefine Cluster.

(** The environment: that of [benign], and no log is compacted: no snapshot
    gets to the point where it shifts the log, and none is installed. *)
Definition uncompacted (c : cluster) (l : label) : Prop :=
  benign c l /\
  match l with
  | L_deliver n k => forall d q, net c !! k = Some d -> d_pkt d <> INSTALL_SNAPSHOT q
  | L_thread n k _ => forall nd new prev,
      nodes c !! n = Some nd -> n_threads nd !! k <> Some (T_snapshot_end new prev)
  | _ => True
  end.

Inductive reachable_log `{CH : CommitHandler} (cfg : raft_configuration) : cluster -> Prop :=
  | reachable_log_init c : init_cluster cfg c -> reachable_log cfg c
  | reachable_log_step c l c' :
      reachable_log cfg c -> uncompacted c l -> cstep cfg c l = Some c' -> reachable_log cfg c'.

(** * The abstract state *)

Definition abs_logs (c : cluster) : gmap Z lnode := (fun nd => lnode_of (n_world nd)) <$> nodes c.
Definition abs_entries (c : cluster) : list lmsg := omap (fun d => entry_of (d_pkt d)) (net c).

Definition cluster_shape (c : cluster) : Prop :=
  forall n nd, nodes c !! n = Some nd -> wshape (n_world nd).

Section matching.
Context `{CH : CommitHandler} `{!CommitHandlerOk CH}.
Context (cfg : raft_configuration) (Hcfg : config_ok cfg).

Lemma config_length : Z.of_nat (length (server_id <$> cfg)) = N_SERVERS.
Proof. rewrite length_fmap. apply (cfg_length _ Hcfg). Qed.

(** The logs of [c] match those of the leaders, [G], after the votes [H]. *)
Definition matching (H : votes) (G : leader_logs) (c : cluster) : Prop :=
  cluster_wf cfg c /\ cluster_shape c /\ inv (server_id <$> cfg) H (abs_cluster cfg c) /\
  linv (server_id <$> cfg) H G (abs_cluster cfg c) (abs_logs c) (abs_entries c).

(** A step after which the leaders' logs have grown. *)
Definition advanced (G : leader_logs) (c' : cluster) : Prop :=
  exists H' G', extends G G' /\ matching H' G' c'.

(** A datagram of the cluster after a segment. *)
Lemma settle_entries n own w ts rest c m :
  m ∈ abs_entries (settle n own w ts rest c) ->
  m ∈ entries (out w) \/ exists d, d ∈ rest /\ entry_of (d_pkt d) = Some m.
Proof.
  unfold abs_entries. cbn. rewrite omap_app, elem_of_app. intros [Hm|Hm].
  - right. apply list_elem_of_omap in Hm as (d & Hd & E). eauto.
  - left. apply list_elem_of_omap in Hm as (d & Hd & E).
    apply list_elem_of_fmap in Hd as ([dst p] & -> & Hd).
    apply list_elem_of_omap. exists (dst, p). auto.
Qed.

(** A node runs a segment, after which the votes are [H']. *)
Lemma settle_grown H H' G c n s nd inm w' ts' rest :
  matching H G c -> nodes c !! n = Some nd ->
  lrefines (n_world nd) w' inm -> (forall m, inm = Some m -> m ∈ abs_entries c) ->
  (forall d, d ∈ rest -> d ∈ net c) ->
  let c' := settle n (raft_socket s) w' ts' rest c in
  let nd' := settled_node w' ts' in
  cluster_wf cfg c' -> H ⊆ H' -> inv (server_id <$> cfg) H' (abs_cluster cfg c') ->
  grows (abs_node nd) (abs_node nd') ->
  exists G', extends G G' /\ grown G (abs_node nd') (lnode_of w') G' /\ matching H' G' c'.
Proof.
  intros (Hwf & Hsh & Hinv & Hl) Hn (Hw' & inm' & outs & Hin & Ho & Hstep) Hmsg Hrest c' nd' Hwf' Hsub Hinv' Hg.
  assert (cluster_shape c') as Hsh'.
  { intros k nd0. cbn. intros [[<- <-]|[_ Hk]]%lookup_insert_Some; [exact Hw'|by eapply Hsh]. }
  destruct (Hwf n nd Hn) as (_ & _ & _ & _ & _ & Hout & _). rewrite Hout in Ho. cbn in Ho.
  assert (anodes (abs_cluster cfg c) !! n = Some (abs_node nd)) as Han
    by (cbn; by rewrite lookup_fmap, Hn).
  assert (anodes (abs_cluster cfg c') = <[n := abs_node nd']> (anodes (abs_cluster cfg c))) as Hanodes
    by (unfold c'; cbn; by rewrite fmap_insert).
  destruct (linv_lstep (server_id <$> cfg) config_length H H' G (abs_cluster cfg c)
    (abs_cluster cfg c') (abs_logs c) (abs_entries c) n (abs_node nd) (abs_node nd')
    (lnode_of (n_world nd)) (lnode_of w')) with (inm := inm') (outs := outs)
    (ms' := abs_entries c') as (G' & Hext & Hgr & Hl'); try done.
  - unfold abs_logs. by rewrite lookup_fmap, Hn.
  - intros m E. destruct Hin as [-> | ->]; [done|auto].
  - intros m [Hm|(d & Hd & E)]%settle_entries; [left; by rewrite <- Ho|right].
    apply list_elem_of_omap. eauto.
  - apply Hstep.
  - exists G'. split; [done|]. split; [done|]. do 3 (split; [done|]). unfold c', abs_logs in *. cbn in *.
    by rewrite fmap_insert.
Qed.

Lemma settle_matching H G c n s nd inm w' ts' rest :
  matching H G c -> nodes c !! n = Some nd ->
  lrefines (n_world nd) w' inm -> (forall m, inm = Some m -> m ∈ abs_entries c) ->
  (forall d, d ∈ rest -> d ∈ net c) ->
  let c' := settle n (raft_socket s) w' ts' rest c in
  cluster_wf cfg c' -> astep (abs_cluster cfg c) (abs_cluster cfg c') -> advanced G c'.
Proof.
  intros Hm Hn Hstep Hmsg Hrest c' Hwf' Ha. pose proof Hm as (_ & _ & Hinv & _).
  destruct (cluster_inv_step cfg Hcfg _ _ _ Hinv Ha) as (H' & Hsub & Hinv').
  destruct (settle_grown H H' G c n s nd inm w' ts' rest) as (G' & ? & _ & ?); try done.
  - eapply astep_grows; [exact Hinv|exact Ha|..]; cbn; [by rewrite lookup_fmap, Hn|].
    by rewrite lookup_fmap, lookup_insert_eq.
  - exists H', G'. done.
Qed.

Lemma run_on_matching {A} H G n (m : M world A) ts rest inm c c' :
  matching H G c -> (forall nd s a w', nodes c !! n = Some nd -> server_of cfg n = Some s ->
    m (n_world nd) = Ok (a, w') -> lrefines (n_world nd) w' inm) ->
  (forall m, inm = Some m -> m ∈ abs_entries c) -> (forall d, d ∈ rest -> d ∈ net c) ->
  run_on cfg n m ts rest c = Some c' ->
  cluster_wf cfg c' -> astep (abs_cluster cfg c) (abs_cluster cfg c') -> advanced G c'.
Proof.
  intros Hm Href Hin Hrest Hrun. unfold run_on in Hrun.
  destruct (server_of cfg n) as [s|] eqn:Hs; [|done].
  destruct (nodes c !! n) as [nd|] eqn:Hn; [|done].
  destruct (m (n_world nd)) as [[a w']|] eqn:Hrm; [|done]. injection Hrun as <-.
  eapply settle_matching; try done. by eapply Href.
Qed.

Lemma keeps_lrefines {A} dir (m : M world A) w a w' inm :
  wshape w -> files_dir (raft w) = dir -> lkeeps dir m -> keeps dir m -> m w = Ok (a, w') ->
  lrefines w w' inm.
Proof.
  intros Hw Hd Hl Hk H. apply lrefines_quiet; [done|by eapply Hl|].
  destruct (quiet_view _ _ (Hk _ _ _ Hd H)) as (_ & Ht & _ & Hst & _). intros ?. by rewrite <- Hst, Ht.
Qed.

Lemma thread_lrefines i t w t' w' :
  wshape w -> (forall new prev, t <> T_snapshot_end new prev) ->
  run_thread i t w = Ok (t', w') -> lrefines w w' None.
Proof.
  intros Hw Ht. destruct t as [|new|new|new prev|pc|f addr pc]; cbn [run_thread].
  - intros H. eapply keeps_lrefines; [done|reflexivity| | |exact H]; keeps.
  - intros H. eapply keeps_lrefines; [done|reflexivity| | |exact H]; keeps;
      auto using lkeeps_snapshot_begin, keeps_snapshot_begin.
  - intros H. eapply keeps_lrefines; [done|reflexivity| | |exact H]; keeps;
      auto using lkeeps_snapshot_build, keeps_snapshot_build.
  - by destruct (Ht new prev eq_refl).
  - intros (pc' & w1 & H & [= _ <-])%bind_ok. destruct pc; cbn [Raft_election_thread] in H.
    + apply bind_ok in H as ([] & w2 & H & [= _ <-]).
      apply lrefines_quiet; [done|by eapply lkeeps_start_election|].
      intros Hl. apply start_election_candidate in H. congruence.
    + eapply keeps_lrefines; [done|reflexivity| | |exact H];
        auto using lkeeps_poll_election, keeps_poll_election.
    + by injection H as _ <-; apply lrefines_quiet.
  - intros (pc' & w1 & H & [= _ <-])%bind_ok. by eapply leader_thread_lrefines.
Qed.

Lemma cstep_matching H G c l c' :
  matching H G c -> uncompacted c l -> cstep cfg c l = Some c' -> advanced G c'.
Proof.
  intros Hm [Hben Hun] Hrun. pose proof Hm as (Hwf & Hsh & _).
  destruct (cstep_refines cfg Hcfg c l c' Hwf Hben Hrun) as [Hwf' Ha].
  destruct l as [n k|k|k|n|n k i|n e|n t i|n sd]; cbn in Hrun, Hun.
  - destruct (server_of cfg n) as [s|] eqn:Hs; [|done]. cbn in Hrun.
    destruct (net c !! k) as [d|] eqn:Hd; [|done]. cbn in Hrun. case_decide; [|done].
    eapply run_on_matching with (inm := entry_of (d_pkt d));
      [exact Hm| | | |exact Hrun|exact Hwf'|exact Ha].
    + intros nd s' [] w' Hn _ Hrm. eapply dispatch_lrefines; [by eapply Hsh| |exact Hrm].
      intros q. by apply Hun.
    + intros m E. apply list_elem_of_omap. exists d. split; [by eapply list_elem_of_lookup_2|done].
    + intros d' Hd'. by eapply list_elem_of_delete_inv.
  - destruct (net c !! k) as [d|] eqn:Hd; [|done]. injection Hrun as <-.
    destruct Hm as (_ & _ & Hinv & Hl).
    destruct (cluster_inv_step cfg Hcfg _ _ _ Hinv Ha) as (H' & Hsub & Hinv').
    exists H', G. split; [reflexivity|]. do 3 (split; [done|]). eapply linv_drop; [exact Hsub|exact Hl|done|].
    intros m (d' & Hd' & E)%list_elem_of_omap. apply list_elem_of_omap. exists d'.
    split; [by eapply list_elem_of_delete_inv|done].
  - done.
  - eapply run_on_matching with (inm := None);
      [exact Hm| |done|done|exact Hrun|exact Hwf'|exact Ha]. intros nd s a w' Hn _ Hrm.
    eapply keeps_lrefines; [by eapply Hsh|reflexivity| | |exact Hrm];
      [apply lkeeps_listen_timeout|apply keeps_listen_timeout].
  - destruct (nodes c !! n) as [nd|] eqn:Hn; [|done]. cbn in Hrun.
    destruct (n_threads nd !! k) as [t|] eqn:Hk; [|done]. cbn in Hrun.
    eapply run_on_matching with (inm := None);
      [exact Hm| |done|done|exact Hrun|exact Hwf'|exact Ha]. intros nd' s t' w' Hn' _ Hrm.
    assert (nd' = nd) as -> by congruence. eapply thread_lrefines; [by eapply Hsh| |exact Hrm].
    intros new prev ->. by apply (Hun nd new prev).
  - eapply run_on_matching with (inm := None);
      [exact Hm| |done|done|exact Hrun|exact Hwf'|exact Ha]. intros nd s a w' Hn _ Hrm.
    eapply append_entry_lrefines; [by eapply Hsh|exact Hrm].
  - eapply run_on_matching with (inm := None);
      [exact Hm| |done|done|exact Hrun|exact Hwf'|exact Ha]. intros nd s a w' Hn _ Hrm.
    eapply keeps_lrefines; [by eapply Hsh|reflexivity| | |exact Hrm];
      [apply lkeeps_is_entry_committed|apply keeps_is_entry_committed].
  - destruct (server_of cfg n) as [s|] eqn:Hs; [|done]. cbn in Hrun.
    eapply run_on_matching with (inm := None);
      [exact Hm| |done|done|exact Hrun|exact Hwf'|exact Ha]. intros nd s' [] w' Hn _ Hrm.
    destruct (Hwf n nd Hn) as (s0 & Hs0 & _ & _ & Hdir & _).
    eapply restore_lrefines; [|by eapply Hsh|exact Hrm]. congruence.
Qed.

(** ** Reachable clusters *)

Lemma init_node_shape s nd :
  init_node cfg s = Some nd ->
  wshape (n_world nd) /\ lg (lnode_of (n_world nd)) = [] /\
  forall l, im (lnode_of (n_world nd)) = Some l -> l = [].
Proof.
  unfold init_node. destruct (Raft_server_init _ _ _ _ _) as [[[] w]|] eqn:E; [|done].
  intros [= <-]. apply init_shape in E as (? & ? & ?); [done|]. done.
Qed.

Lemma init_matching c : init_cluster cfg c -> matching ∅ ∅ c.
Proof.
  intros Hc. pose proof (init_cluster_wf cfg Hcfg c Hc) as Hwf.
  pose proof (init_cluster_inv cfg Hcfg c Hc) as Hinv. destruct Hc as (Hnet & Hd & Hn).
  assert (forall n nd, nodes c !! n = Some nd -> exists s, init_node cfg s = Some nd) as Hinit.
  { intros n nd Hnd. assert (n ∈ server_id <$> cfg) as Hin by (apply Hd; eauto).
    apply list_elem_of_fmap in Hin as (s & -> & Hs). rewrite (Hn s Hs) in Hnd. by exists s. }
  split; [done|]. split; [|split; [done|]].
  - intros n nd [s Hs]%Hinit. by apply init_node_shape in Hs as [? _].
  - replace (abs_entries c) with (@nil lmsg) by (unfold abs_entries; by rewrite Hnet).
    apply linv_init.
    + intros n x Hx. unfold abs_logs in Hx. rewrite lookup_fmap in Hx.
      apply fmap_Some in Hx as (nd & Hnd & ->). destruct (Hinit n nd Hnd) as [s Hs].
      by apply init_node_shape in Hs as [_ ?].
    + intros n a Ha. cbn in Ha. rewrite lookup_fmap in Ha. apply fmap_Some in Ha as (nd & Hnd & ->).
      destruct (Hinit n nd Hnd) as [s Hs]. by apply (init_node_fresh cfg) in Hs as [? _].
Qed.

Lemma reachable_matching c : reachable_log cfg c -> exists H G, matching H G c.
Proof.
  induction 1 as [c Hc|c l c' _ (H & G & Hm) Hun Hrun].
  - exists ∅, ∅. by apply init_matching.
  - destruct (cstep_matching _ _ _ _ _ Hm Hun Hrun) as (H' & G' & _ & ?). eauto.
Qed.

(** Runs. *)
Definition log_steps : relation cluster :=
  rtc (fun c c' => exists l, uncompacted c l /\ cstep cfg c l = Some c').

Lemma log_steps_matching H G c c' : matching H G c -> log_steps c c' -> advanced G c'.
Proof.
  intros Hm Hs. revert H G Hm. induction Hs as [c|c c1 c' (l & Hun & Hrun) _ IH]; intros H G Hm.
  - exists H, G. done.
  - destruct (cstep_matching _ _ _ _ _ Hm Hun Hrun) as (H1 & G1 & Hx & Hm1).
    destruct (IH _ _ Hm1) as (H' & G' & Hx' & Hm'). exists H', G'. split; [by etrans|done].
Qed.

(** The log of a node, by index. *)
Lemma matching_log H G c n nd :
  matching H G c -> nodes c !! n = Some nd ->
  abs_logs c !! n = Some (lnode_of (n_world nd)) /\
  forall i, 0 <= i -> lg (lnode_of (n_world nd)) !! Z.to_nat i = ekey <$> log_at (raft (n_world nd)) i.
Proof.
  intros (_ & Hsh & _) Hn. split; [unfold abs_logs; by rewrite lookup_fmap, Hn|].
  intros i Hi. apply llog_at; [exact (proj1 (Hsh n nd Hn))|done].
Qed.

Lemma log_at_nonneg H G c n nd i e :
  matching H G c -> nodes c !! n = Some nd -> log_at (raft (n_world nd)) i = Some e -> 0 <= i.
Proof.
  intros (_ & Hsh & _) Hn He%log_at_range. destruct (Hsh n nd Hn) as [[Hst _] _]. lia.
Qed.
End matching.

(** C7: Two servers whose logs have entries of one term at one index hold the
    same entries at every index up to it (but for the leader's count of
    replicas), in every cluster reached while no packet is duplicated, no log
    is compacted and no snapshot delivered, and no leader thread that waits to
    send a snapshot is woken while its server is a candidate. *)
Theorem log_matching `{CH : CommitHandler} `{!CommitHandlerOk CH} cfg c n1 n2 nd1 nd2 i j e1 e2 :
  config_ok cfg -> reachable_log cfg c ->
  nodes c !! n1 = Some nd1 -> nodes c !! n2 = Some nd2 ->
  log_at (raft (n_world nd1)) i = Some e1 -> log_at (raft (n_world nd2)) i = Some e2 ->
  le_term e1 = le_term e2 -> j <= i ->
  ekey <$> log_at (raft (n_world nd1)) j = ekey <$> log_at (raft (n_world nd2)) j.
Proof.
  intros Hcfg Hr Hn1 Hn2 He1 He2 Ht Hj.
  destruct (reachable_matching cfg Hcfg c Hr) as (H & G & Hm).
  pose proof (log_at_nonneg cfg _ _ _ _ _ _ _ Hm Hn1 He1) as Hi.
  destruct (matching_log cfg _ _ _ _ _ Hm Hn1) as [Hx1 Hl1].
  destruct (matching_log cfg _ _ _ _ _ Hm Hn2) as [Hx2 Hl2].
  destruct (decide (0 <= j)) as [Hj0|]; cycle 1.
  { destruct Hm as (_ & Hsh & _). destruct (Hsh _ _ Hn1) as [[Hs1 _] _], (Hsh _ _ Hn2) as [[Hs2 _] _].
    unfold log_at. rewrite Hs1, Hs2. destruct (Z.leb_spec 0 j); [lia|done]. }
  destruct Hm as (_ & _ & _ & Hl). rewrite <- Hl1, <- Hl2 by done.
  apply lookup_take_eq with (n := S (Z.to_nat i)); [|lia].
  eapply linv_matching; [exact Hl|exact Hx1|exact Hx2|..].
  - rewrite Hl1 by done. by rewrite He1.
  - rewrite Hl2 by done. by rewrite He2.
  - done.
Qed.

(** C8: Between two moments at which servers lead in the same term, the log of
    that leader only grows: every entry of the first is at its index in the
    second (but for the count of replicas). The run up to the first moment and
    between the two is one in which no packet is duplicated, no log is
    compacted and no snapshot delivered, and no leader thread that waits to
    send a snapshot is woken while its server is a candidate; a compaction
    drops the entries below the new start. *)
Theorem leader_append_only `{CH : CommitHandler} `{!CommitHandlerOk CH} cfg c c' n n' nd nd' i e :
  config_ok cfg -> reachable_log cfg c -> log_steps cfg c c' ->
  nodes c !! n = Some nd -> nodes c' !! n' = Some nd' ->
  state (raft (n_world nd)) = LEADER -> state (raft (n_world nd')) = LEADER ->
  current_term (raft (n_world nd)) = current_term (raft (n_world nd')) ->
  log_at (raft (n_world nd)) i = Some e ->
  ekey <$> log_at (raft (n_world nd')) i = Some (ekey e).
Proof.
  intros Hcfg Hr Hs Hn Hn' Hl Hl' Ht He.
  destruct (reachable_matching cfg Hcfg c Hr) as (H & G & Hm).
  destruct (log_steps_matching cfg Hcfg _ _ _ _ Hm Hs) as (H' & G' & Hx & Hm').
  pose proof (log_at_nonneg cfg _ _ _ _ _ _ _ Hm Hn He) as Hi.
  destruct (matching_log cfg _ _ _ _ _ Hm Hn) as [Hx1 Hl1].
  destruct (matching_log cfg _ _ _ _ _ Hm' Hn') as [Hx2 Hl2].
  destruct Hm as (_ & _ & _ & Hinv), Hm' as (_ & _ & _ & Hinv').
  assert (G !! current_term (raft (n_world nd)) = Some (lg (lnode_of (n_world nd)))) as HG.
  { apply (linv_lead _ _ _ _ _ _ Hinv n (abs_node nd)); [cbn; by rewrite lookup_fmap, Hn|done|done]. }
  assert (G' !! current_term (raft (n_world nd')) = Some (lg (lnode_of (n_world nd')))) as HG'.
  { apply (linv_lead _ _ _ _ _ _ Hinv' n' (abs_node nd')); [cbn; by rewrite lookup_fmap, Hn'|done|done]. }
  destruct (Hx _ _ HG) as (L' & HL' & Hp). rewrite Ht, HG' in HL'. injection HL' as <-.
  rewrite <- Hl2 by done. eapply prefix_lookup_Some; [|exact Hp]. rewrite Hl1 by done. by rewrite He.
Qed.

(** C9: The terms of a log never decrease with the index, and none is above
    the term of its server, in every cluster reached by elections,
    replication, lost and reordered packets, crashes and restarts while no
    packet is duplicated, no log is compacted and no snapshot delivered, and
    no leader thread that waits to send a snapshot is woken while its server
    is a candidate. *)
Theorem log_terms_sorted `{CH : CommitHandler} `{!CommitHandlerOk CH} cfg c n nd i j e1 e2 :
  config_ok cfg -> reachable_log cfg c -> nodes c !! n = Some nd -> i <= j ->
  log_at (raft (n_world nd)) i = Some e1 -> log_at (raft (n_world nd)) j = Some e2 ->
  le_term e1 <= le_term e2 <= current_term (raft (n_world nd)).
Proof.
  intros Hcfg Hr Hn Hij He1 He2.
  destruct (reachable_matching cfg Hcfg c Hr) as (H & G & Hm).
  pose proof (log_at_nonneg cfg _ _ _ _ _ _ _ Hm Hn He1) as Hi.
  destruct (matching_log cfg _ _ _ _ _ Hm Hn) as [Hx Hl].
  destruct Hm as (_ & _ & _ & Hinv).
  assert (lg (lnode_of (n_world nd)) !! Z.to_nat i = Some (ekey e1)) as Hk1 by (rewrite Hl by done; by rewrite He1).
  assert (lg (lnode_of (n_world nd)) !! Z.to_nat j = Some (ekey e2)) as Hk2 by (rewrite Hl by lia; by rewrite He2).
  split.
  - eapply (linv_sorted _ _ _ _ _ _ _ _ Hinv Hx (Z.to_nat i) (Z.to_nat j) (ekey e1) (ekey e2)); [lia|done..].
  - destruct (linv_terms _ _ _ _ _ _ Hinv n (abs_node nd) _ ltac:(cbn; by rewrite lookup_fmap, Hn) Hx) as [Hb _].
    apply (Hb (ekey e2)). apply list_elem_of_lookup. eauto.
Qed.
