(* ===== verification/CommitSpec.v ===== *)
(** The abstract commit protocol: what the raft module promises about committed
    entries, on top of the election and replication protocols ([ElectionSpec],
    [LogSpec]).  A node has a commit index, in its memory and in its state
    file; a leader keeps for each follower the next index to send and the number
    of the request it expects an answer to, and for each entry a count of
    replicas.  The messages are the packets with the server they go to. *)
From S2P Require Import Prelude RaftTypes ElectionSpec LogSpec.

Record pnode := {
  pc : Z;
  pim : option (log * Z);
  pnx : Z -> Z;
  prd : Z -> Z;
  pcnt : nat -> Z
}.

Abbreviation pmsg := (Z * raft_packet)%type.

(** What a step of a node answers: a message, nothing, or a client. *)
Inductive event := Receive (m : pmsg) | Local | Client.

Definition last_index (l : log) : Z := Z.of_nat (length l) - 1.

(** A vote request whose candidate's log is at least as recent as [l]. *)
Definition up_to_date (v : raft_vote_request) (l : log) : Prop :=
  lterm l (last_index l) < vr_last_log_term v \/
  (lterm l (last_index l) = vr_last_log_term v /\ last_index l <= vr_last_log_index v).

(** A vote request that describes the log [l]. *)
Definition describes (v : raft_vote_request) (l : log) : Prop :=
  vr_last_log_index v = last_index l /\ vr_last_log_term v = lterm l (last_index l).

(** The entry in an append request, as a message of the replication protocol. *)
Definition lmsg_of (b : raft_append_request) : lmsg :=
  {| lm_term := ar_term b; lm_prev := ar_prev_log_index b;
     lm_prev_term := ar_prev_log_term b; lm_entry := ekey (ar_entry b) |}.

(** What a leader with the log [l] sends to [dst]. *)
Definition requests (t : Z) (l : log) (p : pnode) (dst : Z) (b : raft_append_request) : Prop :=
  ar_term b = t /\ 0 <= pnx p dst <= Z.of_nat (length l) /\
  ar_prev_log_index b = pnx p dst - 1 /\ ar_prev_log_term b = lterm l (pnx p dst - 1) /\
  (if decide (pnx p dst = Z.of_nat (length l)) then ar_entries_n b = 0
   else ar_entries_n b <> 0 /\ l !! Z.to_nat (pnx p dst) = Some (ekey (ar_entry b))) /\
  ar_leader_commit b = pc p /\ ar_request_id b = prd p dst.

Definition answer_to (n t s : Z) (b : raft_append_request) : raft_packet :=
  RESPONSE {| rp_id := n; rp_term := t; rp_success := s; rp_request_id := ar_request_id b |}.

(** The commit index [c] after a request was accepted. *)
Definition accept_commit (b : raft_append_request) (c : Z) : Z :=
  if c <? ar_leader_commit b then
    if ar_entries_n b =? 0 then ar_leader_commit b
    else Z.min (ar_prev_log_index b + 1) (ar_leader_commit b)
  else c.

(** The state file after a step: as it was, or that of the memory. *)
Definition psaved (x' : lnode) (p' : pnode) : Prop := pim p' = Some (lg x', pc p').
Definition pkept (p : pnode) (x' : lnode) (p' : pnode) : Prop := pim p' = pim p \/ psaved x' p'.

Section step.
Context (n : Z) (a : anode) (x : lnode) (p : pnode) (a' : anode) (x' : lnode) (p' : pnode).

(** A leader stays the leader it was, with the same progress. *)
Definition leads_same : Prop :=
  a_role a' = LEADER ->
  a_role a = LEADER /\ a_term a' = a_term a /\ pnx p' = pnx p /\ prd p' = prd p /\ pcnt p' = pcnt p.

(** What may be sent where neither log nor commit index change. *)
Definition sends (m : pmsg) : Prop :=
  match m.2 with
  | APPEND b =>
      a_role a = LEADER /\ a_role a' = LEADER /\ m.1 <> n /\ requests (a_term a) (lg x) p m.1 b
  | RESPONSE r => rp_request_id r = -1
  | VOTE v =>
      a_role a' = CANDIDATE /\ vr_term v = a_term a' /\ vr_candidate_id v = n /\ describes v (lg x)
  | INSTALL_SNAPSHOT _ => True
  end.

(** The answer [r] to the last request, to a leader. *)
Definition answered (r : raft_response_packet) : Prop :=
  a_role a = LEADER /\ a_role a' = LEADER /\ a_term a' = a_term a /\ rp_term r = a_term a /\
  rp_request_id r = prd p (rp_id r) /\ lg x' = lg x /\ psaved x' p' /\
  (forall f, prd p' f = if decide (f = rp_id r) then prd p f + 1 else prd p f).

Definition moves_next (f d : Z) : Prop :=
  forall k, pnx p' k = if decide (k = f) then pnx p k + d else pnx p k.

Inductive pstep : event -> list pmsg -> Prop :=
  | pstep_quiet inm outs :
      lg x' = lg x -> pc p' = pc p -> pkept p x' p' -> leads_same ->
      (forall m, m ∈ outs -> sends m) ->
      (forall v, inm = Receive (n, VOTE v) -> a_vote (bump (vr_term v) a) = -1 ->
        a_vote a' = vr_candidate_id v -> a_vote a' <> -1 -> up_to_date v (lg x)) ->
      pstep inm outs
  | pstep_refuse b dst :
      lg x' = lg x -> pc p' = pc p -> pkept p x' p' -> leads_same ->
      a_term a' = Z.max (a_term a) (ar_term b) ->
      (a_term a <= ar_term b -> ~ accepts (lg x) (lmsg_of b)) ->
      pstep (Receive (n, APPEND b)) [(dst, answer_to n (a_term a') 0 b)]
  | pstep_accept b dst :
      a_term a <= ar_term b -> a_term a' = ar_term b -> a_role a' = FOLLOWER ->
      accepts (lg x) (lmsg_of b) ->
      lg x' = (if ar_entries_n b =? 0 then lg x else stored (lg x) (lmsg_of b)) ->
      pc p' = accept_commit b (pc p) -> psaved x' p' ->
      pstep (Receive (n, APPEND b)) [(dst, answer_to n (ar_term b) 1 b)]
  | pstep_lead r e :
      a_role a = CANDIDATE -> a_role a' = LEADER -> a_term a' = a_term a -> le_term e = a_term a ->
      lg x' = lg x ++ [e] -> pc p' = pc p -> psaved x' p' ->
      (forall f, 0 <= pnx p' f /\ 0 <= prd p' f) -> pcnt p' (length (lg x)) <= 1 ->
      pstep (Receive (n, RESPONSE r)) []
  | pstep_push e :
      a_role a = LEADER -> a_role a' = LEADER -> a_term a' = a_term a -> le_term e = a_term a ->
      lg x' = lg x ++ [e] -> pc p' = pc p -> psaved x' p' -> pnx p' = pnx p -> prd p' = prd p ->
      (forall i, pcnt p' i = if decide (i = length (lg x)) then 1 else pcnt p i) ->
      pstep Client []
  | pstep_nack r :
      answered r -> rp_success r = 0 -> moves_next (rp_id r) (-1) ->
      pc p' = pc p -> pcnt p' = pcnt p -> pstep (Receive (n, RESPONSE r)) []
  | pstep_idle r :
      answered r -> rp_success r <> 0 -> Z.of_nat (length (lg x)) <= pnx p (rp_id r) ->
      pnx p' = pnx p -> pc p' = pc p -> pcnt p' = pcnt p -> pstep (Receive (n, RESPONSE r)) []
  | pstep_ack r (i := pnx p (rp_id r)) :
      answered r -> rp_success r <> 0 -> 0 <= i < Z.of_nat (length (lg x)) -> moves_next (rp_id r) 1 ->
      (pc p' = pc p /\ pcnt p' = pcnt p \/
       pc p < i /\ lterm (lg x) i = a_term a /\
       (forall k, pcnt p' k = if decide (k = Z.to_nat i) then pcnt p k + 1 else pcnt p k) /\
       (pc p' = pc p \/ pc p' = i /\ N_SERVERS < 2 * pcnt p' (Z.to_nat i))) ->
      pstep (Receive (n, RESPONSE r)) []
  | pstep_restart :
      pim p = Some (lg x', pc p') -> pkept p x' p' -> a_role a' = FOLLOWER -> pstep Local [].

(** ** What the steps have in common *)

Lemma pstep_leader inm outs :
  pstep inm outs -> a_role a' = LEADER ->
  a_term a' = a_term a /\ (a_role a = LEADER \/ a_role a = CANDIDATE) /\ lg x `prefix_of` lg x'.
Proof.
  unfold leads_same, answered. destruct 1 as [? ? E ? ? Hl|? ? E ? ? Hl| | | | | | |]; intros Hr; try congruence.
  - destruct (Hl Hr) as (? & ? & _). rewrite E. auto.
  - destruct (Hl Hr) as (? & ? & _). rewrite E. auto.
  - split; [done|]. split; [auto|]. match goal with E : lg x' = _ |- _ => rewrite E end. by apply prefix_app_r.
  - split; [done|]. split; [auto|]. match goal with E : lg x' = _ |- _ => rewrite E end. by apply prefix_app_r.
  - destruct H as (? & ? & ? & ? & ? & -> & _). auto.
  - destruct H as (? & ? & ? & ? & ? & -> & _). auto.
  - destruct H as (? & ? & ? & ? & ? & -> & _). auto.
Qed.

Lemma pstep_candidate inm outs : pstep inm outs -> a_role a' = CANDIDATE -> lg x' = lg x.
Proof. unfold answered. destruct 1; intros Hr; try done; try congruence; tauto || (destruct H; intuition congruence). Qed.

Lemma pstep_kept inm outs : pstep inm outs -> pkept p x' p'.
Proof. unfold answered, pkept. destruct 1; try done; try (by right); destruct H as (? & ? & ? & ? & ? & ? & ? & _); by right. Qed.
End step.

(** A vote is cast in a quiet step only. *)
Lemma pstep_vote n a x p a' x' p' v outs :
  pstep n a x p a' x' p' (Receive (n, VOTE v)) outs -> a_vote (bump (vr_term v) a) = -1 ->
  a_vote a' = vr_candidate_id v -> a_vote a' <> -1 -> up_to_date v (lg x).
Proof. inversion 1; subst; auto. Qed.

(** A step only depends on the term, the role and the vote. *)
Definition anode_part (a : anode) := (a_term a, a_role a, a_vote a).

Lemma pstep_parts n a b x p a' b' x' p' inm outs :
  anode_part b = anode_part a -> anode_part b' = anode_part a' ->
  pstep n a x p a' x' p' inm outs -> pstep n b x p b' x' p' inm outs.
Proof.
  destruct a as [t v r ? ? ?], b, a' as [t' v' r' ? ? ?], b'. unfold anode_part. cbn.
  intros E E' H. injection E as -> -> ->. injection E' as -> -> ->.
  destruct H as [? ? ? ? ? ? ? Hv| | | | | | | |]; cbn;
    [apply pstep_quiet; try done|by apply pstep_refuse|by apply pstep_accept|by eapply pstep_lead|
    by eapply pstep_push|by apply pstep_nack|by apply pstep_idle|by apply pstep_ack|by apply pstep_restart].
  intros q Hq Hb. apply (Hv q Hq). unfold bump in *. cbn in *. by destruct (_ <? _).
Qed.

(** * Quorums *)

Section safety.
Context (ids : list Z) (ids_nodup : NoDup ids).
Context (ids_length : Z.of_nat (length ids) = N_SERVERS).

Definition quorum (P : Z -> Prop) : Prop :=
  exists q, NoDup q /\ (forall n, n ∈ q -> n ∈ ids /\ P n) /\ N_SERVERS < 2 * Z.of_nat (length q).

Lemma quorum_mono (P Q : Z -> Prop) : (forall n, P n -> Q n) -> quorum P -> quorum Q.
Proof. intros HPQ (q & Hd & Hq & Hl). exists q. split; [done|]. split; [|done]. intros n Hn. naive_solver. Qed.

Lemma quorum_meet P Q : quorum P -> quorum Q -> exists n, P n /\ Q n.
Proof.
  intros (q1 & Hd1 & H1 & Hl1) (q2 & Hd2 & H2 & Hl2).
  destruct (decide (Exists (fun n => n ∈ q2) q1)) as [Hex|Hno].
  - apply list.Exists_exists in Hex as (n & Hn1 & Hn2). exists n. split; [by apply H1|by apply H2].
  - exfalso. assert (NoDup (q1 ++ q2)) as Hd.
    { apply list.NoDup_app. split; [done|]. split; [|done]. intros n Hn1 Hn2. apply Hno, list.Exists_exists. eauto. }
    assert (length (q1 ++ q2) <= length ids)%nat as Hle.
    { apply submseteq_length, NoDup_submseteq; [done|]. intros n [Hn|Hn]%elem_of_app; [by apply H1|by apply H2]. }
    rewrite length_app in Hle. lia.
Qed.

Lemma voters_quorum H c t : N_SERVERS < 2 * nvotes ids H c t -> quorum (fun n => H !! (n, t) = Some c).
Proof.
  unfold nvotes, voters. intros Hl. eexists. split; [|split; [|exact Hl]].
  - by apply list.NoDup_filter.
  - intros n [Hv Hn]%list_elem_of_filter. done.
Qed.

(** * The invariant *)

(** The history: the votes, the logs of the leaders, how much of the log of
    each term's leader each node has accepted on disk, how much of it the leader
    knows of, and the logs with which the candidates stood. *)
Record ghost := {
  gv : votes;
  gl : leader_logs;
  acc : Z -> Z -> nat;
  ack : Z -> Z -> Z;
  cands : Z -> Z -> option log
}.

Definition is_entry (g : ghost) (t : Z) (i : nat) : Prop :=
  exists L e, gl g !! t = Some L /\ L !! i = Some e /\ le_term e = t.

(** A majority has accepted entry [i] of the leader of [t], in its term. *)
Definition chosen (g : ghost) (t : Z) (i : nat) : Prop :=
  is_entry g t i /\ quorum (fun n => (i < acc g n t)%nat).

(** A majority has not, and is past the term. *)
Definition closed (g : ghost) (ns : gmap Z anode) (t : Z) (i : nat) : Prop :=
  quorum (fun n => (exists a, ns !! n = Some a /\ t < a_term a) /\ (acc g n t <= i)%nat).

(** The log [l] has entry [i] of the leader of [t] and all before it, unless
    that entry cannot be chosen any more. *)
Definition holds (g : ghost) (ns : gmap Z anode) (t : Z) (l : log) (i : nat) : Prop :=
  forall L e, gl g !! t = Some L -> L !! i = Some e -> le_term e = t ->
    take (S i) l = take (S i) L \/ closed g ns t i.

(** What a log of the node [q], at term [T], keeps of what [q] has accepted. *)
Definition keeps_accepted (g : ghost) (ns : gmap Z anode) (q T : Z) (l : log) : Prop :=
  (forall L, gl g !! T = Some L -> take (acc g q T) l = take (acc g q T) L) /\
  forall t i, t < T -> (i < acc g q t)%nat -> holds g ns t l i.

(** Part of what was chosen in a term up to [T]. *)
Definition safe (g : ghost) (T : Z) (l : log) : Prop :=
  l = [] \/ exists t i L, t <= T /\ chosen g t i /\ gl g !! t = Some L /\ l `prefix_of` take (S i) L.

Definition committed_part (l : log) (c : Z) : log := take (Z.to_nat (c + 1)) l.
Definition commit_ok (g : ghost) (T : Z) (l : log) (c : Z) : Prop :=
  -1 <= c < Z.of_nat (length l) /\ safe g T (committed_part l c).

(** The followers of [n] that it knows to have entry [i] of its term [t]. *)
Definition known (g : ghost) (n t : Z) (i : nat) : list Z :=
  filter (fun f => f <> n /\ Z.of_nat i < ack g t f) ids.

Definition progress_ok (g : ghost) (n : Z) (a : anode) (x : lnode) (p : pnode) : Prop :=
  (forall f, ack g (a_term a) f <= pnx p f /\ 0 <= prd p f) /\
  forall i e, lg x !! i = Some e -> le_term e = a_term a ->
    pcnt p i <= 1 + Z.of_nat (length (known g n (a_term a) i)).

(** A message, whatever the state of its leader. *)
Definition request_ok (g : ghost) (b : raft_append_request) : Prop :=
  exists L, gl g !! ar_term b = Some L /\
    0 <= ar_prev_log_index b + 1 <= Z.of_nat (length L) /\
    lterm L (ar_prev_log_index b) = ar_prev_log_term b /\
    (ar_entries_n b <> 0 -> L !! Z.to_nat (ar_prev_log_index b + 1) = Some (ekey (ar_entry b))) /\
    (ar_entries_n b = 0 -> ar_leader_commit b <= ar_prev_log_index b) /\
    commit_ok g (ar_term b) L (ar_leader_commit b).

Definition message_ok (g : ghost) (m : pmsg) : Prop :=
  match m.2 with
  | APPEND b => request_ok g b
  | RESPONSE r => rp_request_id r = -1 \/ is_Some (gl g !! rp_term r)
  | VOTE v => exists L, cands g (vr_term v) (vr_candidate_id v) = Some L /\ describes v L
  | INSTALL_SNAPSHOT _ => True
  end.

(** A message and the leader [n] of its term. *)
Definition request_fits (n : Z) (x : lnode) (p : pnode) (dst : Z) (b : raft_append_request) : Prop :=
  dst <> n /\ ar_request_id b <= prd p dst /\
  (ar_request_id b = prd p dst ->
     ar_prev_log_index b + 1 = pnx p dst /\
     (pnx p dst < Z.of_nat (length (lg x)) -> ar_entries_n b <> 0)).

Definition response_fits (g : ghost) (n : Z) (a : anode) (x : lnode) (p : pnode)
    (r : raft_response_packet) : Prop :=
  let f := rp_id r in
  f <> n /\ f ∈ ids /\ rp_request_id r <= prd p f /\
  (rp_request_id r = prd p f ->
     (rp_success r = 0 -> ack g (a_term a) f < pnx p f) /\
     (rp_success r <> 0 -> pnx p f < Z.of_nat (length (lg x)) ->
        pnx p f + 1 <= Z.of_nat (acc g f (a_term a)))).

Definition message_fits (g : ghost) (n : Z) (a : anode) (x : lnode) (p : pnode) (m : pmsg) : Prop :=
  match m.2 with
  | APPEND b => ar_term b = a_term a -> request_fits n x p m.1 b
  | RESPONSE r => rp_term r = a_term a -> rp_request_id r = -1 \/ response_fits g n a x p r
  | _ => True
  end.

(** The logs of a node, in its memory and in its state file, each with the
    commit index beside it. *)
Definition copies (x : lnode) (p : pnode) (l : log) (c : Z) : Prop :=
  (l = lg x /\ c = pc p) \/ pim p = Some (l, c).

Record node_inv (g : ghost) (ns : gmap Z anode) (n : Z) (a : anode) (x : lnode) (p : pnode) : Prop := {
  ni_keeps : forall l c, copies x p l c -> keeps_accepted g ns n (a_term a) l;
  ni_commit : forall l c, copies x p l c -> commit_ok g (a_term a) l c;
  ni_cand : a_role a = CANDIDATE -> cands g (a_term a) n = Some (lg x);
  ni_lead : a_role a = LEADER -> progress_ok g n a x p
}.

Record cinv (g : ghost) (s : asys) (ls : gmap Z lnode) (ps : gmap Z pnode) (ms : list pmsg) : Prop := {
  ci_terms : forall n a, anodes s !! n = Some a -> 0 <= a_term a;
  ci_log_terms : forall t L, gl g !! t = Some L -> 0 <= t;
  ci_acc : forall q t, (0 < acc g q t)%nat -> exists a L, anodes s !! q = Some a /\ t <= a_term a /\
    gl g !! t = Some L /\ (acc g q t <= length L)%nat;
  ci_ack : forall t f, 0 <= ack g t f <= Z.of_nat (acc g f t);
  ci_nodes : forall n a x p, anodes s !! n = Some a -> ls !! n = Some x -> ps !! n = Some p ->
    node_inv g (anodes s) n a x p;
  ci_lead : forall t t' L, t < t' -> gl g !! t' = Some L -> forall i, holds g (anodes s) t L i;
  ci_votes : forall q t' c, gv g !! (q, t') = Some c -> exists L, cands g t' c = Some L /\
    forall t i, t < t' -> (i < acc g q t)%nat -> holds g (anodes s) t L i;
  ci_cands : forall t n L, cands g t n = Some L -> gmatch (gl g) L /\ tbounded (t - 1) L /\
    exists a, anodes s !! n = Some a /\ t <= a_term a;
  ci_msgs : forall m, m ∈ ms -> message_ok g m;
  ci_fits : forall m n a x p, m ∈ ms -> anodes s !! n = Some a -> ls !! n = Some x -> ps !! n = Some p ->
    a_role a = LEADER -> message_fits g n a x p m
}.

(** ** Chosen entries *)

Lemma chosen_open g ns t i : chosen g t i -> closed g ns t i -> False.
Proof.
  intros [_ Hq] Hc. destruct (quorum_meet _ _ Hq Hc) as (n & Hn & _ & Hn'). lia.
Qed.

(** The logs of later leaders have what was chosen. *)
Lemma safe_in g s ls ps ms T T' l L :
  cinv g s ls ps ms -> safe g T l -> T <= T' -> gl g !! T' = Some L -> l `prefix_of` L.
Proof.
  intros Hinv [->|(t & i & Lt & Ht & Hch & HLt & Hp)] HT HL; [apply prefix_nil|].
  etrans; [exact Hp|]. pose proof Hch as [(L1 & e & HL1 & He & Het) _]. rewrite HLt in HL1. injection HL1 as <-.
  destruct (decide (t = T')) as [->|]; [rewrite HLt in HL; injection HL as <-; apply prefix_take|].
  destruct (ci_lead _ _ _ _ _ Hinv t T' L ltac:(lia) HL i Lt e HLt He Het) as [<-|Hc]; [apply prefix_take|].
  by destruct (chosen_open _ _ _ _ Hch Hc).
Qed.

Lemma safe_total g s ls ps ms T1 T2 l1 l2 :
  cinv g s ls ps ms -> safe g T1 l1 -> safe g T2 l2 -> l1 `prefix_of` l2 \/ l2 `prefix_of` l1.
Proof.
  intros Hinv H1 H2.
  assert (forall l1 l2 t1 i1 L1 t2 i2 L2, t1 <= t2 ->
    chosen g t1 i1 -> gl g !! t1 = Some L1 -> l1 `prefix_of` take (S i1) L1 ->
    gl g !! t2 = Some L2 -> l2 `prefix_of` take (S i2) L2 ->
    l1 `prefix_of` l2 \/ l2 `prefix_of` l1) as Hgen.
  { clear -Hinv ids_nodup ids_length. intros l1 l2 t1 i1 L1 t2 i2 L2 Ht Hc1 HL1 Hp1 HL2 Hp2.
    assert (l1 `prefix_of` L2) as Hin.
    { eapply (safe_in _ _ _ _ _ t1 t2); [done| |done|done]. right. exists t1, i1, L1. auto with lia. }
    assert (l2 `prefix_of` L2) as Hin2 by (etrans; [exact Hp2|apply prefix_take]).
    exact (prefix_weak_total _ _ _ Hin Hin2). }
  destruct H1 as [->|(t1 & i1 & L1 & _ & Hc1 & HL1 & Hp1)]; [left; apply prefix_nil|].
  destruct H2 as [->|(t2 & i2 & L2 & _ & Hc2 & HL2 & Hp2)]; [right; apply prefix_nil|].
  destruct (decide (t1 <= t2)).
  - by eapply (Hgen l1 l2 t1 i1 L1 t2 i2 L2).
  - destruct (Hgen l2 l1 t2 i2 L2 t1 i1 L1); try done; [lia|auto..].
Qed.

(** ** What stays true *)

(** Terms and logs of leaders grow; nobody accepts anything more in a term it is
    past. *)
Record evolves (g g' : ghost) (ns ns' : gmap Z anode) : Prop := {
  ev_terms : forall n a, ns !! n = Some a -> exists a', ns' !! n = Some a' /\ a_term a <= a_term a';
  ev_logs : extends (gl g) (gl g');
  ev_acc : forall q t, (acc g q t <= acc g' q t)%nat;
  ev_frozen : forall q a t, ns !! q = Some a -> t < a_term a -> acc g' q t = acc g q t
}.

Lemma evolves_refl g ns : evolves g g ns ns.
Proof. split; try done. intros n a Ha. exists a. auto with lia. Qed.

Lemma evolves_trans g1 g2 g3 ns1 ns2 ns3 :
  evolves g1 g2 ns1 ns2 -> evolves g2 g3 ns2 ns3 -> evolves g1 g3 ns1 ns3.
Proof.
  intros [T1 L1 A1 F1] [T2 L2 A2 F2]. split.
  - intros n a Ha. destruct (T1 n a Ha) as (b & Hb & ?), (T2 n b Hb) as (d & Hd & ?). exists d. split; [done|lia].
  - by etrans.
  - intros q t. specialize (A1 q t). specialize (A2 q t). lia.
  - intros q a t Ha Ht. destruct (T1 q a Ha) as (b & Hb & ?). rewrite (F2 q b t Hb) by lia. by eapply F1.
Qed.

(** Entry [i] is in the log of the leader of [t] already. *)
Definition known_entry (g : ghost) (t : Z) (i : nat) : Prop :=
  exists L, gl g !! t = Some L /\ (i < length L)%nat.

Lemma holds_prefix g ns t l l' i : holds g ns t l i -> l `prefix_of` l' -> holds g ns t l' i.
Proof.
  intros Hh Hp L e HL He Ht. destruct (Hh L e HL He Ht) as [E|?]; [left|by right].
  rewrite <- E. apply take_prefix; [done|]. by eapply take_eq_length.
Qed.

Lemma keeps_prefix g s ls ps ms q T l l' :
  cinv g s ls ps ms -> keeps_accepted g (anodes s) q T l -> l `prefix_of` l' ->
  keeps_accepted g (anodes s) q T l'.
Proof.
  intros Hinv [Hs Hh] Hp. split; [|intros t i Ht Hi; eapply holds_prefix; eauto].
  intros L HL. rewrite <- (Hs L HL). apply take_prefix; [done|].
  destruct (decide (acc g q T = 0)%nat) as [->|]; [lia|].
  destruct (ci_acc _ _ _ _ _ Hinv q T) as (a & L0 & _ & _ & HL0 & Hlen); [lia|].
  rewrite HL in HL0. injection HL0 as <-. specialize (Hs L HL). apply (f_equal length) in Hs.
  rewrite !length_take in Hs. lia.
Qed.

Section evolve.
Context (g g' : ghost) (ns ns' : gmap Z anode) (Hev : evolves g g' ns ns').

Lemma closed_mono t i : closed g ns t i -> closed g' ns' t i.
Proof.
  apply quorum_mono. intros n [(a & Ha & Ht) Hi]. destruct (ev_terms _ _ _ _ Hev n a Ha) as (a' & Ha' & ?).
  split; [exists a'; split; [done|lia]|]. by rewrite (ev_frozen _ _ _ _ Hev n a t Ha Ht).
Qed.

Lemma chosen_mono t i : chosen g t i -> chosen g' t i.
Proof.
  intros [(L & e & HL & He & Ht) Hq]. destruct (ev_logs _ _ _ _ Hev t L HL) as (L' & HL' & Hp). split.
  - exists L', e. split; [done|]. split; [by eapply prefix_lookup_Some|done].
  - eapply quorum_mono; [|exact Hq]. intros n Hn. cbn in Hn |- *. pose proof (ev_acc _ _ _ _ Hev n t). lia.
Qed.

Lemma safe_mono T T' l : safe g T l -> T <= T' -> safe g' T' l.
Proof.
  intros [->|(t & i & L & Ht & Hc & HL & Hp)] HT; [by left|right].
  destruct (ev_logs _ _ _ _ Hev t L HL) as (L' & HL' & Hp').
  exists t, i, L'. split; [lia|]. split; [by apply chosen_mono|]. split; [done|].
  destruct Hc as [(L0 & e & HL0 & He & _) _]. rewrite HL in HL0. injection HL0 as <-.
  rewrite (take_prefix L L' (S i) Hp'); [done|]. apply lookup_lt_Some in He. lia.
Qed.

Lemma commit_ok_mono T T' l c : commit_ok g T l c -> T <= T' -> commit_ok g' T' l c.
Proof. intros [? ?] ?. split; [done|by eapply safe_mono]. Qed.

Lemma holds_mono t l i : holds g ns t l i -> known_entry g t i -> holds g' ns' t l i.
Proof.
  intros Hh (L & HL & Hi) L' e HL' He Ht. destruct (ev_logs _ _ _ _ Hev t L HL) as (L1 & HL1 & Hp).
  rewrite HL' in HL1. injection HL1 as <-.
  destruct (lookup_lt_is_Some_2 _ _ Hi) as [e0 He0].
  assert (e0 = e) as -> by (pose proof (prefix_lookup_Some _ _ _ _ He0 Hp); congruence).
  destruct (Hh L e HL He0 Ht) as [E|Hc]; [left|right; by apply closed_mono].
  rewrite E. symmetry. apply take_prefix; [done|lia].
Qed.
End evolve.

(** ** The logs of later leaders *)

Section old.
Context (g : ghost) (s : asys) (ls : gmap Z lnode) (ps : gmap Z pnode) (ms : list pmsg) (lms : list lmsg).
Context (Hc : cinv g s ls ps ms) (Hinv : inv ids (gv g) s) (Hl : linv ids (gv g) (gl g) s ls lms).

Lemma acc_known q t i : (i < acc g q t)%nat -> known_entry g t i.
Proof.
  intros Hi. destruct (ci_acc _ _ _ _ _ Hc q t) as (a & L & _ & _ & HL & Hle); [lia|]. exists L. split; [done|lia].
Qed.

Lemma acc_unknown q t i : ~ known_entry g t i -> (acc g q t <= i)%nat.
Proof. intros Hn. destruct (decide (acc g q t <= i)%nat); [done|]. destruct Hn. apply (acc_known q). lia. Qed.

Lemma known_entry_dec t i : known_entry g t i \/ ~ known_entry g t i.
Proof.
  unfold known_entry. destruct (gl g !! t) as [L|]; [|right; naive_solver].
  destruct (decide (i < length L)%nat); [left; eauto|right]. intros (? & [= <-] & ?). lia.
Qed.

(** An entry the leader of [t] has not yet cannot be chosen once a later term
    has its leader. *)
Lemma closed_past t t' L' i :
  t < t' -> gl g !! t' = Some L' -> ~ known_entry g t i -> closed g (anodes s) t i.
Proof.
  intros Ht HL' Hn. destruct (linv_ghost _ _ _ _ _ _ Hl t' L' HL') as (_ & (k & b & _ & Hv & _) & _).
  apply voters_quorum in Hv. eapply quorum_mono; [|exact Hv]. intros q Hq. cbn in Hq.
  destruct (inv_votes _ _ _ Hinv _ _ _ Hq) as (_ & a & Ha & Hr). split; [|by apply acc_unknown].
  exists a. split; [done|]. unfold remembers in Hr. lia.
Qed.

Lemma leaders_sorted t L : gl g !! t = Some L -> tsorted L.
Proof. intros HL. by destruct (linv_ghost _ _ _ _ _ _ Hl t L HL) as (_ & _ & ? & _). Qed.

(** What a node has accepted, its log holds. *)
Lemma keeps_holds n a l t i :
  anodes s !! n = Some a -> keeps_accepted g (anodes s) n (a_term a) l -> (i < acc g n t)%nat ->
  holds g (anodes s) t l i.
Proof.
  intros Ha [Hs Hh] Hi. destruct (ci_acc _ _ _ _ _ Hc n t) as (a0 & L & Ha0 & Ht & HL & Hle); [lia|].
  rewrite Ha in Ha0. injection Ha0 as <-. destruct (decide (t = a_term a)) as [->|]; [|apply Hh; [lia|done]].
  intros L0 e HL0 He _. left. rewrite HL in HL0. injection HL0 as <-.
  eapply take_eq_le; [by apply Hs|lia].
Qed.

(** A candidate for which a node votes has what the node has accepted. *)
Lemma voted_holds v l Lc t i :
  gmatch (gl g) l -> gmatch (gl g) Lc -> describes v Lc -> up_to_date v l ->
  holds g (anodes s) t l i -> holds g (anodes s) t Lc i.
Proof.
  intros Hml Hmc [Hvi Hvt] Hup Hh L e HL He Het.
  destruct (Hh L e HL He Het) as [E|?]; [|by right].
  pose proof (ci_log_terms _ _ _ _ _ Hc t L HL) as H0.
  assert (l !! i = Some e) as Hle by (rewrite <- He; eapply lookup_take_eq; [exact E|lia]).
  assert (tsorted l) as Hsl by (apply (gmatch_sorted (gl g)); [exact leaders_sorted|done]).
  pose proof (lookup_lt_Some _ _ _ Hle) as Hil.
  assert (t <= lterm l (last_index l)) as Hlast.
  { unfold last_index. rewrite lterm_at by lia. replace (Z.to_nat (Z.of_nat (length l) - 1)) with (length l - 1)%nat by lia.
    destruct (lookup_lt_is_Some_2 l (length l - 1)) as [e1 He1]; [lia|]. rewrite He1, <- Het.
    by apply (Hsl i (length l - 1)%nat); [lia|..]. }
  assert (t <= vr_last_log_term v) as Hvlast by (unfold up_to_date in Hup; lia).
  rewrite Hvt in Hvlast. unfold last_index in Hvlast, Hvi, Hvt.
  assert (0 < Z.of_nat (length Lc)) as Hpos.
  { destruct (decide (length Lc = 0)%nat) as [E0|]; [|lia]. rewrite E0, lterm_neg in Hvlast by lia. lia. }
  set (j := (length Lc - 1)%nat). destruct (lookup_lt_is_Some_2 Lc j) as [e2 He2]; [lia|].
  rewrite lterm_at in Hvlast, Hvt by lia. replace (Z.to_nat (Z.of_nat (length Lc) - 1)) with j in Hvlast, Hvt by lia.
  rewrite He2 in Hvlast, Hvt. destruct (Hmc j e2 He2) as (L2 & HL2 & E2).
  destruct (decide (le_term e2 = t)) as [Heq|Hne].
  - left. rewrite Heq, HL in HL2. injection HL2 as <-. symmetry. eapply take_eq_le; [exact E2|].
    unfold up_to_date in Hup. unfold last_index in Hup, Hlast. lia.
  - destruct (ci_lead _ _ _ _ _ Hc t (le_term e2) L2 ltac:(lia) HL2 i L e HL He Het) as [E3|?]; [left|by right].
    rewrite <- E3. symmetry. eapply take_eq_le; [exact E2|].
    assert (L2 !! i = Some e) as Hi2 by (rewrite <- He; eapply lookup_take_eq; [exact E3|lia]).
    assert (L2 !! j = Some e2) as Hj2 by (rewrite <- He2; eapply lookup_take_eq; [exact E2|lia]).
    destruct (decide (i <= j)%nat); [lia|].
    pose proof (leaders_sorted _ _ HL2 j i e2 e ltac:(lia) Hj2 Hi2). lia.
Qed.
End old.

(** ** One step *)

(** A vote of [n] in the term [T], for a candidate whose log was [L]. *)
Definition vote_for (g : ghost) (n : Z) (a : anode) (x : lnode) (T c : Z) (L : log) : Prop :=
  (c = n /\ L = lg x /\ a_term a < T) \/
  (cands g T c = Some L /\ exists v, describes v L /\ up_to_date v (lg x)).

Section update.
Context (g g' : ghost) (s s' : asys) (ls : gmap Z lnode) (ps : gmap Z pnode) (ms ms' : list pmsg).
Context (lms lms' : list lmsg).
Context (n : Z) (a a' : anode) (x x' : lnode) (p p' : pnode).
Context (Hc : cinv g s ls ps ms) (Hinv : inv ids (gv g) s) (Hinv' : inv ids (gv g') s').
Context (Hl : linv ids (gv g) (gl g) s ls lms) (Hl' : linv ids (gv g') (gl g') s' (<[n := x']> ls) lms').
Context (Ha : anodes s !! n = Some a) (Hx : ls !! n = Some x) (Hp : ps !! n = Some p).
Context (Hs' : anodes s' = <[n := a']> (anodes s)) (Hg : grows a a').
Context (Hext : extends (gl g) (gl g')) (Hgrown : grown (gl g) a' x' (gl g')).

(** What holds of every step. *)
Context (Hleader : a_role a' = LEADER ->
  a_term a' = a_term a /\ (a_role a = LEADER \/ a_role a = CANDIDATE) /\ lg x `prefix_of` lg x').
Context (Hkept : pkept p x' p').
Context (Hcd1 : forall t c L, cands g t c = Some L -> cands g' t c = Some L).
Context (Hcd2 : forall t c L, cands g' t c = Some L ->
  cands g t c = Some L \/ (c = n /\ t = a_term a' /\ a_term a < a_term a' /\ L = lg x)).
Context (Hcd3 : a_role a' = CANDIDATE -> cands g' (a_term a') n = Some (lg x')).
Context (Hvotes : forall q t c, gv g' !! (q, t) = Some c ->
  gv g !! (q, t) = Some c \/
  (q = n /\ t = a_term a' /\ exists L, cands g' t c = Some L /\ vote_for g n a x t c L)).

(** What the step does to the history. *)
Context (Hacc : forall q t, acc g' q t = acc g q t \/
  (q = n /\ t = a_term a' /\ (acc g q t <= acc g' q t)%nat /\
   exists L, gl g' !! t = Some L /\ (acc g' q t <= length L)%nat)).
Context (Hack : forall t f, ack g' t f = ack g t f \/ (t = a_term a' /\ a_role a' = LEADER)).
Context (Hackok : forall t f, 0 <= ack g' t f <= Z.of_nat (acc g' f t)).

Lemma update_evolves : evolves g g' (anodes s) (anodes s').
Proof.
  split.
  - intros k b Hb. rewrite Hs'. destruct (decide (n = k)) as [<-|].
    + exists a'. rewrite lookup_insert_eq. rewrite Ha in Hb. injection Hb as <-. split; [done|]. apply Hg.
    + exists b. rewrite lookup_insert_ne by done. auto with lia.
  - exact Hext.
  - intros q t. destruct (Hacc q t) as [->|(_ & _ & ? & _)]; [lia|done].
  - intros q b t Hb Ht. destruct (Hacc q t) as [->|(-> & -> & _)]; [done|].
    rewrite Ha in Hb. injection Hb as <-. destruct Hg as [? _]. lia.
Qed.

Lemma update_votes q t' c : gv g' !! (q, t') = Some c -> exists L, cands g' t' c = Some L /\
  forall t i, t < t' -> (i < acc g' q t)%nat -> holds g' (anodes s') t L i.
Proof.
  pose proof update_evolves as Hev. intros [Hv|(-> & -> & L & HL & Hfor)]%Hvotes.
  - destruct (ci_votes _ _ _ _ _ Hc q t' c Hv) as (L & HL & Hh). exists L. split; [by apply Hcd1|].
    intros t i Ht Hi. destruct (inv_votes _ _ _ Hinv _ _ _ Hv) as (_ & b & Hb & Hr).
    rewrite (ev_frozen _ _ _ _ Hev q b t Hb) in Hi by (unfold remembers in Hr; lia).
    eapply holds_mono; [exact Hev|by apply Hh|by eapply acc_known].
  - exists L. split; [done|]. intros t i Ht Hi.
    assert (acc g' n t = acc g n t) as Eacc by (destruct (Hacc n t) as [|(_ & ? & _)]; [done|lia]).
    rewrite Eacc in Hi. eapply holds_mono; [exact Hev| |by eapply acc_known].
    destruct (ci_nodes _ _ _ _ _ Hc n a x p Ha Hx Hp) as [Hk _ _ _].
    assert (holds g (anodes s) t (lg x) i) as Hh.
    { eapply keeps_holds; [exact Hc|exact Ha| |done]. apply (Hk _ (pc p)). by left. }
    destruct Hfor as [(-> & -> & _)|(HLc & v & Hd & Hup)]; [done|].
    destruct (ci_cands _ _ _ _ _ Hc _ _ _ HLc) as (Hm & _).
    refine (voted_holds g s ls ps ms lms Hc Hl v (lg x) L t i _ Hm Hd Hup Hh).
    exact (proj1 (linv_logs _ _ _ _ _ _ Hl n x Hx)).
Qed.

(** The log of a leader after the step: it was a leader, or was just elected. *)
Lemma update_leader t' L :
  gl g' !! t' = Some L ->
  (exists L0, gl g !! t' = Some L0 /\ L0 `prefix_of` L) \/
  (t' = a_term a' /\ cands g' t' n = Some (lg x) /\ lg x `prefix_of` L /\
   N_SERVERS < 2 * nvotes ids (gv g') n t').
Proof.
  intros HL. destruct Hgrown as [E|[Hr E]]; rewrite E in HL; [left; eauto|].
  apply lookup_insert_Some in HL as [[<- <-]|[_ HL]]; [|left; eauto].
  destruct (Hleader Hr) as (Ht & [Hr0|Hr0] & Hpre); [left|right].
  - exists (lg x). split; [|done]. rewrite Ht. by eapply (linv_lead _ _ _ _ _ _ Hl).
  - split; [done|]. destruct (ci_nodes _ _ _ _ _ Hc n a x p Ha Hx Hp) as [_ _ Hcand _].
    split; [rewrite Ht; by apply Hcd1, Hcand|]. split; [done|].
    assert (anodes s' !! n = Some a') as Ha' by (by rewrite Hs', lookup_insert_eq).
    destruct (inv_nodes _ _ _ Hinv' n a' Ha') as (_ & _ & _ & Hlead). by apply Hlead.
Qed.

Lemma update_lead t t' L : t < t' -> gl g' !! t' = Some L -> forall i, holds g' (anodes s') t L i.
Proof.
  pose proof update_evolves as Hev. intros Ht HL i Lt e HLt He Het.
  destruct (update_leader t' L HL) as [(L0 & HL0 & Hpre)|(-> & Hcd & Hpre & Hv)].
  - destruct (known_entry_dec g t i) as [Hk|Hk].
    + eapply holds_prefix; [eapply holds_mono; [exact Hev|by eapply ci_lead|done]|done..].
    + right. eapply closed_mono; [exact Hev|]. by eapply closed_past.
  - apply voters_quorum in Hv as (q & Hd & Hq & Hlen).
    destruct (decide (Forall (fun k => acc g' k t <= i)%nat q)) as [Hall|Hex].
    + right. exists q. split; [done|]. split; [|done]. intros k Hk.
      destruct (Hq k Hk) as [Hkid Hkv]. split; [done|]. rewrite list.Forall_forall in Hall.
      destruct (inv_votes _ _ _ Hinv' _ _ _ Hkv) as (_ & b & Hb & Hr). split; [|by apply Hall].
      exists b. split; [done|]. unfold remembers in Hr. lia.
    + apply list.not_Forall_Exists in Hex; [|apply _]. apply list.Exists_exists in Hex as (k & Hk & Hi).
      destruct (Hq k Hk) as [_ Hkv]. destruct (update_votes k _ n Hkv) as (L1 & HL1 & Hh).
      rewrite Hcd in HL1. injection HL1 as <-. eapply holds_prefix; [apply Hh; [done|cbn in Hi; lia]|done..].
Qed.

Lemma update_keeps_mono q T l :
  (forall t, acc g' q t = acc g q t) -> keeps_accepted g (anodes s) q T l ->
  keeps_accepted g' (anodes s') q T l.
Proof.
  pose proof update_evolves as Hev. intros Hq [Hs Hh]. split.
  - intros L HL. rewrite Hq. destruct (decide (acc g q T = 0)%nat) as [->|]; [done|].
    destruct (ci_acc _ _ _ _ _ Hc q T) as (b & L0 & _ & _ & HL0 & Hlen); [lia|].
    destruct (Hext T L0 HL0) as (L1 & HL1 & Hpre). rewrite HL in HL1. injection HL1 as <-.
    rewrite (Hs L0 HL0). symmetry. by apply take_prefix.
  - intros t i Ht Hi. rewrite Hq in Hi. eapply holds_mono; [exact Hev|by apply Hh|by eapply acc_known].
Qed.

(** What the log of [n] kept it keeps in its new term. *)
Lemma update_keeps_raise l :
  acc g' n (a_term a') = acc g n (a_term a') -> keeps_accepted g (anodes s) n (a_term a) l ->
  keeps_accepted g' (anodes s') n (a_term a') l.
Proof.
  intros Eacc Hk. apply update_keeps_mono.
  - intros t. destruct (Hacc n t) as [|(_ & -> & _)]; done.
  - destruct Hg as [Hle _]. destruct (decide (a_term a = a_term a')) as [<-|Hne]; [done|]. split.
    + intros L HL. destruct (decide (acc g n (a_term a') = 0)%nat) as [->|]; [done|].
      destruct (ci_acc _ _ _ _ _ Hc n (a_term a')) as (b & L0 & Hb & ? & _); [lia|].
      rewrite Ha in Hb. injection Hb as <-. lia.
    + intros t i _ Hi. by eapply keeps_holds.
Qed.

(** What is left to show of a step: the new log, commit index and progress of
    [n], and the messages. *)
Context (Hkeeps : keeps_accepted g' (anodes s') n (a_term a') (lg x')).
Context (Hsaved : acc g' n (a_term a') = acc g n (a_term a') \/ psaved x' p').
Context (Hcommit : commit_ok g' (a_term a') (lg x') (pc p')).
Context (Hprog : a_role a' = LEADER -> progress_ok g' n a' x' p').
Context (Hms : forall m, m ∈ ms' -> m ∈ ms \/ message_ok g' m /\
  forall k b y r, anodes s' !! k = Some b -> <[n := x']> ls !! k = Some y -> <[n := p']> ps !! k = Some r ->
    a_role b = LEADER -> message_fits g' k b y r m).
Context (Hfits : forall m, m ∈ ms -> a_role a' = LEADER -> message_ok g m ->
  (a_role a = LEADER -> message_fits g n a x p m) -> message_fits g' n a' x' p' m).

Lemma update_node : node_inv g' (anodes s') n a' x' p'.
Proof.
  pose proof update_evolves as Hev. destruct (ci_nodes _ _ _ _ _ Hc n a x p Ha Hx Hp) as [Hk Hcm _ _].
  assert (forall l c, copies x' p' l c -> (l = lg x' /\ c = pc p') \/
            (acc g' n (a_term a') = acc g n (a_term a') /\ copies x p l c)) as Hcopies.
  { intros l c [?|Hi]; [by left|].
    assert (psaved x' p' -> l = lg x' /\ c = pc p') as Hnew.
    { intros E. rewrite E in Hi. by injection Hi as <- <-. }
    destruct Hsaved as [E|E]; [|left; by apply Hnew]. destruct Hkept as [E'|E']; [|left; by apply Hnew].
    right. split; [done|]. right. by rewrite <- E'. }
  split; [..|exact Hcd3|exact Hprog].
  - intros l c [[-> _]|[E Hold]]%Hcopies; [done|]. apply update_keeps_raise; [done|]. by eapply Hk.
  - intros l c [[-> ->]|[_ Hold]]%Hcopies; [done|].
    eapply commit_ok_mono; [exact Hev|by apply Hcm|apply Hg].
Qed.

(** The term of another leader. *)
Lemma update_other_term k b :
  k <> n -> anodes s !! k = Some b -> a_role b = LEADER -> a_role a' = LEADER -> a_term b <> a_term a'.
Proof.
  intros Hne Hb Hrb Hr. eapply (step_other_term ids ids_length); try done.
Qed.

Lemma update_ack_other k b f :
  k <> n -> anodes s !! k = Some b -> a_role b = LEADER -> ack g' (a_term b) f = ack g (a_term b) f.
Proof.
  intros Hne Hb Hr. destruct (Hack (a_term b) f) as [|[Ht Hr']]; [done|]. by destruct (update_other_term k b).
Qed.

Lemma update_others k b y r :
  k <> n -> anodes s !! k = Some b -> ls !! k = Some y -> ps !! k = Some r -> node_inv g' (anodes s') k b y r.
Proof.
  pose proof update_evolves as Hev. intros Hne Hb Hy Hr.
  destruct (ci_nodes _ _ _ _ _ Hc k b y r Hb Hy Hr) as [Hk Hcm Hcand Hlead]. split.
  - intros l c Hl0. apply update_keeps_mono; [|by eapply Hk].
    intros t. destruct (Hacc k t) as [|(-> & _)]; done.
  - intros l c Hl0. eapply commit_ok_mono; [exact Hev|by apply Hcm|done].
  - intros Hrole. by apply Hcd1, Hcand.
  - intros Hrole. destruct (Hlead Hrole) as [H1 H2]. split.
    + intros f. by rewrite (update_ack_other k b).
    + intros i e He Ht. specialize (H2 i e He Ht). etrans; [exact H2|]. apply Zorder.Zplus_le_compat_l.
      apply Nat2Z.inj_le, Nat.eq_le_incl. f_equal. unfold known. apply list_filter_iff. intros f.
      by rewrite (update_ack_other k b).
Qed.

Lemma update_message m : m ∈ ms' -> message_ok g' m.
Proof.
  pose proof update_evolves as Hev. intros [Hm|[? _]]%Hms; [|done].
  pose proof (ci_msgs _ _ _ _ _ Hc m Hm) as Hok. unfold message_ok in *. destruct m.2 as [b|v|q|r].
  - destruct Hok as (L & HL & Hpos & Hterm & He & Hhb & Hcm).
    destruct (Hext _ _ HL) as (L' & HL' & Hpre). pose proof (prefix_length _ _ Hpre).
    exists L'. split; [done|]. split; [lia|]. split; [|split; [|split; [done|]]].
    + rewrite <- Hterm. destruct (decide (ar_prev_log_index b < 0)); [by rewrite !lterm_neg|].
      rewrite !lterm_at by lia. destruct (lookup_lt_is_Some_2 L (Z.to_nat (ar_prev_log_index b))) as [e1 He1]; [lia|].
      by rewrite (prefix_lookup_Some _ _ _ _ He1 Hpre), He1.
    + intros Hn. eapply prefix_lookup_Some; [by apply He|done].
    + destruct Hcm as [Hlt Hsafe]. split; [lia|]. unfold committed_part in *.
      rewrite (take_prefix L L') by (done || lia). eapply safe_mono; [exact Hev|exact Hsafe|done].
  - destruct Hok as (L & HL & ?). exists L. split; [by apply Hcd1|done].
  - done.
  - destruct Hok as [|[L HL]]; [by left|right]. destruct (Hext _ _ HL) as (L' & HL' & _). eauto.
Qed.

Lemma update_fits m k b y r :
  m ∈ ms' -> anodes s' !! k = Some b -> <[n := x']> ls !! k = Some y -> <[n := p']> ps !! k = Some r ->
  a_role b = LEADER -> message_fits g' k b y r m.
Proof.
  pose proof update_evolves as Hev. intros [Hm|[_ Hf]]%Hms Hb Hy Hr Hrole; [|by apply Hf].
  rewrite Hs' in Hb. destruct (decide (n = k)) as [<-|Hne].
  - rewrite lookup_insert_eq in Hb. rewrite lookup_insert_eq in Hy. rewrite lookup_insert_eq in Hr. injection Hb as <-. injection Hy as <-. injection Hr as <-.
    apply Hfits; [done..|by apply (ci_msgs _ _ _ _ _ Hc)|]. intros Hra. by eapply (ci_fits _ _ _ _ _ Hc).
  - rewrite lookup_insert_ne in Hb by done. rewrite lookup_insert_ne in Hy by done. rewrite lookup_insert_ne in Hr by done.
    pose proof (ci_fits _ _ _ _ _ Hc m k b y r Hm Hb Hy Hr Hrole) as Hold. unfold message_fits in *.
    destruct m.2 as [q|v|q|q]; try done. intros Ht. destruct (Hold Ht) as [|(H1 & H2 & H3 & H4)]; [by left|right].
    split; [done|]. split; [done|]. split; [done|]. intros E. destruct (H4 E) as [H5 H6].
    rewrite (update_ack_other k b) by done. split; [done|]. intros Hs0 Hn. specialize (H6 Hs0 Hn).
    pose proof (ev_acc _ _ _ _ Hev (rp_id q) (a_term b)). lia.
Qed.

Theorem cinv_update : cinv g' s' (<[n := x']> ls) (<[n := p']> ps) ms'.
Proof.
  pose proof update_evolves as Hev. split.
  - rewrite Hs'. intros k b [[<- <-]|[_ Hb]]%lookup_insert_Some; [|by eapply ci_terms].
    pose proof (ci_terms _ _ _ _ _ Hc n a Ha). destruct Hg. lia.
  - intros t L HL. destruct Hgrown as [E|[_ E]]; rewrite E in HL; [by eapply ci_log_terms|].
    apply lookup_insert_Some in HL as [[<- _]|[_ HL]]; [|by eapply ci_log_terms].
    pose proof (ci_terms _ _ _ _ _ Hc n a Ha). destruct Hg. lia.
  - intros q t Hpos. destruct (Hacc q t) as [E|(-> & -> & _ & L & HL & Hle)].
    + rewrite E in *. destruct (ci_acc _ _ _ _ _ Hc q t Hpos) as (b & L & Hb & Ht & HL & Hle).
      destruct (ev_terms _ _ _ _ Hev q b Hb) as (b' & Hb' & ?). destruct (Hext t L HL) as (L' & HL' & Hpre).
      apply prefix_length in Hpre. exists b', L'. split; [done|]. split; [lia|]. split; [done|lia].
    + exists a', L. by rewrite Hs', lookup_insert_eq.
  - exact Hackok.
  - rewrite Hs'. intros k b y r Hb Hy Hr. destruct (decide (n = k)) as [<-|Hne].
    + rewrite lookup_insert_eq in Hb. rewrite lookup_insert_eq in Hy. rewrite lookup_insert_eq in Hr. injection Hb as <-. injection Hy as <-. injection Hr as <-.
      rewrite <- Hs'. exact update_node.
    + rewrite lookup_insert_ne in Hb by done. rewrite lookup_insert_ne in Hy by done. rewrite lookup_insert_ne in Hr by done. rewrite <- Hs'. by apply update_others.
  - intros t t' L Ht HL. by eapply update_lead.
  - exact update_votes.
  - intros t k L [HL|(-> & -> & Hlt & ->)]%Hcd2.
    + destruct (ci_cands _ _ _ _ _ Hc t k L HL) as (Hm & Hb & b & Hkb & Ht).
      destruct (ev_terms _ _ _ _ Hev k b Hkb) as (b' & Hb' & ?).
      split; [by eapply gmatch_extend|]. split; [done|]. exists b'. split; [done|lia].
    + split; [eapply gmatch_extend; [done|exact (proj1 (linv_logs _ _ _ _ _ _ Hl n x Hx))]|].
      split; [|exists a'; by rewrite Hs', lookup_insert_eq].
      eapply tbounded_mono; [|exact (proj1 (linv_terms _ _ _ _ _ _ Hl n a x Ha Hx))]. lia.
  - exact update_message.
  - intros m k b y r Hm. by eapply update_fits.
Qed.
End update.
End safety.
