(* ===== verification/CommitStep.v ===== *)
(** Every step of a node keeps the invariant of the commit protocol
    ([CommitSpec.cinv]), in an environment where no append request of a past
    term arrives, and a leader adds an entry to its log only when none of its
    heartbeats waits for an answer. *)
From S2P Require Import Prelude RaftTypes ElectionSpec LogSpec CommitSpec.

Section step.
Context (ids : list Z) (ids_nodup : NoDup ids).
Context (ids_length : Z.of_nat (length ids) = N_SERVERS).
Context (g : ghost) (H' : votes) (G' : leader_logs) (s s' : asys).
Context (ls : gmap Z lnode) (ps : gmap Z pnode) (ms ms' : list pmsg) (lms lms' : list lmsg).
Context (n : Z) (a a' : anode) (x x' : lnode) (p p' : pnode).
Context (einm : option msg) (inm : event) (outs : list pmsg).

Context (Hc : cinv ids g s ls ps ms) (Hinv : inv ids (gv g) s) (Hinv' : inv ids H' s').
Context (Hl : linv ids (gv g) (gl g) s ls lms) (Hl' : linv ids H' G' s' (<[n := x']> ls) lms').
Context (Ha : anodes s !! n = Some a) (Hx : ls !! n = Some x) (Hp : ps !! n = Some p).
Context (Hs' : anodes s' = <[n := a']> (anodes s)) (Hg : grows a a').
Context (Hext : extends (gl g) G') (Hgrown : grown (gl g) a' x' G').
Context (Hsub : gv g ⊆ H') (Hcast : cast (gv g) n a einm a' H').
Context (Hstep : pstep n a x p a' x' p' inm outs).
Context (Hin : forall m, inm = Receive m -> m ∈ ms) (Hms : forall m, m ∈ ms' -> m ∈ outs \/ m ∈ ms).
Context (Hein : forall c src t, einm = Some (MVote c src t) ->
  exists v, inm = Receive (n, VOTE v) /\ vr_candidate_id v = c /\ vr_term v = t).

Lemma step_self : anodes s' !! n = Some a'.
Proof. by rewrite Hs', lookup_insert_eq. Qed.

Lemma step_id_in : n ∈ ids.
Proof. apply (inv_dom _ _ _ Hinv). eauto. Qed.

(** The node before the step. *)
Lemma step_before : node_inv ids g (anodes s) n a x p.
Proof. by eapply ci_nodes. Qed.

(** A leader of the term of the leader [n] is [n]. *)
Lemma step_only_leader k b :
  anodes s' !! k = Some b -> a_role b = LEADER -> a_role a' = LEADER -> a_term b = a_term a' -> k = n.
Proof. intros Hb Hr Hr' Ht. exact (inv_one_leader ids ids_length H' s' k n b a' Hinv' Hb step_self Hr Hr' Ht). Qed.

(** The logs of the candidates after the step, and the vote it casts. *)
Lemma step_cands : exists Cd,
  (forall t c L, cands g t c = Some L -> Cd t c = Some L) /\
  (forall t c L, Cd t c = Some L ->
     cands g t c = Some L \/ (c = n /\ t = a_term a' /\ a_term a < a_term a' /\ L = lg x)) /\
  (a_role a' = CANDIDATE -> Cd (a_term a') n = Some (lg x')) /\
  (forall q t c, H' !! (q, t) = Some c -> gv g !! (q, t) = Some c \/
     (q = n /\ t = a_term a' /\ exists L, Cd t c = Some L /\ vote_for g n a x t c L)).
Proof.
  assert (a_role a' = CANDIDATE -> a_role a = CANDIDATE /\ a_term a' = a_term a ->
          cands g (a_term a') n = Some (lg x')) as Hcand.
  { intros Hr [Hr0 Ht]. rewrite (pstep_candidate _ _ _ _ _ _ _ _ _ Hstep Hr), Ht. by apply (ni_cand _ _ _ _ _ _ _ step_before). }
  pose proof (inv_votes _ _ _ Hinv') as Hv'.
  destruct Hcast as [Hr|Hr Ht|src He Hb Hr].
  - exists (cands g). split; [done|]. split; [by left|]. split; [auto|by left].
  - exists (fun t c => if decide (t = a_term a' /\ c = n) then Some (lg x) else cands g t c).
    split; [|split; [|split]].
    + intros t c L HL. rewrite decide_False; [done|]. intros [-> ->].
      destruct (ci_cands _ _ _ _ _ _ Hc _ _ _ HL) as (_ & _ & b & Hb & ?). rewrite Ha in Hb. injection Hb as <-. lia.
    + intros t c L. case_decide as E; [|by left]. destruct E as [-> ->]. intros [= <-]. by right.
    + intros _. rewrite decide_True by done. by rewrite (pstep_candidate _ _ _ _ _ _ _ _ _ Hstep Hr).
    + intros q t c [([= <- <-] & <-)|[_ Hq]]%lookup_insert_Some; [right|by left].
      split; [done|]. split; [done|]. exists (lg x). rewrite decide_True by done. split; [done|]. by left.
  - exists (cands g). split; [done|]. split; [by left|]. split; [auto|].
    destruct (Hv' n (a_term a') (a_vote a')) as [Hne _]; [by rewrite lookup_insert_eq|].
    intros q t c [([= <- <-] & <-)|[_ Hq]]%lookup_insert_Some; [right|by left].
    split; [done|]. split; [done|]. destruct (Hein _ _ _ He) as (v & Hi & Hcd & Ht).
    pose proof (ci_msgs _ _ _ _ _ _ Hc _ (Hin _ Hi)) as (L & HL & Hd). rewrite Hcd, Ht in HL.
    exists L. split; [done|]. right. split; [done|]. exists v. split; [done|].
    rewrite Hi in Hstep. eapply pstep_vote; [exact Hstep|by rewrite Ht|done|done].
Qed.

(** What a step has to show, for the history [g'] after it. *)
Record facts (o : list pmsg) (g' : ghost) : Prop := {
  f_keeps : keeps_accepted ids g' (anodes s') n (a_term a') (lg x');
  f_saved : acc g' n (a_term a') = acc g n (a_term a') \/ psaved x' p';
  f_commit : commit_ok ids g' (a_term a') (lg x') (pc p');
  f_prog : a_role a' = LEADER -> progress_ok ids g' n a' x' p';
  f_outs : forall m, m ∈ o -> message_ok ids g' m /\
    forall k b y r, anodes s' !! k = Some b -> <[n := x']> ls !! k = Some y -> <[n := p']> ps !! k = Some r ->
      a_role b = LEADER -> message_fits ids g' k b y r m;
  f_fits : forall m, m ∈ ms -> a_role a' = LEADER -> message_ok ids g m ->
    (a_role a = LEADER -> message_fits ids g n a x p m) -> message_fits ids g' n a' x' p' m
}.

Record next_ghost (A : Z -> Z -> nat) (K : Z -> Z -> Z) (g' : ghost) : Prop := {
  ng_votes : gv g' = H'; ng_logs : gl g' = G'; ng_acc : acc g' = A; ng_ack : ack g' = K;
  ng_cands : a_role a' = CANDIDATE -> cands g' (a_term a') n = Some (lg x');
  ng_evolves : evolves g g' (anodes s) (anodes s');
  ng_keeps : forall l, A n (a_term a') = acc g n (a_term a') ->
    keeps_accepted ids g (anodes s) n (a_term a) l -> keeps_accepted ids g' (anodes s') n (a_term a') l;
  ng_lead : forall t t' L, t < t' -> gl g' !! t' = Some L -> forall i, holds ids g' (anodes s') t L i
}.

(** The step goes on with the history [A], [K]. *)
Lemma step_by (A : Z -> Z -> nat) (K : Z -> Z -> Z) :
  (forall q t, A q t = acc g q t \/ (q = n /\ t = a_term a' /\ (acc g q t <= A q t)%nat /\
     exists L, G' !! t = Some L /\ (A q t <= length L)%nat)) ->
  (forall t f, K t f = ack g t f \/ (t = a_term a' /\ a_role a' = LEADER)) ->
  (forall t f, 0 <= K t f <= Z.of_nat (A f t)) ->
  (forall g', next_ghost A K g' -> facts outs g') ->
  exists g', gv g' = H' /\ gl g' = G' /\ evolves g g' (anodes s) (anodes s') /\
    cinv ids g' s' (<[n := x']> ls) (<[n := p']> ps) ms'.
Proof.
  intros HA HK HKA Hfacts. destruct step_cands as (Cd & Hcd1 & Hcd2 & Hcd3 & Hv).
  set (g' := {| gv := H'; gl := G'; acc := A; ack := K; cands := Cd |}).
  pose proof (pstep_leader _ _ _ _ _ _ _ _ _ Hstep) as Hlead.
  assert (evolves g g' (anodes s) (anodes s')) as Hev.
  { by eapply (update_evolves ids g g' s s' n a a'). }
  assert (next_ghost A K g') as Hng.
  { split; try done.
    - intros l E Hk. by eapply (update_keeps_raise ids g g' s s' ls ps ms n a a').
    - by eapply (update_lead ids ids_nodup g g' s s' ls ps ms lms n a a' x x' p). }
  destruct (Hfacts g' Hng) as [F1 F2 F3 F4 F5 F6].
  exists g'. split; [done|]. split; [done|]. split; [done|].
  eapply (cinv_update ids ids_nodup ids_length g g' s s' ls ps ms ms' lms n a a' x x' p p'); try done.
  - by eapply pstep_kept.
  - intros m [Hm|Hm]%Hms; [right; by apply F5|by left].
Qed.

(** ** Steps that add nothing to the history *)

Lemma no_news q t : acc g q t = acc g q t \/ (q = n /\ t = a_term a' /\ (acc g q t <= acc g q t)%nat /\
  exists L, G' !! t = Some L /\ (acc g q t <= length L)%nat).
Proof. by left. Qed.

Lemma no_acks t f : ack g t f = ack g t f \/ (t = a_term a' /\ a_role a' = LEADER).
Proof. by left. Qed.

Lemma same_known g' t i : ack g' = ack g -> known ids g' n t i = known ids g n t i.
Proof. unfold known. by intros ->. Qed.

Section same.
Context (A : Z -> Z -> nat) (K : Z -> Z -> Z) (g' : ghost) (Hng : next_ghost A K g').

Lemma same_keeps :
  A n (a_term a') = acc g n (a_term a') -> lg x `prefix_of` lg x' ->
  keeps_accepted ids g' (anodes s') n (a_term a') (lg x').
Proof.
  intros HA Hpre. apply (ng_keeps _ _ _ Hng); [done|]. eapply keeps_prefix; [exact Hc| |exact Hpre].
  apply (ni_keeps _ _ _ _ _ _ _ step_before _ (pc p)). by left.
Qed.

Lemma same_commit : lg x `prefix_of` lg x' -> pc p' = pc p -> commit_ok ids g' (a_term a') (lg x') (pc p').
Proof.
  intros Hpre ->. destruct (ni_commit _ _ _ _ _ _ _ step_before (lg x) (pc p)) as [Hb Hsafe]; [by left|].
  pose proof (prefix_length _ _ Hpre). split; [lia|]. unfold committed_part in *.
  rewrite (take_prefix (lg x)) by (done || lia).
  eapply safe_mono; [exact (ng_evolves _ _ _ Hng)|exact Hsafe|apply Hg].
Qed.

Lemma same_acc :
  A n (a_term a') = acc g n (a_term a') -> acc g' n (a_term a') = acc g n (a_term a') \/ psaved x' p'.
Proof. left. by rewrite (ng_acc _ _ _ Hng). Qed.

Lemma same_prog :
  K = ack g -> leads_same a p a' p' -> lg x' = lg x -> a_role a' = LEADER -> progress_ok ids g' n a' x' p'.
Proof.
  intros HK Hls Elg Hr. destruct (Hls Hr) as (Hr0 & Ht & En & Ed & Ec).
  destruct (ni_lead _ _ _ _ _ _ _ step_before Hr0) as [H1 H2].
  unfold progress_ok. rewrite Ht, En, Ed, Ec, Elg, (ng_ack _ _ _ Hng), HK. split; [done|].
  intros i e. rewrite (same_known g') by (by rewrite (ng_ack _ _ _ Hng)). apply H2.
Qed.

Lemma same_fits m :
  A = acc g -> K = ack g -> leads_same a p a' p' -> lg x' = lg x -> a_role a' = LEADER ->
  (a_role a = LEADER -> message_fits ids g n a x p m) -> message_fits ids g' n a' x' p' m.
Proof.
  intros HA HK Hls Elg Hr Hf. destruct (Hls Hr) as (Hr0 & Ht & En & Ed & _). specialize (Hf Hr0).
  unfold message_fits, request_fits, response_fits in *.
  by rewrite Ht, En, Ed, Elg, (ng_ack _ _ _ Hng), (ng_acc _ _ _ Hng), HA, HK.
Qed.

(** The log of the leader [n], in the history. *)
Lemma leader_log : a_role a' = LEADER -> gl g' !! a_term a' = Some (lg x').
Proof.
  intros Hr. rewrite (ng_logs _ _ _ Hng). eapply (linv_lead _ _ _ _ _ _ Hl'); [exact step_self| |done].
  by rewrite lookup_insert_eq.
Qed.

Lemma quiet_outs m :
  lg x' = lg x -> pc p' = pc p -> leads_same a p a' p' -> sends n a x p a' m ->
  message_ok ids g' m /\
  forall k b y r, anodes s' !! k = Some b -> <[n := x']> ls !! k = Some y -> <[n := p']> ps !! k = Some r ->
    a_role b = LEADER -> message_fits ids g' k b y r m.
Proof.
  intros Elg Epc Hls Hsend. unfold sends, message_ok, message_fits in *. destruct m as [dst [b|v|q|r]]; cbn in *.
  - destruct Hsend as (Hr0 & Hr & Hne & Hreq). destruct (Hls Hr) as (_ & Ht & En & Ed & _).
    destruct Hreq as (Etm & Hrange & Eprev & Ept & Hent & Ecm & Erid). split.
    + unfold request_ok. rewrite Etm, Eprev. exists (lg x). rewrite <- Ht, (leader_log Hr), Elg. split; [done|].
      replace (pnx p dst - 1 + 1) with (pnx p dst) by lia. split; [done|]. split; [done|].
      pose proof (same_commit ltac:(by rewrite Elg) Epc) as Hcm. rewrite Elg, Epc in Hcm. rewrite Ecm. split; [|split].
      * intros Hn. case_decide; [done|]. by destruct Hent.
      * intros Hn. case_decide; [|by destruct Hent]. destruct Hcm as [? _]. lia.
      * exact Hcm.
    + intros k c y r Hk Hy Hpr Hrk Et. assert (k = n) as -> by (eapply step_only_leader; try done; congruence).
      rewrite lookup_insert_eq in Hy. injection Hy as <-. rewrite lookup_insert_eq in Hpr. injection Hpr as <-.
      unfold request_fits. rewrite En, Ed, Elg, Erid. split; [done|]. split; [lia|]. intros _. split; [lia|].
      case_decide; [lia|]. by destruct Hent.
  - destruct Hsend as (Hr & Et & Ec & Hd). split; [|done]. exists (lg x').
    rewrite Et, Ec, (ng_cands _ _ _ Hng Hr), Elg. done.
  - done.
  - split; [by left|]. intros. by left.
Qed.
End same.

Lemma facts_quiet g' o :
  next_ghost (acc g) (ack g) g' -> lg x' = lg x -> pc p' = pc p -> leads_same a p a' p' ->
  (forall m, m ∈ o -> sends n a x p a' m) -> facts o g'.
Proof.
  intros Hng Elg Epc Hls Hsend. assert (lg x `prefix_of` lg x') as Hpre by (by rewrite Elg). split.
  - by eapply same_keeps.
  - by eapply same_acc.
  - by eapply same_commit.
  - by eapply same_prog.
  - intros m Hm. eapply quiet_outs; eauto.
  - intros m _ Hr _ Hf. by eapply same_fits.
Qed.

Lemma facts_restart g' :
  next_ghost (acc g) (ack g) g' -> pim p = Some (lg x', pc p') -> a_role a' = FOLLOWER -> facts [] g'.
Proof.
  intros Hng Him Hr. split; [..|congruence| |congruence].
  - apply (ng_keeps _ _ _ Hng); [done|]. apply (ni_keeps _ _ _ _ _ _ _ step_before _ (pc p')). by right.
  - by eapply same_acc.
  - eapply commit_ok_mono; [exact (ng_evolves _ _ _ Hng)| |apply Hg].
    apply (ni_commit _ _ _ _ _ _ _ step_before). by right.
  - intros m Hm. by apply not_elem_of_nil in Hm.
Qed.

(** ** Append requests *)

Section request.
Context (b : raft_append_request) (L : log) (Hb : (n, APPEND b) ∈ ms) (Hnew : a_term a <= ar_term b).
Context (HL : gl g !! ar_term b = Some L).

Lemma request_parts :
  0 <= ar_prev_log_index b + 1 <= Z.of_nat (length L) /\
  lterm L (ar_prev_log_index b) = ar_prev_log_term b /\
  (ar_entries_n b <> 0 -> L !! lm_pos (lmsg_of b) = Some (ekey (ar_entry b))) /\
  (ar_entries_n b = 0 -> ar_leader_commit b <= ar_prev_log_index b) /\
  commit_ok ids g (ar_term b) L (ar_leader_commit b).
Proof.
  destruct (ci_msgs _ _ _ _ _ _ Hc _ Hb) as (L0 & HL0 & Hparts). rewrite HL in HL0. by injection HL0 as <-.
Qed.

Lemma request_log : gmatch (gl g) (lg x).
Proof. exact (proj1 (linv_logs _ _ _ _ _ _ Hl n x Hx)). Qed.

Lemma request_leader_log : gmatch (gl g) L.
Proof. by destruct (linv_ghost _ _ _ _ _ _ Hl _ _ HL). Qed.

(** What the log has accepted in the term of the request is the leader's. *)
Lemma request_accepted : take (acc g n (ar_term b)) (lg x) = take (acc g n (ar_term b)) L.
Proof.
  destruct (decide (acc g n (ar_term b) = 0)%nat) as [->|]; [done|].
  destruct (ci_acc _ _ _ _ _ _ Hc n (ar_term b)) as (a0 & _ & Ha0 & Ht & _); [lia|].
  rewrite Ha in Ha0. injection Ha0 as <-. assert (ar_term b = a_term a) as Et by lia.
  destruct (ni_keeps _ _ _ _ _ _ _ step_before (lg x) (pc p)) as [Hs _]; [by left|].
  rewrite Et in *. by apply Hs.
Qed.

(** A request that only names what the node has accepted passes the test. *)
Lemma request_passes :
  ar_prev_log_index b + 1 <= Z.of_nat (acc g n (ar_term b)) -> accepts (lg x) (lmsg_of b).
Proof.
  intros Hle. destruct request_parts as (Hr & Ht & _). unfold accepts. cbn.
  destruct (decide (ar_prev_log_index b < 0)) as [Hneg|Hpos].
  { rewrite lterm_neg in Ht |- * by done. split; [lia|done]. }
  pose proof request_accepted as E. rewrite lterm_at in Ht |- * by lia.
  assert (lg x !! Z.to_nat (ar_prev_log_index b) = L !! Z.to_nat (ar_prev_log_index b)) as E1
    by (eapply lookup_take_eq; [exact E|lia]).
  rewrite E1. split; [|done]. destruct (lookup_lt_is_Some_2 L (Z.to_nat (ar_prev_log_index b))) as [e He]; [lia|].
  rewrite He in E1. apply lookup_lt_Some in E1. lia.
Qed.

(** The answer [s] to the request suits the other leaders. *)
Lemma answer_outs g' sc dst :
  gl g' !! ar_term b = Some L -> a_term a' = ar_term b ->
  (forall t f, t = a_term a' -> ack g' t f = ack g t f) ->
  (a_role a' = LEADER -> False) ->
  (sc = 0 -> ack g (ar_term b) n < ar_prev_log_index b + 1) ->
  (sc <> 0 -> ar_entries_n b <> 0 -> (S (lm_pos (lmsg_of b)) <= acc g' n (ar_term b))%nat) ->
  forall m, m ∈ [(dst, answer_to n (ar_term b) sc b)] -> message_ok ids g' m /\
    forall k c y r, anodes s' !! k = Some c -> <[n := x']> ls !! k = Some y -> <[n := p']> ps !! k = Some r ->
      a_role c = LEADER -> message_fits ids g' k c y r m.
Proof.
  intros HL' Ht Hack Hnl H0 H1 m ->%list_elem_of_singleton. split; [right; by eexists|].
  intros k c y r Hk Hy Hr Hrole. unfold message_fits. cbn. intros Etc. right. unfold response_fits. cbn.
  rewrite Hs' in Hk. destruct (decide (n = k)) as [<-|Hne].
  { rewrite lookup_insert_eq in Hk. injection Hk as <-. by destruct Hnl. }
  rewrite lookup_insert_ne in Hk by done. rewrite lookup_insert_ne in Hy by done. rewrite lookup_insert_ne in Hr by done.
  destruct (ci_fits _ _ _ _ _ _ Hc _ k c y r Hb Hk Hy Hr Hrole Etc) as (_ & Hrid & Heq). cbn in Hrid, Heq.
  split; [done|]. split; [exact step_id_in|]. split; [done|]. intros E. destruct (Heq E) as [Hpos Hent].
  rewrite <- Etc, Hack by congruence. split; [intros Hs0; specialize (H0 Hs0); lia|].
  intros Hs0 Hlen. specialize (H1 Hs0 (Hent Hlen)). unfold lm_pos in H1. cbn in H1. lia.
Qed.

(** A log that agrees with the leader's keeps agreeing when the entry is stored. *)
Lemma stored_agree k :
  accepts (lg x) (lmsg_of b) -> ar_entries_n b <> 0 -> take k (lg x) = take k L ->
  take k (stored (lg x) (lmsg_of b)) = take k L /\
  take (S (lm_pos (lmsg_of b))) (stored (lg x) (lmsg_of b)) = take (S (lm_pos (lmsg_of b))) L.
Proof.
  intros Hacc He Hk. destruct request_parts as (Hr & Ht & Hent & _). specialize (Hent He).
  assert (carries L (lmsg_of b)) as Hcar by (split; [cbn; lia|by split]).
  pose proof request_log as Hm. pose proof request_leader_log as HmL.
  pose proof (accept_agree _ _ _ _ Hm HmL Hcar Hacc) as Hpre.
  set (pos := lm_pos (lmsg_of b)) in *. unfold stored. fold pos. case_decide as Hd.
  - apply fmap_Some in Hd as (e & Hx0 & Hte).
    assert (lg x !! pos = L !! pos) as E.
    { eapply lookup_take_eq; [|apply Nat.lt_succ_diag_r]. by eapply (gmatch_agree (gl g)). }
    rewrite list_insert_id by (rewrite E; exact Hent). split; [done|].
    by eapply (gmatch_agree (gl g)).
  - destruct (decide (k <= pos)%nat) as [Hle|Hgt].
    + assert (pos <= length L)%nat as HlenL by (apply lookup_lt_Some in Hent; lia).
      rewrite Hpre. change (lm_entry (lmsg_of b)) with (ekey (ar_entry b)). rewrite <- (take_S_r L pos) by exact Hent.
      rewrite !take_take. split; [f_equal; lia|f_equal; lia].
    + exfalso. apply Hd. assert (lg x !! pos = L !! pos) as E by (eapply lookup_take_eq; [exact Hk|lia]).
      rewrite E, Hent. done.
Qed.

Lemma request_refused g' dst :
  next_ghost (acc g) (ack g) g' -> lg x' = lg x -> pc p' = pc p -> leads_same a p a' p' ->
  a_term a' = ar_term b -> ~ accepts (lg x) (lmsg_of b) ->
  facts [(dst, answer_to n (ar_term b) 0 b)] g'.
Proof.
  intros Hng Elg Epc Hls Ht Hno. assert (lg x `prefix_of` lg x') as Hpre by (by rewrite Elg).
  assert (a_role a' = LEADER -> False) as Hnl.
  { intros Hr. destruct (Hls Hr) as (Hr0 & Ht0 & _).
    destruct (ci_fits _ _ _ _ _ _ Hc _ n a x p Hb Ha Hx Hp Hr0) as [Hne _]; [congruence|]. by cbn in Hne. }
  split; [by eapply same_keeps|by eapply same_acc|by eapply same_commit|tauto| |tauto].
  apply answer_outs; [|done| |done| |done].
  - rewrite (ng_logs _ _ _ Hng). destruct Hgrown as [->|[? _]]; [done|tauto].
  - intros t f _. by rewrite (ng_ack _ _ _ Hng).
  - intros _. destruct (ci_ack _ _ _ _ _ _ Hc (ar_term b) n) as [_ Hle].
    destruct (decide (ar_prev_log_index b + 1 <= ack g (ar_term b) n)); [|lia].
    destruct Hno. apply request_passes. lia.
Qed.

Lemma commit_from l l' T c c' k :
  commit_ok ids g T l c -> -1 <= c' <= c -> take k l' = take k l -> c' < Z.of_nat k ->
  commit_ok ids g T l' c'.
Proof.
  intros [Hlt Hs] Hle Hk Hck.
  assert (take (Z.to_nat (c' + 1)) l' = take (Z.to_nat (c' + 1)) l) as E by (eapply take_eq_le; [exact Hk|lia]).
  split.
  - split; [lia|]. apply (f_equal length) in E. rewrite !length_take in E. lia.
  - unfold committed_part in *. rewrite E. destruct Hs as [Hnil|(t & i & L0 & Ht & Hch & HL0 & Hp0)].
    + left. apply (f_equal (take (Z.to_nat (c' + 1)))) in Hnil. rewrite take_take, Nat.min_l in Hnil by lia.
      by rewrite take_nil in Hnil.
    + right. exists t, i, L0. split; [done|]. split; [done|]. split; [done|]. etrans; [|exact Hp0].
      replace (Z.to_nat (c' + 1)) with (Z.to_nat (c' + 1) `min` Z.to_nat (c + 1))%nat by lia.
      rewrite <- take_take. apply prefix_take.
Qed.

(** The log after the request agrees with the leader's where it did before, and
    up to the entry the request is about. *)
Definition request_end : nat := if ar_entries_n b =? 0 then lm_pos (lmsg_of b) else S (lm_pos (lmsg_of b)).

Context (Hacc : accepts (lg x) (lmsg_of b)).
Context (Hlg : lg x' = if ar_entries_n b =? 0 then lg x else stored (lg x) (lmsg_of b)).

Lemma accepted_agree k : take k (lg x) = take k L -> take k (lg x') = take k L.
Proof. rewrite Hlg. case_match eqn:E; [done|]. apply Z.eqb_neq in E. intros Hk. by apply stored_agree. Qed.

Lemma accepted_end : take request_end (lg x') = take request_end L.
Proof.
  destruct request_parts as (Hr & Ht & _). unfold request_end. rewrite Hlg. case_match eqn:E.
  - apply (prev_agree (gl g)); [exact request_log|exact request_leader_log|cbn; lia|done|done].
  - apply Z.eqb_neq in E. by apply (stored_agree 0).
Qed.

Lemma accepted_commit :
  pc p' = accept_commit b (pc p) -> commit_ok ids g (ar_term b) (lg x') (pc p').
Proof.
  intros ->. destruct (ni_commit _ _ _ _ _ _ _ step_before (lg x) (pc p)) as [Hlt Hsafe]; [by left|].
  destruct request_parts as (Hr & _ & _ & Hhb & HcL).
  assert (commit_ok ids g (ar_term b) L (pc p)) as Hold.
  { assert (committed_part (lg x) (pc p) `prefix_of` L) as Hpre by (by eapply safe_in).
    unfold committed_part in Hpre.
    assert (take (Z.to_nat (pc p + 1)) L = take (Z.to_nat (pc p + 1)) (lg x)) as E.
    { rewrite (take_prefix _ _ _ Hpre) by (rewrite length_take; lia). rewrite take_take. f_equal. lia. }
    eapply (commit_from (lg x)); [split; [exact Hlt|]|..|exact E|lia]; [|lia].
    destruct Hsafe as [|(t & i & L0 & ? & ?)]; [by left|right]. exists t, i, L0. split; [lia|done]. }
  assert (take (Z.to_nat (pc p + 1)) (lg x') = take (Z.to_nat (pc p + 1)) L) as Hagree.
  { apply accepted_agree. destruct Hold as [HltL HsL].
    assert (committed_part (lg x) (pc p) `prefix_of` L) as Hpre by (by eapply safe_in).
    unfold committed_part in Hpre.
    rewrite (take_prefix _ _ _ Hpre) by (rewrite length_take; lia). rewrite take_take. f_equal. lia. }
  pose proof accepted_end as Hend. unfold request_end in Hend. unfold accept_commit.
  destruct (Z.ltb_spec (pc p) (ar_leader_commit b)) as [Hmore|Hless].
  - destruct (Z.eqb_spec (ar_entries_n b) 0) as [E0|E0].
    + eapply commit_from; [exact HcL| |exact Hend|]; [lia|]. specialize (Hhb E0). unfold lm_pos. cbn. lia.
    + eapply commit_from; [exact HcL| |exact Hend|]; [lia|]. unfold lm_pos. cbn. lia.
  - eapply commit_from; [exact Hold| |exact Hagree|]; lia.
Qed.

(** How much of the leader's log each node has accepted after the request. *)
Definition accepted (q t : Z) : nat :=
  if decide (q = n /\ t = ar_term b /\ ar_entries_n b <> 0) then acc g q t `max` S (lm_pos (lmsg_of b))
  else acc g q t.

Lemma accepted_mono q t : (acc g q t <= accepted q t)%nat.
Proof. unfold accepted. case_decide; lia. Qed.

Lemma accepted_length t : gl g !! t = Some L -> t = ar_term b -> (accepted n t <= length L)%nat.
Proof.
  intros _ ->. destruct request_parts as (_ & _ & He & _).
  assert (acc g n (ar_term b) <= length L)%nat as Hle.
  { destruct (decide (acc g n (ar_term b) = 0)%nat) as [->|]; [lia|].
    destruct (ci_acc _ _ _ _ _ _ Hc n (ar_term b)) as (_ & L0 & _ & _ & HL0 & ?); [lia|].
    rewrite HL in HL0. by injection HL0 as <-. }
  unfold accepted. case_decide as E; [|done]. destruct E as (_ & _ & E).
  specialize (He E). apply lookup_lt_Some in He. lia.
Qed.

Lemma accepted_keeps g' :
  next_ghost accepted (ack g) g' -> gl g' = gl g -> keeps_accepted ids g' (anodes s') n (ar_term b) (lg x').
Proof.
  intros Hng HG. split.
  - intros L0 HL0. rewrite HG, HL in HL0. injection HL0 as <-. rewrite (ng_acc _ _ _ Hng).
    unfold accepted. case_decide as E; [|by apply accepted_agree, request_accepted].
    destruct (Nat.max_spec (acc g n (ar_term b)) (S (lm_pos (lmsg_of b)))) as [[_ ->]|[_ ->]];
      [|by apply accepted_agree, request_accepted].
    pose proof accepted_end as Hend. unfold request_end in Hend. destruct E as (_ & _ & E).
    by rewrite (proj2 (Z.eqb_neq _ _) E) in Hend.
  - intros t i Ht Hi. rewrite (ng_acc _ _ _ Hng) in Hi. unfold accepted in Hi. rewrite decide_False in Hi by lia.
    intros L1 e HL1 He Het. rewrite HG in HL1.
    assert (closed ids g (anodes s) t i -> closed ids g' (anodes s') t i) as Hcl
      by (by apply closed_mono, (ng_evolves _ _ _ Hng)).
    assert (holds ids g (anodes s) t (lg x) i) as Hh.
    { eapply keeps_holds; [exact Hc|exact Ha| |exact Hi]. apply (ni_keeps _ _ _ _ _ _ _ step_before _ (pc p)). by left. }
    destruct (Hh L1 e HL1 He Het) as [Ex|]; [|by right; apply Hcl].
    destruct (ci_lead _ _ _ _ _ _ Hc t (ar_term b) L Ht HL i L1 e HL1 He Het) as [EL|]; [|by right; apply Hcl].
    left. rewrite <- EL. apply accepted_agree. congruence.
Qed.

Lemma facts_accept g' dst :
  next_ghost accepted (ack g) g' -> a_term a' = ar_term b -> a_role a' = FOLLOWER ->
  pc p' = accept_commit b (pc p) -> psaved x' p' -> facts [(dst, answer_to n (ar_term b) 1 b)] g'.
Proof.
  intros Hng Ht Hr Hpc Hsv.
  assert (gl g' = gl g) as HG by (rewrite (ng_logs _ _ _ Hng); destruct Hgrown as [->|[? _]]; congruence).
  split; [| |..]; rewrite ?Ht.
  - by apply accepted_keeps.
  - by right.
  - eapply commit_ok_mono; [exact (ng_evolves _ _ _ Hng)|by apply accepted_commit|done].
  - congruence.
  - apply answer_outs; [by rewrite HG|done| |congruence|done|].
    + intros t f _. by rewrite (ng_ack _ _ _ Hng).
    + intros _ E. rewrite (ng_acc _ _ _ Hng). unfold accepted. rewrite decide_True by done. lia.
  - congruence.
Qed.
End request.

(** ** A new leader, and a new entry *)

Lemma facts_lead g' e :
  next_ghost (acc g) (ack g) g' -> a_role a = CANDIDATE -> a_role a' = LEADER -> a_term a' = a_term a ->
  le_term e = a_term a -> lg x' = lg x ++ [e] -> pc p' = pc p ->
  (forall f, 0 <= pnx p' f /\ 0 <= prd p' f) -> pcnt p' (length (lg x)) <= 1 -> facts [] g'.
Proof.
  intros Hng Hr0 Hr Ht He Elg Epc Hnx Hcnt.
  assert (lg x `prefix_of` lg x') as Hpre by (rewrite Elg; by apply prefix_app_r).
  assert (gl g !! a_term a' = None) as Hnone.
  { eapply (step_first_leader ids ids_length (gv g) H'); done. }
  split; [by eapply same_keeps|by eapply same_acc|by eapply same_commit| | |].
  - intros _. split.
    + intros f. split; [|apply Hnx]. rewrite (ng_ack _ _ _ Hng).
      destruct (ci_ack _ _ _ _ _ _ Hc (a_term a') f) as [_ Hle]. destruct (Hnx f) as [? _].
      destruct (decide (acc g f (a_term a') = 0)%nat) as [E|]; [lia|].
      destruct (ci_acc _ _ _ _ _ _ Hc f (a_term a')) as (_ & L0 & _ & _ & HL0 & _); [lia|congruence].
    + intros i e0 He0 Et. rewrite Elg in He0. apply lookup_app_Some in He0 as [He0|[Hi He0]].
      * pose proof (ni_cand _ _ _ _ _ _ _ step_before Hr0) as Hcd.
        destruct (ci_cands _ _ _ _ _ _ Hc _ _ _ Hcd) as (_ & Hb & _).
        apply list_elem_of_lookup_2, Hb in He0. lia.
      * apply list_lookup_singleton_Some in He0 as [Hi0 _]. replace i with (length (lg x)) by lia. lia.
  - intros m Hm. by apply not_elem_of_nil in Hm.
  - intros m _ _ Hok _. unfold message_ok, message_fits in *. destruct m.2 as [b|v|q|r]; try done.
    + intros E. destruct Hok as (L & HL & _). congruence.
    + intros E. destruct Hok as [|[L HL]]; [by left|congruence].
Qed.

(** No heartbeat of the leader's term [t] waits for an answer, and no answer to
    one is under way. *)
Definition settled (t : Z) (l : log) (r : pnode) (msgs : list pmsg) : Prop :=
  (forall dst b, (dst, APPEND b) ∈ msgs -> ar_term b = t -> ar_request_id b = prd r dst -> ar_entries_n b <> 0) /\
  (forall dst q, (dst, RESPONSE q) ∈ msgs -> rp_term q = t -> rp_request_id q = prd r (rp_id q) ->
     rp_success q <> 0 -> pnx r (rp_id q) <> Z.of_nat (length l)).

Lemma facts_push g' e :
  next_ghost (acc g) (ack g) g' -> a_role a = LEADER -> a_term a' = a_term a -> le_term e = a_term a ->
  lg x' = lg x ++ [e] -> pc p' = pc p -> pnx p' = pnx p -> prd p' = prd p ->
  (forall i, pcnt p' i = if decide (i = length (lg x)) then 1 else pcnt p i) ->
  settled (a_term a) (lg x) p ms -> facts [] g'.
Proof.
  intros Hng Hr0 Ht He Elg Epc En Ed Ecnt [Hs1 Hs2].
  assert (lg x `prefix_of` lg x') as Hpre by (rewrite Elg; by apply prefix_app_r).
  destruct (ni_lead _ _ _ _ _ _ _ step_before Hr0) as [Hp1 Hp2].
  split; [by eapply same_keeps|by eapply same_acc|by eapply same_commit| | |].
  - intros _. unfold progress_ok. rewrite Ht, En, Ed, (ng_ack _ _ _ Hng). split; [done|].
    intros i e0 He0 Et. rewrite Ecnt. case_decide as Hi; [lia|].
    rewrite (same_known g') by apply Hng. rewrite Elg in He0.
    apply lookup_app_Some in He0 as [He0|[Hi' [Hi0 _]%list_lookup_singleton_Some]]; [by eapply Hp2|lia].
  - intros m Hm. by apply not_elem_of_nil in Hm.
  - intros [dst m] Hm _ _ Hf. specialize (Hf Hr0). unfold message_fits, request_fits, response_fits in *. cbn in *.
    destruct m as [b|v|q|r]; try done; rewrite Ht, ?En, ?Ed, ?(ng_ack _ _ _ Hng), ?(ng_acc _ _ _ Hng), ?Elg; intros E;
      specialize (Hf E); rewrite length_app; cbn [length].
    + destruct Hf as (? & ? & Hf). split; [done|]. split; [done|]. intros Erid. destruct (Hf Erid) as [? _].
      split; [done|]. intros _. by eapply Hs1.
    + destruct Hf as [|(? & ? & ? & Hf)]; [by left|right]. split; [done|]. split; [done|]. split; [done|].
      intros Erid. destruct (Hf Erid) as [? Hf2]. split; [done|]. intros Hsc Hlt. apply Hf2; [done|].
      specialize (Hs2 dst r Hm E Erid Hsc). lia.
Qed.

(** ** Answers to a leader *)

Section answer.
Context (r : raft_response_packet) (Hr : (n, RESPONSE r) ∈ ms) (Hans : answered a x p a' x' p' r).

Lemma answer_fits_before : response_fits ids g n a x p r.
Proof.
  destruct Hans as (Hr0 & _ & _ & Ht & Hrid & _).
  destruct (ni_lead _ _ _ _ _ _ _ step_before Hr0) as [Hp1 _].
  destruct (ci_fits _ _ _ _ _ _ Hc _ n a x p Hr Ha Hx Hp Hr0 Ht) as [E|Hf]; [|exact Hf].
  cbn in E. destruct (Hp1 (rp_id r)) as [_ ?]. lia.
Qed.

(** No other message is the answer the leader waits for. *)
Lemma answered_fits A K g' m :
  next_ghost A K g' -> (forall f, f <> rp_id r -> pnx p' f = pnx p f) ->
  (forall f, f <> rp_id r -> K (a_term a) f = ack g (a_term a) f) ->
  (forall q t, (acc g q t <= A q t)%nat) ->
  message_fits ids g n a x p m -> message_fits ids g' n a' x' p' m.
Proof.
  intros Hng En EK HA Hf. destruct Hans as (Hr0 & _ & Ht & _ & _ & Elg & _ & Ed).
  unfold message_fits, request_fits, response_fits in *. rewrite Ht, Elg, (ng_ack _ _ _ Hng), (ng_acc _ _ _ Hng).
  destruct m.2 as [b|v|q|q]; try done; intros E; specialize (Hf E).
  - rewrite !Ed. destruct Hf as (? & ? & Hf). split; [done|]. case_decide as Ef.
    + split; [lia|]. intros. lia.
    + split; [done|]. rewrite En by done. done.
  - destruct Hf as [|(? & ? & ? & Hf)]; [by left|right]. rewrite !Ed. split; [done|]. split; [done|].
    case_decide as Ef; [split; [lia|]; intros; lia|]. split; [done|]. intros Erid.
    rewrite En, EK by done. destruct (Hf Erid) as [? Hf2]. split; [done|]. intros Hsc Hlt.
    pose proof (HA (rp_id q) (a_term a)). specialize (Hf2 Hsc Hlt). lia.
Qed.

(** An answer that moves no count and no commit index. *)
Lemma facts_answered g' :
  next_ghost (acc g) (ack g) g' -> pc p' = pc p -> pcnt p' = pcnt p ->
  (forall f, f <> rp_id r -> pnx p' f = pnx p f) -> ack g (a_term a) (rp_id r) <= pnx p' (rp_id r) ->
  facts [] g'.
Proof.
  intros Hng Epc Ecnt En Hf. pose proof Hans as (Hr0 & _ & Ht & _ & _ & Elg & _ & Ed).
  assert (lg x `prefix_of` lg x') as Hpre by (by rewrite Elg).
  destruct (ni_lead _ _ _ _ _ _ _ step_before Hr0) as [Hp1 Hp2].
  split; [by eapply same_keeps|by eapply same_acc|by eapply same_commit| | |].
  - intros _. unfold progress_ok. rewrite Ht, Ecnt, Elg, (ng_ack _ _ _ Hng). split.
    + intros f. destruct (Hp1 f) as [? ?]. rewrite Ed. destruct (decide (f = rp_id r)) as [->|Hne].
      * lia.
      * by rewrite En.
    + intros i e. rewrite (same_known g') by apply Hng. apply Hp2.
  - intros m Hm. by apply not_elem_of_nil in Hm.
  - intros m _ _ _ Hm. eapply answered_fits; try done. by apply Hm.
Qed.

(** The entry the answer is about, and the history after it: the leader has
    accepted its own log, and knows that the follower has the entry. *)
Definition entry : Z := pnx p (rp_id r).
Definition own_accepted (q t : Z) : nat :=
  if decide (q = n /\ t = a_term a) then length (lg x) else acc g q t.
Definition acknowledged (t f : Z) : Z :=
  if decide (t = a_term a /\ f = rp_id r) then entry + 1 else ack g t f.

Context (Hsc : rp_success r <> 0) (Hent : 0 <= entry < Z.of_nat (length (lg x))).

Lemma leader_log_before : gl g !! a_term a = Some (lg x).
Proof. eapply (linv_lead _ _ _ _ _ _ Hl); [done..|]. by destruct Hans. Qed.

Lemma own_mono q t : (acc g q t <= own_accepted q t)%nat.
Proof.
  unfold own_accepted. case_decide as E; [|lia]. destruct E as [-> ->].
  destruct (decide (acc g n (a_term a) = 0)%nat) as [->|]; [lia|].
  destruct (ci_acc _ _ _ _ _ _ Hc n (a_term a)) as (_ & L0 & _ & _ & HL0 & ?); [lia|].
  rewrite leader_log_before in HL0. by injection HL0 as <-.
Qed.

Lemma acknowledged_ok t f : 0 <= acknowledged t f <= Z.of_nat (own_accepted f t).
Proof.
  destruct answer_fits_before as (Hne & _ & _ & Hf). pose proof (ci_ack _ _ _ _ _ _ Hc t f) as Hk.
  pose proof (own_mono f t). unfold acknowledged. case_decide as E; [|lia]. destruct E as [-> ->].
  destruct Hans as (_ & _ & _ & _ & Hrid & _). destruct (Hf Hrid) as [_ Hf2]. specialize (Hf2 Hsc). unfold entry in *. lia.
Qed.

Lemma acknowledged_more t f : ack g t f <= acknowledged t f.
Proof.
  unfold acknowledged. case_decide as E; [|lia]. destruct E as [-> ->].
  destruct Hans as (Hr0 & _). destruct (ni_lead _ _ _ _ _ _ _ step_before Hr0) as [Hp1 _].
  destruct (Hp1 (rp_id r)). unfold entry. lia.
Qed.

Section known.
Context (g' : ghost) (Hng : next_ghost own_accepted acknowledged g').

Lemma known_nodup gg t i : NoDup (known ids gg n t i).
Proof. by apply list.NoDup_filter. Qed.

Lemma known_grows t i : (length (known ids g n t i) <= length (known ids g' n t i))%nat.
Proof.
  apply submseteq_length, NoDup_submseteq; [apply known_nodup|]. unfold known.
  intros f [[Hne Hi] Hf]%list_elem_of_filter. apply list_elem_of_filter. split; [|done]. split; [done|].
  rewrite (ng_ack _ _ _ Hng). pose proof (acknowledged_more t f). lia.
Qed.

Lemma known_counts :
  (S (length (known ids g n (a_term a) (Z.to_nat entry))) <=
   length (known ids g' n (a_term a) (Z.to_nat entry)))%nat.
Proof.
  destruct answer_fits_before as (Hne & Hid & _ & _). unfold known.
  apply (submseteq_length (rp_id r :: known ids g n (a_term a) (Z.to_nat entry))), NoDup_submseteq.
  - apply list.NoDup_cons. split; [|apply known_nodup]. unfold known. intros [[_ Hi] _]%list_elem_of_filter.
    destruct Hans as (Hr0 & _). destruct (ni_lead _ _ _ _ _ _ _ step_before Hr0) as [Hp1 _].
    destruct (Hp1 (rp_id r)). unfold entry in *. lia.
  - unfold known. intros f [->|[[Hnf Hi] Hf]%list_elem_of_filter]%elem_of_cons; apply list_elem_of_filter;
      (split; [split; [done|]|done]); rewrite (ng_ack _ _ _ Hng).
    + unfold acknowledged. rewrite decide_True by done. lia.
    + pose proof (acknowledged_more (a_term a) f). lia.
Qed.

Lemma counts_grow i c :
  c <= 1 + Z.of_nat (length (known ids g n (a_term a) i)) ->
  (if decide (i = Z.to_nat entry) then c + 1 else c) <= 1 + Z.of_nat (length (known ids g' n (a_term a) i)).
Proof.
  intros Hcnt. case_decide as E; [subst i; pose proof known_counts; lia|].
  pose proof (known_grows (a_term a) i). lia.
Qed.

(** An entry of the leader's term that a majority has is chosen. *)
Lemma counted_chosen i e :
  lg x !! i = Some e -> le_term e = a_term a ->
  N_SERVERS < 2 * (1 + Z.of_nat (length (known ids g' n (a_term a) i))) -> chosen ids g' (a_term a) i.
Proof.
  pose proof Hans as (_ & Hr' & Ht & _ & _ & Elg & _). intros He Het Hq. split.
  - exists (lg x), e. split; [|done]. rewrite <- Ht, <- Elg. by eapply leader_log.
  - exists (n :: known ids g' n (a_term a) i). split; [|split].
    + apply list.NoDup_cons. split; [|apply known_nodup]. unfold known. by intros [[? _] _]%list_elem_of_filter.
    + rewrite (ng_acc _ _ _ Hng). unfold known. rewrite (ng_ack _ _ _ Hng).
      intros f [->|[[Hnf Hi] Hf]%list_elem_of_filter]%elem_of_cons.
      * split; [exact step_id_in|]. unfold own_accepted. rewrite decide_True by done. by apply lookup_lt_Some in He.
      * split; [done|]. pose proof (acknowledged_ok (a_term a) f). lia.
    + cbn [length]. lia.
Qed.

Lemma facts_ack :
  moves_next p p' (rp_id r) 1 ->
  (pc p' = pc p /\ pcnt p' = pcnt p \/
   pc p < entry /\ lterm (lg x) entry = a_term a /\
   (forall k, pcnt p' k = if decide (k = Z.to_nat entry) then pcnt p k + 1 else pcnt p k) /\
   (pc p' = pc p \/ pc p' = entry /\ N_SERVERS < 2 * pcnt p' (Z.to_nat entry))) ->
  facts [] g'.
Proof.
  intros Hnx Hcase. pose proof Hans as (Hr0 & Hr' & Ht & _ & _ & Elg & Hsv & Ed).
  assert (lg x `prefix_of` lg x') as Hpre by (by rewrite Elg).
  destruct (ni_lead _ _ _ _ _ _ _ step_before Hr0) as [Hp1 Hp2].
  assert (forall i e, lg x !! i = Some e -> le_term e = a_term a ->
            pcnt p' i <= 1 + Z.of_nat (length (known ids g' n (a_term a) i))) as Hcounts.
  { intros i e He Het. pose proof (Hp2 i e He Het) as H2. destruct Hcase as [[_ ->]|(_ & _ & Hk & _)].
    - pose proof (known_grows (a_term a) i). lia.
    - rewrite Hk. by apply counts_grow. }
  split.
  - split.
    + intros L HL. rewrite (leader_log _ _ g' Hng Hr') in HL. by injection HL as <-.
    + intros t i Hlt _. eapply (ng_lead _ _ _ Hng); [exact Hlt|]. by eapply leader_log.
  - by right.
  - destruct (decide (pc p' = pc p)) as [Epc|Npc]; [by eapply same_commit|].
    destruct Hcase as [[? _]|(_ & Hterm & _ & [?|[Epc Hq]])]; [done..|].
    rewrite Elg, Epc. split; [lia|]. right. exists (a_term a), (Z.to_nat entry), (lg x).
    rewrite lterm_at in Hterm by lia. destruct (lg x !! Z.to_nat entry) as [e|] eqn:He; [|apply lookup_ge_None in He; lia].
    split; [lia|]. split; [|split].
    + eapply counted_chosen; [exact He|done|]. specialize (Hcounts _ e He Hterm). lia.
    + rewrite <- Ht. rewrite <- Elg. by eapply leader_log.
    + unfold committed_part. by replace (Z.to_nat (entry + 1)) with (S (Z.to_nat entry)) by lia.
  - intros _. unfold progress_ok. rewrite Ht, Elg, (ng_ack _ _ _ Hng). split; [|exact Hcounts].
    intros f. destruct (Hp1 f) as [? ?]. rewrite Ed, Hnx. unfold acknowledged. unfold entry in *.
    repeat case_decide; try lia; naive_solver lia.
  - intros m Hm. by apply not_elem_of_nil in Hm.
  - intros m _ _ _ Hm. eapply answered_fits; [exact Hng| | |exact own_mono|by apply Hm].
    + intros f Hf. rewrite Hnx. by rewrite decide_False.
    + intros f Hf. unfold acknowledged. rewrite decide_False; [done|]. by intros [_ ?].
Qed.
End known.
End answer.

(** ** Any step *)

(** No request of a past term arrives, and a leader that adds an entry has no
    heartbeat under way. *)
Context (Htimely : forall b, inm = Receive (n, APPEND b) -> a_term a <= ar_term b).
Context (Hsettled : inm = Client -> a_role a = LEADER -> settled (a_term a) (lg x) p ms).

Theorem cinv_pstep : exists g', gv g' = H' /\ gl g' = G' /\ evolves g g' (anodes s) (anodes s') /\
  cinv ids g' s' (<[n := x']> ls) (<[n := p']> ps) ms'.
Proof.
  pose proof (ci_ack _ _ _ _ _ _ Hc) as Hk. pose proof no_news as HA. pose proof no_acks as HK.
  inversion Hstep as [i0 o0 Elg Epc Hk0 Hls Hsend Hv0 Ei Eo|b dst Elg Epc Hk0 Hls Ht Hno Ei Eo
    |b dst Hle Ht Hr Hacc Elg Epc Hsv Ei Eo|r e Hr0 Hr Ht He Elg Epc Hsv Hnx Hcnt Ei Eo
    |e Hr0 Hr Ht He Elg Epc Hsv En Ed Ecnt Ei Eo|r Hans Hsc Hnx Epc Ecnt Ei Eo
    |r Hans Hsc Hend En Epc Ecnt Ei Eo|r i Hans Hsc Hi Hnx Hcase Ei Eo|Him Hk0 Hr Ei Eo].
  - apply (step_by (acc g) (ack g)); try done. intros g' Hng. by apply facts_quiet.
  - symmetry in Ei. pose proof (Hin _ Ei) as Hb. specialize (Htimely b Ei). rewrite Z.max_r in Ht by done.
    destruct (ci_msgs _ _ _ _ _ _ Hc _ Hb) as (L & HL & _).
    apply (step_by (acc g) (ack g)); try done. intros g' Hng. rewrite <- Eo, Ht.
    eapply request_refused; try done. by apply Hno.
  - symmetry in Ei. pose proof (Hin _ Ei) as Hb. destruct (ci_msgs _ _ _ _ _ _ Hc _ Hb) as (L & HL & _).
    apply (step_by (accepted b) (ack g)); [|done| |].
    + intros q t. unfold accepted at 1. case_decide as E; [right|by left]. destruct E as (-> & -> & E).
      split; [done|]. split; [done|]. split; [apply accepted_mono|].
      destruct (Hext _ _ HL) as (L' & HL' & Hpre). exists L'. split; [done|].
      pose proof (accepted_length b L Hb HL _ HL eq_refl). apply prefix_length in Hpre. lia.
    + intros t f. pose proof (accepted_mono b f t). specialize (Hk t f). lia.
    + intros g' Hng. rewrite <- Eo. by eapply facts_accept.
  - apply (step_by (acc g) (ack g)); try done. intros g' Hng. rewrite <- Eo. by eapply facts_lead.
  - apply (step_by (acc g) (ack g)); try done. intros g' Hng. rewrite <- Eo. eapply facts_push; try done.
    by apply Hsettled.
  - pose proof (Hin _ (eq_sym Ei)) as Hm. apply (step_by (acc g) (ack g)); try done. intros g' Hng. rewrite <- Eo.
    eapply facts_answered; try done.
    + intros f Hf. rewrite Hnx. by rewrite decide_False.
    + rewrite Hnx, decide_True by done. destruct (answer_fits_before r Hm Hans) as (_ & _ & _ & Hf).
      destruct Hans as (_ & _ & _ & _ & Hrid & _). destruct (Hf Hrid) as [H0 _]. specialize (H0 Hsc). lia.
  - apply (step_by (acc g) (ack g)); try done. intros g' Hng. rewrite <- Eo.
    eapply facts_answered; try done; rewrite ?En; [done|].
    destruct Hans as (Hr0 & _). destruct (ni_lead _ _ _ _ _ _ _ step_before Hr0) as [Hp1 _]. apply Hp1.
  - pose proof (Hin _ (eq_sym Ei)) as Hm. apply (step_by (own_accepted) (acknowledged r)).
    + intros q t. unfold own_accepted at 1. case_decide as E; [right|by left]. destruct E as [-> ->].
      pose proof Hans as (_ & Hr' & Ht & _ & _ & Elg & _). split; [done|]. split; [done|].
      split; [by eapply own_mono|].
      destruct (Hext _ _ (leader_log_before r Hans)) as (L' & HL' & Hpre). exists L'. split; [done|].
      unfold own_accepted. rewrite decide_True by done. by apply prefix_length.
    + intros t f. unfold acknowledged. case_decide as E; [right|by left]. destruct E as [-> _].
      by destruct Hans as (_ & ? & ? & _).
    + by apply acknowledged_ok.
    + intros g' Hng. rewrite <- Eo. by eapply facts_ack.
  - apply (step_by (acc g) (ack g)); try done. intros g' Hng. rewrite <- Eo. by apply facts_restart.
Qed.
End step.

(** Losing messages, and the beginning. *)
Lemma cinv_drop ids g s ls ps ms ms' s' :
  cinv ids g s ls ps ms -> anodes s' = anodes s -> (forall m, m ∈ ms' -> m ∈ ms) ->
  cinv ids g s' ls ps ms'.
Proof.
  intros [H1 H2 H3 H4 H5 H6 H7 H8 H9 H10] Hs Hm.
  split; rewrite ?Hs; try done; [intros m ?%Hm; by apply H9|]. intros m k b y r ?%Hm. by apply H10.
Qed.

Definition no_history : ghost :=
  {| gv := ∅; gl := ∅; acc := fun _ _ => 0%nat; ack := fun _ _ => 0; cands := fun _ _ => None |}.

Lemma cinv_init ids s ls ps :
  (forall n a, anodes s !! n = Some a -> fresh_node a /\ 0 <= a_term a) ->
  (forall n x p, ls !! n = Some x -> ps !! n = Some p -> forall l c, copies x p l c -> l = [] /\ c = -1) ->
  cinv ids no_history s ls ps [].
Proof.
  intros Hs Hfresh. split.
  - intros n a Hn. by destruct (Hs n a Hn).
  - intros t L HL. cbn in HL. by rewrite lookup_empty in HL.
  - intros q t Hq. cbn in Hq. lia.
  - intros t f. cbn. lia.
  - intros n a x p Hn Hx Hp. destruct (Hs n a Hn) as [(Hf & _) _]. split; try congruence.
    + intros l c _. split; [intros L HL; cbn in HL; by rewrite lookup_empty in HL|]. intros t i _ Hi. cbn in Hi. lia.
    + intros l c Hlc. destruct (Hfresh n x p Hx Hp l c Hlc) as [-> ->]. split; [cbn; lia|by left].
  - intros t t' L _ HL. cbn in HL. by rewrite lookup_empty in HL.
  - intros q t c Hv. cbn in Hv. by rewrite lookup_empty in Hv.
  - done.
  - intros m Hm. by apply not_elem_of_nil in Hm.
  - intros m n a x p Hm. by apply not_elem_of_nil in Hm.
Qed.
