(* ===== verification/CommitRefine.v ===== *)
(** Every locked segment of the raft code is a step of the abstract commit
    protocol ([CommitSpec.pstep]), on a server whose log has not been compacted
    and that sends no snapshots. *)
From S2P Require Import Prelude Libc Posix RaftTypes RaftStorage RaftUtils RaftFollower RaftLeader RaftCandidate Raft RaftView StorageSpec RaftLog ElectionSpec LogSpec RaftRefine LogRefine CommitSpec.

(** * Abstraction *)

(** The part of the state the commit protocol is about. *)
Definition cdata (r : raft_state) :=
  (raft_log r, start_log_index r, log_count r, commit_index r, next_index r, last_request_id r).
Definition cdv (r : raft_state) := (cdata r, files_dir r).

#[export] Instance cdv_ok : ViewOk cdv cdata.
Proof. split; try done; unfold cdv; intros r r' E; congruence. Qed.

(** A run that keeps it, whatever it sends. *)
Abbreviation cquiet := (vquiet cdv cdata (fun _ => tt)).
Abbreviation ckeeps := (vkeeps cdv cdata (fun _ => tt)).

(** An array by the id of a server. *)
Definition per_server (l : list Z) (f : Z) : Z := match arr_get l f with Ok x => x | Fault _ => 0 end.

Definition replicas (r : raft_state) (i : nat) : Z :=
  match raft_log r !! i with Some e => le_n_servers_replicated e | None => 0 end.

Definition pnode_of (w : world) : pnode := {|
  pc := commit_index (raft w);
  pim := (fun r => (llog r, commit_index r)) <$> image w;
  pnx := per_server (next_index (raft w));
  prd := per_server (last_request_id (raft w));
  pcnt := replicas (raft w)
|}.

(** The log starts at the first entry, and the arrays have the lengths of the
    source. *)
Definition cshape (r : raft_state) : Prop :=
  lshape r /\ Z.of_nat (length (next_index r)) = MAX_SERVER_ID + 1 /\
  Z.of_nat (length (last_request_id r)) = MAX_SERVER_ID + 1.
Definition cwf (w : world) : Prop := cshape (raft w) /\ forall r, image w = Some r -> cshape r.

(** The state file holds what the memory does. *)
Definition saved_now (w : world) : Prop := exists r, image w = Some r /\ cdata r = cdata (raft w).

Lemma cwf_wshape w : cwf w -> wshape w.
Proof. intros [[Hs _] Hi]. split; [done|]. intros r Hr. by destruct (Hi r Hr). Qed.

Lemma cdata_logv r r' : cdata r' = cdata r -> logv r' = logv r.
Proof. unfold cdata, logv. by intros [= -> -> -> _ _ _]. Qed.

Lemma cdata_shape r r' : cdata r' = cdata r -> cshape r -> cshape r'.
Proof.
  intros E (Hs & Hn & Hr). split; [eapply logv_shape; [by apply cdata_logv|done]|].
  unfold cdata in E. injection E as _ _ _ _ -> ->. done.
Qed.

(** What the state file holds, before and after. *)
Lemma saved_now_psaved w : saved_now w -> psaved (lnode_of w) (pnode_of w).
Proof.
  intros (r & Hr & E). unfold psaved, pnode_of, lnode_of. cbn. rewrite Hr. cbn.
  rewrite (logv_llog _ _ (cdata_logv _ _ E)). unfold cdata in E. injection E as _ _ _ -> _ _. done.
Qed.

Lemma saved_now_cwf w : cshape (raft w) -> saved_now w -> cwf w.
Proof. intros Hs (r & Hr & E). split; [done|]. rewrite Hr. intros r0 [= <-]. by eapply cdata_shape. Qed.

(** A quiet run. *)
Lemma cquiet_parts w w' :
  cquiet w w' -> cwf w ->
  cdata (raft w') = cdata (raft w) /\ cwf w' /\ pkept (pnode_of w) (lnode_of w') (pnode_of w').
Proof.
  intros (E & _ & I) [Hs Hi]. assert (cdata (raft w') = cdata (raft w)) as Ec by (unfold cdv in E; congruence).
  split; [done|]. assert (cshape (raft w')) as Hs' by by eapply cdata_shape.
  destruct I as [I|I].
  - assert (forall r', image w' = Some r' -> exists r, image w = Some r /\ cdata r' = cdata r) as Hold.
    { intros r' Hr'. rewrite Hr' in I. destruct (image w) as [r|]; [|done]. apply (inj Some) in I. by exists r. }
    split; [split; [done|]|].
    + intros r' (r & Hr & E')%Hold. eapply cdata_shape; [exact E'|by apply Hi].
    + left. unfold pnode_of. cbn. destruct (image w') as [r'|] eqn:Hr'.
      * destruct (Hold r' eq_refl) as (r & -> & E'). cbn. rewrite (logv_llog _ _ (cdata_logv _ _ E')).
        unfold cdata in E'. injection E' as _ _ _ E4 _ _. by rewrite E4.
      * by destruct (image w).
  - assert (saved_now w') as Hnow.
    { destruct (image w') as [r|] eqn:Hr; [|done]. apply (inj Some) in I. by exists r. }
    split; [by apply saved_now_cwf|]. right. by apply saved_now_psaved.
Qed.

(** Equal data, equal abstraction. *)
Lemma cdata_lnode w w' : cdata (raft w') = cdata (raft w) -> lg (lnode_of w') = lg (lnode_of w).
Proof. intros E. cbn. by apply logv_llog, cdata_logv. Qed.

Lemma cdata_pnode w w' : cdata (raft w') = cdata (raft w) ->
  pc (pnode_of w') = pc (pnode_of w) /\ pnx (pnode_of w') = pnx (pnode_of w) /\
  prd (pnode_of w') = prd (pnode_of w) /\ pcnt (pnode_of w') = pcnt (pnode_of w).
Proof. unfold cdata, pnode_of, replicas. cbn. by intros [= -> _ _ -> -> ->]. Qed.

(** The index of the last entry and its term. *)
Lemma llog_last r : lshape r -> last_index (llog r) = log_count r - 1 /\
  lterm (llog r) (last_index (llog r)) = term_at r (log_count r - 1).
Proof.
  intros Hs. unfold last_index. rewrite llog_length by done. split; [done|]. by apply llog_term.
Qed.

(** Writing in an array by the id of a server. *)
Lemma per_server_get l i x : arr_get l i = Ok x -> per_server l i = x.
Proof. unfold per_server. by intros ->. Qed.

Lemma per_server_set l i v l' f :
  arr_set l i v = Ok l' -> per_server l' f = if decide (f = i) then v else per_server l f.
Proof.
  intros H. unfold per_server. case_decide as E.
  - subst f. by rewrite (arr_get_set_eq _ _ _ _ H).
  - by rewrite (arr_get_set_ne _ _ _ _ _ H) by done.
Qed.

Lemma length_arr_set (l : list Z) i v l' : arr_set l i v = Ok l' -> length l' = length l.
Proof. intros [_ ->]%arr_set_ok. apply length_insert. Qed.

Lemma per_server_out l f : Z.of_nat (length l) = MAX_SERVER_ID + 1 -> f ∉ seqZ 0 (MAX_SERVER_ID + 1) -> per_server l f = 0.
Proof.
  intros Hl Hf. unfold per_server. destruct (arr_get l f) as [x|] eqn:E; [|done].
  apply arr_get_bounds in E. destruct Hf. apply elem_of_seqZ. lia.
Qed.

Section idx.
Context (f : raft_state -> list Z) `{!Upd f}.

Lemma idx_set_ok i v w u w' : idx_set f i v w = Ok (u, w') ->
  exists l, arr_set (f (raft w)) i v = Ok l /\ w' = w <| raft ::= fun r => r <| f := l |> |>.
Proof.
  unfold idx_set. intros (l & w1 & [= <- <-] & H)%bind_ok. apply bind_ok in H as (l' & w1 & H1 & [= _ <-]).
  unfold lift in H1. destruct (arr_set _ _ _) as [l1|]; [|done]. injection H1 as <- <-. eauto.
Qed.

Lemma idx_add_ok i d w u w' : idx_add f i d w = Ok (u, w') ->
  exists x l, arr_get (f (raft w)) i = Ok x /\ arr_set (f (raft w)) i (x + d) = Ok l /\
    w' = w <| raft ::= fun r => r <| f := l |> |>.
Proof.
  unfold idx_add. intros (x & w1 & Hx & H)%bind_ok. pose proof (idx_get_read _ _ _ _ _ Hx) as ->.
  apply idx_get_ok in Hx. apply bind_ok in H as (y & w1 & (-> & -> & _)%int_of_ok & (l & Hl & ->)%idx_set_ok).
  eauto.
Qed.
End idx.

(** * Functions that only touch the files of the snapshots *)

(** [m], run by the server whose files are in [dir], changes neither the memory
    nor what the state file holds. *)
Definition steady {A} (dir : string) (m : M world A) : Prop :=
  forall w a w', files_dir (raft w) = dir -> m w = Ok (a, w') -> raft w' = raft w /\ image w' = image w.

Section steady.
Context (dir : string).

Lemma steady_bind {A B} (m : M world A) (k : A -> M world B) :
  steady dir m -> (forall a, steady dir (k a)) -> steady dir (m ≫= k).
Proof.
  intros Hm Hk w b w' Hd (a & w1 & H1 & H2)%bind_ok. destruct (Hm _ _ _ Hd H1) as [E1 I1].
  destruct (Hk a _ _ _ ltac:(by rewrite E1) H2) as [E2 I2]. split; congruence.
Qed.

Lemma steady_read {A B} (m : M world A) (k : A -> M world B) :
  (forall w a w', files_dir (raft w) = dir -> m w = Ok (a, w') -> w' = w /\ steady dir (k a)) ->
  steady dir (m ≫= k).
Proof.
  intros Hm w b w' Hd (a & w1 & H1 & H2)%bind_ok. destruct (Hm _ _ _ Hd H1) as [-> Hk]. by eapply Hk.
Qed.

Lemma steady_skip : steady dir skip.
Proof. by intros w a w' _ [= _ <-]. Qed.

Lemma steady_for {A} (l : list A) body : (forall x, steady dir (body x)) -> steady dir (for_ l body).
Proof.
  intros Hb. induction l as [|x l IH]; [apply steady_skip|]. apply steady_bind; [apply Hb|by intros _].
Qed.

Lemma steady_snapshot_path {B} snap (k : string -> M world B) :
  steady dir (k (snapshot_path dir snap)) -> steady dir (Raft_get_snapshot_path snap ≫= k).
Proof. intros Hk. apply steady_read. intros w a w' <-. by intros [-> ->]%path_ok. Qed.

Lemma steady_path_buf {B} s (k : string -> M world B) : steady dir (k s) -> steady dir (path_buf s ≫= k).
Proof. intros Hk. apply steady_read. by intros w a w' _ [-> ->]%path_buf_ok. Qed.

Lemma steady_do (c : fs raft_state -> fs raft_state) :
  (forall d, files (c d) !! state_file dir ≫= f_image = files d !! state_file dir ≫= f_image) ->
  steady dir (fs_do c).
Proof. intros Hc w a w' <- [= _ <-]. split; [done|]. unfold image. cbn. apply Hc. Qed.

Lemma steady_open snap i (c : file raft_state) :
  steady dir (fs_call (fun d => fopen_w d (snapshot_path dir snap +:+ file_name i) c)).
Proof.
  intros w a w' <-. unfold fs_call. destruct (fopen_w _ _ _) as [d|] eqn:E; [|done]. intros [= _ <-].
  split; [done|]. unfold image. cbn. rewrite (fopen_w_lookup _ _ _ _ _ E), decide_False; [done|].
  apply snapshot_file_not_state.
Qed.

Lemma steady_clean_main_files : steady dir Raft_clean_main_files.
Proof.
  unfold Raft_clean_main_files. apply steady_for. intros i. apply steady_read.
  intros w a w' Hd [= <- <-]. rewrite Hd. split; [done|]. apply steady_path_buf, (steady_open (-1)).
Qed.

Lemma steady_copy_snapshot a b : steady dir (Raft_copy_snapshot a b).
Proof.
  unfold Raft_copy_snapshot. do 2 apply steady_snapshot_path. apply steady_for. intros i.
  apply steady_path_buf, steady_read. intros w d w' _ [= _ <-]. split; [done|].
  destruct (fopen_r d _); [|apply steady_skip]. apply steady_path_buf, steady_open.
Qed.

Lemma steady_remove_snapshot snap : steady dir (Raft_remove_snapshot snap).
Proof.
  unfold Raft_remove_snapshot. apply steady_snapshot_path. apply steady_bind.
  - apply steady_for. intros i. apply steady_path_buf, steady_do. intros d.
    rewrite remove_lookup, decide_False; [done|]. apply snapshot_file_not_state.
  - intros _. apply steady_snapshot_path, steady_do. intros d. unfold rmdir. by case_match.
Qed.
End steady.

(** Committing leaves the state file alone. *)
Lemma image_commit_update `{CH : CommitHandler} `{!CommitHandlerOk CH} c : frames image (Raft_commit_update c).
Proof.
  assert (forall data, frames image (run_commit_handler data)) as Hrun.
  { intros data w a w'. unfold run_commit_handler. intros (dir & w1 & [= <- <-] & H)%bind_ok.
    apply bind_ok in H as (d & w1 & [= <- <-] & H). apply bind_ok in H as (d' & w2 & H & [= _ <-]). unfold lift in H.
    destruct (commit_handler _ data (disk w)) as [e|] eqn:E; [|done]. injection H as <- <-.
    unfold image. cbn. apply (commit_handler_image _ _ _ _ _ E). }
  unfold Raft_commit_update, commit_one. frames.
Qed.

(** * Refinement *)

Section refine.
Context `{CH : CommitHandler} `{!CommitHandlerOk CH}.
Context (ident : sockaddr_in -> Z) (n : Z).

Definition sent_to (l : list (sockaddr_in * raft_packet)) : list pmsg := (fun x => (ident x.1, x.2)) <$> l.

(** [w] to [w'] is a step of the commit protocol of server [n], which may
    consume [inm]. *)
Definition prefines (w w' : world) (inm : event) : Prop :=
  cwf w' /\ exists outs, out w' = out w ++ outs /\ forall pend pend',
    pstep n (anode_of w pend) (lnode_of w) (pnode_of w)
      (anode_of w' pend') (lnode_of w') (pnode_of w') inm (sent_to outs).

(** A segment that changes neither log nor commit index. *)
Lemma prefines_says w w' inm outs :
  cwf w -> cquiet w w' -> leads_on (raft w) (raft w') -> out w' = out w ++ outs ->
  (forall pend pend' m, m ∈ sent_to outs ->
     sends n (anode_of w pend) (lnode_of w) (pnode_of w) (anode_of w' pend') m) ->
  (forall v pend, inm = Receive (n, VOTE v) -> a_vote (bump (vr_term v) (anode_of w pend)) = -1 ->
     voted_for (raft w') = vr_candidate_id v -> voted_for (raft w') <> -1 -> up_to_date v (llog (raft w))) ->
  prefines w w' inm.
Proof.
  intros Hw Hq Hl Ho Hs Hv. destruct (cquiet_parts _ _ Hq Hw) as (Ec & Hw' & Hk).
  destruct (cdata_pnode _ _ Ec) as (E1 & E2 & E3 & E4).
  split; [done|]. exists outs. split; [done|]. intros pend pend'. apply pstep_quiet; try done.
  - by apply cdata_lnode.
  - intros Hr. destruct (Hl Hr). done.
  - intros m. apply Hs.
  - intros v E. by apply Hv.
Qed.

Lemma prefines_quiet w w' inm :
  cwf w -> cquiet w w' -> leads_on (raft w) (raft w') -> out w' = out w ->
  (forall v, inm <> Receive (n, VOTE v)) -> prefines w w' inm.
Proof.
  intros Hw Hq Hl Ho Hv. apply (prefines_says _ _ _ []); try done.
  - by rewrite app_nil_r.
  - intros pend pend' m Hm. by apply not_elem_of_nil in Hm.
  - intros v pend E. by destruct (Hv v).
Qed.

Lemma prefines_keeps {A} (m : M world A) w a w' inm :
  cwf w -> ckeeps (files_dir (raft w)) m -> keeps (files_dir (raft w)) m -> m w = Ok (a, w') ->
  (forall v, inm <> Receive (n, VOTE v)) -> prefines w w' inm.
Proof.
  intros Hw Hc Hk H Hv.
  destruct (quiet_view _ _ (Hk _ _ _ eq_refl H)) as (_ & Ht & _ & Hst & _ & Ho & _).
  apply prefines_quiet; [done|by eapply Hc| |done|done]. intros ?. by rewrite <- Hst, Ht.
Qed.

(** ** Segments that leave the data alone *)

Lemma ckeeps_send dir dst p : ckeeps dir (UDP_send dst p).
Proof. by apply keeps_send. Qed.
#[local] Hint Resolve ckeeps_send : keeps.

Lemma ckeeps_convert dir t : ckeeps dir (Raft_convert_to_follower t).
Proof. unfold Raft_convert_to_follower. keeps. Qed.
#[local] Hint Resolve ckeeps_convert : keeps.

Lemma ckeeps_vote_request dir addr v : ckeeps dir (Raft_handle_vote_request addr v).
Proof. unfold Raft_handle_vote_request. keeps. Qed.

Lemma ckeeps_start_election dir : ckeeps dir Raft_start_election.
Proof. unfold Raft_start_election. keeps. Qed.

Lemma ckeeps_poll_election dir a b : ckeeps dir (Raft_poll_election a b).
Proof. unfold Raft_poll_election. keeps. Qed.

Lemma ckeeps_listen_timeout dir b : ckeeps dir (Raft_RPC_listen_timeout b).
Proof. unfold Raft_RPC_listen_timeout, Raft_convert_to_candidate. keeps. Qed.

Lemma ckeeps_find_entry dir t i l : ckeeps dir (find_entry t i l).
Proof. induction l as [|j l IH]; cbn [find_entry]; keeps. Qed.

Lemma ckeeps_is_entry_committed dir t i : ckeeps dir (Raft_is_entry_committed t i).
Proof. unfold Raft_is_entry_committed. keeps. apply ckeeps_find_entry. Qed.

Lemma ckeeps_snapshot_begin dir k : ckeeps dir (Raft_create_snapshot_begin k).
Proof. unfold Raft_create_snapshot_begin. keeps. Qed.

Lemma ckeeps_snapshot_entry dir k l : ckeeps dir (snapshot_entry k l).
Proof. induction l as [|d l IH]; cbn [snapshot_entry]; keeps. Qed.

Lemma ckeeps_snapshot_build dir k : ckeeps dir (Raft_create_snapshot_build k).
Proof. unfold Raft_create_snapshot_build. keeps. apply ckeeps_snapshot_entry. Qed.

(** ** Elections *)

(** The vote requests of a candidate. *)
Lemma vote_requests_ok r lt l w u w' :
  for_ l (fun s =>
    if decide (server_id s = raft_id r) then skip
    else UDP_send (raft_socket s) (VOTE {|
           vr_term := current_term r; vr_candidate_id := raft_id r;
           vr_last_log_index := log_count r - 1; vr_last_log_term := lt |})) w = Ok (u, w') ->
  raft w' = raft w /\ exists outs, out w' = out w ++ outs /\ forall x, x ∈ outs ->
    x.2 = VOTE {| vr_term := current_term r; vr_candidate_id := raft_id r;
                  vr_last_log_index := log_count r - 1; vr_last_log_term := lt |}.
Proof.
  revert w. induction l as [|s l IH]; intros w.
  - intros [= _ <-]. split; [done|]. exists []. rewrite app_nil_r. split; [done|].
    by intros y ?%not_elem_of_nil.
  - cbn [for_]. intros (? & w1 & H1 & (Hr & outs & Ho & Hall)%IH)%bind_ok. case_decide.
    + injection H1 as _ <-. eauto.
    + injection H1 as _ <-. cbn in *. split; [done|]. eexists (_ :: outs). rewrite Ho, <- app_assoc.
      split; [done|]. by intros y [->|?%Hall]%elem_of_cons.
Qed.

Theorem start_election_prefines w w' :
  cwf w -> raft_id (raft w) = n -> Raft_start_election w = Ok (tt, w') -> prefines w w' Local.
Proof.
  intros Hw Hid H. pose proof (ckeeps_start_election _ _ _ _ eq_refl H) as Hq.
  pose proof (start_election_candidate _ _ _ H) as Hcand.
  unfold Raft_start_election in H. apply bind_ok in H as (t & ? & [= <- <-] & H).
  apply bind_ok in H as (t' & w1 & (-> & -> & _)%int_of_ok & H).
  apply bind_ok in H as (? & w2 & [= _ <-] & H).
  apply bind_ok in H as (? & w3 & (Hr & Ho & _)%save_ok & H).
  apply bind_ok in H as (r & ? & [= <- <-] & H).
  apply bind_ok in H as (lt & ? & [-> ->]%get_log_term_ok & H).
  apply bind_ok in H as (? & w4 & (Hr4 & outs & Ho4 & Hall)%vote_requests_ok & [f ->]%lock_release_ok).
  apply (prefines_says _ _ _ outs); try done.
  - intros Hl. cbn in Hl, Hcand. congruence.
  - cbn. by rewrite Ho4, Ho.
  - intros pend pend' m ((dst, p) & -> & Hp%Hall)%list_elem_of_fmap. cbn in Hp. subst p. unfold sends. cbn.
    rewrite Hr4, Hr. cbn. do 3 (split; [done|]).
    unfold describes. cbn. destruct (llog_last _ (proj1 (proj1 Hw))) as [E1 E2]. rewrite E2. split; [done|]. reflexivity.
Qed.

(** A vote is granted to a candidate whose log is recent enough. *)
Theorem vote_request_prefines addr v w w' :
  cwf w -> Raft_handle_vote_request addr v w = Ok (tt, w') -> prefines w w' (Receive (n, VOTE v)).
Proof.
  intros Hw H. pose proof (ckeeps_vote_request _ _ _ _ _ _ eq_refl H) as Hq.
  assert (leads_on (raft w) (raft w')) as Hlead.
  { eapply (refines_leads 0 addr w [] _ w' []); [by apply Raft_handle_vote_request_refines|done]. }
  unfold Raft_handle_vote_request in H. apply bind_ok in H as (? & w1 & Hacq & H).
  apply bind_ok in H as (t & ? & [= <- <-] & H).
  apply bind_ok in H as (? & w2 & Hf & H).
  assert (cdata (raft w2) = cdata (raft w)) as Ec.
  { match type of Hf with ?m _ = _ => assert (ckeeps (files_dir (raft w1)) m) as Hk by keeps end.
    destruct (Hk _ _ _ eq_refl Hf) as (E & _). unfold cdv in E. apply lock_acquire_ok in Hacq as [_ ->].
    exact (f_equal fst E). }
  apply follow_save_ok in Hf as [Hb _].
  pose proof (request_prefix _ _ _ _ _ Hacq Hb) as (_ & Ho2 & _ & _ & Hv2). clear Hacq Hb.
  apply bind_ok in H as (r & ? & [= <- <-] & H).
  apply bind_ok in H as (s & w3 & Hvote & H).
  apply bind_ok in H as (? & w4 & ->%send_ok & [f ->]%lock_release_ok).
  assert (out w3 = out w2 /\ ((voted_for (raft w2) = -1 -> voted_for (raft w3) = vr_candidate_id v ->
            voted_for (raft w3) <> -1 -> up_to_date v (llog (raft w2))))) as [Ho3 Hup].
  { clear -Hvote Hw Ec. assert (lshape (raft w2)) as Hs.
    { eapply logv_shape; [by apply cdata_logv|]. exact (proj1 (proj1 Hw)). }
    destruct (llog_last _ Hs) as [E1 E2].
    destruct (_ && _); [|injection Hvote as _ <-; split; [done|congruence]].
    apply bind_ok in Hvote as (lt & ? & [-> ->]%get_log_term_ok & H).
    apply bind_ok in H as (s' & w4 & Hdec & H).
    apply bind_ok in H as (? & w5 & (Hr & Ho & _)%save_ok & [= _ <-]). rewrite Ho, Hr.
    unfold up_to_date. rewrite E2, E1.
    destruct (Z.ltb_spec (term_at (raft w2) (log_count (raft w2) - 1)) (vr_last_log_term v)).
    - apply bind_ok in Hdec as (? & ? & [= _ <-] & [= _ <-]). split; [done|]. by left.
    - destruct (_ && _) eqn:Hc.
      + apply bind_ok in Hdec as (? & ? & [= _ <-] & [= _ <-]). split; [done|]. right. lia.
      + injection Hdec as _ <-. split; [done|congruence]. }
  apply (prefines_says _ _ _ [(addr, RESPONSE {| rp_id := raft_id (raft w2); rp_term := current_term (raft w2);
    rp_success := s; rp_request_id := -1 |})]); try done.
  - cbn. by rewrite Ho3, Ho2.
  - intros pend pend' m ->%list_elem_of_singleton. done.
  - cbn. intros v0 pend [= <-] Hb Hvf Hne.
    rewrite <- (logv_llog _ _ (cdata_logv _ _ Ec)). apply Hup; [|done..].
    destruct (Hv2 pend) as (_ & Ev & _). cbn [a_vote anode_of] in Ev. congruence.
Qed.

(** ** Append requests *)

Definition iview (r : raft_state) := (next_index r, last_request_id r).

Lemma cdata_parts r r' : lview r' = lview r -> iview r' = iview r -> cdata r' = cdata r.
Proof. unfold lview, iview, cdata. by intros [= -> -> -> ->] [= -> ->]. Qed.

(** A handler's save, answer and release. *)
Lemma saved_after w u w1 w' :
  Raft_save_state w = Ok (u, w1) -> cquiet w1 w' -> saved_now w'.
Proof.
  intros (Hr & _ & _ & Hi)%save_ok (E & _ & I). unfold saved_now.
  assert (cdata (raft w') = cdata (raft w)) as Ec by (rewrite <- Hr; exact (f_equal fst E)).
  rewrite Hi in I. cbn in I. destruct (image w') as [r|]; [|by destruct I]. exists r. split; [done|].
  destruct I as [I|I]; apply (inj Some) in I; congruence.
Qed.

Lemma append_request_saved addr a w w' :
  Raft_handle_append_request addr a w = Ok (tt, w') ->
  saved_now w' /\ iview (raft w') = iview (raft w) /\ raft_id (raft w') = raft_id (raft w).
Proof.
  intros H. assert (iview (raft w') = iview (raft w)) as Hi.
  { match type of H with ?m _ = _ => assert (rframes iview m) as Hf; [|by apply Hf in H] end.
    unfold Raft_handle_append_request, Raft_convert_to_follower, append_refused, append_heartbeat,
      append_store, Raft_commit_update, raft_lock_acquire, raft_lock_release, log_store.
    frames. }
  split; [|split; [done|]].
  - unfold Raft_handle_append_request in H. do 6 (apply bind_ok in H as (? & ? & _ & H)).
    apply bind_ok in H as (? & w3 & Hsave & H). eapply saved_after; [exact Hsave|].
    match type of H with ?m _ = _ => assert (ckeeps (files_dir (raft w3)) m) as Hk by keeps end.
    by eapply Hk.
  - apply (Raft_handle_append_request_refines 0 addr addr a w w' []) in H as ((Hid & _) & _). done.
Qed.

Lemma refuses_spec r a :
  lshape r -> -1 <= ar_prev_log_index a ->
  refuses r a = false <-> current_term r <= ar_term a /\ accepts (llog r) (lmsg_of a).
Proof.
  intros Hs Hprev. unfold refuses, accepts. cbn. rewrite llog_length, llog_term by done.
  rewrite !orb_false_iff, Z.ltb_ge, Z.leb_gt, bool_decide_eq_false. split.
  - intros [[? ?] ?%dec_stable]. auto with lia.
  - intros (? & [_ ?] & ?). auto.
Qed.

Lemma append_accepted r r' a :
  lshape r -> -1 <= ar_prev_log_index a -> refuses r a = false -> append_in_log r a ->
  lview r' = appended r a ->
  llog r' = (if ar_entries_n a =? 0 then llog r else stored (llog r) (lmsg_of a)) /\
  commit_index r' = accept_commit a (commit_index r) /\ lshape r'.
Proof.
  intros Hs Hprev Href Hin Hl. destruct (Z.eqb_spec (ar_entries_n a) 0) as [E|E].
  - unfold appended in Hl. rewrite Href, E in Hl. cbn in Hl.
    assert (logv r' = logv r) as El by (unfold lview in Hl; unfold logv; congruence).
    split; [by apply logv_llog|]. split; [|by eapply logv_shape].
    unfold accept_commit. rewrite E. cbn. unfold lview in Hl. congruence.
  - destruct (stored_llog _ _ _ Hs Href E Hin Hl) as (m & Hm & Hs' & _ & Hlog).
    unfold entry_of in Hm. rewrite (proj2 (Z.eqb_neq _ _) E) in Hm. injection Hm as <-.
    split; [exact Hlog|]. split; [|done].
    unfold appended in Hl. rewrite Href, (proj2 (Z.eqb_neq _ _) E) in Hl.
    unfold accept_commit. rewrite (proj2 (Z.eqb_neq _ _) E). unfold lview, store_commit in Hl.
    injection Hl as _ _ _ ->. destruct (_ <? _); [|done]. destruct (Z.ltb_spec (ar_prev_log_index a + 1) (ar_leader_commit a)); lia.
Qed.

Theorem append_request_prefines addr a w w' :
  cwf w -> raft_id (raft w) = n -> -1 <= ar_prev_log_index a ->
  Raft_handle_append_request addr a w = Ok (tt, w') -> prefines w w' (Receive (n, APPEND a)).
Proof.
  intros Hw Hid Hprev H. pose proof (append_request_saved _ _ _ _ H) as (Hsv & Hiv & _).
  pose proof (Raft_handle_append_request_refines 0 addr addr a w w' [] H) as Href.
  pose proof (refines_leads _ _ _ _ _ _ _ Href ltac:(done)) as Hlead. clear Href.
  apply append_handler_ok in H as ([_ Hst] & Hl & Hin & Ht & Ho & _).
  pose proof (proj1 (proj1 Hw)) as Hs. pose proof (refuses_spec _ a Hs Hprev) as Hspec.
  destruct (refuses (raft w) a) eqn:Href.
  - assert (cdata (raft w') = cdata (raft w)) as Ec.
    { apply cdata_parts; [|done]. unfold appended in Hl. by rewrite Href in Hl. }
    destruct (cdata_pnode _ _ Ec) as (E1 & E2 & E3 & E4).
    split; [apply saved_now_cwf; [by eapply cdata_shape; [|exact (proj1 Hw)]|done]|].
    eexists. split; [exact Ho|]. intros pend pend'. unfold sent_to. cbn [fmap list_fmap fst snd].
    rewrite Hid, <- Ht. apply pstep_refuse.
    + by apply cdata_lnode.
    + done.
    + right. by apply saved_now_psaved.
    + intros Hr. destruct (Hlead Hr). done.
    + done.
    + intros Hle Hacc. assert (true = false); [|done]. by apply Hspec.
  - destruct (proj1 Hspec eq_refl) as [Hle Hacc].
    destruct (append_accepted _ _ _ Hs Hprev Href Hin Hl) as (Hlog & Hc & Hs').
    assert (cshape (raft w')) as Hcs.
    { split; [done|]. destruct Hw as [(_ & ?) _]. unfold iview in Hiv. by injection Hiv as -> ->. }
    split; [by apply saved_now_cwf|]. eexists. split; [exact Ho|]. intros pend pend'.
    unfold sent_to. cbn [fmap list_fmap fst snd]. rewrite Hid, Z.max_r by done.
    apply pstep_accept; try done; cbn.
    + rewrite Ht. lia.
    + by apply Hst.
    + by apply saved_now_psaved.
Qed.

(** ** One more entry *)

Lemma pushed_parts w w' e :
  cwf w -> lview (raft w') = pushed (raft w) e ->
  log_count (raft w) - start_log_index (raft w) < Z.of_nat (length (raft_log (raft w))) ->
  lshape (raft w') /\ llog (raft w') = llog (raft w) ++ [ekey e] /\
  commit_index (raft w') = commit_index (raft w) /\
  forall i, replicas (raft w') i =
    if decide (i = length (llog (raft w))) then le_n_servers_replicated e else replicas (raft w) i.
Proof.
  intros [[Hs _] _] Hl Hroom. pose proof Hs as [Hst Hc]. unfold pushed in Hl. rewrite Hst, Z.sub_0_r in *.
  pose proof (llog_length _ Hs) as Hlen.
  destruct (llog_push (raft w) (raft w') e Hs Hroom) as [Hs' Hlog].
  { unfold lview in Hl. unfold logv. by injection Hl as -> -> -> _. }
  split; [done|]. split; [done|]. unfold lview in Hl. injection Hl as Elog _ _ Ec. split; [done|].
  intros i. unfold replicas. rewrite Elog. case_decide as E.
  - rewrite E, <- Hlen, Nat2Z.id, list_lookup_insert_eq by lia. done.
  - rewrite list_lookup_insert_ne; [done|lia].
Qed.

Lemma append_entry_split e w a w' :
  Raft_append_entry e w = Ok (a, w') ->
  cquiet w w' \/
  (state (raft w) = LEADER /\ lview (raft w') = pushed (raft w) (stamp (raft w) e) /\
   log_count (raft w) - start_log_index (raft w) < Z.of_nat (length (raft_log (raft w))) /\
   saved_now w' /\ iview (raft w') = iview (raft w)).
Proof.
  unfold Raft_append_entry. intros (? & w1 & Hacq & H)%bind_ok.
  pose proof (keeps_lock_acquire cdv cdata (fun _ => tt) _ _ _ _ eq_refl Hacq) as Hq1.
  apply lock_acquire_ok in Hacq as [_ ->]. set (w1 := w <| raft ::= _ |>) in *.
  apply bind_ok in H as (r & w2 & [= <- <-] & H). destruct (_ || _) eqn:Hcond.
  - left. etrans; [exact Hq1|].
    match type of H with ?m _ = _ => assert (ckeeps (files_dir (raft w1)) m) as Hk by keeps end. by eapply Hk.
  - right. apply orb_false_iff in Hcond as [Hlead _]. apply bool_decide_eq_false, dec_stable in Hlead.
    apply bind_ok in H as (k & w2 & (-> & -> & _)%int_of_ok & H).
    apply bind_ok in H as (? & w2 & [= _ <-] & H). apply bind_ok in H as (r & w2 & [= <- <-] & H).
    apply bind_ok in H as ([] & w3 & Hp & H). set (w2 := w1 <| raft ::= _ |>) in *.
    assert (log_count (raft w2) - 1 = log_count (raft w)) as En by (cbn; lia).
    change (log_store (Raft_get_log (raft w2) (log_count (raft w2) - 1)) (stamp (raft w) e) w2 = Ok (tt, w3)) in Hp.
    rewrite En in Hp. apply (log_store_ok w2) in Hp as (_ & Hroom & Hw3).
    apply bind_ok in H as (? & w4 & Hsave & H).
    apply bind_ok in H as (? & w5 & [f ->]%lock_release_ok & [= _ <-]).
    split; [exact Hlead|]. pose proof Hsave as (Hr & _)%save_ok.
    split; [cbn; rewrite Hr, Hw3; reflexivity|]. split; [exact Hroom|]. split.
    + eapply saved_after; [exact Hsave|]. unfold vquiet, image. cbn. auto.
    + cbn. rewrite Hr, Hw3. done.
Qed.

Theorem append_entry_prefines e w a w' :
  cwf w -> Raft_append_entry e w = Ok (a, w') -> prefines w w' Client.
Proof.
  intros Hw H. pose proof (keeps_append_entry _ e _ _ _ eq_refl H) as Hq.
  destruct (quiet_view _ _ Hq) as (_ & Ht & _ & Hst & _ & Ho & _).
  apply append_entry_split in H as [Hc|(Hlead & Hl & Hroom & Hsv & Hiv)].
  - apply prefines_quiet; [done|done| |done|done]. intros ?. by rewrite <- Hst, Ht.
  - destruct (pushed_parts _ _ _ Hw Hl Hroom) as (Hs' & Hlog & Hc & Hcnt).
    split; [apply saved_now_cwf; [|done]|].
    { split; [done|]. destruct Hw as [(_ & ?) _]. unfold iview in Hiv. by injection Hiv as -> ->. }
    exists []. rewrite app_nil_r. split; [done|]. intros pend pend'.
    eapply (pstep_push _ _ _ _ _ _ _ (ekey (stamp (raft w) e))); cbn; try done; try congruence.
    + by apply saved_now_psaved.
    + unfold iview in Hiv. by injection Hiv as -> _.
    + unfold iview in Hiv. by injection Hiv as _ ->.
Qed.

(** ** Becoming the leader *)

Lemma reset_progress l w u w' :
  for_ l (fun i =>
    n ← rget log_count;
    idx_set next_index i n;;
    idx_set match_index i 0;;
    idx_set last_request_id i 0;;
    idx_set last_request_response i (-1)) w = Ok (u, w') ->
  0 <= log_count (raft w) ->
  length (next_index (raft w')) = length (next_index (raft w)) /\
  length (last_request_id (raft w')) = length (last_request_id (raft w)) /\
  forall f, (f ∈ l \/ 0 <= per_server (next_index (raft w)) f /\ 0 <= per_server (last_request_id (raft w)) f) ->
    0 <= per_server (next_index (raft w')) f /\ 0 <= per_server (last_request_id (raft w')) f.
Proof.
  revert w. induction l as [|i l IH]; intros w.
  - intros [= _ <-] _. split; [done|]. split; [done|]. intros f [?%not_elem_of_nil|?]; done.
  - cbn [for_]. intros (? & w1 & H1 & H)%bind_ok Hn.
    apply bind_ok in H1 as (k & ? & [= <- <-] & H1).
    apply bind_ok in H1 as (? & w2 & (l1 & E1 & ->)%idx_set_ok & H1).
    apply bind_ok in H1 as (? & w3 & (l2 & E2 & ->)%idx_set_ok & H1).
    apply bind_ok in H1 as (? & w4 & (l3 & E3 & ->)%idx_set_ok & (l4 & E4 & ->)%idx_set_ok).
    cbn in E3. destruct (IH _ H Hn) as (H1 & H2 & Hall). cbn in H1, H2, Hall.
    rewrite H1, H2, (length_arr_set _ _ _ _ E1), (length_arr_set _ _ _ _ E3). split; [done|]. split; [done|].
    intros f Hf. apply Hall. rewrite (per_server_set _ _ _ _ f E1), (per_server_set _ _ _ _ f E3).
    destruct (decide (f = i)); [by right|]. destruct Hf as [[?|?]%elem_of_cons|?]; [done|by left|by right].
Qed.

Lemma convert_to_leader_parts w u w' :
  cwf w -> Raft_convert_to_leader w = Ok (u, w') ->
  saved_now w' /\ length (next_index (raft w')) = length (next_index (raft w)) /\
  length (last_request_id (raft w')) = length (last_request_id (raft w)) /\
  forall f, 0 <= per_server (next_index (raft w')) f /\ 0 <= per_server (last_request_id (raft w')) f.
Proof.
  intros [[[_ Hc] [Hl1 Hl2]] _]. unfold Raft_convert_to_leader. intros (? & w1 & [= _ Hw1] & H)%bind_ok.
  apply bind_ok in H as (n0 & ? & [= <- <-] & H).
  apply bind_ok in H as (n' & w2 & (-> & -> & _)%int_of_ok & H).
  apply bind_ok in H as (? & w2 & [= _ Hw2] & H). apply bind_ok in H as (r & ? & [= <- <-] & H).
  apply bind_ok in H as (e & w3 & ->%(frames_log_deref (fun w => w)) & H).
  apply bind_ok in H as (? & w3 & Hp & H).
  assert (iview (raft w3) = iview (raft w) /\ 0 <= log_count (raft w3)) as [Ei Hn].
  { unfold log_store in Hp. destruct (Raft_get_log _ _) as [i|]; [|done].
    apply bind_ok in Hp as (? & ? & [= <- <-] & Hp). apply bind_ok in Hp as (l' & ? & Hset & [= _ <-]).
    unfold lift in Hset. destruct (arr_set _ _ _); [|done]. injection Hset as -> ->. subst. cbn. split; [done|lia]. }
  apply bind_ok in H as (? & w4 & Hloop & H).
  apply reset_progress in Hloop as (Hn1 & Hn2 & Hall); [|done].
  unfold iview in Ei. injection Ei as E1 E2. rewrite E1 in Hn1. rewrite E2 in Hn2. rewrite E1, E2 in Hall.
  apply bind_ok in H as (? & w5 & Hprint & H).
  pose proof (frames_print_state (fun w => w) _ _ _ Hprint) as E5. cbn in E5. subst w5.
  apply bind_ok in H as (? & w6 & Hsave & H).
  match type of H with ?m _ = _ => assert (ckeeps (files_dir (raft w6)) m) as Hk by keeps end.
  pose proof (Hk _ _ _ eq_refl H) as Hq. pose proof Hsave as (Hr & _)%save_ok.
  split; [by eapply saved_after|].
  assert (iview (raft w') = iview (raft w4)) as Ei.
  { destruct Hq as (E & _). rewrite Hr in E. unfold cdv, cdata in E. unfold iview. congruence. }
  unfold iview in Ei. injection Ei as -> ->. split; [done|]. split; [done|]. intros f. apply Hall.
  destruct (decide (f ∈ seqZ 0 (MAX_SERVER_ID + 1))) as [|Hf]; [by left|right].
  rewrite !per_server_out by done. done.
Qed.

Theorem convert_to_leader_prefines u w w' r :
  cwf w -> state (raft w) = CANDIDATE -> Raft_convert_to_leader w = Ok (u, w') ->
  prefines w w' (Receive (n, RESPONSE r)).
Proof.
  intros Hw Hcand H. destruct (convert_to_leader_parts _ _ _ Hw H) as (Hsv & Hl1 & Hl2 & Hall).
  pose proof H as (_ & Ht & _ & _ & Hlead & Ho & _)%convert_to_leader_ok.
  apply convert_to_leader_log in H as (Hroom & e0 & _ & Hl).
  destruct (pushed_parts _ _ _ Hw Hl Hroom) as (Hs' & Hlog & Hc & Hcnt).
  split; [apply saved_now_cwf; [|done]|].
  { split; [done|]. destruct Hw as [(_ & ?) _]. by rewrite Hl1, Hl2. }
  exists []. rewrite app_nil_r. split; [done|]. intros pend pend'.
  eapply (pstep_lead _ _ _ _ _ _ _ _ (ekey _)); cbn; [exact Hcand|exact Hlead|exact Ht|..|exact Hlog|exact Hc| | |]; try done.
  - by apply saved_now_psaved.
  - rewrite Hcnt, decide_True by done. done.
Qed.

(** ** Answers *)

Lemma append_response_iview p w w' :
  Raft_handle_append_response p w = Ok (tt, w') ->
  exists nx q, arr_get (next_index (raft w)) (rp_id p) = Ok nx /\
    arr_get (last_request_id (raft w)) (rp_id p) = Ok q /\
    arr_set (last_request_id (raft w)) (rp_id p) (q + 1) = Ok (last_request_id (raft w')) /\
    saved_now w' /\
    ((rp_success p = 0 /\ arr_set (next_index (raft w)) (rp_id p) (nx - 1) = Ok (next_index (raft w'))) \/
     (rp_success p <> 0 /\ log_count (raft w) <= nx /\ next_index (raft w') = next_index (raft w)) \/
     (rp_success p <> 0 /\ nx < log_count (raft w) /\
      arr_set (next_index (raft w)) (rp_id p) (nx + 1) = Ok (next_index (raft w')))).
Proof.
  unfold Raft_handle_append_response. intros H.
  apply bind_ok in H as (? & w1 & H1 & H). apply bind_ok in H as (? & w2 & (q & l2 & Hq & El2 & ->)%idx_add_ok & Hsave).
  assert (saved_now w') as Hsv by (eapply saved_after; [exact Hsave|reflexivity]).
  apply save_ok in Hsave as (Hr & _ & _ & _). rewrite Hr. cbn.
  destruct (Z.eqb_spec (rp_success p) 0) as [Hs|Hs].
  { apply idx_add_ok in H1 as (nx & l1 & Hnx & El1 & ->). exists nx, q. do 4 (split; [done|]). by left. }
  apply bind_ok in H1 as (nx & w3 & Hnx & H1). pose proof (idx_get_read _ _ _ _ _ Hnx) as ->.
  apply idx_get_ok in Hnx. exists nx, q. split; [done|]. apply bind_ok in H1 as (r & ? & [= <- <-] & H1).
  unfold when at 1 in H1. destruct (Z.ltb_spec nx (log_count (raft w))) as [Hlt|Hge].
  2: { injection H1 as _ <-. do 3 (split; [done|]). right. by left. }
  apply bind_ok in H1 as (maj & w3 & Hm & H1). apply bind_ok in H1 as (? & w4 & Hu & H1).
  apply bind_ok in H1 as (? & w5 & (l5 & _ & ->)%idx_set_ok & (nx' & l1 & Hnx' & El1 & ->)%idx_add_ok).
  assert (iview (raft w3) = iview (raft w)) as E3.
  { match type of Hm with ?m _ = _ => assert (rframes iview m) as Hf; [|by apply Hf in Hm] end.
    unfold count_replica, log_store. frames. }
  assert (iview (raft w4) = iview (raft w3)) as E4.
  { match type of Hu with ?m _ = _ => assert (rframes iview m) as Hf; [|by apply Hf in Hu] end.
    unfold Raft_commit_update. frames. }
  rewrite E3 in E4. unfold iview in E4. injection E4 as E5 E6. cbn in *. rewrite E5 in *. rewrite E6 in *.
  rewrite Hnx in Hnx'. injection Hnx' as <-. do 3 (split; [done|]). right. by right.
Qed.

(** One more replica of entry [nx] is counted. *)
Lemma replicas_counted r r' nx e :
  lshape r -> log_at r nx = Some e ->
  raft_log r' = raft_log (set_log r nx (e <| le_n_servers_replicated := le_n_servers_replicated e + 1 |>)) ->
  replicas r (Z.to_nat nx) = le_n_servers_replicated e /\
  forall k, replicas r' k = if decide (k = Z.to_nat nx) then replicas r k + 1 else replicas r k.
Proof.
  intros [Hs _] He El. assert (raft_log r !! Z.to_nat nx = Some e) as Hcell.
  { unfold log_at in He. rewrite Hs, Z.sub_0_r in He. by destruct (_ && _). }
  unfold replicas. rewrite El, Hcell. split; [done|]. intros k. cbn. rewrite Hs, Z.sub_0_r. case_decide as Ek.
  - rewrite Ek, Hcell, list_lookup_insert_eq by (by apply lookup_lt_Some in Hcell). done.
  - by rewrite list_lookup_insert_ne by done.
Qed.

Theorem append_response_prefines r w w' :
  cwf w -> state (raft w) = LEADER -> rp_term r = current_term (raft w) ->
  arr_get (last_request_id (raft w)) (rp_id r) = Ok (rp_request_id r) ->
  0 <= per_server (next_index (raft w)) (rp_id r) ->
  Raft_handle_append_response r w = Ok (tt, w') -> prefines w w' (Receive (n, RESPONSE r)).
Proof.
  intros Hw Hlead Hterm Hrid Hnx0 H.
  pose proof (keeps_append_response _ _ _ _ _ eq_refl H) as (_ & Ht & _ & Hst & _ & Ho & _)%quiet_view.
  destruct (append_response_iview _ _ _ H) as (nx & q & Hnx & Hq & El2 & Hsv & Hcase).
  apply append_response_log in H. cbn zeta in H. rewrite Hrid in Hq. injection Hq as <-.
  rewrite (per_server_get _ _ _ Hnx) in Hnx0. pose proof Hw as [Hcs _]. pose proof Hcs as (Hs & Hl1 & Hl2).
  assert (logv (raft w') = logv (raft w)) as El.
  { destruct H as [H|(k & e & _ & _ & He & _ & _ & H)]; [by apply lview_logv|].
    rewrite <- (logv_set_replicas (raft w) k e (le_n_servers_replicated e + 1) He).
    unfold lview in H. unfold logv. injection H as -> -> -> _. done. }
  assert (answered (anode_of w []) (lnode_of w) (pnode_of w) (anode_of w' []) (lnode_of w') (pnode_of w') r) as Hans.
  { unfold answered. cbn. rewrite Ht, Hst. do 4 (split; [done|]).
    split; [by rewrite (per_server_get _ _ _ Hrid)|]. split; [by apply logv_llog|].
    split; [by apply saved_now_psaved|]. intros f. rewrite (per_server_set _ _ _ _ f El2).
    case_decide as E; [|done]. by rewrite E, (per_server_get _ _ _ Hrid). }
  assert (cshape (raft w')) as Hcs'.
  { split; [by eapply logv_shape|]. rewrite (length_arr_set _ _ _ _ El2). split; [|done].
    destruct Hcase as [[_ E]|[(_ & _ & ->)|(_ & _ & E)]]; [by rewrite (length_arr_set _ _ _ _ E)|done|
      by rewrite (length_arr_set _ _ _ _ E)]. }
  split; [by apply saved_now_cwf|]. exists []. rewrite app_nil_r. split; [done|]. intros pend pend'.
  destruct Hcase as [[Hsc E]|[(Hsc & Hge & E)|(Hsc & Hlt & E)]].
  - destruct H as [H|(k & e & _ & ? & _)]; [|done].
    unfold lview in H. injection H as Elog _ _ Ec. apply pstep_nack; try done; cbn.
    + intros f. cbn. rewrite (per_server_set _ _ _ _ f E). case_decide as Ef; [|done].
      rewrite Ef, (per_server_get _ _ _ Hnx). done.
    + unfold replicas. by rewrite Elog.
  - destruct H as [H|(k & e & Hk & _ & He%log_at_range & _)]; [|rewrite Hnx in Hk; injection Hk as <-; lia].
    unfold lview in H. injection H as Elog _ _ Ec. apply pstep_idle; try done; cbn.
    + rewrite llog_length, (per_server_get _ _ _ Hnx) by done. done.
    + by rewrite E.
    + unfold replicas. by rewrite Elog.
  - apply pstep_ack; try done; cbn; rewrite ?llog_length, ?(per_server_get _ _ _ Hnx) by done.
    + lia.
    + intros f. cbn. rewrite (per_server_set _ _ _ _ f E). case_decide as Ef; [|done].
      by rewrite Ef, (per_server_get _ _ _ Hnx).
    + destruct H as [H|(k & e & Hk & _ & He & Hte & Hck & H)].
      * left. unfold lview in H. injection H as Elog _ _ Ec. unfold replicas. by rewrite Elog.
      * right. rewrite Hnx in Hk. injection Hk as <-. unfold lview in H. injection H as Elog _ _ Ec.
        destruct (replicas_counted _ _ nx e Hs He Elog) as [Hcell Hrep].
        split; [done|]. split; [rewrite llog_term by done; unfold term_at; by rewrite He|]. split; [exact Hrep|].
        rewrite Ec. destruct (Z.ltb_spec N_SERVERS ((le_n_servers_replicated e + 1) * 2)); [right|by left].
        split; [done|]. rewrite Hrep, decide_True, Hcell by done. lia.
Qed.

(** What a step of the commit protocol depends on. *)
Definition pview (w : world) :=
  (state (raft w), current_term (raft w), voted_for (raft w), cdata (raft w), image w, out w).

Lemma pview_parts w1 w : pview w1 = pview w ->
  (forall pend, anode_part (anode_of w1 pend) = anode_part (anode_of w pend)) /\
  lnode_of w1 = lnode_of w /\ pnode_of w1 = pnode_of w /\ out w1 = out w /\ (cwf w -> cwf w1) /\
  state (raft w1) = state (raft w) /\ current_term (raft w1) = current_term (raft w) /\
  cdata (raft w1) = cdata (raft w) /\ image w1 = image w.
Proof.
  unfold pview. intros E. assert (cdata (raft w1) = cdata (raft w)) as Ec by congruence.
  assert (image w1 = image w) as Ei by congruence.
  split; [intros pend; unfold anode_part; cbn; congruence|].
  split; [unfold lnode_of; by rewrite Ei, (logv_llog _ _ (cdata_logv _ _ Ec))|].
  split; [unfold pnode_of, replicas; rewrite Ei; unfold cdata in Ec; by injection Ec as -> _ _ -> -> ->|].
  split; [congruence|]. split; [|split_and!; congruence].
  intros [Hs Hi]. split; [by eapply cdata_shape|by rewrite Ei].
Qed.

Lemma prefines_view w w1 w2 w' inm :
  pview w1 = pview w -> pview w' = pview w2 -> prefines w1 w2 inm -> prefines w w' inm.
Proof.
  intros (Ea & Ex & Ep & Eo & _)%pview_parts (Ea' & Ex' & Ep' & Eo' & Hw & _)%pview_parts (Hw2 & outs & Ho & Hstep).
  split; [by apply Hw|]. exists outs. split; [congruence|]. intros pend pend'. rewrite <- Ex, <- Ep, Ex', Ep'.
  eapply pstep_parts; [symmetry; apply Ea|apply Ea'|apply Hstep].
Qed.

Lemma prefines_after w w1 w' inm : pview w1 = pview w -> prefines w1 w' inm -> prefines w w' inm.
Proof. intros E H. by eapply prefines_view. Qed.
Lemma prefines_before w w1 w' inm : pview w' = pview w1 -> prefines w w1 inm -> prefines w w' inm.
Proof. intros E H. by eapply prefines_view. Qed.

Lemma pview_release w u w' : raft_lock_release w = Ok (u, w') -> pview w' = pview w.
Proof. by intros [f ->]%lock_release_ok. Qed.
Lemma pview_acquire w u w' : raft_lock_acquire w = Ok (u, w') -> pview w' = pview w.
Proof. by intros [_ ->]%lock_acquire_ok. Qed.
Lemma pview_response i v w u w' : idx_set last_request_response i v w = Ok (u, w') -> pview w' = pview w.
Proof. by intros (l & _ & ->)%idx_set_ok. Qed.

(** A vote that is counted, up to the release of the lock. *)
Lemma vote_response_prefines p w w' :
  cwf w -> state (raft w) = CANDIDATE ->
  (done ← Raft_handle_vote_response p; if (done : bool) then skip else raft_lock_release) w
    = Ok (tt, w') ->
  prefines w w' (Receive (n, RESPONSE p)).
Proof.
  intros Hw Hcand (b & w1 & H & Hend)%bind_ok.
  apply (prefines_before _ w1).
  { destruct b; [by injection Hend as <-|by eapply pview_release]. }
  clear Hend. unfold Raft_handle_vote_response in H. destruct (rp_success p <=? 0).
  { eapply prefines_keeps; [done| | |exact H|done]; keeps. }
  apply bind_ok in H as (k & ? & [= <- <-] & H).
  apply bind_ok in H as (k' & ? & (-> & -> & _)%int_of_ok & H).
  apply bind_ok in H as (? & w2 & [= _ <-] & H). set (w2 := w <| raft ::= _ |>) in *.
  apply (prefines_after _ w2); [done|]. assert (cwf w2) as Hw2 by exact Hw. destruct (_ <? _).
  - apply bind_ok in H as (? & w3 & H & [= _ <-]). by eapply convert_to_leader_prefines.
  - injection H as _ <-. apply prefines_quiet; [done|reflexivity|by intros ?|done|done].
Qed.

Theorem response_prefines p w w' :
  cwf w -> (state (raft w) = LEADER -> 0 <= per_server (next_index (raft w)) (rp_id p)) ->
  Raft_handle_response p w = Ok (tt, w') -> prefines w w' (Receive (n, RESPONSE p)).
Proof.
  intros Hw Hnx. unfold Raft_handle_response. intros (? & w1 & Hacq%pview_acquire & H)%bind_ok.
  apply (prefines_after _ w1); [done|]. apply pview_parts in Hacq as (_ & _ & _ & _ & Hw1%(fun f => f Hw) & Est & _ & Ec & _).
  apply bind_ok in H as (r & ? & [= <- <-] & H).
  destruct (Z.ltb_spec (rp_term p) (current_term (raft w1))) as [Hlt|Hge].
  { eapply prefines_keeps; [done| | |exact H|done]; keeps. }
  destruct (Z.ltb_spec (current_term (raft w1)) (rp_term p)) as [Hlt|Hle].
  { assert (state (raft w') = FOLLOWER /\ out w' = out w1) as [Hst Ho].
    { apply bind_ok in H as (? & w2 & (_ & _ & _ & Hst & _ & Ho & _)%convert_ok & H).
      apply bind_ok in H as (? & w3 & (Hr & Ho' & _)%save_ok & [f ->]%lock_release_ok). cbn. rewrite Hr, Ho'. done. }
    apply prefines_quiet; [done| | |done|done].
    - match type of H with ?m _ = _ => assert (ckeeps (files_dir (raft w1)) m) as Hk by keeps end. by eapply Hk.
    - intros ?. congruence. }
  apply bind_ok in H as (? & w2 & Hset%pview_response & H).
  apply (prefines_after _ w2); [done|].
  apply pview_parts in Hset as (_ & _ & _ & _ & Hw2%(fun f => f Hw1) & Est2 & Et2 & Ec2 & _).
  case_decide as Hcand.
  - apply vote_response_prefines; [done|congruence|done].
  - apply bind_ok in H as ([] & w3 & H & Hrel%pview_release). apply (prefines_before _ w3); [done|]. clear Hrel.
    case_decide as Hlead; [|injection H as <-; apply prefines_quiet; [done|reflexivity|by intros ?|done|done]].
    apply bind_ok in H as (q & w4 & Hq & H). pose proof (idx_get_read _ _ _ _ _ Hq) as ->. apply idx_get_ok in Hq.
    unfold when in H. destruct (Z.eqb_spec (rp_request_id p) q) as [E|]; cycle 1.
    { injection H as <-. apply prefines_quiet; [done|reflexivity|by intros ?|done|done]. }
    apply bind_ok in H as (nx & w4 & Hn & H). pose proof (idx_get_read _ _ _ _ _ Hn) as ->. apply idx_get_ok in Hn.
    assert (0 <= per_server (next_index (raft w2)) (rp_id p)) as Hnx2.
    { replace (next_index (raft w2)) with (next_index (raft w)); [apply Hnx; congruence|].
      unfold cdata in *. congruence. }
    pose proof Hw1 as (((Hst & _) & _) & _). rewrite (per_server_get _ _ _ Hn) in Hnx2. rewrite Hst in H.
    rewrite (proj2 (Z.ltb_ge _ _)) in H by done.
    eapply append_response_prefines; [done|congruence| |by rewrite E| |exact H].
    + rewrite Et2. lia.
    + by rewrite (per_server_get _ _ _ Hn).
Qed.

(** ** Threads *)

Theorem leader_thread_prefines ue us f addr w pc' w' :
  cwf w -> ident addr = f -> f <> n -> (state (raft w) = LEADER -> 0 <= per_server (next_index (raft w)) f) ->
  Raft_leader_thread ue us f addr Leader_loop w = Ok (pc', w') ->
  prefines w w' Local /\ (pc' = Leader_loop \/ pc' = Leader_exit) /\ spawned w' = spawned w.
Proof.
  intros Hw Hid Hne Hnx. cbn [Raft_leader_thread]. intros (? & w1 & Hacq & H)%bind_ok.
  assert (spawned w1 = spawned w) as Hs1 by (apply lock_acquire_ok in Hacq as [_ ->]; done).
  apply pview_acquire in Hacq.
  apply bind_ok in H as (st & ? & [= <- <-] & H). pose proof Hacq as (_ & _ & _ & _ & Hw1 & Est & _ & Ec & _)%pview_parts.
  specialize (Hw1 Hw). case_decide as Hst.
  { apply bind_ok in H as (? & w2 & [k ->]%lock_release_ok & [= <- <-]).
    split; [|split; [by right|done]]. apply (prefines_after _ w1); [done|].
    apply prefines_quiet; [done|unfold vquiet, image; cbn; auto|by intros ?|done|done]. }
  apply bind_ok in H as (nx & w2 & Hn & H).
  pose proof (idx_get_read _ _ _ _ _ Hn) as ->. apply idx_get_ok in Hn.
  apply bind_ok in H as (start & ? & [= <- <-] & H).
  assert (0 <= nx) as Hnx1.
  { rewrite <- (per_server_get _ _ _ Hn). replace (next_index (raft w1)) with (next_index (raft w)); [apply Hnx; congruence|].
    unfold cdata in Ec. congruence. }
  pose proof Hw1 as ((Hsh & _) & _). rewrite (proj1 Hsh), (proj2 (Z.ltb_ge _ _)) in H by done.
  apply bind_ok in H as ([] & w2 & Hsend & H). apply bind_ok in H as (? & w3 & Hrel & [= <- <-]).
  assert (spawned w3 = spawned w2) as Hs3 by (apply lock_release_ok in Hrel as [k ->]; done).
  apply pview_release in Hrel.
  apply append_request_sent in Hsend as (nx' & q & b & Hnx' & Hq & -> & Ht & Hp & Hpt & Hc & Hrid & Hcase).
  rewrite Hn in Hnx'. injection Hnx' as <-.
  split; [|split; [by left|by rewrite Hs3]]. eapply prefines_view; [exact Hacq|exact Hrel|].
  apply (prefines_says _ _ _ [(addr, APPEND b)]); try done.
  - unfold vquiet, image. cbn. auto.
  - intros pend pend' m ->%list_elem_of_singleton. unfold sends. cbn. rewrite Hid.
    do 3 (split; [done|]). unfold requests. cbn.
    rewrite (per_server_get _ _ _ Hn), (per_server_get _ _ _ Hq), (llog_length _ Hsh), (llog_term _ _ Hsh).
    split; [done|]. split.
    { destruct Hsh as [Hst0 Hlen]. destruct Hcase as [[-> _]|[_ He%log_at_range]]; lia. }
    split; [done|]. split; [done|]. split; [|done]. destruct Hcase as [[-> E]|[E He]].
    + by rewrite decide_True.
    + rewrite decide_False by (apply log_at_range in He; lia). split; [lia|]. rewrite llog_at by done. by rewrite He.
Qed.

(** ** Starting *)

(** A restarted server has the log and the commit index of its state file. *)
Theorem restore_prefines dir id sd w w' :
  files_dir (raft w) = dir -> cwf w -> Raft_server_restore dir id sd w = Ok (tt, w') ->
  prefines w w' Local.
Proof.
  intros Hdir [_ Hi] H. assert (out w' = out w) as Ho.
  { match type of H with ?m _ = _ => assert (frames out m) as Hf; [|by apply Hf in H] end.
    unfold Raft_server_restore, Raft_load_state, Raft_commit_update, path_buf. frames. }
  unfold Raft_server_restore, Raft_load_state in H. apply bind_ok in H as (? & w1 & Hload & H).
  apply bind_ok in Hload as (? & ? & [-> ->]%path_buf_ok & Hload).
  apply bind_ok in Hload as (d & ? & [= <- <-] & Hload).
  unfold fopen_r in Hload. destruct (files (disk w) !! state_file dir) as [c|] eqn:Ec; [|done].
  destruct (f_image c) as [r|] eqn:Er; [|done]. injection Hload as _ <-.
  assert (image w = Some r) as Himg by (unfold image; by rewrite Hdir, Ec).
  apply bind_ok in H as (id' & ? & [= <- <-] & H).
  apply bind_ok in H as (? & w2 & Hassert & H). cbn in Hassert.
  case_decide as Hid; [|done]. injection Hassert as _ <-.
  apply bind_ok in H as (? & w2 & [= _ <-] & H).
  apply bind_ok in H as (prev & ? & [= <- <-] & H).
  apply bind_ok in H as (start & ? & [= <- <-] & H).
  apply bind_ok in H as (c0 & w3 & (-> & -> & _)%int_of_ok & H).
  apply bind_ok in H as (? & w4 & [= _ Hw4] & H).
  assert (files_dir (raft w4) = dir) as Hd4 by by subst w4.
  assert (image w4 = Some r) as Him4 by (rewrite <- Himg; unfold image; rewrite Hd4, Hdir; by subst w4).
  apply bind_ok in H as (? & w5 & Hclean & H). apply (steady_clean_main_files dir) in Hclean as [E5 I5]; [|done].
  apply bind_ok in H as (? & w6 & Hcopy & H).
  assert (raft w6 = raft w5 /\ image w6 = image w5) as [E6 I6].
  { case_decide; [|by injection Hcopy as _ <-]. apply (steady_copy_snapshot dir) in Hcopy; [done|congruence]. }
  apply bind_ok in H as (? & w7 & Hcommit & H). pose proof (image_commit_update _ _ _ _ Hcommit) as I7.
  apply commit_update_ok in Hcommit as [E7 _].
  assert (files_dir (raft w7) = dir) as Hd7 by (rewrite E7; cbn; congruence).
  assert (raft w' = raft w7 /\ image w' = image w7) as [E8 I8].
  { match type of H with ?m _ = _ => assert (steady dir m) as Hs; [|by eapply Hs] end.
    apply (steady_for dir). intros i. destruct (decide (i = start_log_index r)).
    - apply (steady_skip dir).
    - apply (steady_remove_snapshot dir). }
  assert (image w' = Some r) as Him by congruence.
  assert (cdata (raft w') = cdata r) as Ecd.
  { rewrite E8, E7, E6, E5, <- Hw4. reflexivity. }
  assert (saved_now w') as Hsv by (by exists r).
  split; [apply saved_now_cwf; [|done]; eapply cdata_shape; [exact Ecd|by apply Hi]|].
  exists []. rewrite app_nil_r. split; [done|]. intros pend pend'. apply pstep_restart.
  - pose proof (saved_now_psaved _ Hsv) as Hp. unfold psaved in Hp. rewrite <- Hp.
    unfold pnode_of. cbn. by rewrite Himg, Him.
  - right. by apply saved_now_psaved.
  - cbn. rewrite E8, E7. cbn. rewrite E6, E5, <- Hw4. done.
Qed.
End refine.

(** A server started without a backup. *)
Lemma init_commit_shape `{CH : CommitHandler} cfg dir id sd w w' :
  files (disk w) !! state_file dir = None ->
  Z.of_nat (length (next_index (raft w))) = MAX_SERVER_ID + 1 ->
  Z.of_nat (length (last_request_id (raft w))) = MAX_SERVER_ID + 1 ->
  Raft_server_init cfg dir id sd w = Ok (tt, w') ->
  cwf w' /\ current_term (raft w') = 0 /\
  forall l c, copies (lnode_of w') (pnode_of w') l c -> l = [] /\ c = -1.
Proof.
  intros Hf Hl1 Hl2. unfold Raft_server_init. intros (? & w1 & [= _ Hw1] & H)%bind_ok.
  assert (raft w' = raft w1 /\ image w' = image w1) as [Er Ei].
  { match type of H with ?m _ = _ => assert (steady dir m) as Hs end.
    { apply steady_bind; [apply steady_for; intros i; apply steady_remove_snapshot|].
      intros _. apply steady_clean_main_files. }
    eapply Hs; [|exact H]. by subst w1. }
  assert (image w1 = None) as Hi by (unfold image; subst w1; cbn; by rewrite Hf).
  split; [|split; [rewrite Er; by subst w1|]].
  - split; [rewrite Er; subst w1; split; [unfold lshape; cbn; lia|done]|]. by rewrite Ei, Hi.
  - intros l c [[-> ->]|Him]; [|unfold pnode_of in Him; cbn in Him; by rewrite Ei, Hi in Him].
    cbn. rewrite Er. by subst w1.
Qed.
