(* ===== verification/CommitSafety.v ===== *)
(** Committed entries of the cluster: its runs without snapshots, in an
    environment that delivers no append request of a past term and adds entries
    while no heartbeat is under way, refine the commit protocol; so servers never
    commit different entries and every later leader has what was committed. *)
From S2P Require Import Prelude Libc Posix RaftTypes RaftStorage RaftUtils RaftFollower RaftLeader RaftCandidate Raft RaftView StorageSpec RaftLog ElectionSpec LogSpec RaftRefine LogRefine Cluster LogMatching CommitSpec CommitStep CommitRefine.

(** The entries a server has committed. *)
Definition committed_log (r : raft_state) : log := take (Z.to_nat (commit_index r + 1)) (llog r).

Section environment.
Context (cfg : raft_configuration).

(** The messages of the commit protocol, and the progress of the servers. *)
Definition abs_msgs (c : cluster) : list pmsg := (fun d => (id_of cfg (d_dst d), d_pkt d)) <$> net c.
Definition abs_progress (c : cluster) : gmap Z pnode := (fun nd => pnode_of (n_world nd)) <$> nodes c.

(** No heartbeat of the term of this server waits for its answer, which would
    count for an entry added meanwhile. *)
Definition heartbeats_answered (c : cluster) (nd : node) : Prop :=
  settled (current_term (raft (n_world nd))) (llog (raft (n_world nd))) (pnode_of (n_world nd)) (abs_msgs c).

(** The environment: that of [uncompacted], no append request of a past term
    is delivered, and a leader takes an entry from a client when its heartbeats
    have been answered. *)
Definition timely (c : cluster) (l : label) : Prop :=
  uncompacted c l /\
  match l with
  | L_deliver n k => forall d a nd, net c !! k = Some d -> d_pkt d = APPEND a ->
      nodes c !! n = Some nd -> current_term (raft (n_world nd)) <= ar_term a
  | L_append n _ => forall nd, nodes c !! n = Some nd -> state (raft (n_world nd)) = LEADER ->
      heartbeats_answered c nd
  | _ => True
  end.

Inductive reachable_timely `{CH : CommitHandler} : cluster -> Prop :=
  | reachable_timely_init c : init_cluster cfg c -> reachable_timely c
  | reachable_timely_step c l c' :
      reachable_timely c -> timely c l -> cstep cfg c l = Some c' -> reachable_timely c'.

Definition timely_steps `{CH : CommitHandler} : relation cluster :=
  rtc (fun c c' => exists l, timely c l /\ cstep cfg c l = Some c').

(** A leader thread waits at the top of its loop and sends to another server. *)
Definition thread_ok (n : Z) (t : thread) : Prop :=
  match t with
  | T_leader f addr pc => pc = Leader_loop /\ id_of cfg addr = f /\ f <> n
  | _ => True
  end.
End environment.

(** * The threads a segment starts *)

Section spawned.
Context `{CH : CommitHandler} `{!CommitHandlerOk CH}.

Lemma spawn_loop l n0 w u w' :
  for_ l (fun s => if decide (server_id s = n0) then skip
                   else pthread_create (Raft_leader_thread_start (server_id s) (raft_socket s))) w
    = Ok (u, w') ->
  forall t, t ∈ spawned w' -> t ∈ spawned w \/
    exists s, s ∈ l /\ server_id s <> n0 /\ t = Raft_leader_thread_start (server_id s) (raft_socket s).
Proof.
  revert w. induction l as [|s l IH]; intros w; [intros [= _ <-]; auto|]. cbn [for_].
  intros (? & w1 & H1 & H)%bind_ok t [Ht|(s' & Hs' & Hne & E)]%(IH _ H).
  - case_decide; injection H1 as _ <-; [by left|]. cbn in Ht.
    apply elem_of_app in Ht as [|E%list_elem_of_singleton]; [by left|right]. exists s. split; [by left|done].
  - right. exists s'. split; [by right|done].
Qed.

Lemma sframes_release : frames spawned raft_lock_release.
Proof. unfold raft_lock_release. frames. Qed.
Lemma sframes_acquire : frames spawned raft_lock_acquire.
Proof. unfold raft_lock_acquire. frames. Qed.
Lemma sframes_convert t : frames spawned (Raft_convert_to_follower t).
Proof. unfold Raft_convert_to_follower. frames. Qed.
Lemma sframes_commit c : frames spawned (Raft_commit_update c).
Proof. unfold Raft_commit_update. frames. Qed.
Lemma sframes_store p e : frames spawned (log_store p e).
Proof. unfold log_store. frames. Qed.
#[local] Hint Resolve sframes_release sframes_acquire sframes_convert sframes_commit sframes_store : frames.


(** One more command of a run that has started no thread since [w0]. *)
Lemma quietly {A B} (m : M world A) (k : A -> M world B) w0 w b w' :
  spawned w = spawned w0 -> frames spawned m -> (m ≫= k) w = Ok (b, w') ->
  exists a w1, spawned w1 = spawned w0 /\ m w = Ok (a, w1) /\ k a w1 = Ok (b, w').
Proof. intros E Hf (a & w1 & H1 & H2)%bind_ok. exists a, w1. split; [|done]. by rewrite (Hf _ _ _ H1). Qed.

Definition starts (w w' : world) : Prop := forall t, t ∈ spawned w' ->
  t ∈ spawned w \/ t = Raft_election_thread_start \/ exists s, s ∈ config (raft w) /\ server_id s <> raft_id (raft w) /\
    t = Raft_leader_thread_start (server_id s) (raft_socket s).

Lemma starts_none w w' : spawned w' = spawned w -> starts w w'.
Proof. intros E t Ht. left. by rewrite <- E. Qed.

Lemma convert_to_leader_spawned w u w' : Raft_convert_to_leader w = Ok (u, w') -> starts w w'.
Proof.
  intros H. pose proof H as ((Hid & Hcfg & _) & _)%convert_to_leader_ok. revert H.
  unfold Raft_convert_to_leader. intros H. assert (spawned w = spawned w) as E by done.
  do 12 (apply (quietly _ _ w) in H as (? & ? & ? & _ & H); [|assumption|unfold idx_set; frames]).
  apply bind_ok in H as (r & ? & [= <- <-] & H). pose proof H as (Er & _ & _)%spawn_ok.
  rewrite <- Er in H. intros t [Ht|Ht]%(spawn_loop _ _ _ _ _ H); [left; congruence|right; right].
  by rewrite Hid, Hcfg in Ht.
Qed.

Lemma starts_after w w1 w' : spawned w1 = spawned w -> stable w w1 -> starts w1 w' -> starts w w'.
Proof. intros E (Hid & Hc & _) H t Ht. specialize (H t Ht). by rewrite E, Hid, Hc in H. Qed.

Lemma response_spawned p w w' : Raft_handle_response p w = Ok (tt, w') -> starts w w'.
Proof.
  unfold Raft_handle_response. intros (? & w1 & [_ ->]%lock_acquire_ok & H)%bind_ok.
  set (w1 := w <| raft ::= _ |>) in *. apply (starts_after _ w1); [done..|].
  apply bind_ok in H as (r & ? & [= <- <-] & H).
  destruct (rp_term p <? _); [apply starts_none; by apply sframes_release in H|].
  destruct (_ <? rp_term p).
  { apply starts_none. match type of H with ?m _ = _ => assert (frames spawned m) as Hf; [|by apply Hf in H] end. frames. }
  apply bind_ok in H as (? & w2 & (l & _ & ->)%idx_set_ok & H). set (w2 := w1 <| raft ::= _ |>) in *.
  apply (starts_after _ w2); [done..|]. case_decide.
  - apply bind_ok in H as (b & w3 & H & Hend).
    assert (spawned w' = spawned w3) as E by (destruct b; [by injection Hend as <-|by apply sframes_release in Hend]).
    intros t. rewrite E. clear Hend E. revert t. change (starts w2 w3). unfold Raft_handle_vote_response in H.
    destruct (rp_success p <=? 0).
    { apply starts_none. match type of H with ?m _ = _ => assert (frames spawned m) as Hf; [|by apply Hf in H] end. frames. }
    apply bind_ok in H as (k & ? & [= <- <-] & H). apply bind_ok in H as (k' & ? & (-> & -> & _)%int_of_ok & H).
    apply bind_ok in H as (? & w4 & [= _ <-] & H). set (w4 := w2 <| raft ::= _ |>) in *.
    apply (starts_after _ w4); [done..|]. destruct (_ <? _); [|by injection H as _ <-; apply starts_none].
    apply bind_ok in H as (? & w5 & Hc & [= _ <-]). by eapply convert_to_leader_spawned.
  - apply starts_none. match type of H with ?m _ = _ => assert (frames spawned m) as Hf; [|by apply Hf in H] end.
    unfold Raft_handle_append_response, Raft_handle_install_response, idx_add, idx_set, count_replica. frames.
Qed.

Lemma sframes_dispatch addr p :
  (forall r, p <> RESPONSE r) -> frames spawned (Raft_dispatch addr p).
Proof.
  intros Hp. destruct p as [a|v|q|r]; cbn [Raft_dispatch].
  - unfold Raft_handle_append_request, append_refused, append_heartbeat, append_store. frames.
  - unfold Raft_handle_vote_request. frames.
  - unfold Raft_handle_install_snapshot_request, install_done, install_chunk. frames.
  - by destruct (Hp r).
Qed.

Lemma dispatch_spawned addr p w w' : Raft_dispatch addr p w = Ok (tt, w') -> starts w w'.
Proof.
  intros H. destruct p as [a|v|q|r]; [..|by apply response_spawned in H];
    apply starts_none; by apply sframes_dispatch in H.
Qed.

Lemma timeout_spawned b w u w' : Raft_RPC_listen_timeout b w = Ok (u, w') -> starts w w'.
Proof.
  unfold Raft_RPC_listen_timeout, Raft_convert_to_candidate. intros (st & ? & [= <- <-] & H)%bind_ok.
  destruct (_ && _); [|injection H as _ <-; by apply starts_none].
  apply bind_ok in H as (? & w1 & Hacq%sframes_acquire & [= _ <-]).
  intros t [Ht| ->%list_elem_of_singleton]%elem_of_app; [left|by right; left]. by rewrite <- Hacq.
Qed.

Lemma sframes_append_entry e : frames spawned (Raft_append_entry e).
Proof. unfold Raft_append_entry. frames. Qed.

Lemma sframes_is_entry_committed t i : frames spawned (Raft_is_entry_committed t i).
Proof.
  assert (forall l, frames spawned (find_entry t i l)) as Hf.
  { intros l. induction l as [|j l IH]; cbn [find_entry]; frames. }
  unfold Raft_is_entry_committed. frames.
Qed.

Lemma sframes_restore dir id sd : frames spawned (Raft_server_restore dir id sd).
Proof. unfold Raft_server_restore, Raft_load_state, path_buf. frames. Qed.

Lemma sframes_election a b pc : frames spawned (Raft_election_thread a b pc).
Proof. unfold Raft_election_thread, Raft_start_election, Raft_poll_election. frames. Qed.

Lemma sframes_snapshot_begin k : frames spawned (Raft_create_snapshot_begin k).
Proof. unfold Raft_create_snapshot_begin. frames. Qed.

Lemma sframes_snapshot_build k : frames spawned (Raft_create_snapshot_build k).
Proof.
  assert (forall l, frames spawned (snapshot_entry k l)) as Hf.
  { intros l. induction l as [|j l IH]; cbn [snapshot_entry]; frames. }
  unfold Raft_create_snapshot_build. frames.
Qed.
End spawned.

(** * The invariant of the cluster *)

Section safety.
Context `{CH : CommitHandler} `{!CommitHandlerOk CH}.
Context (cfg : raft_configuration) (Hcfg : config_ok cfg).

Definition cluster_threads_at (n : Z) (nd : node) : Prop :=
  spawned (n_world nd) = [] /\ forall t, t ∈ n_threads nd -> thread_ok cfg n t.
Definition cluster_threads (c : cluster) : Prop :=
  forall n nd, nodes c !! n = Some nd -> cluster_threads_at n nd.

(** The history [g] explains the votes, logs and commit indices of [c]. *)
Record committed (g : ghost) (c : cluster) : Prop := {
  cm_matching : matching cfg (gv g) (gl g) c;
  cm_shape : forall n nd, nodes c !! n = Some nd -> cwf (n_world nd);
  cm_inv : cinv (server_id <$> cfg) g (abs_cluster cfg c) (abs_logs c) (abs_progress c) (abs_msgs cfg c);
  cm_threads : cluster_threads c
}.

(** A step after which the history has grown. *)
Definition committed_on (g : ghost) (c c' : cluster) : Prop :=
  exists g', evolves g g' (anodes (abs_cluster cfg c)) (anodes (abs_cluster cfg c')) /\ committed g' c'.

(** What a segment of server [n] is, in each protocol: it may consume the
    messages [em], [lm] and answers [ev]. *)
Record segment (n : Z) (own : sockaddr_in) (nd : node) (em : option msg) (lm : option lmsg) (ev : event)
    (w' : world) (ts' : list thread) : Prop := {
  sg_refines : refines n own (n_world nd) (pends (n_threads nd)) em w' (pends ts');
  sg_lrefines : lrefines (n_world nd) w' lm;
  sg_prefines : prefines (id_of cfg) n (n_world nd) w' ev;
  sg_threads : forall t, t ∈ ts' ++ (start_thread <$> spawned w') -> thread_ok cfg n t
}.

(** The messages a segment consumes are under way, and it is the turn of the
    environment. *)
Record consumes (c : cluster) (n : Z) (nd : node) (em : option msg) (lm : option lmsg) (ev : event)
    (rest : list dgram) : Prop := {
  cs_net : abs_dgram cfg <$> net c ≡ₚ option_list em ++ (abs_dgram cfg <$> rest);
  cs_rest : forall d, d ∈ rest -> d ∈ net c;
  cs_entry : forall m, lm = Some m -> m ∈ abs_entries c;
  cs_msg : forall m, ev = Receive m -> m ∈ abs_msgs cfg c;
  cs_vote : forall k src t, em = Some (MVote k src t) ->
    exists v, ev = Receive (n, VOTE v) /\ vr_candidate_id v = k /\ vr_term v = t;
  cs_timely : forall b, ev = Receive (n, APPEND b) -> current_term (raft (n_world nd)) <= ar_term b;
  cs_settled : ev = Client -> state (raft (n_world nd)) = LEADER -> heartbeats_answered cfg c nd
}.

Lemma settle_msgs n own w ts rest c m :
  m ∈ abs_msgs cfg (settle n own w ts rest c) ->
  m ∈ sent_to (id_of cfg) (out w) \/ exists d, d ∈ rest /\ m = (id_of cfg (d_dst d), d_pkt d).
Proof.
  unfold abs_msgs. cbn. rewrite fmap_app, elem_of_app. intros [(d & -> & Hd)%list_elem_of_fmap|Hm].
  - right. eauto.
  - left. apply list_elem_of_fmap in Hm as (d & -> & Hd).
    apply list_elem_of_fmap in Hd as ([dst p] & -> & Hd). apply list_elem_of_fmap. exists (dst, p). auto.
Qed.

Lemma settle_committed g c n s nd em lm ev w' ts' rest :
  committed g c -> nodes c !! n = Some nd -> server_of cfg n = Some s ->
  segment n (raft_socket s) nd em lm ev w' ts' -> consumes c n nd em lm ev rest ->
  committed_on g c (settle n (raft_socket s) w' ts' rest c).
Proof.
  intros [Hm Hsh Hc Hth] Hn Hs [Href Hlref (Hw' & outs & Ho & Hstep) Hts] [Hnet Hrest Hlm Hev Hvote Htl Hset].
  set (c' := settle n (raft_socket s) w' ts' rest c). set (nd' := settled_node w' ts').
  pose proof Hm as (Hwf & _ & Hinv & Hl).
  destruct (settle_step cfg n s nd em w' ts' rest c Hwf Hn Hs Href Hnet) as [Hwf' _].
  destruct (settle_nstep cfg n s nd em w' ts' rest c Hwf Hn Href) as (eouts & Hnstep & Hanodes & Hmsgs).
  assert (anodes (abs_cluster cfg c) !! n = Some (abs_node nd)) as Han by (cbn; by rewrite lookup_fmap, Hn).
  assert (grows (abs_node nd) (abs_node nd')) as Hg.
  { eapply (nstep_grows (server_id <$> cfg)); [|exact Hnstep]. by destruct (inv_nodes _ _ _ Hinv _ _ Han) as (Hi & _). }
  destruct (nstep_inv (server_id <$> cfg) (cfg_ids _ Hcfg) (cfg_ids_pos _ Hcfg) (config_length cfg Hcfg)
    _ _ _ _ _ _ _ _ _ Hinv Han Hnet Hnstep Hanodes Hmsgs) as (H' & Hsub & Hinv' & Hcast).
  destruct (settle_grown cfg Hcfg (gv g) H' (gl g) c n s nd lm w' ts' rest) as (G' & Hext & Hgr & Hm'); try done.
  assert (out (n_world nd) = []) as Hout by (by destruct (Hwf n nd Hn) as (_ & _ & _ & _ & _ & ? & _)).
  rewrite Hout in Ho. cbn in Ho.
  assert (abs_logs c' = <[n := lnode_of w']> (abs_logs c)) as Elogs
    by (unfold abs_logs, c'; cbn; by rewrite fmap_insert).
  assert (abs_progress c' = <[n := pnode_of w']> (abs_progress c)) as Eprog
    by (unfold abs_progress, c'; cbn; by rewrite fmap_insert).
  pose proof Hm' as (_ & _ & _ & Hl'). fold c' in Hl'. rewrite Elogs in Hl'.
  destruct (cinv_pstep (server_id <$> cfg) (cfg_ids _ Hcfg) (config_length cfg Hcfg) g H' G'
    (abs_cluster cfg c) (abs_cluster cfg c') (abs_logs c) (abs_progress c) (abs_msgs cfg c) (abs_msgs cfg c')
    (abs_entries c) (abs_entries c') n (abs_node nd) (abs_node nd') (lnode_of (n_world nd)) (lnode_of w')
    (pnode_of (n_world nd)) (pnode_of w') em ev (sent_to (id_of cfg) outs)) as (g' & E1 & E2 & Hev' & Hc');
    try done.
  - unfold abs_logs. by rewrite lookup_fmap, Hn.
  - unfold abs_progress. by rewrite lookup_fmap, Hn.
  - apply Hstep.
  - intros m [Hin|(d & Hd & ->)]%settle_msgs; [left; by rewrite <- Ho|right].
    apply list_elem_of_fmap. eauto.
  - exists g'. split; [exact Hev'|]. split.
    + rewrite E1, E2. exact Hm'.
    + intros k nd0. cbn. intros [[<- <-]|[_ Hk]]%lookup_insert_Some; [exact Hw'|by eapply Hsh].
    + fold c'. by rewrite Elogs, Eprog.
    + intros k nd0. cbn. intros [[<- <-]|[_ Hk]]%lookup_insert_Some; [by split|by apply Hth].
Qed.

(** ** The segments of the labels *)

Lemma leader_next g c n nd f :
  committed g c -> nodes c !! n = Some nd -> state (raft (n_world nd)) = LEADER ->
  0 <= per_server (next_index (raft (n_world nd))) f.
Proof.
  intros [_ _ Hc _] Hn Hl.
  assert (node_inv (server_id <$> cfg) g (anodes (abs_cluster cfg c)) n (abs_node nd) (lnode_of (n_world nd))
    (pnode_of (n_world nd))) as Hni.
  { eapply (ci_nodes _ _ _ _ _ _ Hc); unfold abs_logs, abs_progress; cbn; by rewrite lookup_fmap, Hn. }
  destruct (ni_lead _ _ _ _ _ _ _ Hni Hl) as [Hp _]. destruct (Hp f) as [Hle _].
  pose proof (ci_ack _ _ _ _ _ _ Hc (a_term (abs_node nd)) f) as [Hk _]. cbn in Hle, Hk. lia.
Qed.

(** The threads of a server that starts leader threads for the others. *)
Lemma starts_ok n nd w' ts' :
  cluster_threads_at n nd -> node_wf cfg n nd -> starts (n_world nd) w' ->
  (forall t, t ∈ ts' -> t ∈ n_threads nd \/ thread_ok cfg n t) ->
  forall t, t ∈ ts' ++ (start_thread <$> spawned w') -> thread_ok cfg n t.
Proof.
  intros [Hsp Hth] (s0 & _ & Hid & Hcf & _) Hst Hts t [Ht|Ht]%elem_of_app.
  - destruct (Hts t Ht); [by apply Hth|done].
  - apply list_elem_of_fmap in Ht as (t0 & -> & Ht). apply Hst in Ht as [Ht|[->|(s & Hs & Hne & ->)]].
    + rewrite Hsp in Ht. by apply not_elem_of_nil in Ht.
    + done.
    + rewrite Hcf in Hs. rewrite Hid in Hne. cbn. split; [done|]. split; [|done].
      apply id_of_own; [done|]. by apply server_of_id.
Qed.

Lemma dispatch_segment g c n s nd d w' :
  committed g c -> nodes c !! n = Some nd -> server_of cfg n = Some s -> d ∈ net c ->
  d_dst d = raft_socket s -> (forall q, d_pkt d <> INSTALL_SNAPSHOT q) ->
  Raft_dispatch (d_src d) (d_pkt d) (n_world nd) = Ok (tt, w') ->
  segment n (raft_socket s) nd (Some (abs_dgram cfg d)) (entry_of (d_pkt d)) (Receive (n, d_pkt d)) w'
    (n_threads nd ++ [T_after_packet]).
Proof.
  intros Hcm Hn Hs Hd Hdst Hq H. pose proof Hcm as [(Hwf & Hsh & _) Hcw Hc Hth].
  pose proof (Hwf n nd Hn) as Hnd. pose proof Hnd as (s0 & _ & Hid & Hcf & _).
  assert (id_of cfg (d_dst d) = n) as Hown by (rewrite Hdst; by apply id_of_own).
  assert ((n, d_pkt d) ∈ abs_msgs cfg c) as Hin by (apply list_elem_of_fmap; exists d; by rewrite Hown).
  split.
  - rewrite pends_app. cbn. rewrite app_nil_r. eapply dispatch_refines; [| |exact H].
    + intros r Hr. unfold abs_dgram. rewrite Hr. cbn. by rewrite Hown.
    + intros r Hr. unfold abs_dgram. by rewrite Hcf, Hdst.
  - eapply dispatch_lrefines; [by eapply Hsh|exact Hq|exact H].
  - pose proof (ci_msgs _ _ _ _ _ _ Hc _ Hin) as Hok. destruct (d_pkt d) as [a|v|q|r]; cbn [Raft_dispatch] in H.
    + destruct Hok as (L & _ & Hr & _). eapply append_request_prefines; [by eapply Hcw|done|lia|exact H].
    + eapply vote_request_prefines; [by eapply Hcw|exact H].
    + by destruct (Hq q).
    + eapply response_prefines; [by eapply Hcw| |exact H]. intros Hl. by eapply leader_next.
  - eapply starts_ok; [by apply Hth|done|by eapply dispatch_spawned|].
    intros t [Ht| ->%list_elem_of_singleton]%elem_of_app; [by left|by right].
Qed.

(** A segment that consumes no message: its steps in the first two protocols are
    known. *)
Lemma local_segment n s nd ev w' ts' :
  node_wf cfg n nd -> cluster_threads_at n nd ->
  refines n (raft_socket s) (n_world nd) (pends (n_threads nd)) None w' (pends ts') ->
  lrefines (n_world nd) w' None -> prefines (id_of cfg) n (n_world nd) w' ev ->
  starts (n_world nd) w' -> (forall t, t ∈ ts' -> t ∈ n_threads nd \/ thread_ok cfg n t) ->
  segment n (raft_socket s) nd None None ev w' ts'.
Proof. intros Hwf Hth Hr Hl Hp Hst Hts. split; [done..|]. by eapply starts_ok. Qed.

(** A run that keeps every view, and answers no client. *)
Lemma keeps_segment {A} g c n s nd (m : M world A) a w' ts' :
  committed g c -> nodes c !! n = Some nd ->
  (forall dir, keeps dir m) -> (forall dir, lkeeps dir m) -> (forall dir, ckeeps dir m) ->
  m (n_world nd) = Ok (a, w') -> starts (n_world nd) w' -> pends ts' = pends (n_threads nd) ->
  (forall t, t ∈ ts' -> t ∈ n_threads nd \/ thread_ok cfg n t) ->
  segment n (raft_socket s) nd None None Local w' ts'.
Proof.
  intros [(Hwf & Hsh & _) Hcw _ Hth] Hn Hk Hlk Hck H Hst Hp Hts.
  apply local_segment; [by apply Hwf|by apply Hth|..]; try done.
  - rewrite Hp. by eapply refines_keeps.
  - eapply keeps_lrefines; [by eapply Hsh|reflexivity|done|done|exact H].
  - eapply prefines_keeps; [by eapply Hcw|apply Hck|apply Hk|exact H|done].
Qed.

(** The [k]-th thread runs. *)
Lemma thread_segment g c n s nd k t i t' w' :
  committed g c -> nodes c !! n = Some nd -> server_of cfg n = Some s -> n_threads nd !! k = Some t ->
  (forall new prev, t <> T_snapshot_end new prev) -> run_thread i t (n_world nd) = Ok (t', w') ->
  segment n (raft_socket s) nd None None Local w'
    (take k (n_threads nd) ++ option_list t' ++ drop (S k) (n_threads nd)).
Proof.
  intros Hcm Hn Hs Hk Hend H. pose proof Hcm as [(Hwf & Hsh & _) Hcw _ Hth].
  pose proof (Hwf n nd Hn) as Hnd. pose proof Hnd as (s0 & _ & Hid & Hcf & _).
  assert (thread_ok cfg n t) as Hok by (eapply Hth; [done|by eapply list_elem_of_lookup_2]).
  assert (prefines (id_of cfg) n (n_world nd) w' Local /\ (forall t1, t' = Some t1 -> thread_ok cfg n t1) /\
          spawned w' = spawned (n_world nd)) as (Hp & Ht' & Hsp).
  { destruct t as [|new|new|new prev|pc|f addr pc]; cbn [run_thread] in H.
    - apply bind_ok in H as (r & ? & [= <- <-] & [= <- <-]). split; [|split; [|done]].
      + by apply prefines_quiet; [eapply Hcw|..].
      + intros t1. destruct (snapshot_due _); by intros [= <-].
    - apply bind_ok in H as (go & w1 & H & [= <- <-]). split; [|split].
      + eapply prefines_keeps; [by eapply Hcw|apply ckeeps_snapshot_begin|apply keeps_snapshot_begin|exact H|done].
      + intros t1. destruct go; by intros [= <-].
      + by apply sframes_snapshot_begin in H.
    - apply bind_ok in H as (go & w1 & H & [= <- <-]). split; [|split].
      + eapply prefines_keeps; [by eapply Hcw|apply ckeeps_snapshot_build|apply keeps_snapshot_build|exact H|done].
      + by intros t1 [= <-].
      + by apply sframes_snapshot_build in H.
    - by destruct (Hend new prev).
    - apply bind_ok in H as (pc' & w1 & H & [= <- <-]). split; [|split].
      + destruct pc; cbn [Raft_election_thread] in H.
        * apply bind_ok in H as ([] & w2 & H & [= _ <-]).
          by eapply start_election_prefines; [eapply Hcw|..|exact H].
        * eapply prefines_keeps; [by eapply Hcw|apply ckeeps_poll_election|apply keeps_poll_election|exact H|done].
        * injection H as _ <-. by apply prefines_quiet; [eapply Hcw|..].
      + intros t1. destruct pc'; by intros [= <-].
      + by apply sframes_election in H.
    - destruct Hok as (-> & Hf & Hne). apply bind_ok in H as (pc' & w1 & H & [= <- <-]).
      destruct (leader_thread_prefines (id_of cfg) n (unset_entry i) (unset_install i) f addr (n_world nd) pc' w1)
        as (Hp & Hpc & Hsp); [by eapply Hcw|done..| |exact H|].
      + intros Hl. by eapply leader_next.
      + split; [done|]. split; [|done]. intros t1. destruct Hpc as [-> | ->]; by intros [= <-]. }
  apply local_segment; [done|by apply Hth|..].
  - eapply thread_refines; try done. intros f a ->. by destruct Hok.
  - eapply thread_lrefines; [by eapply Hsh|exact Hend|exact H].
  - done.
  - by apply starts_none.
  - intros t1 [Ht1|[Ht1|Ht1]%elem_of_app]%elem_of_app.
    + left. apply elem_of_take in Ht1 as (j & Hj & _). by eapply list_elem_of_lookup_2.
    + right. destruct t' as [t2|]; cbn in Ht1; [|by apply not_elem_of_nil in Ht1].
      apply list_elem_of_singleton in Ht1 as ->. by apply Ht'.
    + left. apply list_elem_of_lookup in Ht1 as [j Hj]. rewrite lookup_drop in Hj. by eapply list_elem_of_lookup_2.
Qed.

(** ** Each step *)

(** What is consumed by a segment that takes no message. *)
Lemma consumes_nothing c n nd ev :
  (forall m, ev <> Receive m) -> (ev = Client -> state (raft (n_world nd)) = LEADER -> heartbeats_answered cfg c nd) ->
  consumes c n nd None None ev (net c).
Proof. intros Hev Hs. split; try done; intros; by edestruct Hev. Qed.

Lemma run_on_committed {A} g n (m : M world A) ts c c' ev :
  committed g c -> (forall x, ev <> Receive x) ->
  (forall nd s a w', nodes c !! n = Some nd -> server_of cfg n = Some s -> m (n_world nd) = Ok (a, w') ->
     segment n (raft_socket s) nd None None ev w' (ts (n_threads nd) a) /\
     (ev = Client -> state (raft (n_world nd)) = LEADER -> heartbeats_answered cfg c nd)) ->
  run_on cfg n m ts (net c) c = Some c' -> committed_on g c c'.
Proof.
  intros Hcm Hev Hseg Hrun. unfold run_on in Hrun.
  destruct (server_of cfg n) as [s|] eqn:Hs; [|done].
  destruct (nodes c !! n) as [nd|] eqn:Hn; [|done].
  destruct (m (n_world nd)) as [[a w']|] eqn:Hrm; [|done]. injection Hrun as <-.
  destruct (Hseg nd s a w' eq_refl eq_refl Hrm) as [Hsg Hset].
  eapply settle_committed; [done|done|done|exact Hsg|]. by apply consumes_nothing.
Qed.

Lemma restore_segment g c n s nd sd w' :
  committed g c -> nodes c !! n = Some nd -> server_of cfg n = Some s ->
  Raft_server_restore (file_directory s) n sd (n_world nd) = Ok (tt, w') ->
  segment n (raft_socket s) nd None None Local w' [].
Proof.
  intros [(Hwf & Hsh & _) Hcw _ Hth] Hn Hs H.
  pose proof (Hwf n nd Hn) as Hnd. pose proof Hnd as (s0 & Hs0 & Hid & Hcf & Hd & _ & Hi).
  assert (s0 = s) as -> by congruence. apply local_segment; [done|by apply Hth|..].
  - eapply Raft_server_restore_refines; [exact Hd|by rewrite Hcf|]. by rewrite Hid.
  - eapply restore_lrefines; [exact Hd|by eapply Hsh|exact H].
  - eapply restore_prefines; [exact Hd|by eapply Hcw|exact H].
  - apply starts_none. by apply sframes_restore in H.
  - by intros t ?%not_elem_of_nil.
Qed.

(** A packet is handled. *)
Lemma deliver_committed g c n k c' :
  committed g c -> timely cfg c (L_deliver n k) -> cstep cfg c (L_deliver n k) = Some c' -> committed_on g c c'.
Proof.
  intros Hcm [[_ Hun] Htl] Hrun. cbn in Hrun, Hun, Htl.
  destruct (server_of cfg n) as [s|] eqn:Hs; [|done]. cbn in Hrun.
  destruct (net c !! k) as [d|] eqn:Hd; [|done]. cbn in Hrun. case_decide as Hdst; [|done].
  unfold run_on in Hrun. rewrite Hs in Hrun. destruct (nodes c !! n) as [nd|] eqn:Hn; [|done].
  destruct (Raft_dispatch _ _ _) as [[[] w']|] eqn:Hrm; [|done]. injection Hrun as <-.
  assert (d ∈ net c) as Hin by (by eapply list_elem_of_lookup_2).
  assert (id_of cfg (d_dst d) = n) as Hown by (rewrite Hdst; by apply id_of_own).
  eapply settle_committed; [done|done|done|eapply dispatch_segment; [done|done|done|done|done|intros q; by apply Hun|exact Hrm]|].
  split.
  - apply (fmap_Permutation (abs_dgram cfg)) with (x := net c) (y := d :: delete k (net c)).
    by apply delete_Permutation.
  - intros d' Hd'. by eapply list_elem_of_delete_inv.
  - intros m E. apply list_elem_of_omap. eauto.
  - intros m [= <-]. apply list_elem_of_fmap. exists d. by rewrite Hown.
  - intros j src t E. unfold abs_dgram in E. destruct (d_pkt d) as [?|v|?|?]; try done.
    injection E as <- _ <-. by exists v.
  - intros b [= E]. by eapply Htl.
  - done.
Qed.

(** A packet is lost. *)
Lemma drop_committed g c k c' :
  committed g c -> cstep cfg c (L_drop k) = Some c' -> committed_on g c c'.
Proof.
  intros Hcm Hrun. pose proof Hcm as [(Hwf & Hsh & Hinv & Hl) Hcw Hc Hth].
  cbn in Hrun. destruct (net c !! k) as [d|] eqn:Hd; [|done]. injection Hrun as <-.
  set (c' := {| nodes := nodes c; net := delete k (net c) |}).
  assert (forall d', d' ∈ net c' -> d' ∈ net c) as Hsub.
  { unfold c'. cbn. intros d' Hd'. by eapply list_elem_of_delete_inv. }
  destruct (cstep_refines cfg Hcfg c (L_drop k) c' Hwf I) as [Hwf' Ha]; [cbn; by rewrite Hd|].
  assert (inv (server_id <$> cfg) (gv g) (abs_cluster cfg c')) as Hinv'.
  { eapply inv_drop with (m := abs_dgram cfg d); [apply (cfg_ids _ Hcfg)|apply (cfg_ids_pos _ Hcfg)|
      exact (config_length cfg Hcfg)|exact Hinv|done|].
    apply (fmap_Permutation (abs_dgram cfg)) with (x := net c) (y := d :: delete k (net c)).
    by apply delete_Permutation. }
  exists g. split; [by apply (evolves_refl (server_id <$> cfg))|]. split; [split; [done|split; [done|split; [done|]]]|done|..|done].
  - eapply linv_drop; [reflexivity|exact Hl|done|].
    intros m (d' & Hd' & E)%list_elem_of_omap. apply list_elem_of_omap. eauto.
  - eapply cinv_drop; [exact Hc|done|]. intros m (d' & -> & Hd')%list_elem_of_fmap.
    apply list_elem_of_fmap. eauto.
Qed.

Lemma cstep_committed g c l c' :
  committed g c -> timely cfg c l -> cstep cfg c l = Some c' -> committed_on g c c'.
Proof.
  intros Hcm Ht Hrun. pose proof Ht as [[Hben Hun] Htl]. pose proof Hcm as [(Hwf & Hsh & _) Hcw Hc Hth].
  destruct l as [n k|k|k|n|n k i|n e|n t i|n sd]; [by eapply deliver_committed|by eapply drop_committed|done|..];
    cbn in Hrun, Hun, Htl.
  - eapply (run_on_committed _ _ _ _ _ _ Local); [done|done| |exact Hrun]. intros nd s a w' Hn Hs H. split; [|done].
    eapply keeps_segment; [done|done|intros; apply keeps_listen_timeout|intros; apply lkeeps_listen_timeout|
      intros; apply ckeeps_listen_timeout|exact H| |done|by left].
    by eapply timeout_spawned.
  - destruct (nodes c !! n) as [nd|] eqn:Hn; [|done]. cbn in Hrun.
    destruct (n_threads nd !! k) as [t|] eqn:Hk; [|done]. cbn in Hrun.
    eapply (run_on_committed _ _ _ _ _ _ Local); [done|done| |exact Hrun]. intros nd0 s a w' Hn0 Hs H. split; [|done].
    assert (nd0 = nd) as -> by congruence. eapply thread_segment; try done.
    intros new prev ->. by apply (Hun nd new prev).
  - eapply (run_on_committed _ _ _ _ _ _ Client); [done|done| |exact Hrun]. intros nd s a w' Hn Hs H.
    split; [|intros _; by apply Htl].
    apply local_segment; [by apply Hwf|by apply Hth|..].
    + eapply refines_keeps; [apply keeps_append_entry|exact H].
    + eapply append_entry_lrefines; [by eapply Hsh|exact H].
    + eapply append_entry_prefines; [by eapply Hcw|exact H].
    + apply starts_none. by apply sframes_append_entry in H.
    + by left.
  - eapply (run_on_committed _ _ _ _ _ _ Local); [done|done| |exact Hrun]. intros nd s a w' Hn Hs H. split; [|done].
    eapply keeps_segment; [done|done|intros; apply keeps_is_entry_committed|intros; apply lkeeps_is_entry_committed|
      intros; apply ckeeps_is_entry_committed|exact H| |done|by left].
    apply starts_none. by apply sframes_is_entry_committed in H.
  - destruct (server_of cfg n) as [s|] eqn:Hs; [|done]. cbn in Hrun.
    eapply (run_on_committed _ _ _ _ _ _ Local); [done|done| |exact Hrun]. intros nd s0 [] w' Hn Hs0 H. split; [|done].
    assert (s0 = s) as -> by congruence. by eapply restore_segment.
Qed.

(** ** Reachable clusters *)

Lemma init_node_commit s nd : init_node cfg s = Some nd ->
  cwf (n_world nd) /\ current_term (raft (n_world nd)) = 0 /\ cluster_threads_at (server_id s) nd /\
  forall l c, copies (lnode_of (n_world nd)) (pnode_of (n_world nd)) l c -> l = [] /\ c = -1.
Proof.
  unfold init_node. destruct (Raft_server_init _ _ _ _ _) as [[[] w]|] eqn:E; [|done]. intros [= <-].
  apply init_commit_shape in E as (Hw & Ht & Hcp); [|done..]. split; [done|]. split; [done|]. split; [|exact Hcp].
  split; [done|]. by intros t ?%not_elem_of_nil.
Qed.

Lemma init_committed c : init_cluster cfg c -> committed no_history c.
Proof.
  intros Hc. pose proof (init_matching cfg Hcfg c Hc) as Hm. destruct Hc as (Hnet & Hd & Hn).
  assert (forall n nd, nodes c !! n = Some nd -> exists s, server_id s = n /\ init_node cfg s = Some nd) as Hinit.
  { intros n nd Hnd. assert (n ∈ server_id <$> cfg) as Hin by (apply Hd; eauto).
    apply list_elem_of_fmap in Hin as (s & -> & Hs). rewrite (Hn s Hs) in Hnd. by exists s. }
  split; [exact Hm| | |].
  - intros n nd (s & _ & Hs)%Hinit. by apply init_node_commit in Hs as [? _].
  - replace (abs_msgs cfg c) with (@nil pmsg) by (unfold abs_msgs; by rewrite Hnet). apply cinv_init.
    + intros n a Ha. cbn in Ha. rewrite lookup_fmap in Ha. apply fmap_Some in Ha as (nd & Hnd & ->).
      destruct (Hinit n nd Hnd) as (s & _ & Hs). split; [by apply (init_node_fresh cfg) in Hs as [? _]|].
      apply init_node_commit in Hs as (_ & Ht & _). cbn. by rewrite Ht.
    + intros n x p Hx Hp. unfold abs_logs in Hx. unfold abs_progress in Hp.
      rewrite lookup_fmap in Hx. rewrite lookup_fmap in Hp.
      apply fmap_Some in Hx as (nd & Hnd & ->). rewrite Hnd in Hp. injection Hp as <-.
      destruct (Hinit n nd Hnd) as (s & _ & Hs). by apply init_node_commit in Hs as (_ & _ & _ & ?).
  - intros n nd Hnd. destruct (Hinit n nd Hnd) as (s & <- & Hs). by apply init_node_commit in Hs as (_ & _ & ? & _).
Qed.

Lemma reachable_committed c : reachable_timely cfg c -> exists g, committed g c.
Proof.
  induction 1 as [c Hc|c l c' _ [g Hcm] Htl Hrun].
  - exists no_history. by apply init_committed.
  - destruct (cstep_committed _ _ _ _ Hcm Htl Hrun) as (g' & _ & ?). eauto.
Qed.

Lemma steps_committed g c c' : committed g c -> timely_steps cfg c c' -> committed_on g c c'.
Proof.
  intros Hcm Hs. revert g Hcm. induction Hs as [c|c c1 c' (l & Htl & Hrun) _ IH]; intros g Hcm.
  - exists g. split; [by apply (evolves_refl (server_id <$> cfg))|done].
  - destruct (cstep_committed _ _ _ _ Hcm Htl Hrun) as (g1 & Hev1 & Hcm1).
    destruct (IH _ Hcm1) as (g' & Hev & Hcm'). exists g'. split; [by eapply (evolves_trans (server_id <$> cfg))|done].
Qed.

(** What a server has committed, in the history. *)
Lemma committed_safe g c n nd :
  committed g c -> nodes c !! n = Some nd ->
  let r := raft (n_world nd) in
  lshape r /\ commit_index r < log_count r /\
  safe (server_id <$> cfg) g (current_term r) (committed_log r).
Proof.
  intros [_ Hsh Hc _] Hn r. pose proof (Hsh n nd Hn) as [[Hs _] _]. split; [done|].
  assert (node_inv (server_id <$> cfg) g (anodes (abs_cluster cfg c)) n (abs_node nd) (lnode_of (n_world nd))
    (pnode_of (n_world nd))) as Hni.
  { eapply (ci_nodes _ _ _ _ _ _ Hc); unfold abs_logs, abs_progress; cbn; by rewrite lookup_fmap, Hn. }
  destruct (ni_commit _ _ _ _ _ _ _ Hni (llog r) (commit_index r)) as [Hlt Hsafe]; [by left|].
  rewrite llog_length in Hlt by done. split; [lia|exact Hsafe].
Qed.

(** Of what two servers have committed, now or later, one is the beginning of
    the other. *)
Lemma committed_comparable g g' c c' n n' nd nd' :
  committed g c -> evolves g g' (anodes (abs_cluster cfg c)) (anodes (abs_cluster cfg c')) -> committed g' c' ->
  nodes c !! n = Some nd -> nodes c' !! n' = Some nd' ->
  let l := committed_log (raft (n_world nd)) in let l' := committed_log (raft (n_world nd')) in
  l `prefix_of` l' \/ l' `prefix_of` l.
Proof.
  intros Hcm Hev Hcm' Hn Hn' l l'.
  destruct (committed_safe g c n nd Hcm Hn) as (_ & _ & Hsafe).
  destruct (committed_safe g' c' n' nd' Hcm' Hn') as (_ & _ & Hsafe').
  pose proof (safe_mono _ _ _ _ _ Hev _ _ _ Hsafe (Z.le_refl _)) as Hsafe1.
  by eapply (safe_total (server_id <$> cfg) (config_length cfg Hcfg)); [apply (cm_inv _ _ Hcm')| |].
Qed.

Lemma prefix_lookup_eq (l1 l2 : log) a i :
  (i < a)%nat -> (i < length l1)%nat -> take a l1 `prefix_of` l2 -> l1 !! i = l2 !! i.
Proof.
  intros Ha Hl Hp. destruct (lookup_lt_is_Some_2 l1 i Hl) as [x Hx]. rewrite Hx. symmetry.
  eapply prefix_lookup_Some; [|exact Hp]. by rewrite lookup_take_lt.
Qed.

(** Entries of two logs at one index, from the logs of the protocol. *)
Lemma entries_agree r r' i :
  lshape r -> lshape r' -> 0 <= i < log_count r -> i < log_count r' ->
  llog r !! Z.to_nat i = llog r' !! Z.to_nat i ->
  exists e e', log_at r i = Some e /\ log_at r' i = Some e' /\ ekey e = ekey e'.
Proof.
  intros Hs Hs' Hi Hi' E. rewrite !llog_at in E by (done || lia).
  pose proof (llog_length _ Hs) as Hlen.
  destruct (lookup_lt_is_Some_2 (llog r) (Z.to_nat i)) as [x Hx]; [lia|].
  rewrite llog_at in Hx by (done || lia). rewrite Hx in E. symmetry in E.
  apply fmap_Some in Hx as (e & He & ->), E as (e' & He' & Ek). exists e, e'. done.
Qed.
End safety.

(** C2: Servers never commit different entries: what one server has committed
    at some moment and another, or the same one, at that moment or later is
    the same entry (but for the leader's count of replicas), across elections,
    lost and reordered packets, crashes and restarts, in an environment
    without duplication and compaction in which no append request of a past
    term is delivered and no heartbeat is unanswered when a leader takes an
    entry. *)
Theorem committed_entries_agree `{CH : CommitHandler} `{!CommitHandlerOk CH} cfg c c' n n' nd nd' i :
  config_ok cfg -> reachable_timely cfg c -> timely_steps cfg c c' ->
  nodes c !! n = Some nd -> nodes c' !! n' = Some nd' ->
  0 <= i <= commit_index (raft (n_world nd)) -> i <= commit_index (raft (n_world nd')) ->
  exists e e', log_at (raft (n_world nd)) i = Some e /\ log_at (raft (n_world nd')) i = Some e' /\
    ekey e = ekey e'.
Proof.
  intros Hcfg Hr Hs Hn Hn' Hi Hi'. destruct (reachable_committed cfg Hcfg c Hr) as (g & Hcm).
  destruct (steps_committed cfg Hcfg g c c' Hcm Hs) as (g' & Hev & Hcm').
  destruct (committed_safe cfg g c n nd Hcm Hn) as (Hsh & Hlt & _).
  destruct (committed_safe cfg g' c' n' nd' Hcm' Hn') as (Hsh' & Hlt' & _).
  pose proof (llog_length _ Hsh). pose proof (llog_length _ Hsh').
  apply entries_agree; [done|done|lia|lia|].
  destruct (committed_comparable cfg Hcfg g g' c c' n n' nd nd' Hcm Hev Hcm' Hn Hn') as [Hp|Hp].
  - apply (prefix_lookup_eq _ (llog (raft (n_world nd'))) (Z.to_nat (commit_index (raft (n_world nd)) + 1))); [lia..|].
    etrans; [exact Hp|apply prefix_take].
  - symmetry. apply (prefix_lookup_eq _ _ (Z.to_nat (commit_index (raft (n_world nd')) + 1))); [lia..|].
    etrans; [exact Hp|apply prefix_take].
Qed.

(** C3: A leader has every entry that any server had committed before in its
    term or an earlier one, in the same environment. *)
Theorem leader_completeness `{CH : CommitHandler} `{!CommitHandlerOk CH} cfg c c' n n' nd nd' i :
  config_ok cfg -> reachable_timely cfg c -> timely_steps cfg c c' ->
  nodes c !! n = Some nd -> nodes c' !! n' = Some nd' ->
  state (raft (n_world nd')) = LEADER ->
  current_term (raft (n_world nd)) <= current_term (raft (n_world nd')) ->
  0 <= i <= commit_index (raft (n_world nd)) ->
  exists e e', log_at (raft (n_world nd)) i = Some e /\ log_at (raft (n_world nd')) i = Some e' /\
    ekey e = ekey e'.
Proof.
  intros Hcfg Hr Hs Hn Hn' Hl Ht Hi. destruct (reachable_committed cfg Hcfg c Hr) as (g & Hcm).
  destruct (steps_committed cfg Hcfg g c c' Hcm Hs) as (g' & Hev & Hcm').
  destruct (committed_safe cfg g c n nd Hcm Hn) as (Hsh & Hlt & Hsafe).
  destruct (committed_safe cfg g' c' n' nd' Hcm' Hn') as (Hsh' & _ & _).
  pose proof (safe_mono _ _ _ _ _ Hev _ _ _ Hsafe (Z.le_refl _)) as Hsafe1.
  assert (gl g' !! current_term (raft (n_world nd')) = Some (llog (raft (n_world nd')))) as HG.
  { destruct (cm_matching _ _ _ Hcm') as (_ & _ & _ & Hlinv).
    apply (linv_lead _ _ _ _ _ _ Hlinv n' (abs_node nd') (lnode_of (n_world nd')));
      [cbn; by rewrite lookup_fmap, Hn'|unfold abs_logs; by rewrite lookup_fmap, Hn'|done]. }
  pose proof (safe_in (server_id <$> cfg) (config_length cfg Hcfg) _ _ _ _ _ _ _ _ _
    (cm_inv _ _ _ Hcm') Hsafe1 Ht HG) as Hp.
  pose proof (llog_length _ Hsh) as Hlen. pose proof (llog_length _ Hsh') as Hlen'.
  assert (llog (raft (n_world nd)) !! Z.to_nat i = llog (raft (n_world nd')) !! Z.to_nat i) as E
    by (apply (prefix_lookup_eq _ _ (Z.to_nat (commit_index (raft (n_world nd)) + 1))); [lia..|exact Hp]).
  apply entries_agree; [done|done|lia| |exact E].
  destruct (lookup_lt_is_Some_2 (llog (raft (n_world nd))) (Z.to_nat i)) as [x Hx]; [lia|].
  rewrite Hx in E. symmetry in E. apply lookup_lt_Some in E. lia.
Qed.
