(* ===== verification/FileFrames.v ===== *)
(** What the raft code does to the files a server shows its clients
    ([file_0], [file_1], ...): no segment touches them but through one call of
    [Raft_commit_update], which appends what the entries it passes write. *)
From S2P Require Import Prelude Libc Posix RaftTypes RaftStorage StorageSpec RaftUtils RaftFollower RaftLeader RaftCandidate Raft RaftView RaftLog StateMachine LogSpec RaftRefine LogRefine.

#[local] Open Scope Z_scope.
#[local] Open Scope list_scope.

(** * The files in view *)

(** The directory of the server, its commit index, and the texts of its files. *)
Definition files_view (w : world) :=
  (files_dir (raft w), commit_index (raft w), bool_decide (files_dir (raft w) ∈ dirs (disk w)),
   (fun k => text_of (disk w) (snap_file (files_dir (raft w)) (-1) k)) <$> file_numbers).

Lemma files_view_intro w w' :
  files_dir (raft w') = files_dir (raft w) -> commit_index (raft w') = commit_index (raft w) ->
  (files_dir (raft w) ∈ dirs (disk w') <-> files_dir (raft w) ∈ dirs (disk w)) ->
  (forall k, k ∈ file_numbers -> text_of (disk w') (snap_file (files_dir (raft w)) (-1) k) =
     text_of (disk w) (snap_file (files_dir (raft w)) (-1) k)) ->
  files_view w' = files_view w.
Proof.
  intros Hd Hc Hin Ht. unfold files_view. rewrite Hd, Hc. f_equal; [f_equal|].
  - by apply bool_decide_ext.
  - apply list_fmap_ext. intros i k Hk. apply Ht. by eapply list_elem_of_lookup_2.
Qed.

Lemma files_view_elim w w' :
  files_view w' = files_view w ->
  files_dir (raft w') = files_dir (raft w) /\ commit_index (raft w') = commit_index (raft w) /\
  (files_dir (raft w) ∈ dirs (disk w) -> files_dir (raft w) ∈ dirs (disk w')) /\
  forall k, k ∈ file_numbers -> text_of (disk w') (snap_file (files_dir (raft w)) (-1) k) =
    text_of (disk w) (snap_file (files_dir (raft w)) (-1) k).
Proof.
  unfold files_view. intros [[[Hd Hc]%pair_equal_spec Hin]%pair_equal_spec Ht]%pair_equal_spec.
  rewrite Hd in *. split_and!; try done.
  - intros Hd1. apply (bool_decide_eq_true_1 _). rewrite Hin. by apply bool_decide_eq_true_2.
  - intros k [i Hk]%list_elem_of_lookup. apply (f_equal (.!! i)) in Ht.
    rewrite !list_lookup_fmap, Hk in Ht. by injection Ht.
Qed.

(** A change of the disk away from the files. *)
Lemma files_view_disk w d :
  (files_dir (raft w) ∈ dirs d <-> files_dir (raft w) ∈ dirs (disk w)) ->
  (forall k, files d !! snap_file (files_dir (raft w)) (-1) k =
     files (disk w) !! snap_file (files_dir (raft w)) (-1) k) ->
  files_view (w <| disk := d |>) = files_view w.
Proof.
  intros Hd Hf. apply files_view_intro; [done..|]. intros k _. unfold text_of. by rewrite Hf.
Qed.

(** ** Functions that leave them alone *)

Lemma snapshot_file_not_main dir id i k : id <> -1 -> snapshot_path dir id +:+ file_name i <> snap_file dir (-1) k.
Proof.
  intros Hid. unfold snap_file, snapshot_path, file_name. rewrite (decide_False (P := id = -1)), decide_True by done.
  rewrite app_assoc_string. intros E%string_app_inj. discriminate.
Qed.

Lemma snapshot_path_not_main dir id : id <> -1 -> snapshot_path dir id <> dir.
Proof.
  intros Hid E. apply (f_equal String.length) in E. revert E. unfold snapshot_path.
  rewrite decide_False, !length_app_string by done. change (String.length "snapshot_") with 9%nat. lia.
Qed.

Lemma remove_snapshot_files id w u w' :
  id <> -1 -> Raft_remove_snapshot id w = Ok (u, w') -> files_view w' = files_view w.
Proof.
  intros Hid. unfold Raft_remove_snapshot. intros (p & w1 & [-> ->]%path_ok & H)%bind_ok.
  apply bind_ok in H as (? & w2 & Hloop & H). apply bind_ok in H as (p & w3 & [-> ->]%path_ok & [= _ <-]).
  assert (forall l w u w' dir, files_dir (raft w) = dir ->
    for_ l (fun i => p ← path_buf (snapshot_path dir id +:+ file_name i); fs_do (fun d => remove d p)) w
      = Ok (u, w') -> files_view w' = files_view w) as Hremove.
  { clear -Hid. induction l as [|i l IH]; intros w u w' dir Hw; [by intros [= _ <-]|]. cbn [for_].
    intros (? & w1 & H1 & H)%bind_ok. apply bind_ok in H1 as (? & w2 & [-> ->]%path_buf_ok & [= _ <-]).
    apply IH in H; [|done]. rewrite H. clear H. apply files_view_disk; [done|]. intros k.
    rewrite remove_lookup, decide_False; [done|]. rewrite Hw. by apply snapshot_file_not_main. }
  apply Hremove in Hloop; [|done]. rewrite <- Hloop.
  apply (files_view_disk w2 (rmdir (disk w2) (snapshot_path (files_dir (raft w2)) id)));
    unfold rmdir; case_match; [|done..]. cbn. rewrite elem_of_difference, elem_of_singleton.
  pose proof (snapshot_path_not_main (files_dir (raft w2)) id Hid). intuition congruence.
Qed.

Lemma files_save_state : frames files_view Raft_save_state.
Proof.
  intros w u w'. unfold Raft_save_state, rself. intros (r & w1 & [= <- <-] & H)%bind_ok.
  apply bind_ok in H as (? & ? & [-> ->]%path_buf_ok & H).
  apply bind_ok in H as (? & ? & [-> ->]%path_buf_ok & H). rewrite for_fs_calls in H.
  destruct (run_calls _ _) as [d|] eqn:Hd; [|done]. injection H as _ <-.
  unfold Raft_save_state_calls in Hd. cbn [run_calls] in Hd.
  destruct (fopen_w (disk w) _ _) as [d1|] eqn:H1; [|done]. cbn in Hd.
  destruct (fopen_w d1 _ _) as [d2|] eqn:H2; [|done]. cbn in Hd. injection Hd as <-.
  unfold rename. rewrite (fopen_w_lookup _ _ _ _ _ H2), decide_True by done.
  apply files_view_disk.
  - cbn. by rewrite (fopen_w_dirs _ _ _ _ H2), (fopen_w_dirs _ _ _ _ H1).
  - intros k. destruct (state_file_not_snap (files_dir (raft w)) (-1) k) as [Hs Ht]. cbn.
    rewrite lookup_insert_ne, lookup_delete_ne by done.
    by rewrite (fopen_w_lookup _ _ _ _ _ H2), (fopen_w_lookup _ _ _ _ _ H1), !decide_False.
Qed.

Lemma files_lock_acquire : frames files_view raft_lock_acquire.
Proof. unfold raft_lock_acquire. frames. Qed.
Lemma files_lock_release : frames files_view raft_lock_release.
Proof. unfold raft_lock_release. frames. Qed.
Lemma files_log_store p e : frames files_view (log_store p e).
Proof. unfold log_store. frames. Qed.

Lemma files_convert t : frames files_view (Raft_convert_to_follower t).
Proof.
  intros w u w'. unfold Raft_convert_to_follower. intros (? & w1 & [= _ <-] & H)%bind_ok.
  apply bind_ok in H as (id & ? & [= <- <-] & H). case_decide as Hid; [|by injection H as _ <-].
  apply bind_ok in H as (? & w2 & H & [= _ <-]). by apply remove_snapshot_files in H.
Qed.

#[export] Hint Resolve files_save_state files_lock_acquire files_lock_release files_log_store files_convert : frames.

(** ** Segments without a commit *)

Section quiet.
Context `{CH : CommitHandler}.

Lemma files_vote_request addr v : frames files_view (Raft_handle_vote_request addr v).
Proof. unfold Raft_handle_vote_request. frames. Qed.

Lemma files_listen_timeout b : frames files_view (Raft_RPC_listen_timeout b).
Proof. unfold Raft_RPC_listen_timeout, Raft_convert_to_candidate. frames. Qed.

Lemma files_append_entry e : frames files_view (Raft_append_entry e).
Proof. unfold Raft_append_entry. frames. Qed.

Lemma files_is_entry_committed t i : frames files_view (Raft_is_entry_committed t i).
Proof.
  assert (forall l, frames files_view (find_entry t i l)) as Hf.
  { intros l. induction l as [|j l IH]; cbn [find_entry]; frames. }
  unfold Raft_is_entry_committed. frames.
Qed.

Lemma files_election a b pc : frames files_view (Raft_election_thread a b pc).
Proof. unfold Raft_election_thread, Raft_start_election, Raft_poll_election. frames. Qed.

Lemma files_snapshot_begin k : frames files_view (Raft_create_snapshot_begin k).
Proof. unfold Raft_create_snapshot_begin. frames. Qed.

Lemma files_get_next it : frames files_view (snapshot_it_get_next it).
Proof.
  assert (forall d l, frames files_view (open_next d l)) as Hf.
  { intros d l. induction l as [|i l IH]; cbn [open_next]; unfold path_buf; frames. }
  unfold snapshot_it_get_next. frames.
Qed.
#[local] Hint Resolve files_get_next : frames.

Lemma files_leader_loop ue us f a : frames files_view (Raft_leader_thread ue us f a Leader_loop).
Proof.
  cbn [Raft_leader_thread]. unfold snapshot_start, snapshot_next, snapshot_transmit,
    Raft_send_append_entry_request. frames.
Qed.

Lemma files_convert_to_leader : frames files_view Raft_convert_to_leader.
Proof. unfold Raft_convert_to_leader, idx_set. frames. Qed.
End quiet.

(** * One commit *)

Section segment.
Context `{CH : CommitHandler} `{!CommitHandlerOk CH}.

(** From [w] to [w'] the files change by one commit at most, and the log stays
    as it is from then on. *)
Definition commits (w w' : world) : Prop :=
  exists w1 w2, files_view w1 = files_view w /\
    (w2 = w1 \/ exists c u, commit_index (raft w1) <= c /\ Raft_commit_update c w1 = Ok (u, w2)) /\
    files_view w' = files_view w2 /\ logv (raft w') = logv (raft w2).

Lemma commits_quiet w w' : files_view w' = files_view w -> commits w w'.
Proof. intros E. exists w', w'. auto. Qed.

Lemma commits_update c w u w' :
  commit_index (raft w) <= c -> Raft_commit_update c w = Ok (u, w') -> commits w w'.
Proof. intros Hc H. exists w, w'. split_and!; try done. right. by exists c, u. Qed.

Lemma commits_before w w1 w' : files_view w1 = files_view w -> commits w1 w' -> commits w w'.
Proof. intros E (w2 & w3 & E2 & H). exists w2, w3. split; [congruence|done]. Qed.

Lemma commits_after w w1 w' :
  commits w w1 -> files_view w' = files_view w1 -> logv (raft w') = logv (raft w1) -> commits w w'.
Proof. intros (w2 & w3 & E & H & E1 & L1) E2 L2. exists w2, w3. split_and!; try done; congruence. Qed.

(** The same of programs. *)
Definition settles {A} (m : M world A) : Prop := frames files_view m /\ rframes logv m.
Definition commits_in {A} (m : M world A) : Prop := forall w a w', m w = Ok (a, w') -> commits w w'.

Lemma commits_in_quiet {A} (m : M world A) : frames files_view m -> commits_in m.
Proof. intros Hf w a w' H. apply commits_quiet. by apply Hf in H. Qed.

Lemma commits_in_first {A B} (m : M world A) (k : A -> M world B) :
  frames files_view m -> (forall a, commits_in (k a)) -> commits_in (m ≫= k).
Proof.
  intros Hm Hk w b w' (a & w1 & H1 & H2)%bind_ok. eapply commits_before; [by eapply Hm|by eapply Hk].
Qed.

Lemma commits_in_last {A B} (m : M world A) (k : A -> M world B) :
  commits_in m -> (forall a, settles (k a)) -> commits_in (m ≫= k).
Proof.
  intros Hm Hk w b w' (a & w1 & H1 & H2)%bind_ok. destruct (Hk a) as [Hf Hl].
  eapply commits_after; [by eapply Hm|by eapply Hf|by apply Hl in H2].
Qed.

(** [if (bound > raft->commit_index) Raft_commit_update(raft, c)]. *)
Lemma commits_raise bound c w u w' :
  (commit_index (raft w) < bound -> commit_index (raft w) <= c) ->
  (k ← rget commit_index; when (k <? bound) (Raft_commit_update c)) w = Ok (u, w') -> commits w w'.
Proof.
  intros Hc (k & ? & [= <- <-] & H)%bind_ok. destruct (Z.ltb_spec (commit_index (raft w)) bound); cbn [when] in H.
  - eapply commits_update; [|exact H]. by apply Hc.
  - injection H as _ <-. by apply commits_quiet.
Qed.

(** A request does not take the commit index back. *)
Definition advances (r : raft_state) (a : raft_append_request) : Prop :=
  ar_leader_commit a <= commit_index r \/ commit_index r <= ar_prev_log_index a + 1.

Lemma settles_save : settles Raft_save_state.
Proof. split; [apply files_save_state|frames]. Qed.
Lemma settles_send addr p : settles (UDP_send addr p).
Proof. split; frames. Qed.
Lemma settles_release : settles raft_lock_release.
Proof. unfold raft_lock_release. split; frames. Qed.

Lemma settles_bind {A B} (m : M world A) (k : A -> M world B) :
  settles m -> (forall a, settles (k a)) -> settles (m ≫= k).
Proof.
  intros [Hf Hl] Hk. split; apply frames_bind; try done; intros a; by destruct (Hk a).
Qed.

Lemma append_store_commits a w u w' :
  advances (raft w) a -> append_store a w = Ok (u, w') -> commits w w'.
Proof.
  intros Ha. unfold append_store. intros (? & w1 & [= _ <-] & H)%bind_ok.
  apply bind_ok in H as (i & w2 & (-> & -> & _)%int_of_ok & H).
  apply bind_ok in H as (n & ? & [= <- <-] & H).
  apply bind_ok in H as (b & w2 & E2 & H). apply bind_ok in H as (? & w3 & E3 & H).
  apply bind_ok in H as (r & ? & [= <- <-] & H). apply bind_ok in H as (? & w4 & E4%files_log_store & H).
  match type of E2 with ?m _ = _ => assert (frames files_view m) as Hf by frames; apply Hf in E2; clear Hf end.
  match type of E3 with ?m _ = _ => assert (frames files_view m) as Hf by frames; apply Hf in E3; clear Hf end.
  assert (files_view w4 = files_view w) as E by (rewrite E4, E3, E2; done).
  eapply commits_before; [exact E|]. apply files_view_elim in E as (_ & Ec & _).
  eapply commits_raise; [|exact H]. rewrite Ec. destruct Ha as [Ha|Ha]; [lia|].
  intros Hlt. destruct (_ <? _); lia.
Qed.

Lemma append_request_commits addr a w u w' :
  advances (raft w) a -> Raft_handle_append_request addr a w = Ok (u, w') -> commits w w'.
Proof.
  intros Ha. unfold Raft_handle_append_request. intros (? & w1 & E1%files_lock_acquire & H)%bind_ok.
  apply bind_ok in H as (t & ? & [= <- <-] & H). apply bind_ok in H as (? & w2 & E2 & H).
  apply (frames_when _ _ _ (files_convert (ar_term a))) in E2.
  apply bind_ok in H as (r & ? & [= <- <-] & H). apply bind_ok in H as (b & w3 & E3 & H).
  match type of E3 with ?m _ = _ => assert (frames files_view m) as Hf by (unfold append_refused; frames);
    apply Hf in E3; clear Hf end.
  apply bind_ok in H as (s & w4 & H4 & H).
  assert (files_view w3 = files_view w) as E by congruence.
  eapply commits_before; [exact E|]. apply files_view_elim in E as (_ & Ec & _).
  assert (commits w3 w4) as Hc.
  { destruct b; [by injection H4 as _ <-; apply commits_quiet|]. destruct (ar_entries_n a =? 0).
    - apply bind_ok in H4 as (? & w5 & H4 & [= _ <-]). unfold append_heartbeat in H4.
      apply bind_ok in H4 as (? & w6 & [= _ <-] & H4).
      eapply commits_before; [|eapply commits_raise; [|exact H4]; lia]. reflexivity.
    - apply bind_ok in H4 as (? & w5 & H4 & [= _ <-]). eapply append_store_commits; [|exact H4].
      unfold advances in *. by rewrite Ec. }
  match type of H with ?m _ = _ => assert (settles m) as [Hf Hl] end.
  { apply settles_bind; [apply settles_save|intros _].
    apply settles_bind; [apply settles_send|intros _; apply settles_release]. }
  eapply commits_after; [exact Hc|by apply Hf in H|by apply Hl in H].
Qed.

(** ** Answers *)

Lemma settles_idx f `{!Upd f} i v :
  (forall r l, logv (r <| f := l |>) = logv r) ->
  (forall w l, files_view (w <| raft ::= fun r => r <| f := l |> |>) = files_view w) ->
  settles (idx_set f i v) /\ settles (idx_add f i v).
Proof.
  intros Hl Hf. assert (forall v, settles (idx_set f i v)) as Hset.
  { intros v'. unfold idx_set. split; frames; apply frames_rmod; intros w; [apply Hf|apply Hl]. }
  split; [apply Hset|]. unfold idx_add. split; frames; apply Hset.
Qed.

Lemma settles_match i v : settles (idx_set match_index i v).
Proof. by apply settles_idx. Qed.
Lemma settles_next i d : settles (idx_add next_index i d).
Proof. by apply settles_idx. Qed.
Lemma settles_request i d : settles (idx_add last_request_id i d).
Proof. by apply settles_idx. Qed.
Lemma settles_response i v : settles (idx_set last_request_response i v).
Proof. by apply settles_idx. Qed.

Lemma files_count_replica n : frames files_view (count_replica n).
Proof. unfold count_replica. frames. Qed.
#[local] Hint Resolve files_count_replica : frames.

Lemma majority_commits p n w u w' : (r ← rself;
  when (n <? log_count r)
    (majority ← andM (commit_index r <? n)
        (t ← Raft_get_log_term n;
         andM (t =? current_term r) (k ← count_replica n; mret (N_SERVERS <? k * 2)));
     when majority (Raft_commit_update n);;
     idx_set match_index p n;; idx_add next_index p 1)) w = Ok (u, w') -> commits w w'.
Proof.
  intros (r & ? & [= <- <-] & H)%bind_ok. unfold when at 1 in H.
  destruct (n <? log_count _); [|by injection H as _ <-; apply commits_quiet].
  apply bind_ok in H as (m & w1 & Hm & H).
  assert (files_view w1 = files_view w) as E1.
  { match type of Hm with ?m _ = _ => assert (frames files_view m) as Hf by frames end. by apply Hf in Hm. }
  apply bind_ok in H as (? & w2 & H2 & H).
  destruct (settles_bind _ (fun _ => idx_add next_index p 1) (settles_match p n)) as [Hf Hl]; [intros _; apply settles_next|].
  eapply commits_after; [|by apply Hf in H|by apply Hl in H].
  eapply commits_before; [exact E1|]. destruct m; cbn [when] in H2; [|by injection H2 as _ <-; apply commits_quiet].
  eapply commits_update; [|exact H2]. apply files_view_elim in E1 as (_ & -> & _).
  unfold andM in Hm. destruct (Z.ltb_spec (commit_index (raft w)) n); [lia|done].
Qed.

Lemma append_response_commits p : commits_in (Raft_handle_append_response p).
Proof.
  unfold Raft_handle_append_response. apply commits_in_last.
  - destruct (rp_success p =? 0); [apply commits_in_quiet, settles_next|].
    apply commits_in_first; [frames|]. intros n w u w'. apply majority_commits.
  - intros _. apply settles_bind; [apply settles_request|intros _; apply settles_save].
Qed.

Lemma files_vote_response p : frames files_view (Raft_handle_vote_response p).
Proof. pose proof files_convert_to_leader. unfold Raft_handle_vote_response. frames. Qed.

Lemma response_commits p : commits_in (Raft_handle_response p).
Proof.
  pose proof (files_vote_response p). unfold Raft_handle_response.
  apply commits_in_first; [frames|intros _]. apply commits_in_first; [frames|intros r].
  destruct (_ <? _); [apply commits_in_quiet; frames|]. destruct (_ <? _); [apply commits_in_quiet; frames|].
  apply commits_in_first; [apply settles_response|intros _]. case_decide; [apply commits_in_quiet; frames|].
  apply commits_in_last; [|intros _; apply settles_release]. case_decide; [|apply commits_in_quiet; frames].
  apply commits_in_first; [frames|intros q]. destruct (_ =? _); cbn [when]; [|apply commits_in_quiet; frames].
  apply commits_in_first; [frames|intros n]. destruct (_ <? _); [|apply append_response_commits].
  apply commits_in_quiet. unfold Raft_handle_install_response.
  apply frames_bind; [apply settles_request|intros _; frames].
Qed.

Lemma dispatch_commits addr p w u w' :
  (forall q, p <> INSTALL_SNAPSHOT q) -> (forall a, p = APPEND a -> advances (raft w) a) ->
  Raft_dispatch addr p w = Ok (u, w') -> commits w w'.
Proof.
  intros Hq Ha. destruct p as [a|v|q|r]; cbn [Raft_dispatch]; intros H.
  - eapply append_request_commits; [by apply Ha|exact H].
  - apply commits_quiet. by apply files_vote_request in H.
  - by destruct (Hq q).
  - by apply response_commits in H.
Qed.
End segment.
