(* ===== verification/FileSafety.v ===== *)
(** The replicated files of a cluster: every server shows what the entries it
    has committed write, in their order, so what one server shows is the
    beginning of what another that has committed more shows. *)
From S2P Require Import Prelude Libc Posix RaftTypes RaftStorage StorageSpec RaftUtils RaftFollower RaftLeader RaftCandidate Raft RaftView RaftLog StateMachine ElectionSpec LogSpec RaftRefine LogRefine Cluster LogMatching CommitSpec CommitStep CommitRefine CommitSafety FileFrames.

#[local] Open Scope Z_scope.
#[local] Open Scope list_scope.

(** * A server *)

(** File [k] of a server, and what the committed entries write to it. *)
Definition shown (w : world) (k : Z) : bytes := text_of (disk w) (snap_file (files_dir (raft w)) (-1) k).

Definition replicates (w : world) : Prop :=
  files_dir (raft w) ∈ dirs (disk w) /\
  forall k, k ∈ file_numbers -> shown w k = applied_log (fname k) (committed_log (raft w)).

Lemma applied_log_keys f l : applied_log f (ekey <$> l) = applied_log f l.
Proof. induction l as [|e l IH]; [done|]. exact (f_equal (app _) IH). Qed.

(** A piece of the log, without the counts of replicas. *)
Lemma log_range_keys r first n :
  lshape r -> 0 <= first -> 0 <= n -> (forall i, first <= i < first + n -> exists e, log_at r i = Some e) ->
  ekey <$> log_range r first n = take (Z.to_nat n) (drop (Z.to_nat first) (llog r)).
Proof.
  intros Hs Hf Hn. revert first Hf. pattern n. apply natlike_ind; [| |done]; clear n Hn; [done|].
  intros n Hn IH first Hf He. change (Z.succ n) with (n + 1) in *.
  destruct (He first) as [e Hat]; [lia|]. rewrite (log_range_cons _ _ _ _ Hn Hat), fmap_cons.
  rewrite IH by (lia || (intros i Hi; apply He; lia)).
  assert (llog r !! Z.to_nat first = Some (ekey e)) as Hl by by rewrite llog_at, Hat.
  rewrite (drop_S _ _ _ Hl). replace (Z.to_nat (n + 1)) with (S (Z.to_nat n)) by lia.
  by replace (Z.to_nat (first + 1)) with (S (Z.to_nat first)) by lia.
Qed.

Section server.
Context `{CH : CommitHandler} `{!CommitHandlerOk CH} `{!CommitHandlerAppends CH}.

(** Committing appends what the entries passed write. *)
Lemma commit_update_writes c w u w' :
  let r := raft w in
  is_dir_path (files_dir r) -> files_dir r ∈ dirs (disk w) -> lshape r -> commit_index r <= c ->
  Raft_commit_update c w = Ok (u, w') ->
  raft w' = r <| commit_index := c |> /\ dirs (disk w') = dirs (disk w) /\
  (commit_index r < c -> 0 <= commit_index r + 1) /\
  forall k, shown w' k = shown w k ++
    applied_log (fname k) (take (Z.to_nat (c - commit_index r)) (drop (Z.to_nat (commit_index r + 1)) (llog r))).
Proof.
  intros r Hdir Hin Hs Hc H. subst r. pose proof H as [Hr He]%commit_update_ok. split; [done|].
  assert (commit_index (raft w) < c -> 0 <= commit_index (raft w) + 1) as Hlow.
  { intros Hlt. destruct (He (commit_index (raft w) + 1)) as [e Hat]; [lia|]. apply log_at_range in Hat.
    rewrite (proj1 Hs) in Hat. lia. }
  unfold Raft_commit_update in H. apply bind_ok in H as (c0 & ? & [= <- <-] & H).
  apply bind_ok in H as (i & w1 & (-> & -> & _)%int_of_ok & H).
  replace (c - (commit_index (raft w) + 1) + 1) with (c - commit_index (raft w)) in H by lia.
  apply bind_ok in H as (? & w1 & H & [= _ <-]).
  rewrite (commit_loop (raft w)) in H; [|done|lia|intros i Hi; apply He; lia].
  destruct (commit_all _ _ _) as [d|] eqn:Hd; [|done]. injection H as _ <-.
  destruct (commit_all_text (files_dir (raft w)) Hdir _ _ _ Hd Hin) as [Hdirs Ht].
  split; [exact Hdirs|]. split; [exact Hlow|]. intros k. unfold shown. cbn. rewrite Ht. f_equal.
  destruct (decide (commit_index (raft w) = c)) as [E|Hne]; [by rewrite E, Z.sub_diag|].
  rewrite <- applied_log_keys, log_range_keys; [done|done|lia|lia|]. intros i Hi. apply He. lia.
Qed.

Lemma commits_mono w w' : commits w w' -> commit_index (raft w) <= commit_index (raft w') /\
  files_dir (raft w') = files_dir (raft w).
Proof.
  intros (w1 & w2 & (E1 & E2 & _)%files_view_elim & H & (E3 & E4 & _)%files_view_elim & _).
  rewrite E4, E3, <- E1, <- E2. destruct H as [->|(c & u & Hc & [-> _]%commit_update_ok)]; [done|]. by split.
Qed.

(** A segment keeps the files, when the log keeps what was committed. *)
Lemma commits_replicates w w' :
  is_dir_path (files_dir (raft w)) -> commits w w' -> lshape (raft w') ->
  committed_log (raft w) = take (Z.to_nat (commit_index (raft w) + 1)) (llog (raft w')) ->
  replicates w -> replicates w'.
Proof.
  intros Hdir (w1 & w2 & (D1 & C1 & I1 & T1)%files_view_elim & H & (D2 & C2 & I2 & T2)%files_view_elim & L2)
    Hs Hlog [Hin Hk].
  apply I1 in Hin. unfold replicates, shown, committed_log in *. rewrite Hlog in Hk. clear Hlog I1.
  assert (files_dir (raft w') = files_dir (raft w)) as D.
  { rewrite D2. destruct H as [->|(c & u & _ & [-> _]%commit_update_ok)]; done. }
  rewrite D. rewrite (logv_llog _ _ L2) in *.
  destruct H as [->|(c & u & Hc & H)].
  - rewrite D1 in *. split; [by apply I2|]. intros k Hin'. by rewrite T2, T1, Hk, C2, C1.
  - assert (logv (raft w2) = logv (raft w1)) as L1 by by apply commit_update_ok in H as [-> _].
    assert (lshape (raft w1)) as Hs1 by (eapply logv_shape; [|exact Hs]; congruence).
    rewrite (logv_llog _ _ L1) in *. rewrite <- D1 in Hdir, Hin.
    apply commit_update_writes in H as (Hr & Hd & Hlow & Ht); [|done..].
    assert (files_dir (raft w2) = files_dir (raft w)) as D3 by by rewrite Hr.
    assert (commit_index (raft w2) = c) as Ec by by rewrite Hr.
    rewrite D3, Hd, D1 in *. split; [by apply I2|]. intros k Hin'. unfold shown in Ht. rewrite D3, D1 in Ht.
    rewrite T2, Ht, T1, Hk, C2, Ec, C1, <- applied_log_app by done. f_equal. rewrite C1 in *.
    destruct (decide (commit_index (raft w) = c)) as [<-|Hne]; [by rewrite Z.sub_diag, app_nil_r|].
    rewrite take_take_drop. f_equal. lia.
Qed.

(** ** Starting *)

Lemma remove_snapshots_files (body : Z -> M world unit) w u w' :
  (forall i w u w', i <> -1 -> body i w = Ok (u, w') -> files_view w' = files_view w) ->
  for_ (seqZ 0 100) body w = Ok (u, w') -> files_view w' = files_view w.
Proof.
  intros Hb. assert (forall i, i ∈ seqZ 0 100 -> i <> -1) as Hl by (intros i Hi%elem_of_seqZ; lia).
  revert Hl. generalize (seqZ 0 100). intros l. revert w.
  induction l as [|i l IH]; intros w Hl; [by intros [= _ <-]|]. cbn [for_].
  intros (? & w1 & H1 & H)%bind_ok. apply IH in H; [|intros j Hj; apply Hl; by right]. rewrite H.
  eapply Hb; [|exact H1]. apply Hl. by left.
Qed.

(** The main files emptied. *)
Lemma clean_files w u w' :
  let dir := files_dir (raft w) in
  is_dir_path dir -> (String.length dir + 40 < 256)%nat -> dir ∈ dirs (disk w) ->
  Raft_clean_main_files w = Ok (u, w') ->
  raft w' = raft w /\ dirs (disk w') = dirs (disk w) /\ forall k, k ∈ file_numbers -> shown w' k = [].
Proof.
  intros dir Hdir Hlen Hin H.
  destruct (clean_main_files_total w dir eq_refl Hdir) as (d & Hrun & Hd & He & _);
    [by apply paths_fit_int; [|left]|done|].
  rewrite Hrun in H. injection H as _ <-. split; [done|]. split; [done|]. intros k Hk.
  unfold shown, text_of. cbn. fold dir. by rewrite (He k Hk).
Qed.

(** A commit index that does not grow moves nothing. *)
Lemma commit_update_back c w u w' :
  c <= commit_index (raft w) -> Raft_commit_update c w = Ok (u, w') ->
  w' = w <| raft ::= fun r => r <| commit_index := c |> |>.
Proof.
  intros Hc. unfold Raft_commit_update. intros (c0 & ? & [= <- <-] & H)%bind_ok.
  apply bind_ok in H as (i & ? & (-> & -> & _)%int_of_ok & H). rewrite (seqZ_nil _ _) in H by lia.
  by apply bind_ok in H as (? & ? & [= _ <-] & [= _ <-]).
Qed.

(** Replaying a log on empty files. *)
Lemma replay_replicates c w u w' :
  is_dir_path (files_dir (raft w)) -> files_dir (raft w) ∈ dirs (disk w) -> lshape (raft w) ->
  commit_index (raft w) = -1 -> (forall k, k ∈ file_numbers -> shown w k = []) ->
  Raft_commit_update c w = Ok (u, w') -> replicates w'.
Proof.
  intros Hdir Hin Hs Hc Ht H. unfold replicates, committed_log. destruct (Z.le_gt_cases (-1) c) as [Hle|Hgt].
  - apply commit_update_writes in H as (Hr & Hd & _ & Hk); [|done|done|done|lia].
    rewrite Hd, Hr. split; [done|]. intros k Hin'. rewrite Hk, (Ht k Hin'), Hc. cbn [commit_index upd app].
    change (llog ((raft w) <| commit_index := c |>)) with (llog (raft w)).
    by rewrite drop_0.
  - apply commit_update_back in H as ->; [|lia]. split; [done|]. intros k Hin'.
    change (shown (w <| raft ::= fun r => r <| commit_index := c |> |>) k) with (shown w k). rewrite (Ht k Hin').
    cbn [raft commit_index upd]. by replace (Z.to_nat (c + 1)) with 0%nat by lia.
Qed.

Lemma load_state_disk dir w u w' : Raft_load_state dir w = Ok (u, w') -> disk w' = disk w.
Proof.
  unfold Raft_load_state. intros (p & ? & [-> ->]%path_buf_ok & H)%bind_ok.
  apply bind_ok in H as (d & ? & [= <- <-] & H). destruct (fopen_r _ _) as [f|]; [|done].
  destruct (f_image f); [|done]. by injection H as _ <-.
Qed.

(** A restarted server replays its committed entries. *)
Lemma restore_replicates dir id sd w u w' :
  is_dir_path dir -> (String.length dir + 40 < 256)%nat -> dir ∈ dirs (disk w) ->
  Raft_server_restore dir id sd w = Ok (u, w') -> lshape (raft w') -> replicates w' /\ files_dir (raft w') = dir.
Proof.
  intros Hdir Hlen Hin. unfold Raft_server_restore. intros (? & w1 & Ed%load_state_disk & H)%bind_ok Hs.
  apply bind_ok in H as (id' & ? & [= <- <-] & H). apply bind_ok in H as (? & w2 & Ha & H).
  case_decide; [|done]. injection Ha as _ <-.
  apply bind_ok in H as (? & ? & [= _ <-] & H). apply bind_ok in H as (cprev & ? & [= <- <-] & H).
  apply bind_ok in H as (start & ? & [= <- <-] & H). apply bind_ok in H as (c & ? & (-> & -> & _)%int_of_ok & H).
  apply bind_ok in H as (? & ? & [= _ <-] & H). cbn [raft upd commit_index start_log_index] in H.
  match type of H with (_ ≫= _) ?w0 = _ => set (w2 := w0) in * end.
  apply bind_ok in H as (? & w3 & H3 & H). apply bind_ok in H as (? & w4 & H4 & H).
  apply bind_ok in H as (? & w5 & H5 & H).
  assert (raft w' = raft w5) as E6.
  { match type of H with ?m _ = _ => assert (frames raft m) as Hf by frames; by apply Hf in H end. }
  apply remove_snapshots_files in H.
  2: { intros i w7 u7 w8 Hi H7. case_decide; [by injection H7 as _ <-|by eapply remove_snapshot_files]. }
  pose proof H5 as [Hr5 _]%commit_update_ok.
  assert (raft w4 = raft w3) as E4 by (case_decide; [by apply (frames_copy_snapshot raft) in H4|by injection H4 as _ <-]).
  apply clean_files in H3 as (Er3 & Ed3 & Et3); [|done|done|cbn; by rewrite Ed].
  assert (start_log_index (raft w1) = 0) as Hz.
  { destruct Hs as [Hz _]. by rewrite E6, Hr5, E4, Er3 in Hz. }
  rewrite Hz in *. rewrite decide_False in H4 by tauto. injection H4 as _ <-.
  assert (files_dir (raft w3) = dir) as Ew3 by by rewrite Er3.
  assert (replicates w5) as [Hin5 Hk5].
  { eapply replay_replicates; [..|exact H5]; rewrite ?Ew3; [done|by rewrite Ed3; cbn; rewrite Ed| |rewrite Er3; cbn; lia|done].
    eapply logv_shape; [|exact Hs]. by rewrite E6, Hr5. }
  apply files_view_elim in H as (Ef & Ec & Hin6 & Ht). unfold replicates, shown. rewrite Ef, E6.
  split; [|by rewrite Hr5]. split; [by apply Hin6|]. intros k Hk. rewrite Ht by done. by apply Hk5.
Qed.

Lemma init_replicates cfg s nd :
  is_dir_path (file_directory s) -> (String.length (file_directory s) + 40 < 256)%nat ->
  init_node cfg s = Some nd -> replicates (n_world nd).
Proof.
  intros Hdir Hlen. unfold init_node. destruct (Raft_server_init _ _ _ _ _) as [[[] w]|] eqn:H; [|done].
  intros [= <-]. unfold Raft_server_init in H. apply bind_ok in H as (? & w1 & [= _ Hw1] & H).
  apply bind_ok in H as (? & w2 & H2 & H).
  apply remove_snapshots_files in H2; [|intros i ? ? ?; apply remove_snapshot_files].
  subst w1. apply files_view_elim in H2 as (Ef & Ec & Hin & _). cbn in Ef, Ec, Hin.
  apply clean_files in H as (Er & Ed & Et); rewrite ?Ef; [|done..|apply Hin; set_solver].
  unfold replicates, shown, committed_log. cbn [n_world raft disk upd]. rewrite Er, Ed, Ef, Ec.
  split; [apply Hin; set_solver|]. intros k Hk. specialize (Et k Hk). unfold shown in Et. rewrite Er, Ef in Et.
  rewrite Et. done.
Qed.
End server.

(** * The cluster *)

(** Every server has a directory, whose paths fit the buffers. *)
Definition sites_ok (cfg : raft_configuration) : Prop := forall s, s ∈ cfg ->
  is_dir_path (file_directory s) /\ (String.length (file_directory s) + 40 < 256)%nat.

(** The environment: that of [timely], no snapshot is built, and no late copy of
    an append request takes a commit index back. *)
Definition regular (cfg : raft_configuration) (c : cluster) (l : label) : Prop :=
  timely cfg c l /\
  match l with
  | L_deliver n k => forall d a nd, net c !! k = Some d -> d_pkt d = APPEND a ->
      nodes c !! n = Some nd -> advances (raft (n_world nd)) a
  | L_thread n k _ => forall nd new, nodes c !! n = Some nd -> n_threads nd !! k <> Some (T_snapshot_build new)
  | _ => True
  end.

Inductive reachable_regular (cfg : raft_configuration) `{CH : CommitHandler} : cluster -> Prop :=
  | reachable_regular_init c : init_cluster cfg c -> reachable_regular cfg c
  | reachable_regular_step c l c' :
      reachable_regular cfg c -> regular cfg c l -> cstep cfg c l = Some c' -> reachable_regular cfg c'.

Definition regular_steps (cfg : raft_configuration) `{CH : CommitHandler} : relation cluster :=
  rtc (fun c c' => exists l, regular cfg c l /\ cstep cfg c l = Some c').

Section cluster.
Context `{CH : CommitHandler} `{!CommitHandlerOk CH} `{!CommitHandlerAppends CH}.
Context (cfg : raft_configuration) (Hcfg : config_ok cfg) (Hsites : sites_ok cfg).

(** What a step does to a server. *)
Definition runs_segment (n : Z) (w w' : world) : Prop :=
  commits w w' \/
  exists s sd, server_of cfg n = Some s /\ Raft_server_restore (file_directory s) n sd w = Ok (tt, w').

Lemma run_on_nodes {A} n (m : M world A) ts rest c c' :
  run_on cfg n m ts rest c = Some c' ->
  exists nd a w' ts', nodes c !! n = Some nd /\ m (n_world nd) = Ok (a, w') /\
    nodes c' = <[n := {| n_world := w' <| out := [] |> <| spawned := [] |>; n_threads := ts' |}]> (nodes c).
Proof.
  unfold run_on. destruct (server_of cfg n) as [s|]; [|done]. destruct (nodes c !! n) as [nd|]; [|done].
  destruct (m (n_world nd)) as [[a w']|] eqn:H; [|done]. intros [= <-]. by eexists nd, a, w', _.
Qed.

Lemma thread_commits i t w t' w' :
  (forall new prev, t <> T_snapshot_end new prev) -> (forall new, t <> T_snapshot_build new) ->
  (forall f a pc, t = T_leader f a pc -> pc = Leader_loop) ->
  run_thread i t w = Ok (t', w') -> commits w w'.
Proof.
  intros He Hb Hl H0. apply commits_quiet. revert H0. destruct t as [|new|new|new prev|pc|f addr pc]; cbn [run_thread].
  - by intros (r & ? & [= <- <-] & [= _ <-])%bind_ok.
  - intros (go & w1 & Hm & [= _ <-])%bind_ok. by apply files_snapshot_begin in Hm.
  - by destruct (Hb new).
  - by destruct (He new prev).
  - intros (pc' & w1 & Hm & [= _ <-])%bind_ok. by apply files_election in Hm.
  - rewrite (Hl f addr pc eq_refl). intros (pc' & w1 & Hm & [= _ <-])%bind_ok. by apply files_leader_loop in Hm.
Qed.

Lemma cstep_segment g c l c' :
  committed cfg g c -> regular cfg c l -> cstep cfg c l = Some c' ->
  nodes c' = nodes c \/
  exists n nd w' ts, nodes c !! n = Some nd /\ runs_segment n (n_world nd) w' /\
    nodes c' = <[n := {| n_world := w' <| out := [] |> <| spawned := [] |>; n_threads := ts |}]> (nodes c).
Proof.
  intros Hcm [[[Hben Hun] _] Hord] Hrun.
  destruct l as [n k|k|k|n|n k i|n e|n t i|n sd]; cbn in Hrun, Hun, Hord.
  - right. destruct (server_of cfg n) as [s|]; [|done]. cbn in Hrun.
    destruct (net c !! k) as [d|] eqn:Hd; [|done]. cbn in Hrun. case_decide as Hdst; [|done].
    apply run_on_nodes in Hrun as (nd & a & w' & ts & Hn & H & E). exists n, nd, w', ts.
    split; [done|]. split; [left|exact E]. eapply dispatch_commits; [|intros b Hb; by eapply Hord|exact H].
    intros q. by apply Hun.
  - left. destruct (net c !! k); [|done]. by injection Hrun as <-.
  - left. destruct (net c !! k); [|done]. by injection Hrun as <-.
  - right. apply run_on_nodes in Hrun as (nd & a & w' & ts & Hn & H & E). exists n, nd, w', ts.
    split; [done|]. split; [left|exact E]. apply commits_quiet. by apply files_listen_timeout in H.
  - right. destruct (nodes c !! n) as [nd0|] eqn:Hn0; [|done]. cbn in Hrun.
    destruct (n_threads nd0 !! k) as [t|] eqn:Hk; [|done]. cbn in Hrun.
    apply run_on_nodes in Hrun as (nd & a & w' & ts & Hn & H & E). assert (nd = nd0) as -> by congruence.
    exists n, nd0, w', ts. split; [done|]. split; [left|exact E]. eapply thread_commits; [..|exact H].
    + intros new prev ->. by apply (Hun nd0 new prev).
    + intros new ->. by apply (Hord nd0 new).
    + intros f a0 pc ->. destruct (cm_threads _ _ _ Hcm n nd0 Hn0) as [_ Hth].
      by destruct (Hth (T_leader f a0 pc)) as (? & _); [by eapply list_elem_of_lookup_2|].
  - right. apply run_on_nodes in Hrun as (nd & a & w' & ts & Hn & H & E). exists n, nd, w', ts.
    split; [done|]. split; [left|exact E]. apply commits_quiet. by apply files_append_entry in H.
  - right. apply run_on_nodes in Hrun as (nd & a & w' & ts & Hn & H & E). exists n, nd, w', ts.
    split; [done|]. split; [left|exact E]. apply commits_quiet. by apply files_is_entry_committed in H.
  - right. destruct (server_of cfg n) as [s|] eqn:Hs; [|done]. cbn in Hrun.
    apply run_on_nodes in Hrun as (nd & [] & w' & ts & Hn & H & E). exists n, nd, w', ts.
    split; [done|]. split; [right|exact E]. by exists s, sd.
Qed.

Lemma committed_log_length g c n nd :
  committed cfg g c -> nodes c !! n = Some nd ->
  length (committed_log (raft (n_world nd))) = Z.to_nat (commit_index (raft (n_world nd)) + 1).
Proof.
  intros Hcm Hn. destruct (committed_safe cfg g c n nd Hcm Hn) as (Hs & Hlt & _).
  unfold committed_log. rewrite length_take. pose proof (llog_length _ Hs). lia.
Qed.

(** Whoever has committed less has committed a beginning. *)
Lemma committed_prefix g g' c c' n n' nd nd' :
  committed cfg g c -> evolves g g' (anodes (abs_cluster cfg c)) (anodes (abs_cluster cfg c')) ->
  committed cfg g' c' -> nodes c !! n = Some nd -> nodes c' !! n' = Some nd' ->
  let r := raft (n_world nd) in let r' := raft (n_world nd') in
  (commit_index r <= commit_index r' -> committed_log r `prefix_of` committed_log r') /\
  (commit_index r' <= commit_index r -> committed_log r' `prefix_of` committed_log r).
Proof.
  intros Hcm Hev Hcm' Hn Hn' r r'.
  pose proof (committed_log_length g c n nd Hcm Hn) as Hl. fold r in Hl.
  pose proof (committed_log_length g' c' n' nd' Hcm' Hn') as Hl'. fold r' in Hl'.
  pose proof (committed_comparable cfg Hcfg g g' c c' n n' nd nd' Hcm Hev Hcm' Hn Hn') as Hp. fold r r' in Hp.
  cbn zeta in Hp. split; intros Hle; destruct Hp as [Hp|Hp]; try done.
  - by rewrite (prefix_length_eq _ _ Hp) by lia.
  - by rewrite (prefix_length_eq _ _ Hp) by lia.
Qed.

Definition files_replicated (c : cluster) : Prop :=
  forall n nd, nodes c !! n = Some nd -> replicates (n_world nd).

Lemma site_of g c n nd : committed cfg g c -> nodes c !! n = Some nd ->
  exists s, server_of cfg n = Some s /\ files_dir (raft (n_world nd)) = file_directory s /\
    is_dir_path (file_directory s) /\ (String.length (file_directory s) + 40 < 256)%nat.
Proof.
  intros Hcm Hn. pose proof (cm_matching _ _ _ Hcm) as (Hwf & _).
  destruct (Hwf n nd Hn) as (s & Hs & _ & _ & Hd & _). exists s. split_and!; try done;
    apply server_of_some in Hs as [Hin _]; by apply Hsites.
Qed.

Lemma regular_step g c l c' :
  committed cfg g c -> files_replicated c -> regular cfg c l -> cstep cfg c l = Some c' ->
  exists g', evolves g g' (anodes (abs_cluster cfg c)) (anodes (abs_cluster cfg c')) /\
    committed cfg g' c' /\ files_replicated c'.
Proof.
  intros Hcm Hf Hord Hrun. destruct (cstep_committed cfg Hcfg g c l c' Hcm (proj1 Hord) Hrun) as (g' & Hev & Hcm').
  exists g'. split; [done|]. split; [done|].
  destruct (cstep_segment g c l c' Hcm Hord Hrun) as [E|(n & nd & w' & ts & Hn & Hseg & E)].
  { intros k nd. rewrite E. apply Hf. }
  set (nd' := {| n_world := w' <| out := [] |> <| spawned := [] |>; n_threads := ts |}) in *.
  intros k nd0. rewrite E. intros [[<- <-]|[_ Hk]]%lookup_insert_Some; [|by eapply Hf].
  assert (nodes c' !! n = Some nd') as Hn' by by rewrite E, lookup_insert_eq.
  pose proof (cm_shape _ _ _ Hcm' n nd' Hn') as [[Hs _] _].
  destruct (site_of g c n nd Hcm Hn) as (s & Hs0 & Hd & Hdir & Hlen). change (replicates w').
  destruct Hseg as [Hseg|(s1 & sd & Hs1 & Hres)].
  - pose proof (commits_mono _ _ Hseg) as [Hle _].
    eapply commits_replicates; [by rewrite Hd|exact Hseg|exact Hs| |by eapply Hf].
    destruct (committed_prefix g g' c c' n n nd nd' Hcm Hev Hcm' Hn Hn') as [Hp _].
    destruct (Hp Hle) as [l' El]. pose proof (committed_log_length g c n nd Hcm Hn) as Hl.
    change (raft (n_world nd')) with (raft w') in El. unfold committed_log at 1 in El.
    apply (f_equal (take (Z.to_nat (commit_index (raft (n_world nd)) + 1)))) in El.
    rewrite take_take, Nat.min_l in El by lia. rewrite El. symmetry. by rewrite <- Hl, take_app_length.
  - assert (s1 = s) as -> by congruence.
    destruct (Hf n nd Hn) as [Hin _]. rewrite Hd in Hin.
    by eapply restore_replicates; [exact Hdir|exact Hlen|exact Hin|exact Hres|exact Hs].
Qed.

Lemma init_files_replicated c : init_cluster cfg c -> files_replicated c.
Proof.
  intros (_ & Hd & Hn) n nd Hnd. assert (n ∈ server_id <$> cfg) as Hin by (apply Hd; eauto).
  apply list_elem_of_fmap in Hin as (s & -> & Hs). rewrite (Hn s Hs) in Hnd.
  destruct (Hsites s Hs) as [? ?]. by eapply init_replicates.
Qed.

Lemma reachable_replicated c : reachable_regular cfg c -> exists g, committed cfg g c /\ files_replicated c.
Proof.
  induction 1 as [c Hc|c l c' _ (g & Hcm & Hf) Hord Hrun].
  - exists no_history. split; [by apply init_committed|by apply init_files_replicated].
  - destruct (regular_step g c l c' Hcm Hf Hord Hrun) as (g' & _ & ? & ?). eauto.
Qed.

Lemma steps_replicated g c c' :
  committed cfg g c -> files_replicated c -> regular_steps cfg c c' ->
  exists g', evolves g g' (anodes (abs_cluster cfg c)) (anodes (abs_cluster cfg c')) /\
    committed cfg g' c' /\ files_replicated c'.
Proof.
  intros Hcm Hf Hs. revert g Hcm Hf. induction Hs as [c|c c1 c' (l & Hord & Hrun) _ IH]; intros g Hcm Hf.
  - exists g. split; [by apply (evolves_refl (server_id <$> cfg))|done].
  - destruct (regular_step g c l c1 Hcm Hf Hord Hrun) as (g1 & Hev1 & Hcm1 & Hf1).
    destruct (IH g1 Hcm1 Hf1) as (g' & Hev & Hcm' & Hf'). exists g'.
    split; [by eapply (evolves_trans (server_id <$> cfg))|done].
Qed.
End cluster.

