(* ===== verification/Scenarios.v ===== *)
(** Runs of a concrete cluster of five servers: the election theorem applied to
    one of them, and runs in which a promise of the system is broken. *)
From S2P Require Import Prelude Libc Posix RaftTypes RaftStorage RaftUtils RaftFollower RaftLeader RaftCandidate Raft Server RaftView RaftLog Cluster.
From Stdlib Require Import Ascii.

#[local] Open Scope string_scope.
#[local] Open Scope Z_scope.
#[local] Open Scope list_scope.

(** * A cluster *)

Definition sock (p : Z) : sockaddr_in := {| sin_port := p; sin_addr := 0 |}.

Definition demo_server (n : Z) : raft_server_configuration :=
  {| client_socket := sock (10000 + n); raft_socket := sock (30000 + n);
     file_directory := "d" +:+ pretty n +:+ "/"; server_id := n |}.
Definition demo_config : raft_configuration := demo_server <$> [1; 2; 3; 4; 5].

#[export] Instance demo_handler : CommitHandler := server_commit_handler.
#[export] Instance demo_handler_ok : CommitHandlerOk demo_handler := server_commit_handler_ok.

Definition demo_inputs : inputs :=
  {| time_diff_msec := 0; timeout := 1000; unset_entry := zero_log_entry;
     unset_install := {| ir_term := 0; ir_leader_id := 0; ir_snapshot_id := 0; ir_index := 0;
       ir_done := 0; ir_request_id := 0; ir_filename := []; ir_buffer := [] |} |}.

Definition demo_init : option cluster :=
  n1 ← init_node demo_config (demo_server 1); n2 ← init_node demo_config (demo_server 2);
  n3 ← init_node demo_config (demo_server 3); n4 ← init_node demo_config (demo_server 4);
  n5 ← init_node demo_config (demo_server 5);
  Some {| nodes := <[1 := n1]> (<[2 := n2]> (<[3 := n3]> (<[4 := n4]> (<[5 := n5]> ∅)))); net := [] |}.

Lemma demo_config_ok : config_ok demo_config.
Proof. split; [reflexivity|apply (bool_decide_unpack _); vm_compute; exact I..]. Qed.

Lemma demo_init_ok c : demo_init = Some c -> init_cluster demo_config c.
Proof.
  unfold demo_init, init_cluster. generalize (init_node demo_config). intros f H.
  repeat (apply bind_Some in H as (? & ? & H)). injection H as <-.
  split; [done|]. split.
  - intros n. cbn [nodes]. rewrite !lookup_insert_is_Some', lookup_empty.
    change (server_id <$> demo_config) with [1; 2; 3; 4; 5].
    rewrite !elem_of_cons, elem_of_nil. pose proof (is_Some_None (A := node)). intuition (subst; auto).
  - intros s Hs. unfold demo_config in Hs. apply list_elem_of_fmap in Hs as (n & -> & Hn).
    cbn [nodes server_id demo_server].
    repeat (apply elem_of_cons in Hn as [->|Hn];
      [rewrite ?lookup_insert_ne by done; rewrite lookup_insert_eq; congruence|]).
    by apply not_elem_of_nil in Hn.
Qed.

(** * Runs *)

(** The labels [l] one after another, each allowed by [guard]. *)
Definition run (guard : cluster -> label -> bool) (l : list label) (c : option cluster) : option cluster :=
  foldl (fun o l => c ← o; if guard c l then cstep demo_config c l else None) c l.

(** A step the environment [env] allows. *)
Definition env_step (env : cluster -> label -> Prop) : relation cluster :=
  fun c c' => exists l, env c l /\ cstep demo_config c l = Some c'.

Lemma run_none guard l : run guard l None = None.
Proof. by induction l. Qed.

Lemma run_steps guard env l c c' :
  (forall c l, guard c l = true -> env c l) -> run guard l (Some c) = Some c' ->
  rtc (env_step env) c c'.
Proof.
  intros Hg. revert c. induction l as [|x l IH]; intros c; [by intros [= <-]|].
  change (run guard (x :: l) (Some c)) with (run guard l (if guard c x then cstep demo_config c x else None)).
  destruct (guard c x) eqn:Hx; [|by rewrite run_none].
  destruct (cstep demo_config c x) as [c1|] eqn:Hs; [|by rewrite run_none].
  intros H. eapply rtc_l; [|by apply IH]. exists x. auto.
Qed.

(** A test of the cluster a run ends in. *)
Lemma guarded_run guard env (l : list label) (test : cluster -> bool) :
  (forall c l, guard c l = true -> env c l) ->
  match run guard l demo_init with Some c => test c | None => false end = true ->
  exists c0 c, init_cluster demo_config c0 /\ rtc (env_step env) c0 c /\ test c = true.
Proof.
  intros Hg. destruct demo_init as [c0|] eqn:H0; [|by rewrite run_none].
  destruct (run guard l (Some c0)) as [c|] eqn:Hr; [|done]. intros Ht. exists c0, c.
  split_and!; [by apply demo_init_ok|by eapply run_steps|done].
Qed.

Definition is_snapshot_wait (t : thread) : bool :=
  match t with T_leader _ _ Snapshot_wait => true | _ => false end.

(** [benign], computed. *)
Definition benignb (c : cluster) (l : label) : bool :=
  match l with
  | L_duplicate _ => false
  | L_thread n k _ =>
      match nodes c !! n with
      | Some nd =>
          match n_threads nd !! k with
          | Some t => negb (is_snapshot_wait t) || bool_decide (state (raft (n_world nd)) <> CANDIDATE)
          | None => true
          end
      | None => true
      end
  | _ => true
  end.

Lemma benignb_ok c l : benignb c l = true -> benign c l.
Proof.
  destruct l; try done. cbn. intros H nd f a Hn Hk. rewrite Hn, Hk in H. cbn in H.
  by apply bool_decide_eq_true in H.
Qed.

Lemma benign_run (l : list label) (test : cluster -> bool) :
  match run benignb l demo_init with Some c => test c | None => false end = true ->
  exists c, reachable demo_config c /\ test c = true.
Proof.
  intros (c0 & c & Hi & Hs & Ht)%(guarded_run _ benign); [|by apply benignb_ok].
  exists c. split; [|done]. revert Hs. apply (rtc_ind_r (reachable demo_config) c0).
  - by apply reachable_init.
  - intros c1 c2 _ (x & Hx & Hc) IH. by eapply reachable_step.
Qed.

(** Any network: datagrams may be duplicated too. *)
Definition steps_any : relation cluster := rtc (fun c c' => exists l, cstep demo_config c l = Some c').

Lemma any_run (l : list label) (test : cluster -> bool) :
  match run (fun _ _ => true) l demo_init with Some c => test c | None => false end = true ->
  exists c0 c, init_cluster demo_config c0 /\ steps_any c0 c /\ test c = true.
Proof.
  intros (c0 & c & Hi & Hs & Ht)%(guarded_run _ (fun _ _ => True)); [|done].
  exists c0, c. split_and!; [done| |done]. eapply rtc_subrel; [|exact Hs]. intros x y (z & _ & ?). eauto.
Qed.

Abbreviation D := L_deliver.
Abbreviation T n k := (L_thread n k demo_inputs).

(** Server 1 is elected in term 1 by the votes of 2 and 3. *)
Definition elect_1 : list label := [L_timeout 1; T 1 0; D 2 0; D 3 0; L_drop 0; L_drop 0; D 1 0; D 1 0].

Definition leads (n term : Z) (c : cluster) : bool :=
  match nodes c !! n with
  | Some nd => bool_decide (state (raft (n_world nd)) = LEADER) && (current_term (raft (n_world nd)) =? term)
  | None => false
  end.

Lemma leads_spec n term c : leads n term c = true ->
  exists nd, nodes c !! n = Some nd /\ state (raft (n_world nd)) = LEADER /\ current_term (raft (n_world nd)) = term.
Proof.
  unfold leads. destruct (nodes c !! n) as [nd|]; [|done].
  intros [H%bool_decide_eq_true Ht%Z.eqb_eq]%andb_true_iff. by exists nd.
Qed.

(** The election theorem on a run with a leader. *)
Lemma election_safety_witness : exists c nd, reachable demo_config c /\ nodes c !! 1 = Some nd /\
  state (raft (n_world nd)) = LEADER /\
  forall n nd', nodes c !! n = Some nd' -> state (raft (n_world nd')) = LEADER ->
    current_term (raft (n_world nd')) = 1 -> n = 1.
Proof.
  destruct (benign_run elect_1 (leads 1 1)) as (c & Hr & (nd & Hn & Hl & Ht)%leads_spec); [by vm_compute|].
  exists c, nd. split_and!; [done..|]. intros n nd' Hn' Hl' Ht'.
  apply (election_safety demo_config c n 1 nd' nd demo_config_ok Hr Hn' Hn Hl' Hl). congruence.
Defined.

(** * A committed entry is lost *)

(** The leader counts the answer to a heartbeat as a copy of the entry that was
    appended after the heartbeat was sent. *)
Definition commit_unreplicated : list label :=
  elect_1 ++ [T 1 3; D 2 0; T 1 4; D 3 1; D 1 0; D 1 0;
              T 1 3; D 2 0; T 1 4; D 3 1; D 1 0; D 1 0;
              T 1 3; D 2 0; T 1 4; D 3 1;
              L_append 1 (zero_log_entry <| le_id := 1 |> <| le_client := 9 |>); D 1 0; D 1 0].

(** Then server 2 is elected in term 2 and commits its own entry there. *)
Definition commit_again : list label :=
  commit_unreplicated ++ [L_timeout 2; T 2 4; L_drop 0; D 3 0; D 4 0; L_drop 0; D 2 0; D 2 0;
    T 2 8; D 3 0; D 2 0; T 2 8; D 3 0; D 2 0; T 2 9; D 4 0; D 2 0; T 2 9; D 4 0; D 2 0;
    T 2 9; D 4 0; D 2 0; T 2 9; D 4 0; D 2 0].

Definition committed_at (nd : node) (i : Z) : option raft_log_entry :=
  if i <=? commit_index (raft (n_world nd)) then log_at (raft (n_world nd)) i else None.

Definition disagree (n1 n2 i : Z) (c : cluster) : bool :=
  match nodes c !! n1 ≫= (fun nd => committed_at nd i), nodes c !! n2 ≫= (fun nd => committed_at nd i) with
  | Some e1, Some e2 => (le_id e1 =? 1) && (le_id e2 =? 0) && bool_decide (le_type e1 = CLIENT_LOG) &&
                        bool_decide (le_type e2 = LEADER_LOG)
  | _, _ => false
  end.

(** C38: Acknowledged heartbeats count as replicated entries: two servers
    commit different entries at one index on a network that only delays and
    drops, so a committed transaction is lost. *)
Theorem committed_entry_lost : exists c nd1 nd2 e1 e2,
  reachable demo_config c /\ nodes c !! 1 = Some nd1 /\ nodes c !! 2 = Some nd2 /\
  committed_at nd1 1 = Some e1 /\ committed_at nd2 1 = Some e2 /\
  le_type e1 = CLIENT_LOG /\ le_type e2 = LEADER_LOG.
Proof.
  destruct (benign_run commit_again (disagree 1 2 1)) as (c & Hr & H); [by vm_compute|].
  unfold disagree in H. destruct (nodes c !! 1) as [nd1|] eqn:H1; [|done].
  destruct (nodes c !! 2) as [nd2|] eqn:H2; cbn in H; [|by destruct (committed_at nd1 1)].
  destruct (committed_at nd1 1) as [e1|] eqn:E1; [|done]. destruct (committed_at nd2 1) as [e2|] eqn:E2; [|done].
  apply andb_true_iff in H as [[_ Ht1%bool_decide_eq_true]%andb_true_iff Ht2%bool_decide_eq_true].
  by exists c, nd1, nd2, e1, e2.
Qed.

(** * Two leaders in a term *)

(** Servers 1 and 2 have two votes each, and the answer each got from another
    server is delivered twice. *)
Definition elect_twice : list label :=
  [L_timeout 1; T 1 0; L_timeout 2; T 2 0; L_drop 0; L_drop 1; L_drop 1; L_drop 1; L_drop 1; L_drop 2;
   D 3 0; D 4 0; L_duplicate 0; L_duplicate 1; D 1 0; D 1 1; D 2 0; D 2 0].

(** C39: A candidate does not remember who voted for it: when the network
    duplicates two answers, two servers lead in one term. *)
Theorem duplicate_votes_two_leaders : exists c0 c nd1 nd2,
  init_cluster demo_config c0 /\ steps_any c0 c /\
  nodes c !! 1 = Some nd1 /\ nodes c !! 2 = Some nd2 /\
  state (raft (n_world nd1)) = LEADER /\ state (raft (n_world nd2)) = LEADER /\
  current_term (raft (n_world nd1)) = 1 /\ current_term (raft (n_world nd2)) = 1.
Proof.
  destruct (any_run elect_twice (fun c => leads 1 1 c && leads 2 1 c))
    as (c0 & c & Hi & Hs & [(nd1 & ? & ? & ?)%leads_spec (nd2 & ? & ? & ?)%leads_spec]%andb_true_iff);
    [by vm_compute|].
  by exists c0, c, nd1, nd2.
Qed.

(** * One server *)

(** [m], then the rest. *)
Definition and_then {A} (m : M world A) (o : option world) : option world :=
  w ← o; match m w with Ok (_, w') => Some w' | Fault _ => None end.

(** Server 1 as it starts. *)
Definition demo_world : option world := n_world <$> init_node demo_config (demo_server 1).

Definition write_to_file_0 (c : ascii) : list raft_transaction_entry :=
  <[0%nat := {| filename := to_bytes "file_0"; buffer := [c] |}]> (le_data zero_log_entry).

(** A request of the leader 2 of term 1 for entry [i], sent when entries up to
    [commit] were committed; entry [i] writes the letter [c]. *)
Definition demo_append (term i commit : Z) (c : ascii) : M world unit :=
  Raft_handle_append_request (sock 30002)
    {| ar_term := term; ar_leader_id := 2; ar_prev_log_index := i - 1;
       ar_prev_log_term := if decide (i = 0) then -1 else 1;
       ar_entry := zero_log_entry <| le_term := term |> <| le_id := i + 1 |> <| le_data := write_to_file_0 c |>;
       ar_entries_n := 1; ar_leader_commit := commit; ar_request_id := i |}.

(** A delayed copy of an append request takes the commit index back, and
    an applied entry is applied once more. *)
Theorem append_repeated_applies_twice :
  exists w, and_then (demo_append 1 2 10 "c") (and_then (demo_append 1 0 10 "a")
      (and_then (demo_append 1 1 10 "b") (and_then (demo_append 1 0 10 "a") demo_world))) = Some w /\
    commit_index (raft w) = 2 /\ text_of (disk w) "d1/file_0" = to_bytes "abbc".
Proof.
  match goal with |- exists w, ?o = Some w /\ _ =>
    assert (match o with
            | Some w => (commit_index (raft w) =? 2) && bool_decide (text_of (disk w) "d1/file_0" = to_bytes "abbc")
            | None => false end = true) as H by (by vm_compute);
    destruct o as [w|]; [|done]; exists w
  end.
  apply andb_true_iff in H as [?%Z.eqb_eq ?%bool_decide_eq_true]. done.
Qed.

(** After the log is compacted, a committed transaction of an earlier
    term is reported as lost. *)
Theorem compacted_entry_reported_lost :
  exists w w1 w2, and_then (demo_append 2 1 1 "b") (and_then (demo_append 1 0 0 "a") demo_world) = Some w /\
    Raft_is_entry_committed 1 1 w = Ok (1, w1) /\
    and_then (Raft_create_snapshot 1) (Some w1) = Some w2 /\
    exists w3, Raft_is_entry_committed 1 1 w2 = Ok (-1, w3).
Proof.
  set (ok := fun (z : Z) (o : outcome (Z * world)) => match o with Ok (c, _) => c =? z | Fault _ => false end).
  match goal with |- exists w w1 w2, ?o = Some w /\ _ =>
    assert (match o with
            | Some w => match Raft_is_entry_committed 1 1 w with
                | Ok (c, w1) => (c =? 1) && match and_then (Raft_create_snapshot 1) (Some w1) with
                    | Some w2 => ok (-1) (Raft_is_entry_committed 1 1 w2) | None => false end
                | Fault _ => false end
            | None => false end = true) as H by (by vm_compute);
    destruct o as [w|]; [|done]
  end.
  destruct (Raft_is_entry_committed 1 1 w) as [[c w1]|] eqn:H1; [|done].
  apply andb_true_iff in H as [->%Z.eqb_eq H].
  destruct (and_then _ (Some w1)) as [w2|] eqn:H2; [|done].
  unfold ok in H. destruct (Raft_is_entry_committed 1 1 w2) as [[c3 w3]|] eqn:H3; [|done].
  apply Z.eqb_eq in H as ->. exists w, w1, w2. split_and!; try done. by exists w3.
Qed.

(** Packet [i] of snapshot 50 of the leader 2 of term 1: the file 0 with the
    letter a, or the end. *)
Definition demo_install (i done : Z) : M world unit :=
  Raft_handle_install_snapshot_request (sock 30002)
    {| ir_term := 1; ir_leader_id := 2; ir_snapshot_id := 50; ir_index := i; ir_done := done;
       ir_request_id := i; ir_filename := to_bytes "file_0"; ir_buffer := ["a"%char] |}.

(** A vote request of the candidate 3 of term 2. *)
Definition demo_vote_request : M world unit :=
  Raft_handle_vote_request (sock 30003)
    {| vr_term := 2; vr_candidate_id := 3; vr_last_log_index := 60; vr_last_log_term := 2 |}.

(** C40: A copy of the first chunk that arrives after the snapshot was
    installed is appended to the installed snapshot; the next newer term then
    removes that snapshot, and after a restart its data is gone. *)
Theorem stale_chunk_destroys_snapshot :
  exists w1 w2 w3,
    and_then (demo_install 1 1) (and_then (demo_install 0 0) demo_world) = Some w1 /\
    (start_log_index (raft w1) = 50 /\ text_of (disk w1) "d1/snapshot_50/file_0" = to_bytes "a" /\
     text_of (disk w1) "d1/file_0" = to_bytes "a") /\
    and_then (demo_install 0 0) (Some w1) = Some w2 /\
    text_of (disk w2) "d1/snapshot_50/file_0" = to_bytes "aa" /\
    and_then (Raft_server_restore "d1/" 1 0) (and_then demo_vote_request (Some w2)) = Some w3 /\
    start_log_index (raft w3) = 50 /\ text_of (disk w3) "d1/file_0" = [].
Proof.
  set (has := fun w p s => bool_decide (text_of (disk w) p = to_bytes s)).
  set (test1 := fun w => (start_log_index (raft w) =? 50) && has w "d1/snapshot_50/file_0" "a" && has w "d1/file_0" "a").
  set (test2 := fun w => has w "d1/snapshot_50/file_0" "aa").
  set (test3 := fun w => (start_log_index (raft w) =? 50) && has w "d1/file_0" "").
  match goal with |- exists w1 w2 w3, ?o1 = Some w1 /\ _ =>
    assert (match o1 with Some w1 => test1 w1 &&
      match and_then (demo_install 0 0) (Some w1) with Some w2 => test2 w2 &&
        match and_then (Raft_server_restore "d1/" 1 0) (and_then demo_vote_request (Some w2)) with
        | Some w3 => test3 w3 | None => false end
      | None => false end | None => false end = true) as H by (by vm_compute);
    destruct o1 as [w1|]; [|done]
  end.
  unfold test1, test2, test3, has in H. rewrite !andb_true_iff in H.
  destruct H as [[[?%Z.eqb_eq ?%bool_decide_eq_true] ?%bool_decide_eq_true] H].
  destruct (and_then _ (Some w1)) as [w2|] eqn:E2; [|done].
  rewrite andb_true_iff in H. destruct H as [?%bool_decide_eq_true H].
  destruct (and_then _ (and_then _ (Some w2))) as [w3|] eqn:E3; [|done].
  rewrite andb_true_iff in H. destruct H as [?%Z.eqb_eq ?%bool_decide_eq_true].
  exists w1, w2, w3. by split_and!.
Qed.

(** Becoming leader with a full log writes behind the array. *)
Theorem leader_full_log_overflow w :
  raft_wf (raft w) -> log_count (raft w) = start_log_index (raft w) + LOG_SIZE -> log_count (raft w) < INT_MAX ->
  Raft_convert_to_leader w = Fault OutOfBounds.
Proof.
  intros [Hl Hs _ _ _] Hfull Hmax. unfold Raft_convert_to_leader, rmod, rget, rself, gets, modify.
  rewrite run_bind. cbn beta iota. rewrite run_bind. cbn beta iota.
  rewrite run_bind, run_int_of by (apply int_ok_spec; cbn; unfold INT_MIN, LOG_SIZE in *; lia).
  rewrite run_bind. cbn beta iota. rewrite run_bind. cbn beta iota. rewrite run_bind.
  cbn [raft upd log_count start_log_index]. rewrite get_log_in by (cbn; unfold LOG_SIZE in *; lia).
  unfold log_deref, rget, gets. rewrite run_bind. cbn beta iota. unfold lift, arr_get.
  cbn [raft upd log_count start_log_index raft_log].
  replace (log_count (raft w) + 1 - 1 - start_log_index (raft w)) with 100 by (unfold LOG_SIZE in *; lia).
  cbn [Z.leb]. rewrite lookup_ge_None_2; [done|]. unfold LOG_SIZE in *. lia.
Qed.

(** The entry a new leader adds keeps the identifier of the dropped entry in its
    cell: a client transaction of the term with that identifier is reported as
    committed while it is not. *)
Theorem leader_entry_answers_early :
  exists w w', and_then (Raft_commit_update 1)
      (and_then (Raft_append_entry (zero_log_entry <| le_id := 2 |> <| le_client := 9 |>))
      (and_then Raft_convert_to_leader (and_then Raft_start_election
      (and_then (demo_append 2 0 (-1) "c") (and_then (demo_append 1 1 (-1) "b")
      (and_then (demo_append 1 0 (-1) "a") demo_world)))))) = Some w /\
    commit_index (raft w) = 1 /\
    (exists e, log_at (raft w) 2 = Some e /\ le_type e = CLIENT_LOG /\ le_term e = 3 /\ le_id e = 2) /\
    Raft_is_entry_committed 3 2 w = Ok (1, w').
Proof.
  set (test := fun w => (commit_index (raft w) =? 1) &&
    match log_at (raft w) 2 with
    | Some e => bool_decide (le_type e = CLIENT_LOG) && (le_term e =? 3) && (le_id e =? 2)
    | None => false end &&
    match Raft_is_entry_committed 3 2 w with Ok (c, _) => c =? 1 | Fault _ => false end).
  match goal with |- exists w w', ?o = Some w /\ _ =>
    assert (match o with Some w => test w | None => false end = true) as H by (by vm_compute);
    destruct o as [w|]; [|done]
  end.
  unfold test in H. apply andb_true_iff in H as [[Hc%Z.eqb_eq He]%andb_true_iff Hi].
  destruct (log_at (raft w) 2) as [e|] eqn:Hat; [|done].
  apply andb_true_iff in He as [[Ht%bool_decide_eq_true ?%Z.eqb_eq]%andb_true_iff ?%Z.eqb_eq].
  destruct (Raft_is_entry_committed 3 2 w) as [[c w']|] eqn:Hw; [|done]. apply Z.eqb_eq in Hi as ->.
  exists w, w'. split_and!; try done. by exists e.
Qed.

(** A leader thread that waited for a snapshot does not look at the state again:
    it sends the snapshot in the name of a candidate's term. *)
Theorem snapshot_sent_by_candidate :
  exists w pc w', and_then Raft_start_election demo_world = Some w /\
    state (raft w) = CANDIDATE /\
    Raft_leader_thread zero_log_entry (unset_install demo_inputs) 2 (sock 30002) Snapshot_wait w = Ok (pc, w') /\
    exists q, head (reverse (out w')) = Some (sock 30002, INSTALL_SNAPSHOT q) /\ ir_term q = current_term (raft w).
Proof.
  set (test := fun w => bool_decide (state (raft w) = CANDIDATE) &&
    match Raft_leader_thread zero_log_entry (unset_install demo_inputs) 2 (sock 30002) Snapshot_wait w with
    | Ok (_, w') => match head (reverse (out w')) with
        | Some (a, INSTALL_SNAPSHOT q) => bool_decide (a = sock 30002) && (ir_term q =? current_term (raft w))
        | _ => false end
    | Fault _ => false end).
  match goal with |- exists w pc w', ?o = Some w /\ _ =>
    assert (match o with Some w => test w | None => false end = true) as H by (by vm_compute);
    destruct o as [w|]; [|done]
  end.
  unfold test in H. apply andb_true_iff in H as [?%bool_decide_eq_true H].
  destruct (Raft_leader_thread _ _ _ _ _ w) as [[pc w']|] eqn:Hl; [|done].
  destruct (head (reverse (out w'))) as [[a [| |q|]]|] eqn:Hd; try done.
  apply andb_true_iff in H as [->%bool_decide_eq_true ?%Z.eqb_eq].
  exists w, pc, w'. split_and!; try done. by exists q.
Qed.
