(* ===== verification/LogInstances.v ===== *)
(** The theorems on the logs of the cluster at concrete runs, and a run without
    client requests in which servers commit different entries. *)
From S2P Require Import Prelude Libc Posix RaftTypes RaftStorage RaftUtils RaftFollower RaftLeader RaftCandidate Raft RaftView RaftLog ElectionSpec LogSpec RaftRefine LogRefine Cluster LogMatching Scenarios.

(** [uncompacted], computed. *)
Definition installs (p : raft_packet) : bool := match p with INSTALL_SNAPSHOT _ => true | _ => false end.
Definition shifts_log (t : thread) : bool := match t with T_snapshot_end _ _ => true | _ => false end.
Definition uncompactedb (c : cluster) (l : label) : bool :=
  benignb c l &&
  match l with
  | L_deliver n k => match net c !! k with Some d => negb (installs (d_pkt d)) | None => true end
  | L_thread n k _ =>
      match nodes c !! n ≫= (fun nd => n_threads nd !! k) with
      | Some t => negb (shifts_log t)
      | None => true
      end
  | _ => true
  end.

Lemma uncompactedb_ok c l : uncompactedb c l = true -> uncompacted c l.
Proof.
  unfold uncompactedb. intros [Hb H]%andb_true_iff. split; [by apply benignb_ok|].
  destruct l as [n k| | | |n k i| | |]; try done.
  - intros d q Hd E. rewrite Hd in H. cbn in H. by rewrite E in H.
  - intros nd new prev Hn Hk. rewrite Hn in H. cbn in H. by rewrite Hk in H.
Qed.

(** A run in two parts, and a test of both clusters. *)
Lemma log_run (l1 l2 : list label) (test1 : cluster -> bool) (test2 : cluster -> bool) :
  match run uncompactedb l1 demo_init with
  | Some c => test1 c && match run uncompactedb l2 (Some c) with Some c' => test2 c' | None => false end
  | None => false
  end = true ->
  exists c c', reachable_log demo_config c /\ log_steps demo_config c c' /\
    test1 c = true /\ test2 c' = true.
Proof.
  destruct demo_init as [c0|] eqn:H0; [|by rewrite run_none].
  destruct (run uncompactedb l1 (Some c0)) as [c|] eqn:Hr1; [|done].
  intros [H1 H2]%andb_true_iff. destruct (run uncompactedb l2 (Some c)) as [c'|] eqn:Hr2; [|done].
  exists c, c'. apply (run_steps _ uncompacted) in Hr1, Hr2; try apply uncompactedb_ok.
  split; [|split; [exact Hr2|by split]]. revert Hr1 H0. clear. intros Hr1 H0. revert Hr1. apply (rtc_ind_r (reachable_log demo_config) c0).
  - by apply reachable_log_init, demo_init_ok.
  - intros c1 c2 _ (x & Hx & Hc) IH. by eapply reachable_log_step.
Qed.

(** Server 1 is elected, gives its first entry to server 2, then takes one from
    a client and gives it to server 2 too. *)
Definition first_entry : list label := elect_1 ++ [T 1 3; D 2 0; D 1 0; T 1 3; D 2 0; D 1 0].
Definition second_entry : list label := [L_append 1 (zero_log_entry <| le_id := 7 |>); T 1 3; D 2 0].

Definition entry_at (n i : Z) (c : cluster) : option raft_log_entry :=
  nodes c !! n ≫= (fun nd => log_at (raft (n_world nd)) i).

Lemma entry_at_spec n i c e : entry_at n i c = Some e ->
  exists nd, nodes c !! n = Some nd /\ log_at (raft (n_world nd)) i = Some e.
Proof. intros (nd & ? & ?)%bind_Some. eauto. Qed.

(** Both servers have two entries of term 1. *)
Definition both_have (c : cluster) : bool :=
  match entry_at 1 0 c, entry_at 1 1 c, entry_at 2 1 c with
  | Some e0, Some e1, Some e2 => (le_term e0 =? 1) && (le_id e1 =? 7) && (le_term e1 =? le_term e2)
  | _, _, _ => false
  end.

Lemma both_have_spec c : both_have c = true ->
  exists nd1 nd2 e0 e1 e2, nodes c !! 1 = Some nd1 /\ nodes c !! 2 = Some nd2 /\
    log_at (raft (n_world nd1)) 0 = Some e0 /\ log_at (raft (n_world nd1)) 1 = Some e1 /\
    log_at (raft (n_world nd2)) 1 = Some e2 /\ le_id e1 = 7 /\ le_term e1 = le_term e2.
Proof.
  unfold both_have. destruct (entry_at 1 0 c) as [e0|] eqn:E0; [|done].
  destruct (entry_at 1 1 c) as [e1|] eqn:E1; [|done]. destruct (entry_at 2 1 c) as [e2|] eqn:E2; [|done].
  intros [[_ Hid%Z.eqb_eq]%andb_true_iff Ht%Z.eqb_eq]%andb_true_iff.
  apply entry_at_spec in E0 as (nd1 & Hn1 & E0), E1 as (nd1' & Hn1' & E1), E2 as (nd2 & Hn2 & E2).
  assert (nd1' = nd1) as -> by congruence. by exists nd1, nd2, e0, e1, e2.
Qed.

Lemma log_matching_witness : exists c nd1 nd2 e,
  reachable_log demo_config c /\ nodes c !! 1 = Some nd1 /\ nodes c !! 2 = Some nd2 /\
  log_at (raft (n_world nd1)) 0 = Some e /\
  ekey <$> log_at (raft (n_world nd2)) 0 = Some (ekey e).
Proof.
  destruct (log_run (first_entry ++ second_entry) [] both_have (fun _ => true))
    as (c & _ & Hr & _ & (nd1 & nd2 & e0 & e1 & e2 & Hn1 & Hn2 & H0 & H1 & H2 & _ & Ht)%both_have_spec & _);
    [by vm_compute|].
  exists c, nd1, nd2, e0. split_and!; [done..|].
  rewrite <- (log_matching demo_config c 1 2 nd1 nd2 1 0 e1 e2 demo_config_ok Hr Hn1 Hn2 H1 H2 Ht);
    [by rewrite H0|done].
Defined.

Lemma leader_append_only_witness : exists c c' nd nd' e,
  reachable_log demo_config c /\ log_steps demo_config c c' /\
  nodes c !! 1 = Some nd /\ nodes c' !! 1 = Some nd' /\ log_at (raft (n_world nd)) 0 = Some e /\
  ekey <$> log_at (raft (n_world nd')) 0 = Some (ekey e) /\
  log_at (raft (n_world nd)) 1 = None /\ is_Some (log_at (raft (n_world nd')) 1).
Proof.
  destruct (log_run first_entry second_entry
    (fun c => leads 1 1 c && match entry_at 1 0 c, entry_at 1 1 c with Some _, None => true | _, _ => false end)
    (fun c => leads 1 1 c && both_have c))
    as (c & c' & Hr & Hs & [(nd & Hn & Hl & Ht)%leads_spec He]%andb_true_iff
        & [(nd' & Hn' & Hl' & Ht')%leads_spec Hb]%andb_true_iff); [by vm_compute|].
  destruct (entry_at 1 0 c) as [e|] eqn:E0; [|done]. destruct (entry_at 1 1 c) eqn:E1; [done|].
  apply entry_at_spec in E0 as (nd0 & Hn0 & E0). assert (nd0 = nd) as -> by congruence.
  unfold entry_at in E1. rewrite Hn in E1. cbn in E1.
  apply both_have_spec in Hb as (nd1 & _ & _ & e1 & _ & Hn1 & _ & _ & H1 & _).
  assert (nd1 = nd') as -> by congruence.
  exists c, c', nd, nd', e. split_and!; [exact Hr|exact Hs|exact Hn|exact Hn'|exact E0| |exact E1|by eexists].
  apply (leader_append_only demo_config c c' 1 1 nd nd' 0 e demo_config_ok Hr Hs Hn Hn' Hl Hl'); [|done].
  congruence.
Defined.

Lemma log_terms_sorted_witness : exists c nd e0 e1,
  reachable_log demo_config c /\ nodes c !! 1 = Some nd /\
  log_at (raft (n_world nd)) 0 = Some e0 /\ log_at (raft (n_world nd)) 1 = Some e1 /\
  le_term e0 <= le_term e1 <= current_term (raft (n_world nd)).
Proof.
  destruct (log_run (first_entry ++ second_entry) [] both_have (fun _ => true))
    as (c & _ & Hr & _ & (nd1 & nd2 & e0 & e1 & e2 & Hn1 & _ & H0 & H1 & _)%both_have_spec & _);
    [by vm_compute|].
  exists c, nd1, e0, e1. do 4 (split; [done|]).
  apply (log_terms_sorted demo_config c 1 nd1 0 1 e0 e1 demo_config_ok Hr Hn1 ltac:(done) H0 H1).
Defined.

(** * An answer of an earlier leadership *)

(** Runs in which nobody compacts a log and no client makes a request. *)
Definition quiet (c : cluster) (l : label) : Prop :=
  uncompacted c l /\ match l with L_append _ _ => False | _ => True end.
Definition quietb (c : cluster) (l : label) : bool :=
  uncompactedb c l && match l with L_append _ _ => false | _ => true end.

Lemma quietb_ok c l : quietb c l = true -> quiet c l.
Proof. intros [H1%uncompactedb_ok H2]%andb_true_iff. split; [done|]. by destruct l. Qed.

(** Server 1 leads in terms 1 and 2.  A heartbeat of term 1 to server 2 with the
    request number 2 is late: the refusal it gets in term 2 takes next_index back
    after server 2 has stored the entry of term 2, and a third copy of the entry
    is counted with two servers that have it. *)
Definition late_heartbeat : list label :=
  elect_1 ++ [T 1 3; D 2 0; D 1 0; T 1 3; D 2 0; D 1 0; T 1 3] ++
  [L_restart 1 0; L_timeout 1; T 1 0; D 2 1; D 3 1; L_drop 1; L_drop 1; D 1 1; D 1 1].
Definition counted_twice : list label :=
  [T 1 3; D 2 1; D 1 1; T 1 3; D 2 1; D 1 1; D 2 0; D 1 0; T 1 3; D 2 0; D 1 0].
(** Server 3, which has neither entry, is elected by 4 and 5 and commits. *)
Definition commit_elsewhere : list label :=
  [L_timeout 3; T 3 2; L_drop 0; L_drop 0; D 4 0; D 5 0; D 3 0; D 3 0] ++
  [T 3 7; D 4 0; D 3 0; T 3 7; D 4 0; D 3 0; T 3 8; D 5 0; D 3 0; T 3 8; D 5 0; D 3 0].

Definition committed_terms (n1 n2 i : Z) (c : cluster) : bool :=
  match nodes c !! n1 ≫= (fun nd => committed_at nd i), nodes c !! n2 ≫= (fun nd => committed_at nd i) with
  | Some e1, Some e2 => (le_term e1 =? 1) && (le_term e2 =? 3)
  | _, _ => false
  end.

(** A new leader counts its requests from 0 again, so the answer to a request
    of its earlier leadership passes for the answer to the current one: a
    follower is counted twice, and servers commit different entries although no
    client makes a request and the network only delays and drops. *)
Theorem stale_refusal_commits : exists c0 c nd1 nd2 e1 e2,
  init_cluster demo_config c0 /\ rtc (env_step quiet) c0 c /\
  nodes c !! 1 = Some nd1 /\ nodes c !! 3 = Some nd2 /\
  committed_at nd1 0 = Some e1 /\ committed_at nd2 0 = Some e2 /\ le_term e1 <> le_term e2.
Proof.
  destruct (guarded_run quietb quiet (late_heartbeat ++ counted_twice ++ commit_elsewhere) (committed_terms 1 3 0) quietb_ok)
    as (c0 & c & Hi & Hr & H); [by vm_compute|].
  unfold committed_terms in H. destruct (nodes c !! 1) as [nd1|] eqn:H1; [|done].
  destruct (nodes c !! 3) as [nd2|] eqn:H2; cbn in H; [|by destruct (committed_at nd1 0)].
  destruct (committed_at nd1 0) as [e1|] eqn:E1; [|done]. destruct (committed_at nd2 0) as [e2|] eqn:E2; [|done].
  apply andb_true_iff in H as [Ht1%Z.eqb_eq Ht2%Z.eqb_eq].
  exists c0, c, nd1, nd2, e1, e2. split_and!; try done. lia.
Qed.
