(* ===== verification/CommitInstances.v ===== *)
(** The theorems on committed entries at concrete runs. *)
From S2P Require Import Prelude Libc Posix RaftTypes RaftStorage RaftUtils RaftFollower RaftLeader RaftCandidate Raft RaftView RaftLog ElectionSpec LogSpec RaftRefine LogRefine Cluster LogMatching CommitSpec CommitStep CommitRefine CommitSafety FileFrames FileSafety StorageSpec StateMachine Server Scenarios LogInstances.
From Stdlib Require Import Ascii.

#[local] Open Scope string_scope.
#[local] Open Scope Z_scope.
#[local] Open Scope list_scope.

(** [timely], computed. *)
Definition settledb (t : Z) (l : log) (r : pnode) (m : pmsg) : bool :=
  match m with
  | (dst, APPEND b) => negb ((ar_term b =? t) && (ar_request_id b =? prd r dst) && (ar_entries_n b =? 0))
  | (_, RESPONSE q) =>
      negb ((rp_term q =? t) && (rp_request_id q =? prd r (rp_id q)) && negb (rp_success q =? 0) &&
            (pnx r (rp_id q) =? Z.of_nat (length l)))
  | _ => true
  end.

Lemma settledb_ok t l r ms : forallb (settledb t l r) ms = true -> settled t l r ms.
Proof.
  intros H. rewrite forallb_forall in H. split; intros dst b Hin%list_elem_of_In%H; cbn in Hin; lia.
Qed.

Definition timelyb (c : cluster) (l : label) : bool :=
  uncompactedb c l &&
  match l with
  | L_deliver n k =>
      match net c !! k, nodes c !! n with
      | Some d, Some nd =>
          match d_pkt d with APPEND a => current_term (raft (n_world nd)) <=? ar_term a | _ => true end
      | _, _ => true
      end
  | L_append n _ =>
      match nodes c !! n with
      | Some nd => bool_decide (state (raft (n_world nd)) <> LEADER) ||
          let r := raft (n_world nd) in
          forallb (settledb (current_term r) (llog r) (pnode_of (n_world nd))) (abs_msgs demo_config c)
      | None => true
      end
  | _ => true
  end.

Lemma timelyb_ok c l : timelyb c l = true -> timely demo_config c l.
Proof.
  unfold timelyb. intros [Hu H]%andb_true_iff. split; [by apply uncompactedb_ok|].
  destruct l as [n k| | | | |n e| |]; try done.
  - intros d a nd Hd E Hn. rewrite Hd, Hn, E in H. lia.
  - intros nd Hn Hl. rewrite Hn in H. apply orb_true_iff in H as [H%bool_decide_eq_true|H]; [done|].
    by apply settledb_ok.
Qed.

(** A run in two parts, and a test of both clusters. *)
Lemma staged_run guard env (l1 l2 : list label) (test1 test2 : cluster -> bool) :
  (forall c l, guard c l = true -> env c l) ->
  match run guard l1 demo_init with
  | Some c => test1 c && match run guard l2 (Some c) with Some c' => test2 c' | None => false end
  | None => false
  end = true ->
  exists c0 c c', init_cluster demo_config c0 /\ rtc (env_step env) c0 c /\ rtc (env_step env) c c' /\
    test1 c = true /\ test2 c' = true.
Proof.
  intros Hg. destruct demo_init as [c0|] eqn:H0; [|by rewrite run_none].
  destruct (run guard l1 (Some c0)) as [c|] eqn:Hr1; [|done].
  intros [H1 H2]%andb_true_iff. destruct (run guard l2 (Some c)) as [c'|] eqn:Hr2; [|done].
  exists c0, c, c'. split; [by apply demo_init_ok|]. by split_and!; [eapply run_steps|eapply run_steps|..].
Qed.

Lemma timely_run (l1 l2 : list label) (test1 test2 : cluster -> bool) :
  match run timelyb l1 demo_init with
  | Some c => test1 c && match run timelyb l2 (Some c) with Some c' => test2 c' | None => false end
  | None => false
  end = true ->
  exists c c', reachable_timely demo_config c /\ timely_steps demo_config c c' /\
    test1 c = true /\ test2 c' = true.
Proof.
  intros (c0 & c & c' & Hi & Hr & Hs & H)%(staged_run timelyb (timely demo_config)); [|by apply timelyb_ok].
  exists c, c'. split; [|by split]. revert Hr. apply (rtc_ind_r (reachable_timely demo_config) c0).
  - by apply reachable_timely_init.
  - intros c1 c2 _ (x & Hx & Hc) IH. by eapply reachable_timely_step.
Qed.

(** Server 1 is elected in term 1, gives its first entry and one of a client to
    servers 2 and 3, and commits both. *)
Definition give_next : list label := [T 1 3; D 2 0; T 1 4; D 3 1; D 1 0; D 1 0].
Definition commit_two : list label :=
  elect_1 ++ give_next ++ give_next ++
  [L_append 1 (zero_log_entry <| le_id := 7 |>)] ++ give_next.

(** Server 2 is elected in term 2 by the votes of 3 and 4, gives its own entry to
    servers 1 and 3 and commits it. *)
Definition next_leader : list label :=
  [L_timeout 2; T 2 4; L_drop 0; D 3 0; D 4 0; L_drop 0; D 2 0; D 2 0].
Definition commit_third : list label :=
  next_leader ++ [T 2 7; D 1 0; D 2 0; T 2 7; D 1 0; D 2 0; T 2 8; D 3 0; D 2 0; T 2 8; D 3 0; D 2 0].

Definition commits (n i : Z) (c : cluster) : bool :=
  match nodes c !! n with
  | Some nd => (i <=? commit_index (raft (n_world nd)))
  | None => false
  end.

Lemma commits_spec n i c : commits n i c = true ->
  exists nd, nodes c !! n = Some nd /\ i <= commit_index (raft (n_world nd)).
Proof. unfold commits. destruct (nodes c !! n) as [nd|]; [|done]. intros H. exists nd. split; [done|lia]. Qed.

(** Server 1 leads in term 1 and has committed the client's entry at index 1. *)
Definition client_committed (c : cluster) : bool :=
  leads 1 1 c && commits 1 1 c && match entry_at 1 1 c with Some e => le_id e =? 7 | None => false end.

Lemma client_committed_spec c : client_committed c = true ->
  exists nd e, nodes c !! 1 = Some nd /\ current_term (raft (n_world nd)) = 1 /\
    1 <= commit_index (raft (n_world nd)) /\ log_at (raft (n_world nd)) 1 = Some e /\ le_id e = 7.
Proof.
  unfold client_committed. rewrite !andb_true_iff.
  intros [[(nd & Hn & _ & Ht)%leads_spec (nd1 & Hn1 & Hc)%commits_spec] He].
  destruct (entry_at 1 1 c) as [e|] eqn:E; [|done]. apply entry_at_spec in E as (nd2 & Hn2 & E).
  assert (nd1 = nd) as -> by congruence. assert (nd2 = nd) as -> by congruence.
  exists nd, e. split_and!; [done..|]. by apply Z.eqb_eq.
Qed.

(** Server 2, which leads in term 2 and has committed an entry of its own behind
    it, has committed the entry the client gave to server 1. *)
Lemma committed_entries_agree_witness : exists c c' nd nd' e,
  reachable_timely demo_config c /\ timely_steps demo_config c c' /\
  nodes c !! 1 = Some nd /\ nodes c' !! 2 = Some nd' /\ 2 <= commit_index (raft (n_world nd')) /\
  log_at (raft (n_world nd)) 1 = Some e /\ le_id e = 7 /\
  ekey <$> log_at (raft (n_world nd')) 1 = Some (ekey e).
Proof.
  destruct (timely_run commit_two commit_third client_committed (commits 2 2))
    as (c & c' & Hr & Hs & (nd & e & Hn & Ht & Hc & He & Hid)%client_committed_spec
        & (nd' & Hn' & Hc')%commits_spec); [by vm_compute|].
  exists c, c', nd, nd', e. do 7 (split; [done|]).
  destruct (committed_entries_agree demo_config c c' 1 2 nd nd' 1 demo_config_ok Hr Hs Hn Hn') as (e1 & e2 & H1 & -> & Hk);
    [lia|lia|]. cbn. congruence.
Defined.

(** Server 2 is elected in term 2 and has the entry. *)
Lemma leader_completeness_witness : exists c c' nd nd' e,
  reachable_timely demo_config c /\ timely_steps demo_config c c' /\
  nodes c !! 1 = Some nd /\ nodes c' !! 2 = Some nd' /\ state (raft (n_world nd')) = LEADER /\
  log_at (raft (n_world nd)) 1 = Some e /\ le_id e = 7 /\
  ekey <$> log_at (raft (n_world nd')) 1 = Some (ekey e).
Proof.
  destruct (timely_run commit_two next_leader client_committed (leads 2 2))
    as (c & c' & Hr & Hs & (nd & e & Hn & Ht & Hc & He & Hid)%client_committed_spec
        & (nd' & Hn' & Hl' & Ht')%leads_spec); [by vm_compute|].
  exists c, c', nd, nd', e. do 7 (split; [done|]).
  destruct (leader_completeness demo_config c c' 1 2 nd nd' 1 demo_config_ok Hr Hs Hn Hn' Hl') as (e1 & e2 & H1 & -> & Hk);
    [lia|lia|]. cbn. congruence.
Defined.

(** * The files *)

(** [regular], computed. *)
Definition advancesb (r : raft_state) (a : raft_append_request) : bool :=
  (ar_leader_commit a <=? commit_index r) || (commit_index r <=? ar_prev_log_index a + 1).

Definition is_snapshot_build (t : thread) : bool :=
  match t with T_snapshot_build _ => true | _ => false end.

Definition regularb (c : cluster) (l : label) : bool :=
  timelyb c l &&
  match l with
  | L_deliver n k =>
      match net c !! k, nodes c !! n with
      | Some d, Some nd => match d_pkt d with APPEND a => advancesb (raft (n_world nd)) a | _ => true end
      | _, _ => true
      end
  | L_thread n k _ =>
      match nodes c !! n with
      | Some nd => match n_threads nd !! k with Some t => negb (is_snapshot_build t) | None => true end
      | None => true
      end
  | _ => true
  end.

Lemma regularb_ok c l : regularb c l = true -> regular demo_config c l.
Proof.
  unfold regularb. intros [Ht H]%andb_true_iff. split; [by apply timelyb_ok|].
  destruct l as [n k| | | |n k i| | |]; try done.
  - intros d a nd Hd E Hn. rewrite Hd, Hn, E in H. unfold advancesb, advances in *. lia.
  - intros nd new Hn Hk. by rewrite Hn, Hk in H.
Qed.

Lemma regular_run (l1 l2 : list label) (test1 test2 : cluster -> bool) :
  match run regularb l1 demo_init with
  | Some c => test1 c && match run regularb l2 (Some c) with Some c' => test2 c' | None => false end
  | None => false
  end = true ->
  exists c c', reachable_regular demo_config c /\ regular_steps demo_config c c' /\
    test1 c = true /\ test2 c' = true.
Proof.
  intros (c0 & c & c' & Hi & Hr & Hs & H)%(staged_run regularb (regular demo_config)); [|by apply regularb_ok].
  exists c, c'. split; [|by split]. revert Hr. apply (rtc_ind_r (reachable_regular demo_config) c0).
  - by apply reachable_regular_init.
  - intros c1 c2 _ (x & Hx & Hc) IH. by eapply reachable_regular_step.
Qed.

Lemma demo_sites_ok : sites_ok demo_config.
Proof.
  intros s Hs. apply list_elem_of_fmap in Hs as (n & -> & Hn).
  repeat (apply elem_of_cons in Hn as [->|Hn]; [split; [by vm_compute|by vm_compute; lia]|]).
  by apply not_elem_of_nil in Hn.
Qed.

(** As [commit_two], with an entry that writes to [file_0]; then server 2 learns
    of it from the next heartbeat, crashes and is restarted. *)
Definition write_one : list label :=
  elect_1 ++ give_next ++ give_next ++
  [L_append 1 (zero_log_entry <| le_id := 7 |> <| le_data := write_to_file_0 "x" |>)] ++ give_next.
Definition follow_and_restart : list label := [T 1 3; D 2 0; L_restart 2 7].

Definition shows (n i : Z) (text : bytes) (c : cluster) : bool :=
  match nodes c !! n with
  | Some nd => (commit_index (raft (n_world nd)) =? i) && bool_decide (shown (n_world nd) 0 = text)
  | None => false
  end.

Lemma shows_spec n i text c : shows n i text c = true ->
  exists nd, nodes c !! n = Some nd /\ commit_index (raft (n_world nd)) = i /\ shown (n_world nd) 0 = text.
Proof.
  unfold shows. destruct (nodes c !! n) as [nd|]; [|done].
  intros [?%Z.eqb_eq ?%bool_decide_eq_true]%andb_true_iff. by exists nd.
Qed.

Definition commit_is (n i : Z) (c : cluster) : bool :=
  match nodes c !! n with Some nd => commit_index (raft (n_world nd)) =? i | None => false end.

