(* ===== verification/Instances.v ===== *)
(** The theorems of the other files, each at a concrete state where its
    hypotheses hold.  The hypotheses are checked by computation, with the tests
    of the first section. *)
From S2P Require Import Prelude Libc Posix RaftTypes PacketFormat Spinlock TimedLock RaftStorage StorageSpec RaftUtils RaftFollower RaftLeader RaftCandidate Raft Server RaftView RaftLog StateMachine ServerSpec ServerRpc ServerRpcSpec ClientRpc ClientRpcSpec ElectionSpec RaftRefine Cluster Scenarios.
From Stdlib Require Import Ascii.

#[local] Open Scope string_scope.
#[local] Open Scope Z_scope.
#[local] Open Scope list_scope.

(** * Tests *)

Definition wfb (r : raft_state) : bool :=
  (Z.of_nat (length (raft_log r)) =? LOG_SIZE) && (0 <=? start_log_index r) &&
  (start_log_index r <=? commit_index r + 1) && (commit_index r <? log_count r) &&
  (log_count r <=? start_log_index r + LOG_SIZE).

Lemma wfb_ok r : wfb r = true -> raft_wf r.
Proof. unfold wfb. intros H. repeat (apply andb_true_iff in H as [H ?]). constructor; lia. Qed.

Definition plainb (r : raft_state) : bool :=
  forallb (fun e => forallb (fun t => negb (has_slash (of_bytes (until_nul (filename t))))) (le_data e))
    (raft_log r).

Lemma plainb_ok r : plainb r = true -> log_plain r.
Proof.
  unfold plainb. intros H i e He. unfold log_at in He. destruct (_ && _); [|done].
  rewrite forallb_forall in H. apply list_elem_of_lookup_2, list_elem_of_In in He. specialize (H e He).
  rewrite forallb_forall in H. apply list.Forall_forall. intros t Ht%list_elem_of_In.
  by apply negb_true_iff, H.
Qed.

Definition smb (dir : string) (w : world) : bool :=
  forallb (fun k => bool_decide (text_of (disk w) (snap_file dir (-1) k) =
    snap_text (disk w) dir (start_log_index (raft w)) k ++ applied_log (fname k) (committed (raft w))))
    file_numbers.

Lemma forallb_in {A} (f : A -> bool) l : forallb f l = true -> forall x, x ∈ l -> f x = true.
Proof. rewrite forallb_forall. intros H x Hx%list_elem_of_In. by apply H. Qed.

Lemma smb_ok dir w : smb dir w = true -> sm_inv dir w.
Proof. intros H k Hk. by apply (forallb_in _ _ H) in Hk as Hb%bool_decide_eq_true. Qed.

(** A run that returns. *)
Definition returns {S A} (m : M S A) (s : S) : bool := is_ok (m s).

Lemma returns_ok {S A} (m : M S A) s : returns m s = true -> exists a s', m s = Ok (a, s').
Proof. unfold returns. destruct (m s) as [[a s']|]; [eauto|done]. Qed.

Lemma returns_unit {S} (m : M S unit) s : returns m s = true -> exists s', m s = Ok (tt, s').
Proof. intros ([] & s' & H)%returns_ok. eauto. Qed.

(** Checks a hypothesis by running its test. *)
Ltac check :=
  first
    [ eassumption
    | apply wfb_ok; by vm_compute
    | apply plainb_ok; by vm_compute
    | apply smb_ok; by vm_compute
    | vm_compute; first [reflexivity | split; reflexivity | split; congruence]
    | apply elem_of_singleton; reflexivity
    | vm_compute; intros [=]
    | cbn; lia ].

(** * The raft state of a server *)

(** A transaction that writes one letter to the file 0. *)
Definition entry (term id : Z) (c : ascii) : raft_log_entry :=
  zero_log_entry <| le_term := term |> <| le_id := id |> <| le_data := write_to_file_0 c |>.

Definition cell : Z -> raft_log_entry -> list raft_log_entry -> list raft_log_entry :=
  fun i e l => <[Z.to_nat i := e]> l.

(** Two entries in the log, [commit] of them (less one) committed. *)
Definition small_raft (commit : Z) : raft_state :=
  zero_raft_state <| files_dir := "d1/" |> <| raft_id := 1 |> <| config := demo_config |>
    <| current_term := 1 |> <| voted_for := -1 |> <| state := FOLLOWER |>
    <| install_snapshot_id := -1 |> <| install_snapshot_index := -1 |>
    <| raft_log := cell 0 (entry 1 1 "a") (cell 1 (entry 1 2 "b") (raft_log zero_raft_state)) |>
    <| log_count := 2 |> <| commit_index := commit |>.

Definition small_world (commit : Z) (text : string) : world :=
  {| raft := small_raft commit;
     disk := mkFs {["d1/file_0" := mkFile None (to_bytes text)]} {["d1/"]}; out := []; spawned := [] |}.

Lemma small_disk_ready c t : disk_ready (small_world c t).
Proof. split; [by apply (bool_decide_unpack _); vm_compute|cbn; set_solver|cbn; lia]. Qed.

Lemma commit_update_state_machine_witness : exists w',
  Raft_commit_update 1 (small_world (-1) "") = Ok (tt, w') /\ sm_inv "d1/" w' /\ commit_index (raft w') = 1.
Proof.
  destruct (returns_unit (Raft_commit_update 1) (small_world (-1) "")) as [w' Hw]; [by vm_compute|].
  exists w'. split; [done|].
  apply (commit_update_state_machine "d1/" eq_refl 1 (small_world (-1) "") tt w'); check.
Defined.

(** The disk of a server that stopped with the log of [small_raft 1]. *)
Definition stopped : world :=
  {| raft := zero_raft_state;
     disk := mkFs {[state_file "d1/" := mkFile (Some (small_raft 1)) []]} {["d1/"]}; out := []; spawned := [] |}.



(** * Append requests *)

(** The leader 2 sends entry [i]; the entry before it has term 1. *)
Definition small_append (term i commit : Z) (c : ascii) : raft_append_request :=
  {| ar_term := term; ar_leader_id := 2; ar_prev_log_index := i - 1; ar_prev_log_term := 1;
     ar_entry := entry term (i + 1) c; ar_entries_n := 1; ar_leader_commit := commit; ar_request_id := 0 |}.

Definition leader_addr : sockaddr_in := sock 30002.

(** A newer leader replaces the entry 1, which was not committed. *)
Lemma append_request_stores_witness : exists w',
  Raft_handle_append_request leader_addr (small_append 2 1 0 "c") (small_world 0 "a") = Ok (tt, w') /\
  log_at (raft w') 1 = Some (entry 2 2 "c") /\ log_count (raft w') = 2.
Proof.
  destruct (returns_unit (Raft_handle_append_request leader_addr (small_append 2 1 0 "c")) (small_world 0 "a"))
    as [w' Hw]; [by vm_compute|]. exists w'. split; [done|].
  destruct (append_request_stores leader_addr (small_append 2 1 0 "c") (small_world 0 "a") w' Hw)
    as (H1 & _ & _ & _ & H2 & _); [by vm_compute|done|]. split; [exact H1|]. apply H2. by vm_compute.
Defined.

Lemma append_request_committed_stable_witness : exists w',
  Raft_handle_append_request leader_addr (small_append 2 1 1 "c") (small_world 0 "a") = Ok (tt, w') /\
  log_at (raft w') 0 = Some (entry 1 1 "a") /\ 0 <= commit_index (raft w').
Proof.
  destruct (returns_unit (Raft_handle_append_request leader_addr (small_append 2 1 1 "c")) (small_world 0 "a"))
    as [w' Hw]; [by vm_compute|]. exists w'. split; [done|].
  destruct (append_request_committed_stable leader_addr (small_append 2 1 1 "c") (small_world 0 "a") w' 0)
    as (H1 & H2); [apply wfb_ok; by vm_compute|exact Hw|by cbn|by cbn|]. split; [exact H1|exact H2].
Defined.

Lemma append_request_idempotent_witness : exists w1 w2,
  Raft_handle_append_request leader_addr (small_append 2 1 1 "c") (small_world 0 "a") = Ok (tt, w1) /\
  Raft_handle_append_request leader_addr (small_append 2 1 1 "c") w1 = Ok (tt, w2) /\
  lview (raft w2) = lview (raft w1).
Proof.
  set (m := Raft_handle_append_request leader_addr (small_append 2 1 1 "c")).
  destruct (returns_unit (m;; m) (small_world 0 "a")) as [w2 H]; [by vm_compute|].
  apply bind_ok in H as ([] & w1 & H1 & H2). exists w1, w2. split_and!; [done..|].
  apply (append_request_idempotent leader_addr (small_append 2 1 1 "c") (small_world 0 "a") w1 w2);
    [apply wfb_ok; by vm_compute| |by vm_compute|exact H1|exact H2].
  intros _. cbn. lia.
Defined.

Lemma Raft_dispatch_preserves_wf_witness : exists w',
  Raft_dispatch leader_addr (APPEND (small_append 2 1 1 "c")) (small_world 0 "a") = Ok (tt, w') /\ raft_wf (raft w').
Proof.
  destruct (returns_unit (Raft_dispatch leader_addr (APPEND (small_append 2 1 1 "c"))) (small_world 0 "a"))
    as [w' Hw]; [by vm_compute|]. exists w'. split; [done|].
  apply (Raft_dispatch_preserves_wf leader_addr (APPEND (small_append 2 1 1 "c")) (small_world 0 "a") w');
    [apply wfb_ok; by vm_compute| |exact Hw]. intros _. cbn. lia.
Defined.

(** * The interface of the log *)

Definition leading (w : world) : world := w <| raft ::= fun r => r <| state := LEADER |> <| current_term := 2 |> |>.

Definition small_leader : world := leading (small_world 1 "ab").

Lemma leader_entries i e : log_at (raft small_leader) i = Some e -> le_term e = 1.
Proof.
  intros H. pose proof (log_at_range _ _ _ H) as Hi. change (0 <= i < 2) in Hi.
  assert (i = 0 \/ i = 1) as [->| ->] by lia; by injection H as <-.
Qed.

Lemma small_leader_ready : disk_ready small_leader.
Proof. split; check. Qed.
Lemma small_leader_wf : raft_wf (raft small_leader).
Proof. apply wfb_ok. by vm_compute. Qed.

Lemma append_commit_query_witness : exists w1 w2,
  Raft_append_entry (entry 0 3 "c") small_leader = Ok ((0, stamp (raft small_leader) (entry 0 3 "c")), w1) /\
  Raft_commit_update 2 w1 = Ok (tt, w2) /\
  Raft_is_entry_committed 2 3 w1 = Ok (0, w1) /\ Raft_is_entry_committed 2 3 w2 = Ok (1, w2).
Proof.
  pose proof (append_entry_run small_leader (entry 0 3 "c") small_leader_wf eq_refl small_leader_ready eq_refl) as H.
  cbn zeta in H.
  assert (bool_decide (state (raft small_leader) <> LEADER) ||
    (log_count (raft small_leader) =? start_log_index (raft small_leader) + LOG_SIZE) = false) as Hf by by vm_compute.
  rewrite Hf in H. destruct H as (w1 & H1 & _ & _ & Hc & _).
  destruct (returns_unit (Raft_append_entry (entry 0 3 "c");; Raft_commit_update 2) small_leader) as [w2 H2];
    [by vm_compute|].
  rewrite run_bind, H1 in H2. exists w1, w2.
  assert (forall i e, log_at (raft small_leader) i = Some e -> ~ hits 2 3 e) as Hnew.
  { intros i e He. pose proof (leader_entries i e He) as Ht. unfold hits. lia. }
  assert (commit_index (raft w1) <= 2 <= log_count (raft small_leader)) as Hr by (rewrite Hc; by vm_compute).
  destruct (append_commit_query (entry 0 3 "c") small_leader w1
    (stamp (raft small_leader) (entry 0 3 "c")) 2 w2 small_leader_wf eq_refl small_leader_ready eq_refl
    Hnew H1 Hr H2) as (Ha & Hb).
  by split_and!.
Defined.

(** * The disk *)

Lemma save_state_crash_atomic_witness : exists d,
  run_calls (take 1 (Raft_save_state_calls (small_raft 1))) (disk (small_world 1 "ab")) = Some d /\
  files d !! state_file "d1/" = None.
Proof.
  destruct (save_state_crash_atomic (small_world 1 "ab") 1 (small_disk_ready _ _)) as (d & Hd & Hs & _).
  exists d. split; [exact Hd|]. destruct Hs as [Hs|Hs]; [etransitivity; [exact Hs|by vm_compute]|].
  exfalso. injection Hd as <-. by vm_compute in Hs.
Defined.

Lemma save_load_roundtrip_witness : exists w',
  Raft_save_state (small_world 1 "ab") = Ok (tt, w') /\
  Raft_load_state "d1/" (w' <| raft := zero_raft_state |>) = Ok (tt, w').
Proof.
  destruct (save_load_roundtrip (small_world 1 "ab") zero_raft_state (small_disk_ready _ _)) as (w' & H1 & _ & H2).
  by exists w'.
Defined.


(** * The lock *)

Definition spin_moves (l : list nat) (s : spin_sys) : option spin_sys :=
  foldl (fun o i => s ← o; spin_step i s) (Some s) l.

Lemma spin_moves_reach n l s s' : spin_reach n s -> spin_moves l s = Some s' -> spin_reach n s'.
Proof.
  assert (forall l, foldl (fun o i => s ← o; spin_step i s) None l = None) as Hn by (intros l'; by induction l').
  unfold spin_moves. revert s. induction l as [|i l IH]; intros s Hr; [by intros [= <-]|]. cbn.
  destruct (spin_step i s) as [s1|] eqn:H1; [|by rewrite Hn]. apply IH. by eapply spin_reach_step.
Qed.

(** Threads 0 and 1 try; 0 is past the loop. *)
Lemma spinlock_mutual_exclusion_witness : exists s, spin_reach 2 s /\ pcs s !! 0%nat = Some Inside /\
  forall j, pcs s !! j = Some Inside -> j = 0%nat.
Proof.
  destruct (spin_moves [0; 1; 0; 1]%nat (spin_start 2)) as [s|] eqn:Hs; [|done].
  pose proof (spin_moves_reach 2 _ _ _ (spin_reach_start 2) Hs) as Hr. exists s.
  injection Hs as <-. split; [exact Hr|]. split; [done|]. intros j Hj.
  apply (spinlock_mutual_exclusion 2 _ j 0%nat Hr Hj eq_refl).
Defined.

Definition tmd_moves (l : list tmd_label) (s : tmd_sys) : option tmd_sys :=
  foldl (fun o a => s ← o; tmd_step s a) (Some s) l.

Lemma tmd_moves_reach n l s s' : tmd_reach n s -> tmd_moves l s = Some s' -> tmd_reach n s'.
Proof.
  assert (forall l, foldl (fun o a => s ← o; tmd_step s a) None l = None) as Hn by (intros l'; by induction l').
  unfold tmd_moves. revert s. induction l as [|a l IH]; intros s Hr; [by intros [= <-]|]. cbn.
  destruct (tmd_step s a) as [s1|] eqn:H1; [|by rewrite Hn]. apply IH. by eapply tmd_reach_step.
Qed.

(** Client 0 takes the lock; then it starts to append. *)
Definition take_lock : list tmd_label := [Call 0 Acquire_check; Step 0; Step 0; Step 0; Step 0].
Definition into_append : list tmd_label := take_lock ++ [Call 0 (Pause_check For_append); Step 0; Step 0; Step 0].

Lemma tmdspinlock_pause_guarantee_witness : exists s,
  tmd_moves into_append (tmd_start 2) = Some s /\ clients s !! 0%nat = Some (Critical For_append) /\
  holder_id (tmd s) = 0 /\ tmd_flag (tmd s) = 1 /\
  forall s', tmd_step s Tick = Some s' -> holder_id (tmd s') = 0.
Proof.
  destruct (tmd_moves into_append (tmd_start 2)) as [s|] eqn:Hs; [|by vm_compute in Hs].
  pose proof (tmd_moves_reach 2 _ _ _ (tmd_reach_start 2) Hs) as Hr. exists s. split; [done|].
  assert (clients s !! 0%nat = Some (Critical For_append)) as Hc by (by vm_compute in Hs; injection Hs as <-).
  destruct (tmdspinlock_pause_guarantee 2 s 0%nat For_append Hr Hc) as (H1 & H2 & _ & H3).
  split_and!; [exact Hc|exact H1|exact H2|]. intros s' Hst. by apply (H3 Tick s' Hst).
Defined.

(** The client stops after taking the lock; a second later the timer has fired. *)
Definition expire : list tmd_label := take_lock ++ [Advance 1000000; Tick; Tick; Tick; Tick].

Lemma tmdspinlock_assert_never_fails_witness : exists s,
  tmd_moves expire (tmd_start 2) = Some s /\ aborted s = false /\ holder_id (tmd s) = -1.
Proof.
  destruct (tmd_moves expire (tmd_start 2)) as [s|] eqn:Hs; [|by vm_compute in Hs].
  pose proof (tmd_moves_reach 2 _ _ _ (tmd_reach_start 2) Hs) as Hr. exists s. split; [done|].
  split; [apply (tmdspinlock_assert_never_fails 2 s Hr)|]. by vm_compute in Hs; injection Hs as <-.
Defined.

Lemma tmdspinlock_free_timer_disabled_witness : exists s,
  tmd_moves expire (tmd_start 2) = Some s /\ tick_access s = s.
Proof.
  destruct (tmd_moves expire (tmd_start 2)) as [s|] eqn:Hs; [|by vm_compute in Hs].
  pose proof (tmd_moves_reach 2 _ _ _ (tmd_reach_start 2) Hs) as Hr. exists s. split; [done|].
  apply (tmdspinlock_free_timer_disabled 2 s Hr). by vm_compute in Hs; injection Hs as <-.
Defined.

Lemma tmdspinlock_expires_witness : exists s,
  tmd_moves (take_lock ++ [Advance 1000000]) (tmd_start 2) = Some s /\
  holder_id (tmd s) = 0 /\ holder_id (tmd (Nat.iter 4 tick_access s)) = -1.
Proof.
  destruct (tmd_moves (take_lock ++ [Advance 1000000]) (tmd_start 2)) as [s|] eqn:Hs; [|by vm_compute in Hs].
  pose proof (tmd_moves_reach 2 _ _ _ (tmd_reach_start 2) Hs) as Hr.
  vm_compute in Hs. injection Hs as <-. eexists. split; [reflexivity|]. split; [reflexivity|].
  apply (tmdspinlock_expires 2 _ Hr); [done|done| |by vm_compute].
  intros [|[|i]] pc Hi; [by injection Hi as <-|by injection Hi as <-|done].
Defined.

Lemma tmdspinlock_release_alone_witness : exists s s1 l,
  tmd_moves take_lock (tmd_start 2) = Some s /\
  tmd_step s (Call 0 (Pause_check For_release)) = Some s1 /\
  run_alone 11 0 s1 = s <| tmd := l |> /\ holder_id l = -1.
Proof.
  destruct (tmd_moves take_lock (tmd_start 2)) as [s|] eqn:Hs; [|by vm_compute in Hs].
  vm_compute in Hs. injection Hs as <-.
  match goal with |- exists s s1 l, Some ?t = _ /\ _ =>
    destruct (release_calls (clock t) (Z.of_nat 0) (tmd t)) as [[rc l]|] eqn:Hc; [|by vm_compute in Hc];
    destruct (tmdspinlock_release_alone t 0%nat rc l eq_refl eq_refl Hc) as (s1 & H1 & H2);
    exists t, s1, l
  end.
  split_and!; [done|exact H1|exact H2|]. vm_compute in Hc. by injection Hc as _ <-.
Defined.

(** * The cluster *)

(** The run before the vote that makes server 1 the leader. *)
Definition almost_elected : list label := take 7 elect_1.

Definition votes_for (n cand term : Z) (c : cluster) : bool :=
  match nodes c !! n with
  | Some nd => (voted_for (raft (n_world nd)) =? cand) && (current_term (raft (n_world nd)) =? term)
  | None => false
  end.

(** The last vote arrives. *)
Definition last_vote (c : cluster) : bool :=
  votes_for 2 1 1 c && negb (leads 1 1 c) &&
  match cstep demo_config c (L_deliver 1 0) with Some c' => leads 1 1 c' && votes_for 2 1 1 c' | None => false end.

Lemma last_vote_run : exists c c', reachable demo_config c /\ votes_for 2 1 1 c = true /\
  leads 1 1 c = false /\ cstep demo_config c (L_deliver 1 0) = Some c' /\ leads 1 1 c' = true.
Proof.
  destruct (benign_run almost_elected last_vote) as (c & Hr & H); [by vm_compute|].
  unfold last_vote in H. apply andb_true_iff in H as [[Hv Hl%negb_true_iff]%andb_true_iff H].
  destruct (cstep demo_config c (L_deliver 1 0)) as [c'|] eqn:Hs; [|done].
  apply andb_true_iff in H as [H _]. by exists c, c'.
Qed.

Lemma cluster_refines_election_witness : exists c c', leads 1 1 c = false /\ leads 1 1 c' = true /\
  astep (abs_cluster demo_config c) (abs_cluster demo_config c').
Proof.
  destruct last_vote_run as (c & c' & Hr & _ & Hl & Hs & Hl'). exists c, c'. split_and!; [done..|].
  by apply (cluster_refines_election demo_config c (L_deliver 1 0) c' demo_config_ok Hr I Hs).
Defined.

Lemma deliver_node c n k c' : cstep demo_config c (L_deliver n k) = Some c' -> is_Some (nodes c !! n).
Proof.
  unfold cstep. intros (s & _ & H)%bind_Some. apply bind_Some in H as (d & _ & H).
  case_decide; [|done]. unfold run_on in H. destruct (server_of demo_config n); [|done].
  destruct (nodes c !! n); [by eexists|done].
Qed.

(** The leader keeps the vote it gave itself. *)
Lemma vote_stable_witness : exists c c' nd nd', cstep demo_config c (L_deliver 1 0) = Some c' /\
  nodes c !! 1 = Some nd /\ nodes c' !! 1 = Some nd' /\ state (raft (n_world nd')) = LEADER /\
  current_term (raft (n_world nd)) <= 1.
Proof.
  destruct last_vote_run as (c & c' & Hr & Hv & Hl & Hs & (nd' & Hn' & Hl' & Ht)%leads_spec).
  destruct (nodes c !! 1) as [nd|] eqn:Hn; [|by apply deliver_node in Hs as [? Hs]; rewrite Hn in Hs].
  exists c, c', nd, nd'. split_and!; [done..|].
  destruct (vote_stable demo_config c (L_deliver 1 0) c' 1 nd nd' demo_config_ok Hr I Hs Hn Hn') as (H & _).
  cbn zeta in H. by rewrite Ht in H.
Defined.
