(* ===== verification/ServerInstances.v ===== *)
(** The theorems about the lock server, its RPC layer and the client library, each
    at a concrete state where its hypotheses hold. *)
From S2P Require Import Prelude Libc Posix RaftTypes PacketFormat Spinlock TimedLock RaftStorage StorageSpec RaftUtils RaftFollower RaftLeader RaftCandidate Raft Server RaftView RaftLog StateMachine ServerSpec LockService ServerRpc ServerRpcSpec ClientRpc ClientRpcSpec Scenarios Instances.
From Stdlib Require Import Ascii.

#[local] Open Scope string_scope.
#[local] Open Scope Z_scope.
#[local] Open Scope list_scope.

(** * The handlers *)

(** The leader of term 2 with two committed entries of term 1, and a client. *)
Definition small_server : server :=
  {| sv_raft := small_leader; sv_lock := tmdspinlock_init; current_log_entry := zero_log_entry |}.

Definition held_by (id : Z) : server :=
  small_server <| sv_lock := {| tmd_flag := 1; holder_id := id;
    tmd_timer := {| start_time := 0; duration := CLIENT_TIMEOUT; timer_state := 1 |} |} |>.

Lemma lock_acquire_token_witness : exists m s',
  handle_lock_acquire 0 5 [] small_server = Ok ((0, m), s') /\ get_token m = (2, 1) /\
  holder_id (sv_lock s') = 5.
Proof.
  destruct (lock_acquire_token 0 5 [] small_server) as (m & s' & H1 & H2 & _ & _ & H3 & _); [done..|].
  exists m, s'. split_and!; [exact H1|exact H2|exact H3].
Defined.

(** The run a computation ends in. *)
Lemma ok_test {A} (o : outcome A) (f : A -> bool) :
  match o with Ok a => f a | Fault _ => false end = true -> exists a, o = Ok a /\ f a = true.
Proof. destruct o as [a|]; [eauto|done]. Qed.

(** Client 5 has a session with no writes yet, and releases the lock. *)
Definition session_of_5 : server :=
  (held_by 5) <| current_log_entry ::= fun e => e <| le_client := 5 |> <| le_id := 1 |> |>.

Lemma small_sound : raft_sound small_leader.
Proof. split; [split; [apply small_leader_wf|done]|]. split; [apply small_leader_ready|done]. Qed.

Lemma session_of_5_rel : rel session_of_5 {| owner := Some 5; session := 1; pending := [] |}.
Proof.
  split; [apply small_sound|done|]. cbn. split; [lia|]. split; [done|]. split; [done|]. split; try done.
  exists [], (le_data zero_log_entry). apply tx_empty.
Qed.

Lemma server_refines_service_witness : exists s' l x',
  serve (Release 0 5 2 1 []) session_of_5 = Ok (None, s') /\
  svc_step {| owner := Some 5; session := 1; pending := [] |} l x' /\
  matches session_of_5 s' (Release 0 5 2 1 []) None l /\ rel s' x'.
Proof.
  destruct (serve (Release 0 5 2 1 []) session_of_5) as [[a s']|] eqn:H; [|by vm_compute in H].
  assert (a = None) as -> by (vm_compute in H; congruence).
  destruct (server_refines_service session_of_5 _ (Release 0 5 2 1 []) None s' session_of_5_rel)
    as (l & x' & H1 & H2 & H3); [cbn; lia|exact H|].
  exists s', l, x'. split_and!; [reflexivity|exact H1|exact H2|exact H3].
Defined.

(** Client 5 writes, once to the file with no name; client 6 has no lock; 5
    releases and 6 gets it. *)
Definition two_sessions : list event :=
  [Acquire 0 5 []; Append 0 5 (to_bytes "file_0") (to_bytes "x") []; Append 0 5 [] (to_bytes "w") [];
   Append 0 6 (to_bytes "file_0") (to_bytes "y") []; Timer 1; Release 1 5 2 1 [];
   Acquire 2 6 []; Append 2 6 (to_bytes "file_1") (to_bytes "z") []; Release 3 6 2 2 []].


Definition two_files : list (bytes * bytes) :=
  [(to_bytes "file_0", to_bytes "x"); (to_bytes "file_1", to_bytes "y"); (to_bytes "file_0", to_bytes "z")].

Lemma transaction_content_witness : exists s' d',
  run_writes 0 5 two_files (held_by 5) = Ok ([0; 0; 0], s') /\
  handle_raft_commit "d1/" (tx_data_of s') (disk small_leader) = Ok d' /\
  text_of d' "d1/file_0" = to_bytes "abxz".
Proof.
  destruct (ok_test (run_writes 0 5 two_files (held_by 5))
    (fun r => bool_decide (r.1 = [0; 0; 0]) &&
              is_ok (handle_raft_commit "d1/" (tx_data_of r.2) (disk small_leader))))
    as ([rs s'] & Hrun & [Hrs%bool_decide_eq_true Hc]%andb_true_iff); [by vm_compute|].
  cbn [fst snd] in Hrs, Hc. subst rs.
  destruct (handle_raft_commit "d1/" (tx_data_of s') (disk small_leader)) as [d'|] eqn:Hd; [|done].
  exists s', d'. split_and!; [done..|].
  transitivity (text_of (disk small_leader) "d1/file_0" ++ written (to_bytes "file_0") two_files [0; 0; 0]);
    [|by vm_compute].
  apply (transaction_content 0 5 two_files [0; 0; 0] (held_by 5) s' (disk small_leader) d' "d1/" (to_bytes "file_0"));
    [exists [], (le_data zero_log_entry); apply tx_empty| |by repeat constructor|done|done|done
    |apply elem_of_singleton; reflexivity|done].
  intros g. apply applied_free. by repeat constructor.
Defined.

Lemma small_orderly : orderly small_leader.
Proof. split; [apply small_leader_wf|done]. Qed.

(** The transaction 1 of term 1 was committed by an earlier leader. *)
Lemma lock_release_answer_witness : exists m s',
  handle_lock_release 0 5 1 1 [] [] small_server = Ok (Some (0, m), s') /\
  first_verdict 1 1 small_leader [] = Some 0.
Proof.
  destruct (ok_test (handle_lock_release 0 5 1 1 [] [] small_server)
    (fun r => match r.1 with Some a => a.1 =? 0 | None => false end)) as ([[[rc m]|] s'] & H & Hrc);
    [by vm_compute| |done].
  cbn in Hrc. apply Z.eqb_eq in Hrc. subst rc. exists m, s'. split; [done|].
  destruct (lock_release_answer 0 5 1 1 [] [] small_server (Some (0, m)) s') as [Hc _];
    [apply small_orderly|constructor|apply small_leader_ready|done|done|exact H|].
  rewrite decide_False in Hc by (cbn; lia). destruct Hc as (w1 & Hv & Hw). rewrite decide_False in Hw by (cbn; lia).
  rewrite Hw in Hv. symmetry. exact Hv.
Defined.

Lemma lock_release_expired_witness : exists m,
  handle_lock_release 0 6 2 1 [] [] (held_by 5) = Ok (Some (E_LOCK_EXP, m), held_by 5).
Proof. apply (lock_release_expired 0 6 1 [] [] (held_by 5)). done. Defined.

(** The client has written a thousand letters to the file and writes a hundred more. *)
Definition letters (n : nat) : bytes := replicate n "x"%char.
Definition long_entry : raft_transaction_entry :=
  {| filename := to_bytes "file_0"; buffer := letters 1000 |}.

Lemma append_file_overflow_witness :
  handle_append_file 0 5 (to_bytes "file_0") (letters 100) []
    ((held_by 5) <| current_log_entry ::= fun e => e <| le_data ::= fun l => long_entry :: tail l |> |>)
  = Fault BufferOverflow.
Proof.
  eapply (append_file_overflow 0 5 (to_bytes "file_0") (letters 100) [] _ long_entry _
    (to_bytes "file_0") (letters 1000) (letters 100)); try reflexivity; try done.
  apply Nat.leb_le. by vm_compute.
Defined.

(** There is room for 23 letters and the NUL, and no more. *)
Definition nearly_full : server :=
  (held_by 5) <| current_log_entry ::= fun e => e <| le_data ::= fun l => long_entry :: tail l |> |>.

Lemma nearly_full_ok : tx_ok nearly_full /\ arrays_ok (tx_data_of nearly_full).
Proof.
  split.
  - exists [long_entry], (tail (tx_data_of (held_by 5))). split; [done|..];
      apply (bool_decide_unpack _); vm_compute; exact I.
  - unfold arrays_ok. apply (bool_decide_unpack _). vm_compute. exact I.
Qed.

Lemma append_file_bound_witness :
  is_ok (handle_append_file 0 5 (to_bytes "file_0") (letters 23) [] nearly_full) = true /\
  handle_append_file 0 5 (to_bytes "file_0") (letters 24) [] nearly_full = Fault BufferOverflow.
Proof.
  destruct nearly_full_ok as [Htx Hok].
  pose proof (append_file_bound 0 5 (to_bytes "file_0") (letters 23) [] nearly_full eq_refl Htx Hok eq_refl eq_refl eq_refl) as H1.
  pose proof (append_file_bound 0 5 (to_bytes "file_0") (letters 24) [] nearly_full eq_refl Htx Hok eq_refl eq_refl eq_refl) as H2.
  assert (length (applied (until_nul (to_bytes "file_0")) (tx_data_of nearly_full)) = 1000%nat) as En by by vm_compute.
  cbn zeta in H1, H2. rewrite En in H1, H2. split.
  - destruct (handle_append_file _ _ _ (letters 23) _ _); [done|]. destruct H1 as [_ Hle].
    revert Hle. vm_compute. lia.
  - destruct (handle_append_file _ _ _ (letters 24) _ _) as [[r s']|f].
    + destruct H2 as [Hlt _]. revert Hlt. vm_compute. lia.
    + by destruct H2 as [-> _].
Defined.

(** The same leader with a full log. *)
Definition full_server : server :=
  (held_by 5) <| sv_raft ::= fun w => w <| raft ::= fun r => r <| log_count := 100 |> |> |>.

Lemma full_terms i e : log_at (raft (sv_raft full_server)) i = Some e -> le_term e <= 1.
Proof.
  unfold log_at. destruct (_ && _); [|done]. intros H.
  assert (forallb (fun e => le_term e <=? 1) (raft_log (raft (sv_raft full_server))) = true) as Hall
    by by vm_compute.
  apply list_elem_of_lookup_2 in H. apply (forallb_in _ _ Hall) in H. lia.
Qed.

Lemma lock_release_full_log_waits_witness : exists s',
  handle_lock_release 0 5 2 3 [] (replicate 50 (fun w => w)) full_server = Ok (None, s') /\
  sv_raft s' = sv_raft full_server.
Proof.
  apply (lock_release_full_log_waits 0 5 3 [] 50 full_server);
    [split; [apply wfb_ok; by vm_compute|done]|done..|].
  intros i e He%full_terms. unfold hits. change (current_term (raft (sv_raft full_server))) with 2. lia.
Defined.

(** * The threads of the server *)

(** Moves of threads whose packets pass the test [g] at their check. *)
Definition play_if (g : rpc_sys -> packet_info -> bool) (l : list ((Z * bytes) * nat)) (s : rpc_sys)
    : option rpc_sys :=
  foldl (fun o m =>
    s ← o; t ← ss_threads s !! m.2;
    if bool_decide (rt_pc t = Found) && negb (g s (rt_packet t)) then None
    else req_step LEADER m.1 m.2 s) (Some s) l.

Lemma play_if_reach (g : rpc_sys -> packet_info -> bool) (G : rpc_sys -> packet_info -> Prop) sd l s s' :
  (forall s p, g s p = true -> G s p) -> rpc_reach G sd s -> play_if g l s = Some s' -> rpc_reach G sd s'.
Proof.
  intros Hg. unfold play_if. revert s. induction l as [|[ans i] l IH]; intros s Hr; cbn; [by intros [= <-]|].
  assert (forall l, foldl (fun o (m : (Z * bytes) * nat) =>
    s ← o; t ← ss_threads s !! m.2;
    if bool_decide (rt_pc t = Found) && negb (g s (rt_packet t)) then None
    else req_step LEADER m.1 m.2 s) None l = None) as Hn by (intros l'; by induction l').
  destruct (ss_threads s !! i) as [t|] eqn:Hi; cbn; [|by rewrite Hn].
  destruct (bool_decide (rt_pc t = Found) && negb (g s (rt_packet t))) eqn:Hb; [by rewrite Hn|].
  destruct (req_step LEADER ans i s) as [s1|] eqn:Hs; [|by rewrite Hn].
  apply IH. eapply rpc_reach_step; [done|done|]. intros t' Ht' Hpc. rewrite Hi in Ht'. injection Ht' as <-.
  apply Hg. rewrite bool_decide_true in Hb by done. by destruct (g s (rt_packet t)).
Qed.

Definition in_orderb (s : rpc_sys) (p : packet_info) : bool :=
  match table_vtime s (pk_client_id p) with Some v => v <=? pk_vtime p | None => false end.

Lemma in_orderb_ok s p : in_orderb s p = true -> in_order s p.
Proof. unfold in_orderb, in_order. destruct (table_vtime _ _) as [v|]; [|done]. intros H. exists v. split; [done|lia]. Qed.

(** Client 7 sends request 0 twice, then request 1. *)
Definition caller : sockaddr_in := sock 1.
Definition three_requests : rpc_sys :=
  rpc_listen (client_packet 7 1 APPEND_FILE) caller (rpc_listen (client_packet 7 0 LOCK_ACQUIRE) caller
    (rpc_listen (client_packet 7 0 LOCK_ACQUIRE) caller (rpc_start 0))).

Lemma three_requests_reach G : rpc_reach G 0 three_requests.
Proof. do 3 apply rpc_reach_listen. apply rpc_reach_start. Qed.

Lemma played (g : rpc_sys -> packet_info -> bool) (G : rpc_sys -> packet_info -> Prop) l (f : rpc_sys -> bool) :
  (forall s p, g s p = true -> G s p) ->
  match play_if g l three_requests with Some s => f s | None => false end = true ->
  exists s, rpc_reach G 0 s /\ f s = true.
Proof.
  intros Hg. destruct (play_if g l three_requests) as [s|] eqn:Hp; [|done]. intros Hf. exists s.
  split; [|done]. eapply play_if_reach; [exact Hg|apply three_requests_reach|exact Hp].
Qed.

Definition moves (l : list nat) : list ((Z * bytes) * nat) := (fun i => ((0, []), i)) <$> l.

(** The three threads run side by side; two of the three requests are handled. *)
Lemma rpc_at_most_once_witness : exists s, rpc_reach in_order 0 s /\
  executed s = [(7, 0); (7, 1)] /\ NoDup (executed s).
Proof.
  destruct (played in_orderb in_order (moves [0; 1; 2; 0; 1; 2; 0; 0; 2; 2]%nat)
    (fun s => bool_decide (executed s = [(7, 0); (7, 1)])) in_orderb_ok) as (s & Hr & H%bool_decide_eq_true);
    [by vm_compute|].
  exists s. split_and!; [done|done|]. apply (rpc_at_most_once 0 s Hr).
Defined.

(** Runs with clients that wait: a datagram arrives, or a thread moves. *)
Inductive client_event := Arrives (p : packet_info) | Moves (ans : Z * bytes) (i : nat).

Definition answeredb (s : rpc_sys) (k : Z * Z) : bool := bool_decide (k ∈ (answers s).*1).
Definition turned_awayb (s : rpc_sys) (k : Z * Z) : bool :=
  bool_decide (k ∉ executed s) &&
  forallb (fun t => negb (bool_decide (req_key (rt_packet t) = k)) || bool_decide (rt_pc t = Done)) (ss_threads s).
Definition waitsb (s : rpc_sys) (p : packet_info) : bool :=
  forallb (fun t =>
    negb (bool_decide (pk_client_id (rt_packet t) = pk_client_id p)) ||
    (((pk_vtime p <=? pk_vtime (rt_packet t)) ||
      (answeredb s (req_key (rt_packet t)) || turned_awayb s (req_key (rt_packet t)))) &&
     ((pk_vtime (rt_packet t) <=? pk_vtime p) || answeredb s (req_key p)))) (ss_threads s).

Lemma turned_awayb_ok s k : turned_awayb s k = true -> turned_away s k.
Proof.
  unfold turned_awayb. intros [Hk%bool_decide_eq_true Ht]%andb_true_iff. split; [done|]. intros i t Hi Hkey.
  rewrite forallb_forall in Ht. specialize (Ht t). rewrite bool_decide_true in Ht by done.
  apply (bool_decide_eq_true_1 _), Ht. by apply list_elem_of_In, (list_elem_of_lookup_2 _ i).
Qed.

Lemma waitsb_ok s p : waitsb s p = true -> waits s p.
Proof.
  unfold waitsb. rewrite forallb_forall. intros H i t Hi Hid. specialize (H t).
  rewrite bool_decide_true in H by done.
  destruct (andb_prop _ _ (H ltac:(by apply list_elem_of_In, (list_elem_of_lookup_2 _ i)))) as [H1 H2]. split.
  - intros Hlt. apply orb_true_iff in H1 as [?%Z.leb_le|[Ha|Ha]%orb_true_iff]; [lia| |].
    + left. by apply bool_decide_eq_true in Ha.
    + right. by apply turned_awayb_ok.
  - intros Hlt. apply orb_true_iff in H2 as [?%Z.leb_le|Ha]; [lia|by apply bool_decide_eq_true in Ha].
Qed.

Definition client_run (l : list client_event) (s : rpc_sys) : option rpc_sys :=
  foldl (fun o e =>
    s ← o;
    match e with
    | Arrives p => if waitsb s p then Some (rpc_listen p caller s) else None
    | Moves ans i =>
        t ← ss_threads s !! i;
        if bool_decide (rt_pc t = Found) && negb (in_orderb s (rt_packet t)) then None
        else req_step LEADER ans i s
    end) (Some s) l.

Lemma client_run_reach sd l s s' : client_reach sd s -> client_run l s = Some s' -> client_reach sd s'.
Proof.
  unfold client_run. revert s. induction l as [|e l IH]; intros s Hr; cbn [foldl]; [by intros [= <-]|].
  match goal with |- foldl ?f ?o l = _ -> _ => set (g := f); destruct o as [s1|] eqn:He end.
  - apply IH. destruct e as [p|ans i]; cbn in He.
    + destruct (waitsb s p) eqn:Hw; [|done]. injection He as <-.
      apply client_reach_listen; [done|by apply waitsb_ok].
    + destruct (ss_threads s !! i) as [t|] eqn:Hi; [|done]. cbn in He.
      destruct (bool_decide (rt_pc t = Found) && negb (in_orderb s (rt_packet t))) eqn:Hb; [done|].
      eapply client_reach_step; [done|done|]. intros t' Ht' Hpc. rewrite Hi in Ht'. injection Ht' as <-.
      apply in_orderb_ok. rewrite bool_decide_true in Hb by done. by destruct (in_orderb s (rt_packet t)).
  - assert (foldl g None l = None) as -> by (clear; by induction l). done.
Qed.

Lemma client_played l (f : rpc_sys -> bool) :
  match client_run l (rpc_start 0) with Some s => f s | None => false end = true ->
  exists s, client_reach 0 s /\ f s = true.
Proof.
  destruct (client_run l (rpc_start 0)) as [s|] eqn:Hp; [|done]. intros Hf. exists s.
  split; [|done]. eapply client_run_reach; [apply client_reach_start|exact Hp].
Qed.

(** Request 0 in two copies; when it is answered request 1 comes, and a late
    copy of request 0 that is checked before it; the handler of request 1 runs. *)
Definition two_waiting_requests : list client_event :=
  [Arrives (client_packet 7 0 LOCK_ACQUIRE); Arrives (client_packet 7 0 LOCK_ACQUIRE);
   Moves (0, []) 0; Moves (0, []) 1; Moves (0, []) 0; Moves (0, []) 0; Moves (0, []) 0;
   Arrives (client_packet 7 1 APPEND_FILE); Arrives (client_packet 7 0 LOCK_ACQUIRE);
   Moves (0, []) 3; Moves (0, []) 3; Moves (0, []) 2; Moves (0, []) 2].

Lemma rpc_one_handler_witness : exists s, client_reach 0 s /\
  executed s = [(7, 0); (7, 1)] /\ count (at_work 7) (ss_threads s) <= 1.
Proof.
  destruct (client_played two_waiting_requests (fun s => bool_decide (executed s = [(7, 0); (7, 1)])))
    as (s & Hr & H%bool_decide_eq_true); [by vm_compute|].
  exists s. split_and!; [done|done|]. apply (rpc_one_handler 0 s 7 Hr).
Defined.

(** The second copy of request 1 is checked when the first one is answered. *)
Lemma rpc_duplicate_answered_witness : exists s s' r, client_reach 0 s /\
  req_step LEADER (0, []) 4 s = Some s' /\ executed s' = [(7, 0); (7, 1)] /\
  sent (ss_conn s') = sent (ss_conn s) ++ [(caller, r)] /\ rs_vtime r = 1.
Proof.
  destruct (client_played (two_waiting_requests ++
      [Arrives (client_packet 7 1 APPEND_FILE); Moves (0, []) 2; Moves (0, []) 2; Moves (0, []) 4])
    (fun s => bool_decide (executed s = [(7, 0); (7, 1)]) && bool_decide (table_vtime s 7 = Some 1) &&
       bool_decide (ss_threads s !! 4%nat =
         Some {| rt_packet := client_packet 7 1 APPEND_FILE; rt_addr := caller; rt_pc := Found |}) &&
       bool_decide (is_Some (req_step LEADER (0, []) 4 s)))) as (s & Hr & H); [by vm_compute|].
  apply andb_true_iff in H as [[[He%bool_decide_eq_true Hv%bool_decide_eq_true]%andb_true_iff
    Ht%bool_decide_eq_true]%andb_true_iff [s' Hs]%bool_decide_eq_true].
  destruct (rpc_duplicate_answered 0 s LEADER (0, []) 4 _ s' Hr Ht eq_refl Hv Hs) as (H1 & r & H2 & _ & H3 & _).
  exists s, s', r. split_and!; [done|done|by rewrite H1|exact H2|exact H3].
Defined.

Lemma rpc_thread_progress_witness : exists s s', rpc_reach in_order 0 s /\
  count (at_work 7) (ss_threads s) = 1 /\ req_step LEADER (0, []) 1 s = Some s'.
Proof.
  destruct (played in_orderb in_order (moves [0; 1; 0]%nat)
    (fun s => (count (at_work 7) (ss_threads s) =? 1) &&
       bool_decide (ss_threads s !! 1%nat =
         Some {| rt_packet := client_packet 7 0 LOCK_ACQUIRE; rt_addr := caller; rt_pc := Found |}))
    in_orderb_ok) as (s & Hr & [Hw%Z.eqb_eq Ht%bool_decide_eq_true]%andb_true_iff); [by vm_compute|].
  destruct (rpc_thread_progress in_order 0 s 1 _ LEADER (0, []) Hr Ht) as [s' Hs]; [done..|].
  by exists s, s'.
Defined.

(** The acquire of client 7, and a copy of it, at the leader. *)
Lemma handle_packet_repeat_witness : exists s' c' r,
  @handle_packet server (server_handlers 0 []) (client_packet 7 0 LOCK_ACQUIRE) caller
    (small_server, Server_RPC_init 0) = Ok (true, (s', c')) /\
  @handle_packet server (server_handlers 0 []) (client_packet 7 0 LOCK_ACQUIRE) (sock 2)
    (s', c') = Ok (true, (s', ServerRpcSpec.send (sock 2) r c')) /\
  rs_rc r = 0 /\ get_token (rs_message r) = (2, 1) /\ holder_id (sv_lock s') = 7.
Proof.
  set (p := client_packet 7 0 LOCK_ACQUIRE).
  destruct (ok_test (@dispatch server (server_handlers 0 []) p (response_to p) small_server)
    (fun a => match a.1 with
              | Some r => (rs_rc r =? 0) && bool_decide (get_token (rs_message r) = (2, 1)) &&
                          (holder_id (sv_lock a.2) =? 7) &&
                          bool_decide (state (raft (sv_raft a.2)) = LEADER)
              | None => false end)) as ([[r|] s'] & Hd & H); [by vm_compute| |done].
  cbn [fst snd] in H. apply andb_true_iff in H as [[[H1%Z.eqb_eq H2%bool_decide_eq_true]%andb_true_iff
    H3%Z.eqb_eq]%andb_true_iff H4%bool_decide_eq_true].
  destruct (@handle_packet_repeat server (server_handlers 0 []) p caller (sock 2) small_server s'
    (Server_RPC_init 0) r) as (c' & Ha & _ & Hb); [done|exact H4|apply (ri_free (rpc_start 0)), (rpc_inv_reach in_order 0), rpc_reach_start|done| |exact Hd|].
  { unfold client_of. by vm_compute. }
  exists s', c', r. split_and!; [exact Ha|exact Hb|done..].
Defined.

(** * The client library *)

(** Client 7, at its request 4; server 1 does not answer, server 2 does not lead
    and an answer to an old request comes late. *)
Definition reply (rc vtime : Z) (message : bytes) : response_info :=
  {| rs_client_id := 7; rs_rc := rc; rs_vtime := vtime; rs_message := message |}.

Definition small_client (reads : list read_result) : client :=
  {| cl_rpc := {| rc_sd := 3; recv_addr := caller; rc_client_id := 7; rc_vtime := 4;
                  raft_config := demo_config; current_leader_index := 0; current_transaction := [] |};
     cl_reads := reads; cl_sent := [] |}.

Lemma small_client_ok reads : ClientRpcSpec.config_ok (small_client reads).
Proof. split; [done|]. cbn. unfold N_SERVERS. lia. Qed.

Definition token : bytes := put_token 2 1 [].
Definition trouble : list read_result :=
  replicate 10 TimedOut ++ [Received 268 (sock 10002) (reply E_FOLLOWER 4 []);
    Received 268 (sock 10003) (reply 0 3 []); Received 268 (sock 10003) (reply E_IN_PROGRESS 4 [])].

Lemma trouble_goes_on reads packet : Forall (fun x => goes_on (stamped (small_client reads) packet) x = true) trouble.
Proof. by repeat constructor. Qed.

Lemma send_packet_returns_witness : exists c',
  send_packet 0 (request LOCK_ACQUIRE) (small_client (trouble ++ [Received 268 (sock 10003) (reply 0 4 token)])) =
    Ok ((268, reply 0 4 token), c') /\ rc_vtime (cl_rpc c') = 5.
Proof.
  destruct (send_packet_returns 0 (request LOCK_ACQUIRE)
    (small_client (trouble ++ [Received 268 (sock 10003) (reply 0 4 token)])) trouble 268 (sock 10003)
    (reply 0 4 token) []) as (c' & l & H & _ & _ & _ & Hv & _);
    [apply small_client_ok|done|done|apply trouble_goes_on|done|].
  exists c'. split; [exact H|exact Hv].
Defined.

Lemma send_packet_accepts_witness : exists rc r c',
  send_packet 0 (request LOCK_ACQUIRE) (small_client [TimedOut; Received 268 (sock 10001) (reply 0 4 token)]) =
    Ok ((rc, r), c') /\ exists pre x,
    [TimedOut; Received 268 (sock 10001) (reply 0 4 token)] = pre ++ x :: cl_reads c' /\
    (x = Failed \/ exists from, x = Received rc from r /\ rs_rc r <> E_FOLLOWER).
Proof.
  destruct (returns_ok (send_packet 0 (request LOCK_ACQUIRE))
    (small_client [TimedOut; Received 268 (sock 10001) (reply 0 4 token)])) as ([rc r] & c' & H); [done|].
  exists rc, r, c'. split; [done|].
  destruct (send_packet_accepts 0 (request LOCK_ACQUIRE) _ rc r c' (small_client_ok _) H)
    as (pre & x & Hp & _ & Hx). exists pre, x. split; [exact Hp|].
  destruct Hx as [[-> _]|(from & -> & _ & _ & Hf & _)]; [by left|right; by exists from].
Defined.

(** Twelve reads time out: ten copies go to server 1, three to server 2. *)
Lemma send_packet_rotates_witness : exists c',
  send_packet 0 (request LOCK_ACQUIRE)
    (small_client (replicate 12 TimedOut ++ [Received 268 (sock 10002) (reply 0 4 token)])) =
    Ok ((268, reply 0 4 token), c') /\ current_leader_index (cl_rpc c') = 1 /\
  (cl_sent c').*1 = replicate 10 (sock 10001) ++ replicate 3 (sock 10002).
Proof.
  destruct (send_packet_rotates 0 (request LOCK_ACQUIRE)
    (small_client (replicate 12 TimedOut ++ [Received 268 (sock 10002) (reply 0 4 token)])) 12 268 (sock 10002)
    (reply 0 4 token) []) as (c' & H & Hs & Hi); [apply small_client_ok|done..|].
  exists c'. split_and!; [exact H|exact Hi|]. rewrite Hs. by vm_compute.
Defined.

Lemma rpc_token_roundtrip_witness : exists c1 c2 l,
  RPC_acquire_lock 0 (small_client (trouble ++ [Received 268 (sock 10003) (reply 0 4 token);
    TimedOut; Received 268 (sock 10003) (reply 0 5 [])])) = Ok (0, c1) /\
  RPC_release_lock 0 c1 = Ok (0, c2) /\ cl_sent c2 = cl_sent c1 ++ l /\ l <> [] /\
  Forall (fun x => pk_operation x.2 = LOCK_RELEASE /\ get_token (pk_buffer x.2) = (2, 1)) l.
Proof.
  set (c := small_client (trouble ++ [Received 268 (sock 10003) (reply 0 4 token);
    TimedOut; Received 268 (sock 10003) (reply 0 5 [])])).
  destruct (rpc_token_roundtrip 0 0 c trouble 268 (sock 10003) (reply 0 4 token)
    [TimedOut; Received 268 (sock 10003) (reply 0 5 [])] 2 1 []) as (c1 & H1 & H2);
    [apply small_client_ok|done|done|done|apply trouble_goes_on|done..|].
  destruct (ok_test ((RPC_acquire_lock 0;; RPC_release_lock 0) c) (fun r => r.1 =? 0))
    as ([res c2] & Hr & Hres%Z.eqb_eq); [by vm_compute|].
  rewrite run_bind, H1 in Hr. cbn [fst] in Hres. subst res.
  destruct (H2 0 c2 Hr) as (l & Hl & Hne & Hall). by exists c1, c2, l.
Defined.
