(* ===== verification/SessionInstances.v ===== *)
(** The theorems on client programs and sessions at concrete runs. *)
From S2P Require Import Prelude Libc Posix RaftTypes PacketFormat Spinlock TimedLock RaftStorage StorageSpec RaftUtils RaftFollower RaftLeader RaftCandidate Raft Server RaftView RaftLog StateMachine ServerSpec LockService ServerRpc ServerRpcSpec ClientRpc ClientRpcSpec TestClients TestClientsSpec ClientSession Scenarios Instances ServerInstances.
From Stdlib Require Import Ascii.

#[local] Open Scope string_scope.
#[local] Open Scope Z_scope.
#[local] Open Scope list_scope.

(** A network that loses the first copy of every request: a time-out, then the
    answer, which carries the token of [small_server]'s next transaction. *)
Definition success (v : Z) : response_info := reply 0 v token.
Definition lossy (v : Z) (n : nat) : list read_result :=
  flat_map (fun v => [TimedOut; Received 268 (sock 10001) (success v)]) (seqZ v (Z.of_nat n)).

Lemma lossy_answers_to v rs rest :
  (forall q v, q ∈ rs -> rq_answer q (success v)) -> answered v rs (lossy v (length rs) ++ rest) rest.
Proof.
  revert v. induction rs as [|q rs IH]; intros v Hq; [done|]. unfold lossy. cbn [length].
  rewrite seqZ_cons by lia. replace (Z.pred (Z.of_nat (S (length rs)))) with (Z.of_nat (length rs)) by lia.
  cbn [flat_map]. exists [TimedOut], 268, (sock 10001), (success v), (lossy (v + 1) (length rs) ++ rest).
  split; [done|]. split; [by repeat constructor|]. split.
  - unfold acceptable, keep_reading. cbn. by rewrite Z.ltb_irrefl.
  - split; [lia|]. split; [apply Hq; by left|]. apply IH. intros q' v' Hin. apply Hq. by right.
Qed.

Lemma lossy_answers v rs :
  (forall q v, q ∈ rs -> rq_answer q (success v)) -> answered v rs (lossy v (length rs)) [].
Proof. intros H. rewrite <- (app_nil_r (lossy _ _)). by apply lossy_answers_to. Qed.

Definition start_client (rs : list request_spec) : client :=
  small_client (lossy 0 (S (length rs))).

Definition small_token : Z * Z := (2, 1).

(** Every request of the program is answered by [success]. *)
Lemma success_answers (q : request_spec) v :
  rq_answer q = any_answer \/ rq_answer q = accepted \/ rq_answer q = grants (Some small_token) ->
  rq_answer q (success v).
Proof.
  intros [E|[E|E]]; rewrite E; [done|done|]. intros k [= <-]. split; [done|]. by vm_compute.
Qed.

Lemma normal_answers junk id q v :
  q ∈ plain_request CLIENT_INIT accepted :: normal_requests junk (Some small_token) id -> rq_answer q (success v).
Proof.
  intros [->|Hq]%elem_of_cons; [by apply success_answers; auto|]. apply success_answers.
  unfold normal_requests in Hq. cbv zeta in Hq. apply elem_of_app in Hq as [->%list_elem_of_singleton|Hq]; [auto|].
  apply elem_of_app in Hq as [Hq|Hq].
  - apply list_elem_of_In, in_flat_map in Hq as (i & _ & Hq). apply in_flat_map in Hq as (k & _ & Hq).
    apply list_elem_of_In, list_elem_of_fmap in Hq as (ch & -> & _). auto.
  - repeat (apply elem_of_cons in Hq as [->|Hq]; [by auto|]). by apply not_elem_of_nil in Hq.
Qed.

(** The third write of [client_long_requests] comes too late. *)
Definition late (v : Z) : response_info := reply E_LOCK_EXP v [].
Definition third_late : list read_result :=
  lossy 0 4 ++ [TimedOut; Received 268 (sock 10001) (late 4)].

(** Its first four requests, and the late write. *)
Definition long_start : list request_spec :=
  [plain_request CLIENT_INIT accepted; acquire_request (Some small_token);
   append_request accepted (file_name 0) (char_buffer [] "l"); append_request accepted (file_name 0) (char_buffer [] "o")].
Definition long_late : request_spec := append_request refused (file_name 0) (char_buffer [] "n").

Lemma test_clients_run_witness : exists c' l,
  client_long_requests (fun _ => 0) [] (Some demo_config) 5 7 (small_client third_late) = Ok (0, c') /\
  cl_reads c' = [] /\ cl_sent c' = l /\ sent_by 5 0 (long_start ++ [long_late]) l.
Proof.
  assert (plain_request CLIENT_INIT accepted :: long_requests_requests [] (Some small_token) 2 5 =
    long_start ++ [long_late]) as E by reflexivity.
  destruct (test_clients_run (fun _ => 0) (fun _ => Z.le_refl 0) [] (fun _ => Some small_token) 2
    (client_long_requests (fun _ => 0) []) (long_requests_requests [] (Some small_token) 2 5) 5 7 demo_config
    (small_client third_late) []) as (c' & l & H & Hr & Hs & Hl);
    [by do 3 right; left|done|done|done| |].
  - rewrite E. apply (answered_app 0 long_start [long_late]).
    exists [TimedOut; Received 268 (sock 10001) (late 4)]. split.
    + apply (lossy_answers_to 0 long_start). intros q v Hq. apply success_answers. unfold long_start in Hq.
      repeat (apply elem_of_cons in Hq as [->|Hq]; [by auto|]). by apply not_elem_of_nil in Hq.
    + exists [TimedOut], 268, (sock 10001), (late 4), []. by split_and!; repeat constructor.
  - rewrite E in Hl. exists c', l. split; [exact H|]. split; [exact Hr|]. split; [exact Hs|exact Hl].
Defined.

Lemma small_ready : ready_leader small_leader.
Proof. split; [apply small_sound|done|done|done]. Qed.

Lemma start_free : conn_free (Server_RPC_init 0).
Proof. split; [done|done|]. intros id x Hx. by rewrite start_table in Hx. Qed.

Lemma normal_client_logged_witness : exists cl' l1 s' conn' e,
  client_normal (fun _ => 0) [] (Some demo_config) 5 7 (start_client (normal_requests [] (Some small_token) 5)) = Ok (0, cl') /\
  handle_all (handlers_at (fun v => v)) caller l1 (small_server, Server_RPC_init 0) = Ok (tt, (s', conn')) /\
  log_at (raft (sv_raft s')) 2 = Some e /\ le_client e = 5 /\
  applied (fname 3) (le_data e) =
    flat_map id (replicate 20 (to_bytes ("normal requests client message (id 5)" +:+ newline))).
Proof.
  destruct (normal_client_logged (fun _ => 0) (fun v => v) [] demo_config 5 7
    (start_client (normal_requests [] (Some small_token) 5)) [] caller small_server (Server_RPC_init 0))
    as (cl' & l1 & l2 & s' & conn' & e & H1 & _ & H2 & _ & H3 & H4 & H5);
    [done|done|done|done| | |exact small_ready|done|exact start_free|apply start_table|].
  - apply (lossy_answers 0 (_ :: _)), normal_answers.
  - split; [apply small_sound|done|done].
  - exists cl', l1, s', conn', e. split; [exact H1|]. split; [exact H2|]. split; [exact H3|]. split; [exact H4|].
    rewrite H5. by vm_compute.
Defined.
