(* ===== verification/SnapshotInstances.v ===== *)
(** The theorems on the transfer of a snapshot, each at concrete servers. *)
From S2P Require Import Prelude Libc Posix RaftTypes RaftStorage StorageSpec RaftUtils RaftFollower RaftLeader RaftCandidate Raft SnapshotInstall SnapshotTransfer Server Cluster Scenarios Instances.
From Stdlib Require Import Ascii.

#[local] Open Scope string_scope.
#[local] Open Scope Z_scope.
#[local] Open Scope list_scope.

(** * Tests *)

Definition idleb (sid : Z) (w : world) : bool :=
  (lock_flag (raft w) =? 0) && (install_snapshot_index (raft w) =? -1) && (install_snapshot_id (raft w) =? -1) &&
  forallb (fun k => bool_decide (texts (disk w) (files_dir (raft w)) sid k = None)) file_numbers.

Lemma idleb_ok sid w : idleb sid w = true -> disk_ready w -> idle sid w.
Proof.
  unfold idleb. rewrite !andb_true_iff, !Z.eqb_eq. intros (((? & ?) & ?) & Hf) Hd. split; try done.
  intros k Hk. by apply (forallb_in _ _ Hf) in Hk as ?%bool_decide_eq_true.
Qed.

Definition small_filesb (d : fs raft_state) (dir : string) (sid : Z) : bool :=
  forallb (fun k => match files d !! snap_file dir sid k with
    | Some c => bool_decide (NUL ∉ f_text c) && (length (f_text c) <? BUFFER_SIZE)%nat
    | None => true end) file_numbers.

Lemma small_filesb_ok d dir sid : small_filesb d dir sid = true -> small_files d dir sid.
Proof.
  intros Hf k c Hk Hc. apply (forallb_in _ _ Hf) in Hk. rewrite Hc in Hk.
  by apply andb_true_iff in Hk as [?%bool_decide_eq_true ?%Nat.ltb_lt].
Qed.

(** * The follower *)

(** Snapshot 50 of the leader 2: the file 0 with "a" and the file 3 with "bc". *)
Definition two_chunks : list chunk := [(0, to_bytes "a"); (3, to_bytes "bc")].

Definition two_packet (i : nat) : sockaddr_in * raft_install_snapshot_request :=
  (sock 30002,
   {| ir_term := 1; ir_leader_id := 2; ir_snapshot_id := 50; ir_index := Z.of_nat i;
      ir_done := match two_chunks !! i with Some _ => 0 | None => 1 end; ir_request_id := Z.of_nat i;
      ir_filename := match two_chunks !! i with Some c => to_bytes (file_name c.1) | None => [] end;
      ir_buffer := match two_chunks !! i with Some c => c.2 | None => [] end |}).

Lemma two_packet_ok i : (i <= 2)%nat -> chunk_packet 50 two_chunks (two_packet i).2.
Proof. intros Hi. split; [done|]. exists i. split; [done|]. by destruct i as [|[|[|]]]; [..|lia]. Qed.

Lemma chunk_check k t :
  bool_decide (k ∈ file_numbers) && bool_decide (NUL ∉ t) && (length t <? BUFFER_SIZE)%nat = true ->
  chunk_ok (k, t).
Proof. rewrite !andb_true_iff. by intros [[?%bool_decide_eq_true ?%bool_decide_eq_true] ?%Nat.ltb_lt]. Qed.

Lemma two_chunks_ok : chunks_ok 50 two_chunks.
Proof.
  split; [lia|by vm_compute| |cbn; unfold INT_MAX; lia].
  repeat constructor; apply chunk_check; by vm_compute.
Qed.

(** A chunk too early, copies, and the end twice. *)
Definition jumbled : list (sockaddr_in * raft_install_snapshot_request) :=
  two_packet <$> [1; 0; 0; 2; 1; 0; 2; 2]%nat.

Lemma snapshot_install_any_order_witness : exists l1 l2 w1,
  jumbled = l1 ++ l2 /\ install_all l1 (small_world 1 "xy") = Ok (tt, w1) /\
  start_log_index (raft w1) = 50 /\ texts (disk w1) "d1/" 50 3 = Some (to_bytes "bc") /\
  texts (disk w1) "d1/" (-1) 0 = Some (to_bytes "a").
Proof.
  destruct (snapshot_install_any_order (small_world 1 "xy") 50 two_chunks jumbled)
    as [(w' & Hw & Hu)|(l1 & l2 & w1 & Hl & Hw & Hi)].
  - apply idleb_ok; [by vm_compute|apply small_disk_ready].
  - exact two_chunks_ok.
  - split; [cbn; lia|by split].
  - unfold jumbled. apply list.Forall_forall. intros p (i & -> & Hi)%list_elem_of_fmap.
    apply two_packet_ok. repeat (apply elem_of_cons in Hi as [->|Hi]; [lia|]). by apply not_elem_of_nil in Hi.
  - exfalso. apply ut_start in Hu.
    assert (match install_all jumbled (small_world 1 "xy") with
            | Ok (_, w) => start_log_index (raft w) =? 50 | Fault _ => false end = true) as E by by vm_compute.
    rewrite Hw, Hu in E. by vm_compute in E.
  - exists l1, l2, w1. pose proof Hi as [_ _ _ Hs _ _ _ _ Hsnap Hmain _].
    split; [exact Hl|]. split; [exact Hw|]. split; [exact Hs|]. split.
    + etransitivity; [apply Hsnap; apply elem_of_seqZ; unfold N_FILES; lia|by vm_compute].
    + etransitivity; [apply Hmain; apply elem_of_seqZ; unfold N_FILES; lia|by vm_compute].
Defined.

(** * The leader and the follower *)

(** The leader 2 of term 3, whose log starts at 50. *)
Definition compacted_leader : world :=
  {| raft := zero_raft_state <| files_dir := "d2/" |> <| raft_id := 2 |> <| config := demo_config |>
       <| current_term := 3 |> <| voted_for := 2 |> <| state := LEADER |> <| start_log_index := 50 |>
       <| log_count := 51 |> <| commit_index := 50 |>
       <| install_snapshot_id := -1 |> <| install_snapshot_index := -1 |>;
     disk := mkFs (<["d2/snapshot_50/file_0" := mkFile None (to_bytes "ab")]>
                   {["d2/snapshot_50/file_3" := mkFile None (to_bytes "c")]})
                  {["d2/"; "d2/snapshot_50/"]};
     out := []; spawned := [] |}.

Lemma compacted_leader_needs : needs_snapshot 1 compacted_leader.
Proof.
  split; try done.
  - split; [by apply (bool_decide_unpack _); vm_compute|cbn; set_solver|cbn; lia].
  - exists 0. split; [done|cbn; lia].
  - by exists 0.
  - by exists 0.
  - exists 0. split; [done|unfold INT_MAX; lia].
  - apply small_filesb_ok. by vm_compute.
Qed.

