(* ===== verification/ReplicationInstances.v ===== *)
(** The theorem on replication at two concrete servers. *)
From S2P Require Import Prelude Libc Posix RaftTypes RaftStorage StorageSpec RaftUtils RaftFollower RaftLeader RaftCandidate Raft RaftView RaftLog LogSpec LogRefine Replication Server Cluster Scenarios Instances.
From Stdlib Require Import Ascii.

#[local] Open Scope string_scope.
#[local] Open Scope Z_scope.
#[local] Open Scope list_scope.

(** * Tests *)

Definition entries_all (f : raft_log_entry -> bool) (r : raft_state) : bool := forallb f (raft_log r).

Lemma entries_all_ok f r : entries_all f r = true -> forall i e, log_at r i = Some e -> f e = true.
Proof.
  intros Hf i e He. unfold log_at in He. destruct (_ && _); [|done].
  apply list_elem_of_lookup_2 in He. by apply (forallb_in _ _ Hf).
Qed.

Definition readableb (dir : string) (e : raft_log_entry) : bool :=
  forallb (fun t => (String.length (dir +:+ of_bytes (until_nul (filename t))) <? 256)%nat &&
                    terminated BUFFER_SIZE (buffer t)) (le_data e).

Lemma readableb_ok dir r : entries_all (readableb dir) r = true -> clean (readable dir) r.
Proof.
  intros H i e He. apply (entries_all_ok _ _ H) in He. apply list.Forall_forall. intros t Ht.
  apply (forallb_in _ _ He) in Ht. apply andb_true_iff in Ht as [?%Nat.ltb_lt ?]. done.
Qed.

Definition countable_replica (e : raft_log_entry) : bool :=
  (0 <=? le_n_servers_replicated e) && (le_n_servers_replicated e <? INT_MAX).

Definition sharedb (rl rf : raft_state) (n : Z) : bool :=
  forallb (fun j => bool_decide (key_at rl j = key_at rf j)) (seqZ 0 n).

Lemma sharedb_ok rl rf n :
  start_log_index rl = 0 -> start_log_index rf = 0 -> sharedb rl rf n = true -> shared n rl rf.
Proof.
  intros Hl Hf Hs j Hj. destruct (Z.le_gt_cases 0 j) as [H0|H0]; [|by rewrite !key_at_below].
  assert (j ∈ seqZ 0 n) as Hin by (apply elem_of_seqZ; lia).
  by apply (forallb_in _ _ Hs) in Hin as ?%bool_decide_eq_true.
Qed.

Definition matchingb (rl rf : raft_state) : bool :=
  forallb (fun i => match key_at rl i, key_at rf i with
                    | Some k, Some k' => negb (le_term k =? le_term k') || sharedb rl rf (i + 1)
                    | _, _ => true
                    end) (seqZ 0 (log_count rl)).

Lemma matchingb_ok rl rf :
  start_log_index rl = 0 -> start_log_index rf = 0 -> matchingb rl rf = true -> matching rl rf.
Proof.
  intros Hl Hf Hm i k k' Hi Hi' Ht. assert (i ∈ seqZ 0 (log_count rl)) as Hin.
  { apply elem_of_seqZ. unfold key_at in Hi. destruct (log_at rl i) eqn:E; [|done].
    apply log_at_range in E. lia. }
  apply (forallb_in _ _ Hm) in Hin. rewrite Hi, Hi', Ht, Z.eqb_refl in Hin. by apply sharedb_ok.
Qed.

(** * The servers *)

(** The leader 2 of term 3, fresh from its election: it takes the log of the
    follower to be as long as its own. *)
Definition new_leader : world :=
  {| raft := zero_raft_state <| files_dir := "d2/" |> <| raft_id := 2 |> <| config := demo_config |>
       <| current_term := 3 |> <| voted_for := 2 |> <| state := LEADER |> <| commit_index := 1 |>
       <| raft_log := cell 0 (entry 1 1 "a") (cell 1 (entry 1 2 "b") (cell 2 (entry 3 0 "n") (raft_log zero_raft_state))) |>
       <| log_count := 3 |> <| install_snapshot_id := -1 |> <| install_snapshot_index := -1 |>
       <| next_index ::= <[1%nat := 3]> |>;
     disk := mkFs {["d2/file_0" := mkFile None (to_bytes "ab")]} {["d2/"]}; out := []; spawned := [] |}.

(** The follower 1 has a suffix of term 2 that the leader has not, and one
    entry committed. *)
Definition old_follower : world :=
  (small_world 0 "a") <| raft ::= fun r => r <| current_term := 2 |> <| log_count := 4 |>
    <| raft_log ::= fun l => cell 2 (entry 2 5 "x") (cell 3 (entry 2 6 "y") l) |> |>.

(** Both servers have a directory with a name of three characters. *)
Definition short_dir (dir : string) : Prop := (String.length dir <= 3)%nat.

Lemma new_leader_leading : Replication.leading short_dir (readable "d1/") 3 1 0 3 0 0 new_leader.
Proof.
  split; try done.
  - split; [by apply (bool_decide_unpack _); vm_compute|cbn; set_solver|cbn; lia].
  - by exists 0.
  - by exists 0.
  - intros i e _ He. assert (entries_all countable_replica (raft new_leader) = true) as H by by vm_compute.
    apply (entries_all_ok _ _ H) in He as [?%Z.leb_le ?%Z.ltb_lt]%andb_true_iff. done.
  - vm_compute. lia.
  - apply readableb_ok. by vm_compute.
Qed.

Lemma old_follower_healthy : healthy short_dir (readable "d1/") old_follower.
Proof.
  split; try done.
  - split; [by apply (bool_decide_unpack _); vm_compute|cbn; set_solver|cbn; lia].
  - vm_compute. lia.
  - apply readableb_ok. by vm_compute.
Qed.

Lemma replication_converges_witness : exists wl' wf',
  exchanges 1 (sock 30002) (sock 30001) (entry 0 0 "u") (Build_raft_install_snapshot_request 0 0 0 0 0 0 [] []) 7
    new_leader old_follower = Ok (wl', wf') /\
  key_at (raft wf') 2 = Some (ekey (entry 3 0 "n")) /\ 1 <= commit_index (raft wf').
Proof.
  destruct (replication_converges short_dir (readable "d1/") (fun dir => handle_raft_commit_room "d1/" dir) (entry 0 0 "u")
    (Build_raft_install_snapshot_request 0 0 0 0 0 0 [] []) 1 (sock 30002) (sock 30001)
    new_leader old_follower 3 0 7) as (wl' & wf' & E & _ & Hf & _ & Hc).
  - exact new_leader_leading.
  - exact old_follower_healthy.
  - done.
  - cbn. lia.
  - apply matchingb_ok; [done|done|by vm_compute].
  - split; [cbn; lia|]. apply sharedb_ok; [done|done|by vm_compute].
  - lia.
  - unfold INT_MAX. lia.
  - cbn. lia.
  - exists wl', wf'. split; [exact E|]. split; [apply (Hf 2); cbn; lia|exact Hc].
Defined.
